(* ===== verification/_CoqProject ===== *)
-Q . S2P
Prelude.v
Text.v
Io.v
Sha256.v
Json.v
GoTime.v
GoTimeProofs.v
Duration.v
Config.v
Peers.v
Capability.v
Manifest.v
Codec.v
BlobStore.v
BlobStoreProofs.v
BlobStoreSpec.v
BlobThreads.v
BlobThreadsProofs.v
BlobThreadsSpec.v
Fsm.v
FsmProofs.v
FsmSpec.v
FsmCodec.v
Node.v
Leadership.v
NodeProofs.v
LeadershipProofs.v
Examples.v
LeadershipSpec.v
CommandSpec.v
Membership.v
MembershipProofs.v
MembershipSpec.v
ActivationSpec.v
Publish.v
PublishProofs.v
PublishSpec.v
Reads.v
ReadsSpec.v
Http.v
HttpSpec.v
Wire.v
Runs.v
RunsSpec.v
Lifecycle.v
LifecycleSpec.v
Loops.v
Overlap.v
Changes.v
