(* ===== verification/Prelude.v ===== *)
(** * go-clusterha: a verification development

    ** The program

    go-clusterha embeds a highly available cluster into a Go service.  A node
    ([Node], src/node.go) runs a hashicorp/raft instance whose log drives a
    metadata state machine (src/consensus.go).  The leader of Raft becomes the
    business leader by writing a leadership epoch into the log; metadata writes,
    snapshots, capability gates and membership records are commands fenced by
    that epoch.  The data of the service are snapshots: a manifest
    (src/snapshot.go) in the replicated state names blobs in a content-addressed
    store on every node.  Nodes talk to each other over an internal HTTPS API
    (src/internal_http.go), Raft over TLS (src/transport.go); src/http.go is the
    public status API, src/config.go and src/duration.go the configuration,
    src/capability.go the rolling-upgrade gates.

    ** The files

    Base: Prelude (results, machine integers, notations, tactics), Text (bytes
    and the functions of package strings and strconv), Io (the state-and-error
    monad, files that survive or not, system calls that fail as an [env] says,
    the rules [wp] and [succeeds]), Sha256, Json (values for texts; decoding
    follows encoding/json field by field), GoTime.
    - Duration, Config: duration.go, config.go.
    - Peers: the registry and the certificate checks of transport.go and
      internal_http.go.
    - Capability: capability.go.  Manifest: generations, manifests and their
      validation (snapshot.go, first half).  Codec: round trips of their JSON.
    - BlobStore: the store (snapshot.go, second half), over [Io].  BlobThreads:
      the same calls as programs of goroutines that take turns, one system call
      or mutex operation at a time.
    - Fsm: consensus.go.  [metadataFSM] is the state, [Apply] one log entry,
      [run] a log.
    - Node: the record [Node], its state and its history of calls, and the
      interfaces [Raft] and [Peers] with their laws.
    - Leadership: refreshing the status, checking and verifying business
      leadership, subscriptions, metadata commands, leadership transfer.
    - Membership: joining and removing voters, activating capabilities.
    - Publish: publishing, replicating, fetching and collecting snapshots.
    - Reads: opening datasets, the decision on a local read, the proxy to the
      leader.  Http: the handlers of the internal and public API.  Wire: a peer
      that is a node of the model, with the JSON that travels.
    - Runs: every operation of a running node in any order.
    - Lifecycle: Start, Close and what a process has open.  Loops: the four
      background loops and the pace of the monitor.  Overlap: a collection and a
      refresh taken apart where other goroutines get in between.  Changes: the
      goroutines that contend for [configurationMu].
    A file XProofs holds the lemmas on X, a file XSpec its properties; CommandSpec
    and ActivationSpec are about commands and gates; Examples is a concrete
    cluster on which the witnesses are evaluated.

    Definitions keep the names of the source; fields carry a prefix ([n_cfg] is
    Node.cfg, [ms_Values] MetadataState.Values, [st_Ready] Status.Ready).  A method
    that changes a node is a function of type [nio A], from a node to a result and
    a node; what only reads it is a function of the node.

    ** What is assumed of other code

    hashicorp/raft is [Raft] with [RaftLaws]: a call may let entries be applied,
    leadership change and time pass ([moves]), [Apply] answers what the state
    machine answered for the entry at some index, and indexes are 64 bits wide
    ([small_run], [small_view]), so that revisions do not overflow.  The internal
    API of other nodes is [Peers] with [PeersLaws]: any answer, while the node
    moves.  For a start, [System] and [SystemLaws]: opening succeeds or fails as it
    likes, closing releases, and raft.NewRaft drives the machine it is given only
    by a snapshot and by entries.  A system call of the file system fails when the
    [env] says so; a power failure keeps what was synced.  net/url.Parse is an
    argument.  Each law is shown satisfiable by the instances of Examples and of
    LifecycleSpec.

    ** What is shown

    - The state machine (FsmSpec, FsmCodec): each entry refines the specification
      of its command, errors change nothing, a command takes effect at most once,
      a stale leader is fenced, replicas agree, a fault halts for good and across
      a restart, sequences are consecutive, reachable states are well formed,
      Persist and Restore are inverse.
    - Leadership (LeadershipSpec, CommandSpec): two nodes that pass the check in
      one epoch are one node; what a verification has done; when a node may say it
      is ready; that a metadata write is a compare-and-swap; what subscribers see.
    - Membership (MembershipSpec, ActivationSpec): every change of the Raft
      configuration is justified by the recorded operation, a node is promoted
      only when it has just reported to be caught up, one operation at a time, a
      gate is activated only when every voter can follow it, waiting ends.
    - Snapshots (BlobStoreSpec, PublishSpec): what Put leaves on disk and after a
      power failure, that a committed manifest is held by a majority, what a
      collection keeps and removes, that a round of synchronisation repairs.
    - The store with goroutines (BlobThreadsSpec): by a rely and a guarantee for
      each step, whatever schedule the scheduler picks, reads are intact, an
      acknowledged object stays while no system call fails, every call returns,
      and a call that overlaps with none is that of BlobStore.
    - Two nodes (Wire): the request to prepare a join and the request for the
      status before an activation succeed over HTTP and JSON exactly when the
      other node is the one meant and in the right state.
    - Reads and requests (ReadsSpec, HttpSpec): when a local read or a forwarded
      request is allowed and what it carries, who may call the internal API, what
      an upload stores and how many run at once.
    - The whole node (RunsSpec, LifecycleSpec, Loops): what every run preserves;
      nothing stays open after a failed start or a stop; what a start bootstraps;
      a node with a fault on record starts halted; the loops are runs and can
      return; how long a leadership lasts between two ticks.
    - Configuration changes and publications (Changes): one at a time, also when a
      caller gives up on a change in flight, and nobody is stuck for good.
    Some theorems show defects: a voter may collect a blob it has acknowledged
    ([acked_blob_collected]), payloads that differ beyond float64 precision share a
    digest ([different_payload_accepted]), a present blob is acknowledged without
    being synced ([PutHash_present_not_synced]), a subscriber can miss the current
    leadership ([subscriber_misses_leadership], [subscribe_blocks]) or hear of it
    too late ([late_announcement]), totals and durations wrap
    ([ValidateManifest_wraps], [ParseDuration_seconds]), a node cannot be started
    twice ([restart_panics]), a collection can take the blobs of a publication that
    ends while it runs ([published_blob_collected]), an upload without the hash
    prefix escapes the mutex ([bare_upload_disturbs]), a leadership lapses between
    ticks when verifications last less than 100 ms ([leadership_until_next_tick]),
    and a change in flight holds up callers beyond their deadlines
    ([cancelled_change_blocks]).

    ** Bounds and fuel

    [poll_joining] has fuel: the wait for a joining node ends with its context, and
    [joining_wait_ends] shows that any number of polls above the ticks until the
    deadline gives the same result (301 for the 30 seconds of the HTTP handlers).
    [round_robin] counts rounds of turns; [all_calls_return] shows that some number
    of them is enough.  No other function has fuel.  Integers wrap at the width of the source; lengths
    and staging counts are not bounded by the width of int.

    ** Not modelled

    Operations of one node run one after the other: between two calls into Raft or
    to a peer no other goroutine runs, except for the log entries, leadership and
    time that [moves] allows, the uploads of [upload_step], the calls of one store
    in BlobThreads, the two places of Overlap and the callers of Changes; the other
    mutexes of the node and those of the state machine are not represented.  The order of Go map iteration (the order of [map_to_list] is
    used), the instability of sort.Slice, and which of two ready cases a select
    takes (the context wins).  Error messages beyond their format string, and the
    revision returned next to an error.  Elsewhere than in Wire what a response
    body decodes to is a field of the response; so is the [Member] of a request to
    add a node; nil maps in them, redirects of net/http's mux, Range requests.  The
    TLS handshake, sockets and the timers behind the tickers.  Accessors ([LeaderID], [NodeID],
    [Enabled]), [waitContext], which nothing calls, and the test hook
    setMembershipReconcileGateForTest. *)
From stdpp Require Export base gmap strings list fin_maps pretty sorting.
From stdpp Require Import options.

(** Error values.  A Go [error] is represented by the constant format string
    of the call that builds it; the arguments interpolated into the message are
    not represented.  [Err] therefore tells which [return] of the source was
    taken, which is all the callers look at. *)
Abbreviation error := string (only parsing).

Inductive result (A : Type) : Type :=
| Ok (a : A)
| Err (e : error).
Arguments Ok {A} _.
Arguments Err {A} _.

Definition rbind {A B} (k : A → result B) (m : result A) : result B :=
  match m with Ok a => k a | Err e => Err e end.

Definition is_ok {A} (m : result A) : bool :=
  match m with Ok _ => true | Err _ => false end.

Declare Scope go_scope.
Delimit Scope go_scope with go.
Notation "'let?' x ':=' m 'in' k" := (rbind (fun x => k) m)
  (at level 10, x pattern, m at level 100, k at level 200,
   format "'let?'  x  ':='  m  'in' '//' k") : go_scope.
(** [guard? c else e in k]: Go's [if !c { return e }; k]. *)
Notation "'guard?' c 'else' e 'in' k" := (if c then k else Err e)
  (at level 10, c at level 100, e at level 100, k at level 200,
   format "'guard?'  c  'else'  e  'in' '//' k") : go_scope.

(** ** Machine integers *)

(** Unsigned 64-bit values are [N] below [u64_bound]; [u64_succ] is Go's [x++]
    on a [uint64]. *)
Definition u64_bound : N := 2 ^ 64.
Definition u32_bound : N := 2 ^ 32.
Definition u64_max : N := u64_bound - 1.
Definition u64_succ (x : N) : N := (x + 1) `mod` u64_bound.

(** Two's-complement reading of an [int64] result. *)
Definition i64_min : Z := - 2 ^ 63.
Definition i64_max : Z := 2 ^ 63 - 1.
Definition i64_wrap (x : Z) : Z := (x + 2 ^ 63) `mod` 2 ^ 64 - 2 ^ 63.
Definition i64_in_range (x : Z) : Prop := (i64_min ≤ x ≤ i64_max)%Z.

(** ** Booleans and lists *)

(** Go's [==] on strings. *)
Definition str_eqb (a b : string) : bool := bool_decide (a = b).

(** [List.fold_left] under a result monad: a Go loop that returns on error. *)
Fixpoint rfold {A B} (f : A → B → result A) (a : A) (l : list B) : result A :=
  match l with
  | [] => Ok a
  | x :: l' => rbind (fun a' => rfold f a' l') (f a x)
  end.

(** A Go loop whose body either returns an error or continues. *)
Fixpoint rall {B} (f : B → result unit) (l : list B) : result unit :=
  match l with
  | [] => Ok tt
  | x :: l' => rbind (fun _ => rall f l') (f x)
  end.

(** A Go map that distinguishes [nil] from the empty map; reads on a nil map
    behave as on the empty one. *)
Definition gomap (V : Type) : Type := option (gmap string V).
Definition gm_entries {V} (m : gomap V) : gmap string V := default ∅ m.

(** ** Automation *)

Create HintDb clusterha.
Create Rewrite HintDb clusterha_rw.

(** Split every conjunction of booleans and reflect decisions in hypotheses
    and the goal. *)
Ltac bool_simpl :=
  repeat match goal with
  | H : (_ && _)%bool = true |- _ => apply andb_true_iff in H as [? ?]
  | H : (_ || _)%bool = false |- _ => apply orb_false_iff in H as [? ?]
  | H : negb _ = true |- _ => apply negb_true_iff in H
  | H : negb _ = false |- _ => apply negb_false_iff in H
  | H : bool_decide _ = true |- _ => apply bool_decide_eq_true in H
  | H : bool_decide _ = false |- _ => apply bool_decide_eq_false in H
  | H : str_eqb _ _ = true |- _ => apply bool_decide_eq_true in H
  | H : str_eqb _ _ = false |- _ => apply bool_decide_eq_false in H
  | H : (_ =? _)%N = true |- _ => apply N.eqb_eq in H
  | H : (_ =? _)%N = false |- _ => apply N.eqb_neq in H
  | H : (_ <=? _)%N = true |- _ => apply N.leb_le in H
  | H : (_ <=? _)%N = false |- _ => apply N.leb_gt in H
  | H : (_ <? _)%N = true |- _ => apply N.ltb_lt in H
  | H : (_ <? _)%N = false |- _ => apply N.ltb_ge in H
  | H : (_ =? _)%Z = true |- _ => apply Z.eqb_eq in H
  | H : (_ =? _)%Z = false |- _ => apply Z.eqb_neq in H
  | H : (_ <=? _)%Z = true |- _ => apply Z.leb_le in H
  | H : (_ <=? _)%Z = false |- _ => apply Z.leb_gt in H
  | H : (_ <? _)%Z = true |- _ => apply Z.ltb_lt in H
  | H : (_ <? _)%Z = false |- _ => apply Z.ltb_ge in H
  end.

(** Case analysis on the guard that decides the head of the goal or of a
    hypothesis, recording the outcome. *)
Ltac split_if :=
  match goal with
  | H : context [if ?b then _ else _] |- _ =>
      lazymatch b with context [if _ then _ else _] => fail | _ => destruct b eqn:? end
  | |- context [if ?b then _ else _] =>
      lazymatch b with context [if _ then _ else _] => fail | _ => destruct b eqn:? end
  end.

Ltac split_guards := repeat (split_if; simplify_eq/=); bool_simpl.

(** ** Shared lemmas *)

Lemma str_eqb_eq a b : str_eqb a b = true ↔ a = b.
Proof. apply bool_decide_eq_true. Qed.

Lemma str_eqb_refl a : str_eqb a a = true.
Proof. by apply str_eqb_eq. Qed.

Lemma str_eqb_neq a b : a ≠ b → str_eqb a b = false.
Proof. intros. by apply bool_decide_eq_false. Qed.

#[export] Hint Rewrite str_eqb_refl : clusterha_rw.
#[export] Hint Resolve str_eqb_refl str_eqb_neq : clusterha.

Lemma rbind_Ok {A B} (m : result A) (k : A → result B) b :
  rbind k m = Ok b ↔ ∃ a, m = Ok a ∧ k a = Ok b.
Proof. destruct m as [a|e]; simpl; naive_solver. Qed.

Lemma rall_Ok {B} (f : B → result unit) l :
  rall f l = Ok tt ↔ ∀ x, x ∈ l → f x = Ok tt.
Proof.
  induction l as [|x l IH]; simpl.
  - split; [intros _ ? Hx; by apply not_elem_of_nil in Hx | done].
  - rewrite rbind_Ok. setoid_rewrite elem_of_cons. split.
    + intros ([] & Hx & Hl) y [->|Hy]; [done|]. by apply IH.
    + intros H. exists tt. split; [by apply H; left|]. apply IH. eauto.
Qed.

(** Whether a loop over a map accepts does not depend on the iteration order. *)
Lemma rall_perm {B} (f : B → result unit) l1 l2 :
  l1 ≡ₚ l2 → rall f l1 = Ok tt ↔ rall f l2 = Ok tt.
Proof. intros Hp. rewrite !rall_Ok. by setoid_rewrite Hp. Qed.

Lemma rall_map {V} (f : string * V → result unit) (m : gmap string V) :
  rall f (map_to_list m) = Ok tt ↔ ∀ k v, m !! k = Some v → f (k, v) = Ok tt.
Proof.
  rewrite rall_Ok. split.
  - intros H k v Hk. apply H. by apply elem_of_map_to_list.
  - intros H [k v] Hkv. apply H. by apply elem_of_map_to_list in Hkv.
Qed.

Lemma forallb_map {V} (f : string * V → bool) (m : gmap string V) :
  forallb f (map_to_list m) = true ↔ ∀ k v, m !! k = Some v → f (k, v) = true.
Proof.
  rewrite forallb_forall. split.
  - intros H k v Hk. apply H. by apply list_elem_of_In, elem_of_map_to_list.
  - intros H [k v] Hkv. apply H. by apply list_elem_of_In, elem_of_map_to_list in Hkv.
Qed.

Lemma existsb_map {V} (f : string * V → bool) (m : gmap string V) :
  existsb f (map_to_list m) = true ↔ ∃ k v, m !! k = Some v ∧ f (k, v) = true.
Proof.
  rewrite existsb_exists. split.
  - intros ([k v] & Hkv & H). exists k, v. split; [|done].
    by apply elem_of_map_to_list, list_elem_of_In.
  - intros (k & v & Hk & H). exists (k, v). split; [|done].
    by apply list_elem_of_In, elem_of_map_to_list.
Qed.

Lemma u64_succ_small x : (x < u64_max)%N → u64_succ x = (x + 1)%N.
Proof. unfold u64_succ, u64_max. intros. apply N.mod_small. unfold u64_bound in *. lia. Qed.

Lemma u64_succ_bound x : (u64_succ x < u64_bound)%N.
Proof. unfold u64_succ. apply N.mod_upper_bound. done. Qed.

Lemma i64_wrap_range x : i64_in_range (i64_wrap x).
Proof.
  unfold i64_in_range, i64_wrap, i64_min, i64_max.
  pose proof (Z.mod_pos_bound (x + 2 ^ 63) (2 ^ 64) eq_refl). lia.
Qed.

Lemma i64_wrap_id x : i64_in_range x → i64_wrap x = x.
Proof.
  unfold i64_in_range, i64_wrap, i64_min, i64_max. intros.
  rewrite Z.mod_small by lia. lia.
Qed.

Lemma i64_wrap_mod x : (i64_wrap x `mod` 2 ^ 64 = x `mod` 2 ^ 64)%Z.
Proof.
  unfold i64_wrap. rewrite Zminus_mod_idemp_l. f_equal. lia.
Qed.
