(* ===== verification/Text.v ===== *)
(** * Text: what the program uses of Go's strings, strconv, unicode/utf8 and
    encoding/hex

    Strings are byte strings.  Every function here is executable and stands for
    the standard-library function named beside it, on the arguments the program
    passes to it. *)
From S2P Require Import Prelude.
From stdpp Require Import options.
From Stdlib Require Import Ascii.

(** [strings.HasPrefix], [strings.TrimPrefix]. *)
Fixpoint has_prefix (p s : string) : bool :=
  match p, s with
  | EmptyString, _ => true
  | String a p', String b s' => bool_decide (a = b) && has_prefix p' s'
  | _, _ => false
  end.

Fixpoint drop_chars (n : nat) (s : string) : string :=
  match n, s with
  | S n', String _ s' => drop_chars n' s'
  | _, _ => s
  end.

Definition trim_prefix (p s : string) : string :=
  if has_prefix p s then drop_chars (String.length p) s else s.

(** The part of [s] before the first [c] and the part after it. *)
Fixpoint cut (c : ascii) (s : string) : option (string * string) :=
  match s with
  | EmptyString => None
  | String a s' =>
      if bool_decide (a = c) then Some (EmptyString, s')
      else match cut c s' with
           | Some (l, r) => Some (String a l, r)
           | None => None
           end
  end.

(** [strings.SplitN(s, c, n)] for a one-byte separator and [n > 0]. *)
Fixpoint split_n (c : ascii) (n : nat) (s : string) : list string :=
  match n with
  | 0 => []
  | 1 => [s]
  | S n' => match cut c s with
            | Some (l, r) => l :: split_n c n' r
            | None => [s]
            end
  end.

(** The string contains the byte [c]. *)
Fixpoint has_char (c : ascii) (s : string) : bool :=
  match s with
  | EmptyString => false
  | String a s' => bool_decide (a = c) || has_char c s'
  end.

(** Value of a decimal digit. *)
Definition digit_value (c : ascii) : option N :=
  let n := N_of_ascii c in
  if ((48 <=? n) && (n <=? 57))%N then Some (n - 48)%N else None.

(** The digits of [s], most significant first, folded into [acc]. *)
Fixpoint parse_digits (acc : N) (s : string) : option N :=
  match s with
  | EmptyString => Some acc
  | String c s' => match digit_value c with
                   | Some d => parse_digits (10 * acc + d)%N s'
                   | None => None
                   end
  end.

(** [strconv.ParseUint(s, 10, bits)], with [bound = 2^bits]. *)
Definition ParseUint (bound : N) (s : string) : option N :=
  match s with
  | EmptyString => None
  | _ => match parse_digits 0 s with
         | Some n => if (n <? bound)%N then Some n else None
         | None => None
         end
  end.

(** [strconv.FormatUint(n, 10)]: stdpp's [pretty] prints the digits without
    leading zeros. *)
Definition FormatUint (n : N) : string := pretty n.

(** [strconv.ParseInt(s, 10, 64)]: an optional sign and digits. *)
Definition ParseInt64 (s : string) : option Z :=
  let in64 (z : Z) := if ((i64_min <=? z) && (z <=? i64_max))%Z then Some z else None in
  match s with
  | String "-" s' => match s' with
                     | EmptyString => None
                     | _ => match parse_digits 0 s' with Some n => in64 (- Z.of_N n)%Z | None => None end
                     end
  | String "+" s' => match s' with
                     | EmptyString => None
                     | _ => match parse_digits 0 s' with Some n => in64 (Z.of_N n) | None => None end
                     end
  | EmptyString => None
  | _ => match parse_digits 0 s with Some n => in64 (Z.of_N n) | None => None end
  end.

Definition FormatInt (z : Z) : string :=
  if (z <? 0)%Z then "-" +:+ pretty (Z.to_N (- z)) else pretty (Z.to_N z).

(** ** Bytes and hexadecimal *)

Fixpoint bytes_of (s : string) : list N :=
  match s with
  | EmptyString => []
  | String c s' => N_of_ascii c :: bytes_of s'
  end.

Fixpoint string_of (l : list N) : string :=
  match l with
  | [] => EmptyString
  | n :: l' => String (ascii_of_N n) (string_of l')
  end.

(** The first [n] bytes of [s], Go's [s[:n]]. *)
Definition take_chars (n : nat) (s : string) : string := string_of (take n (bytes_of s)).

Definition hex_char (n : N) : ascii :=
  if (n <? 10)%N then ascii_of_N (48 + n) else ascii_of_N (87 + n).

(** [hex.EncodeToString]. *)
Fixpoint hex_encode (l : list N) : string :=
  match l with
  | [] => EmptyString
  | b :: l' => String (hex_char (b / 16)) (String (hex_char (b mod 16)) (hex_encode l'))
  end.

(** Digits accepted by [hex.DecodeString]: both cases. *)
Definition is_hex (c : ascii) : bool :=
  let n := N_of_ascii c in
  ((48 <=? n) && (n <=? 57) || (97 <=? n) && (n <=? 102) || (65 <=? n) && (n <=? 70))%N.

Fixpoint all_hex (s : string) : bool :=
  match s with
  | EmptyString => true
  | String c s' => is_hex c && all_hex s'
  end.

(** ** UTF-8 *)

(** [utf8.DecodeRuneInString] on the bytes of a non-empty string: the rune and
    its width, or [None] for an invalid encoding (Go then answers
    [RuneError] of width 1). *)
Definition decode_rune (b : list N) : option (N * nat) :=
  let cont (x : N) := ((128 <=? x) && (x <=? 191))%N in
  match b with
  | [] => None
  | b0 :: r =>
      if (b0 <? 128)%N then Some (b0, 1)
      else if (b0 <? 194)%N then None
      else match r with
      | [] => None
      | b1 :: r1 =>
          if (b0 <? 224)%N then
            if cont b1 then Some (((b0 - 192) * 64 + (b1 - 128))%N, 2) else None
          else match r1 with
          | [] => None
          | b2 :: r2 =>
              if (b0 <? 240)%N then
                let lo := if (b0 =? 224)%N then 160%N else 128%N in
                let hi := if (b0 =? 237)%N then 159%N else 191%N in
                if ((lo <=? b1) && (b1 <=? hi) && cont b2)%N
                then Some (((b0 - 224) * 4096 + (b1 - 128) * 64 + (b2 - 128))%N, 3) else None
              else match r2 with
              | [] => None
              | b3 :: _ =>
                  if (b0 <? 245)%N then
                    let lo := if (b0 =? 240)%N then 144%N else 128%N in
                    let hi := if (b0 =? 244)%N then 143%N else 191%N in
                    if ((lo <=? b1) && (b1 <=? hi) && cont b2 && cont b3)%N
                    then Some (((b0 - 240) * 262144 + (b1 - 128) * 4096
                                + (b2 - 128) * 64 + (b3 - 128))%N, 4) else None
                  else None
              end
          end
      end
  end.

(** The runes of a byte string in order: [Some r] with the bytes that encode
    it, or [None] with the one invalid byte. *)
Fixpoint runes_fuel (fuel : nat) (b : list N) : list (option N * list N) :=
  match fuel, b with
  | S f, _ :: _ =>
      match decode_rune b with
      | Some (r, w) => (Some r, take w b) :: runes_fuel f (drop w b)
      | None => (None, take 1 b) :: runes_fuel f (drop 1 b)
      end
  | _, _ => []
  end.

Definition runes (b : list N) : list (option N * list N) := runes_fuel (length b) b.

(** Encoding of U+FFFD, which replaces an invalid byte. *)
Definition rune_error_bytes : list N := [239; 191; 189]%N.

(** The byte string with every invalid byte replaced by U+FFFD: what a string
    becomes when encoding/json writes it and reads it back. *)
Definition utf8_fix (s : string) : string :=
  string_of (concat (map (λ p : option N * list N,
    match p.1 with Some _ => p.2 | None => rune_error_bytes end) (runes (bytes_of s)))).

(** [unicode.IsSpace]. *)
Definition is_space (r : N) : bool :=
  ((9 <=? r) && (r <=? 13) || (r =? 32) || (r =? 133) || (r =? 160) || (r =? 5760)
   || (8192 <=? r) && (r <=? 8202) || (r =? 8232) || (r =? 8233) || (r =? 8239)
   || (r =? 8287) || (r =? 12288))%N.

Definition space_chunk (p : option N * list N) : bool :=
  match p.1 with Some r => is_space r | None => false end.

Fixpoint drop_while {A} (f : A → bool) (l : list A) : list A :=
  match l with
  | [] => []
  | x :: l' => if f x then drop_while f l' else l
  end.

(** [strings.TrimSpace]. *)
Definition TrimSpace (s : string) : string :=
  let rs := drop_while space_chunk (runes (bytes_of s)) in
  string_of (concat (map snd (rev (drop_while space_chunk (rev rs))))).

(** [strings.TrimRight(s, c)] for a one-byte cutset. *)
Definition TrimRightChar (c : ascii) (s : string) : string :=
  string_of (rev (drop_while (λ b, (b =? N_of_ascii c)%N) (rev (bytes_of s)))).

(** ** Lemmas *)

Lemma digit_value_pretty x :
  (x < 10)%N → digit_value (pretty_N_char x) = Some x.
Proof.
  intros Hx.
  assert (x = 0 ∨ x = 1 ∨ x = 2 ∨ x = 3 ∨ x = 4 ∨ x = 5 ∨ x = 6 ∨ x = 7 ∨ x = 8 ∨ x = 9)%N
    as Hc by lia.
  by destruct_or! Hc; subst.
Qed.

Lemma parse_digits_pretty_go x s acc :
  parse_digits acc (pretty_N_go x s) =
  match parse_digits acc (pretty_N_go x "") with
  | Some n => parse_digits n s
  | None => None
  end.
Proof.
  revert s acc. induction (N.lt_wf_0 x) as [x _ IH]; intros s acc.
  destruct (decide (x = 0)%N) as [->|]; [by rewrite !pretty_N_go_0|].
  rewrite !(pretty_N_go_step x) by lia.
  assert (x `div` 10 < x)%N as Hlt by (apply N.div_lt; lia).
  rewrite (IH _ Hlt (String _ s)), (IH _ Hlt (String _ "")).
  destruct (parse_digits acc _); [|done]. simpl.
  by destruct (digit_value _).
Qed.

Lemma parse_digits_go x :
  (0 < x)%N → parse_digits 0 (pretty_N_go x "") = Some x.
Proof.
  induction (N.lt_wf_0 x) as [x _ IH]; intros Hx.
  rewrite pretty_N_go_step by lia.
  rewrite parse_digits_pretty_go.
  assert (x `mod` 10 < 10)%N as Hm by (apply N.mod_lt; lia).
  destruct (decide (x `div` 10 = 0)%N) as [Hz|Hz].
  - rewrite Hz, pretty_N_go_0. cbn [parse_digits].
    rewrite digit_value_pretty by done.
    f_equal. pose proof (N.div_mod x 10 ltac:(done)). lia.
  - rewrite IH; [|apply N.div_lt; lia|by apply N.neq_0_lt_0]. cbn [parse_digits].
    rewrite digit_value_pretty by done. f_equal.
    pose proof (N.div_mod x 10 ltac:(done)). lia.
Qed.

Lemma parse_digits_pretty (n : N) : parse_digits 0 (pretty n) = Some n.
Proof.
  unfold pretty, pretty_N. case_decide; [by subst|].
  apply parse_digits_go. lia.
Qed.

Lemma pretty_nonempty (n : N) : pretty n ≠ "".
Proof.
  intros H. pose proof (parse_digits_pretty n) as Hp. rewrite H in Hp.
  simpl in Hp. injection Hp as <-. discriminate H.
Qed.

(** Printing then parsing an unsigned value gives it back. *)
Lemma ParseUint_FormatUint bound n :
  (n < bound)%N → ParseUint bound (FormatUint n) = Some n.
Proof.
  intros Hn. unfold ParseUint, FormatUint.
  destruct (pretty n) eqn:E; [by apply pretty_nonempty in E|].
  rewrite <- E, parse_digits_pretty.
  apply N.ltb_lt in Hn. by rewrite Hn.
Qed.

(** A printed number starts with a digit, so with no sign. *)
Lemma pretty_no_sign (n : N) c s : pretty n = String c s → digit_value c ≠ None.
Proof.
  intros H Hc. pose proof (parse_digits_pretty n) as Hp. rewrite H in Hp. simpl in Hp. by rewrite Hc in Hp.
Qed.

Lemma ParseInt64_FormatInt z : i64_in_range z → ParseInt64 (FormatInt z) = Some z.
Proof.
  unfold i64_in_range. intros [Hl Hu]. unfold FormatInt. destruct (z <? 0)%Z eqn:Hz; bool_simpl.
  - change ("-" +:+ pretty (Z.to_N (- z))) with (String "-" (pretty (Z.to_N (- z)))). simpl.
    destruct (pretty (Z.to_N (- z))) eqn:Hp; [by apply pretty_nonempty in Hp|].
    rewrite <- Hp, parse_digits_pretty. rewrite Z2N.id by lia.
    replace (- - z)%Z with z by lia.
    by rewrite (proj2 (Z.leb_le _ _) Hl), (proj2 (Z.leb_le _ _) Hu).
  - destruct (pretty (Z.to_N z)) as [|c s] eqn:Hp; [by apply pretty_nonempty in Hp|].
    pose proof (pretty_no_sign _ _ _ Hp) as Hc.
    assert (ParseInt64 (String c s) =
      match parse_digits 0 (String c s) with
      | Some n => if ((i64_min <=? Z.of_N n) && (Z.of_N n <=? i64_max))%Z then Some (Z.of_N n) else None
      | None => None
      end) as ->.
    { unfold ParseInt64. destruct c as [[] [] [] [] [] [] [] []]; try reflexivity; by destruct Hc. }
    rewrite <- Hp, parse_digits_pretty, Z2N.id by lia.
    by rewrite (proj2 (Z.leb_le _ _) Hl), (proj2 (Z.leb_le _ _) Hu).
Qed.

Lemma ParseUint_bound bound s n : ParseUint bound s = Some n → (n < bound)%N.
Proof.
  unfold ParseUint. destruct s; [done|].
  destruct (parse_digits 0 _); [|done]. intros. by split_guards.
Qed.

Lemma has_char_app c s1 s2 :
  has_char c (s1 +:+ s2) = has_char c s1 || has_char c s2.
Proof. induction s1 as [|a s1 IH]; simpl; [done|]. by rewrite IH, orb_assoc. Qed.

Lemma pretty_N_char_digit x : ∃ d, digit_value (pretty_N_char x) = Some d.
Proof. unfold pretty_N_char. repeat case_match; eexists; done. Qed.

Lemma has_char_pretty_go c x s :
  digit_value c = None → has_char c s = false → has_char c (pretty_N_go x s) = false.
Proof.
  intros Hc. revert s. induction (N.lt_wf_0 x) as [x _ IH]; intros s Hs.
  destruct (decide (x = 0)%N) as [->|]; [by rewrite pretty_N_go_0|].
  rewrite pretty_N_go_step by lia. apply IH; [apply N.div_lt; lia|].
  simpl. rewrite Hs, orb_false_r. apply bool_decide_eq_false. intros Heq.
  destruct (pretty_N_char_digit (x `mod` 10)) as [d Hd]. congruence.
Qed.

Lemma has_char_FormatUint c n : digit_value c = None → has_char c (FormatUint n) = false.
Proof.
  intros Hc. unfold FormatUint, pretty, pretty_N. case_decide.
  - simpl. rewrite orb_false_r. apply bool_decide_eq_false. intros <-. done.
  - by apply has_char_pretty_go.
Qed.

(** Cutting at the first separator of a string built around it. *)
Lemma cut_app c l r : has_char c l = false → cut c (l +:+ String c r) = Some (l, r).
Proof.
  induction l as [|a l IH]; simpl.
  - intros _. by rewrite bool_decide_eq_true_2.
  - intros H. apply orb_false_iff in H as [Ha Hl].
    rewrite Ha, IH by done. done.
Qed.

Lemma cut_Some c s l r : cut c s = Some (l, r) → s = l +:+ String c r ∧ has_char c l = false.
Proof.
  revert l r. induction s as [|a s IH]; intros l r; simpl; [done|].
  destruct (bool_decide (a = c)) eqn:E.
  - intros [= <- <-]. apply bool_decide_eq_true in E as ->. done.
  - destruct (cut c s) as [[l' r']|]; [|done]. intros [= <- <-].
    destruct (IH l' r' eq_refl) as [-> Hl]. simpl. by rewrite E.
Qed.

Lemma cut_None c s : cut c s = None ↔ has_char c s = false.
Proof.
  induction s as [|a s IH]; simpl; [done|].
  destruct (bool_decide (a = c)); simpl; [done|].
  rewrite <- IH. by destruct (cut c s) as [[]|].
Qed.

Lemma has_prefix_app p s : has_prefix p (p +:+ s) = true.
Proof. induction p as [|a p IH]; simpl; [done|]. by rewrite bool_decide_eq_true_2, IH. Qed.

Lemma drop_chars_app p s : drop_chars (String.length p) (p +:+ s) = s.
Proof. by induction p. Qed.

Lemma trim_prefix_app p s : trim_prefix p (p +:+ s) = s.
Proof. unfold trim_prefix. by rewrite has_prefix_app, drop_chars_app. Qed.

Lemma has_prefix_Some p s : has_prefix p s = true → ∃ r, s = p +:+ r.
Proof.
  revert s. induction p as [|a p IH]; intros s; simpl; [eauto|].
  destruct s as [|b s]; [done|]. intros H. bool_simpl. subst.
  destruct (IH s) as [r ->]; [done|]. by exists r.
Qed.

Lemma has_prefix_app_same a b c : has_prefix (a +:+ b) (a +:+ c) = has_prefix b c.
Proof. induction a as [|x a IH]; simpl; [done|]. by rewrite bool_decide_eq_true_2. Qed.

Lemma append_assoc_str (a b c : string) : (a +:+ b) +:+ c = a +:+ b +:+ c.
Proof.
  induction a as [|x a IH]; [done|].
  change (String x ((a +:+ b) +:+ c) = String x (a +:+ b +:+ c)). by rewrite IH.
Qed.

Lemma append_inj_l (a b c : string) : a +:+ b = a +:+ c → b = c.
Proof. induction a as [|x a IH]; [done|]. intros H. injection H as H. auto. Qed.

Lemma append_nil_r_str (a : string) : a +:+ "" = a.
Proof. induction a as [|x a IH]; [done|]. change (String x (a +:+ "") = String x a). by rewrite IH. Qed.

Lemma take_drop_chars n s : take_chars n s +:+ drop_chars n s = s.
Proof.
  unfold take_chars. revert s. induction n as [|n IH]; intros [|c s]; simpl; try done.
  rewrite ascii_N_embedding.
  change (String c (string_of (take n (bytes_of s)) +:+ drop_chars n s) = String c s).
  by rewrite IH.
Qed.

Lemma append_inj_length (a b c d : string) :
  String.length a = String.length c → a +:+ b = c +:+ d → a = c ∧ b = d.
Proof.
  revert c. induction a as [|x a IH]; intros [|y c] Hl H; simpl in *; try done.
  injection H as -> H. injection Hl as Hl. by destruct (IH c Hl H) as [-> ->].
Qed.

(** The hexadecimal text of a digest. *)
Lemma hex_encode_length l : String.length (hex_encode l) = 2 * length l.
Proof. induction l as [|b l IH]; simpl; [done|]. rewrite IH. lia. Qed.

Lemma hex_char_is_hex n : (n < 16)%N → is_hex (hex_char n) = true.
Proof.
  intros Hn. unfold is_hex, hex_char.
  destruct (N.ltb_spec n 10); rewrite N_ascii_embedding by lia.
  - apply orb_true_intro. left. apply orb_true_intro. left.
    apply andb_true_iff. split; apply N.leb_le; lia.
  - apply orb_true_intro. left. apply orb_true_intro. right.
    apply andb_true_iff. split; apply N.leb_le; lia.
Qed.

Lemma hex_encode_all_hex l : Forall (λ b, b < 256)%N l → all_hex (hex_encode l) = true.
Proof.
  induction 1 as [|b l Hb _ IH]; simpl; [done|].
  rewrite !hex_char_is_hex, IH; [done|..].
  - apply N.mod_upper_bound. done.
  - apply N.Div0.div_lt_upper_bound. lia.
Qed.

#[export] Hint Rewrite has_prefix_app trim_prefix_app : clusterha_rw.
#[export] Hint Resolve ParseUint_FormatUint has_char_FormatUint hex_encode_all_hex : clusterha.
