(* ===== verification/Io.v ===== *)
(** * Io: files and failing system calls

    The file system is two maps from paths to contents: what the running
    process sees ([w_vol]) and what survives a power failure ([w_dur]).  Writing
    a file changes only the first; [File.Sync] marks the data of a file as
    stable; fsync of a directory makes its entries survive, files and
    directories.  A directory that was made survives only when its own parent is
    synced afterwards ([w_dirs]), and a file is found after a crash only if every
    directory above it survived ([survives]).  Every system call
    may fail: [io_fault] says which ones do, and the theorems hold for every
    choice of faults.  [wp] is the calculus for reasoning about
    such code, and [succeeds] the one for runs without faults. *)
From S2P Require Import Prelude Text.
From stdpp Require Import stringmap options.
From Stdlib Require Import Ascii.

(** What a file holds: the bytes as a string, or, for a file only read back as
    JSON, what the bytes parse to.  [empty_content] is an empty file. *)
Class Content (C : Type) := empty_content : C.
#[export] Instance string_content : Content string := "".

Record file (C : Type) := mkFile { f_data : C; f_synced : bool }.
Arguments mkFile {C} _ _.
Arguments f_data {C} _.
Arguments f_synced {C} _.

Record world (C : Type) := mkWorld {
  w_vol : gmap string (file C);
  w_dur : gmap string C;
  w_dirs : gmap string bool;  (** the directories, and whether their own entries survive *)
  w_ticks : nat;  (** system calls made so far *)
}.
Arguments mkWorld {C} _ _ _ _.
Arguments w_vol {C} _.
Arguments w_dur {C} _.
Arguments w_dirs {C} _.
Arguments w_ticks {C} _.

(** The environment: which system calls fail, and the nanosecond clock. *)
Record env := mkEnv {
  io_fault : nat → option error;
  io_nanos : nat → N;
}.

(** Code that reads and changes a state and may return an error. *)
Definition st (S A : Type) : Type := S → result A * S.
Definition io (C A : Type) : Type := st (world C) A.

Definition io_ret {S A} (a : A) : st S A := λ w, (Ok a, w).
Definition io_err {S A} (e : error) : st S A := λ w, (Err e, w).
Definition io_bind {S A B} (m : st S A) (k : A → st S B) : st S B := λ w,
  match m w with
  | (Ok a, w') => k a w'
  | (Err e, w') => (Err e, w')
  end.
(** [if err := m; err == nil { … } else { … }]: the outcome as a value. *)
Definition io_try {S A} (m : st S A) : st S (result A) := λ w,
  match m w with (r, w') => (Ok r, w') end.
Definition io_of {S A} (r : result A) : st S A := λ w, (r, w).

Declare Scope io_scope.
Delimit Scope io_scope with io.
Notation "'do!' x ':=' m 'in' k" := (io_bind m (fun x => k))
  (at level 10, x name, m at level 100, k at level 200,
   format "'do!'  x  ':='  m  'in' '//' k") : io_scope.
Notation "'run!' m 'in' k" := (io_bind m (fun _ => k))
  (at level 10, m at level 100, k at level 200,
   format "'run!'  m  'in' '//' k") : io_scope.
#[export] Hint Mode Content ! : typeclass_instances.
#[local] Open Scope io_scope.

(** [os.IsNotExist]. *)
Definition err_not_exist : error := "file does not exist".
Definition IsNotExist (e : error) : bool := str_eqb e err_not_exist.

(** [filepath.Dir], with the empty string as the root of the file system, and
    [filepath.Join]. *)
Fixpoint dir_part (p : string) : string :=
  match p with
  | EmptyString => ""
  | String c p' => if has_char "/" p' then String c (dir_part p') else ""
  end.
Definition dir_of (p : string) : string := if has_char "/" p then dir_part p else ".".
Definition filepath_Join (a b : string) : string := a +:+ "/" +:+ b.

(** The directories above a path, the root of the file system aside. *)
Fixpoint parents_from (seen p : string) : list string :=
  match p with
  | EmptyString => []
  | String c p' =>
      let more := parents_from (seen +:+ String c "") p' in
      if bool_decide (c = "/"%char ∧ seen ≠ "") then seen :: more else more
  end.
Definition parents (p : string) : list string := parents_from "" p.

(** The file is there after a power failure, with this content. *)
Definition survives {C} (w : world C) (path : string) (data : C) : Prop :=
  w_dur w !! path = Some data ∧ ∀ d, d ∈ parents path → w_dirs w !! d = Some true.

Section calls.
Context {C : Type} `{HC : Content C} (E : env).

(** One system call: it counts, and either fails or acts. *)
Definition sys {A} (act : io C A) : io C A := λ w,
  let w' := mkWorld (w_vol w) (w_dur w) (w_dirs w) (S (w_ticks w)) in
  match io_fault E (w_ticks w) with
  | Some e => (Err e, w')
  | None => act w'
  end.

Definition set_vol (f : gmap string (file C) → gmap string (file C)) (w : world C) : world C :=
  mkWorld (f (w_vol w)) (w_dur w) (w_dirs w) (w_ticks w).

(** [os.MkdirAll]: the directories that are missing are made, and none synced. *)
Definition os_MkdirAll (dir : string) : io C unit := sys (λ w,
  let made := gset_to_gmap false (list_to_set (parents dir ++ [dir])) in
  (Ok tt, mkWorld (w_vol w) (w_dur w) (w_dirs w ∪ made) (w_ticks w))).

(** [os.CreateTemp]: a new empty file whose name, which starts with the part of
    the pattern before the star, was not in use. *)
Definition os_CreateTemp (dir pattern : string) : io C string := sys (λ w,
  let name := fresh_string (filepath_Join dir pattern) (w_vol w) in
  (Ok name, set_vol (<[ name := mkFile empty_content false ]>) w)).

Definition os_Remove (path : string) : io C unit := sys (λ w,
  match w_vol w !! path with
  | Some _ => (Ok tt, set_vol (delete path) w)
  | None => (Err err_not_exist, w)
  end).

(** Writing data to an open file, from a source that may end with an error. *)
Definition file_Write (path : string) (data : C) (source_err : option error) : io C unit := sys (λ w,
  let w := set_vol (<[ path := mkFile data false ]>) w in
  match source_err with Some e => (Err e, w) | None => (Ok tt, w) end).

Definition file_Sync (path : string) : io C unit := sys (λ w,
  (Ok tt, set_vol (alter (λ f, mkFile (f_data f) true) path) w)).

Definition file_Close (path : string) : io C unit := sys (io_ret tt).

Definition os_Rename (from to : string) : io C unit := sys (λ w,
  match w_vol w !! from with
  | Some f => (Ok tt, set_vol (λ v, <[ to := f ]> (delete from v)) w)
  | None => (Err err_not_exist, w)
  end).

(** [syncDir]: the entries of the directory, files and directories, become those
    a crash leaves; data that was never synced is lost (read back as empty). *)
Definition syncDir (dir : string) : io C unit := sys (λ w,
  let in_dir (p : string) : Prop := dir_of p = dir in
  let live := (λ f, if f_synced f then f_data f else empty_content)
                <$> filter (λ kv, in_dir kv.1) (w_vol w) in
  (Ok tt, mkWorld (w_vol w) (live ∪ filter (λ kv, ¬ in_dir kv.1) (w_dur w))
             (map_imap (λ d kept, Some (kept || bool_decide (in_dir d))) (w_dirs w)) (w_ticks w))).

(** [os.Open] followed by reading the file to its end. *)
Definition read_file (path : string) : io C C := sys (λ w,
  match w_vol w !! path with
  | Some f => (Ok (f_data f), w)
  | None => (Err err_not_exist, w)
  end).

(** [fileExists]: [os.Stat] without error. *)
Definition fileExists (path : string) : io C bool := λ w,
  match sys (λ w, match w_vol w !! path with
                  | Some _ => (Ok tt, w)
                  | None => (Err err_not_exist, w)
                  end) w with
  | (r, w') => (Ok (is_ok r), w')
  end.

End calls.

(** ** Reasoning about I/O *)

Lemma fresh_string_prefix {A} (m : gmap string A) s : ∃ t, fresh_string s m = s +:+ t.
Proof.
  unfold fresh_string. destruct (m !! s) as [a|] eqn:Hs; [clear a Hs|exists ""; by rewrite append_nil_r_str].
  generalize 0%N (wf_guard 32 (fresh_string_R_wf s m) 0%N).
  fix FIX 2. intros n [?]; simpl; unfold fresh_string_go at 1; simpl.
  destruct (Some_dec (m !! _)) as [[??]|?]; [apply FIX|]. eexists; done.
Qed.

(** Weakest precondition of an I/O action at a world. *)
Definition wp {S A} (m : st S A) (Q : result A → S → Prop) (w : S) : Prop :=
  Q (m w).1 (m w).2.

Lemma wp_mono {S A} (m : st S A) (Q Q' : result A → S → Prop) w :
  wp m Q w → (∀ r w', Q r w' → Q' r w') → wp m Q' w.
Proof. unfold wp. eauto. Qed.

Lemma wp_ret {S A} (a : A) Q (w : S) : Q (Ok a) w → wp (io_ret a) Q w.
Proof. done. Qed.

Lemma wp_err {S A} e (Q : result A → S → Prop) w : Q (Err e) w → wp (io_err e) Q w.
Proof. done. Qed.

Lemma wp_bind {S A B} (m : st S A) (k : A → st S B) Q w :
  wp m (λ r w', match r with Ok a => wp (k a) Q w' | Err e => Q (Err e) w' end) w →
  wp (io_bind m k) Q w.
Proof. unfold wp, io_bind. by destruct (m w) as [[a|e] w']. Qed.

Lemma wp_try {S A} (m : st S A) Q w : wp m (λ r w', Q (Ok r) w') w → wp (io_try m) Q w.
Proof. unfold wp, io_try. by destruct (m w). Qed.

Lemma wp_of {S A} (r : result A) Q (w : S) : Q r w → wp (io_of r) Q w.
Proof. done. Qed.

Definition tick {C} (w : world C) : world C := mkWorld (w_vol w) (w_dur w) (w_dirs w) (S (w_ticks w)).

Section rules.
Context {C : Type} `{HC : Content C} (E : env).

Lemma wp_sys {A} (act : io C A) Q w :
  (∀ e, io_fault E (w_ticks w) = Some e → Q (Err e) (tick w)) →
  (io_fault E (w_ticks w) = None → wp act Q (tick w)) →
  wp (sys E act) Q w.
Proof. unfold wp, sys, tick. intros H1 H2. destruct (io_fault E (w_ticks w)); simpl; auto. Qed.

(** A call that only reports: the files are unchanged. *)
Definition quiet {A} (m : io C A) : Prop :=
  ∀ w, wp m (λ _ w', w_vol w' = w_vol w ∧ w_dur w' = w_dur w) w.

Lemma quiet_sys {A} (act : io C A) : quiet act → quiet (sys E act).
Proof. intros H w. apply wp_sys; [done|]. intros _. apply (H (tick w)). Qed.

Lemma quiet_MkdirAll dir : quiet (os_MkdirAll E dir).
Proof. by apply quiet_sys. Qed.

Lemma quiet_Close path : quiet (file_Close E path).
Proof. by apply quiet_sys. Qed.

Lemma quiet_read path : quiet (read_file E path).
Proof. apply quiet_sys. intros w. unfold wp. by destruct (_ !! _). Qed.

Lemma quiet_exists path : quiet (fileExists E path).
Proof.
  intros w. unfold fileExists, sys, wp. destruct (io_fault E (w_ticks w)); [done|].
  simpl. by destruct (_ !! path).
Qed.

(** A quiet step keeps the files; go on from any world with the same ones. *)
Lemma wp_quiet {A} (m : io C A) Q w :
  quiet m → (∀ r (w' : world C), w_vol w' = w_vol w → w_dur w' = w_dur w → Q r w') → wp m Q w.
Proof. intros Hm HQ. eapply wp_mono; [apply Hm|]. naive_solver. Qed.

Lemma wp_read path Q w :
  (∀ e (w' : world C), w_vol w' = w_vol w → w_dur w' = w_dur w → Q (Err e) w') →
  (∀ (f : file C) (w' : world C), w_vol w !! path = Some f → w_vol w' = w_vol w → w_dur w' = w_dur w → Q (Ok (f_data f)) w') →
  wp (read_file E path) Q w.
Proof.
  intros He Hf. apply wp_sys; [intros e _; by apply He|]. intros _. unfold wp, tick; simpl.
  destruct (w_vol w !! path) eqn:Hp; [by apply Hf | by apply He].
Qed.

Lemma wp_Rename from to Q w :
  (∀ e (w' : world C), w_vol w' = w_vol w → w_dur w' = w_dur w → Q (Err e) w') →
  (∀ (f : file C) (w' : world C), w_vol w !! from = Some f → w_vol w' = <[ to := f ]> (delete from (w_vol w)) →
    w_dur w' = w_dur w → Q (Ok tt) w') →
  wp (os_Rename E from to) Q w.
Proof.
  intros He Hok. apply wp_sys; [intros e _; by apply He|]. intros _. unfold wp, tick; simpl.
  destruct (w_vol w !! from) eqn:Hf; simpl; [by eapply Hok | by apply He].
Qed.

Lemma wp_syncDir dir Q w :
  (∀ e (w' : world C), w_vol w' = w_vol w → w_dur w' = w_dur w → Q (Err e) w') →
  (∀ w' : world C, w_vol w' = w_vol w →
    (∀ p (f : file C), dir_of p = dir → w_vol w !! p = Some f → f_synced f = true → w_dur w' !! p = Some (f_data f)) →
    (∀ p, dir_of p ≠ dir → w_dur w' !! p = w_dur w !! p) → Q (Ok tt) w') →
  wp (syncDir E dir) Q w.
Proof.
  intros He Hok. apply wp_sys; [intros e _; by apply He|]. intros _. unfold wp, tick; simpl.
  apply Hok; [done|..]; simpl.
  - intros p f Hdir Hp Hs. apply lookup_union_Some_l. rewrite lookup_fmap.
    rewrite (map_lookup_filter_Some_2 _ _ p f) by done. simpl. by rewrite Hs.
  - intros p Hdir. rewrite lookup_union, lookup_fmap.
    rewrite map_lookup_filter_None_2 by naive_solver. simpl. rewrite left_id by apply _.
    destruct (w_dur w !! p) eqn:Hp.
    + by apply map_lookup_filter_Some_2.
    + apply map_lookup_filter_None_2. by left.
Qed.

Definition only_tmp (tmp : string) (w w' : world C) : Prop :=
  (∀ p, p ≠ tmp → w_vol w' !! p = w_vol w !! p) ∧ w_dur w' = w_dur w.

Lemma only_tmp_refl tmp (w w' : world C) : w_vol w' = w_vol w → w_dur w' = w_dur w → only_tmp tmp w w'.
Proof. intros H1 H2. split; [by intros; rewrite H1|done]. Qed.

Lemma only_tmp_trans tmp w1 w2 w3 : only_tmp tmp w1 w2 → only_tmp tmp w2 w3 → only_tmp tmp w1 w3.
Proof. intros [H1 H2] [H3 H4]. split; [intros; by rewrite H3, H1|congruence]. Qed.

Lemma wp_Remove path Q w :
  (∀ r w', only_tmp path w w' → Q r w') → wp (os_Remove E path) Q w.
Proof.
  intros H. apply wp_sys; [intros e _; apply H; by apply only_tmp_refl|]. intros _. unfold wp; simpl.
  destruct (w_vol w !! path); apply H; [|by apply only_tmp_refl].
  split; [|done]. intros p Hp. simpl. by rewrite lookup_delete_ne.
Qed.

Lemma wp_CreateTemp dir pattern Q w :
  (∀ e (w' : world C), w_vol w' = w_vol w → w_dur w' = w_dur w → Q (Err e) w') →
  (∀ t (w' : world C), w_vol w !! filepath_Join dir (pattern +:+ t) = None →
    only_tmp (filepath_Join dir (pattern +:+ t)) w w' → Q (Ok (filepath_Join dir (pattern +:+ t))) w') →
  wp (os_CreateTemp E dir pattern) Q w.
Proof.
  intros He Hok. apply wp_sys; [intros e _; by apply He|]. intros _. unfold wp, tick; simpl.
  pose proof (fresh_string_fresh (w_vol w) (filepath_Join dir pattern)) as Hf.
  destruct (fresh_string_prefix (w_vol w) (filepath_Join dir pattern)) as [t Ht].
  rewrite Ht in *. unfold filepath_Join in *. rewrite !append_assoc_str in *.
  apply Hok; [done|]. split; [|done]. intros p Hp. simpl. by rewrite lookup_insert_ne.
Qed.

End rules.

(** ** Which directories survive *)

(** A call leaves the directories that survive, and makes others survive only by
    a sync of one of the directories in [D]. *)
Definition syncs {C} (D : string → Prop) {A} (m : io C A) : Prop := ∀ w d,
  (w_dirs w !! d = Some true → w_dirs (m w).2 !! d = Some true)
  ∧ (w_dirs (m w).2 !! d = Some true → w_dirs w !! d = Some true ∨ D (dir_of d)).

Section dirs.
Context {C : Type} `{HC : Content C} (E : env) (D : string → Prop).

Lemma syncs_keep {A} (m : io C A) : (∀ w, w_dirs (m w).2 = w_dirs w) → syncs D m.
Proof. intros H w d. rewrite H. tauto. Qed.

Lemma syncs_ret {A} (a : A) : syncs D (io_ret a : io C A).
Proof. by apply syncs_keep. Qed.

Lemma syncs_err {A} e : syncs D (io_err e : io C A).
Proof. by apply syncs_keep. Qed.

Lemma syncs_of {A} (r : result A) : syncs D (io_of r : io C A).
Proof. by apply syncs_keep. Qed.

Lemma syncs_bind_on {A B} (m : io C A) (k : A → io C B) :
  syncs D m → (∀ a w w', m w = (Ok a, w') → syncs D (k a)) → syncs D (io_bind m k).
Proof.
  intros Hm Hk w d. unfold io_bind. destruct (Hm w d) as [H1 H2].
  destruct (m w) as [[a|e] w'] eqn:Hw; [|done]. destruct (Hk _ _ _ Hw w' d) as [H3 H4]. cbn in *. tauto.
Qed.

Lemma syncs_bind {A B} (m : io C A) (k : A → io C B) :
  syncs D m → (∀ a, syncs D (k a)) → syncs D (io_bind m k).
Proof. intros Hm Hk. apply syncs_bind_on; [done|]. by intros. Qed.

Lemma syncs_try {A} (m : io C A) : syncs D m → syncs D (io_try m).
Proof. intros H w d. unfold io_try. specialize (H w d). by destruct (m w). Qed.

Lemma syncs_sys {A} (act : io C A) : syncs D act → syncs D (sys E act).
Proof. intros H w d. unfold sys. destruct (io_fault E (w_ticks w)); [cbn; tauto|]. apply (H (tick w)). Qed.

Lemma syncs_MkdirAll dir : syncs D (os_MkdirAll E dir : io C unit).
Proof.
  apply syncs_sys. intros w d. cbn. split; [intros Hd; by apply lookup_union_Some_l|].
  intros [Hd|[_ Hd]]%lookup_union_Some_raw; [by left|]. by apply lookup_gset_to_gmap_Some in Hd as [_ ?].
Qed.

Lemma syncs_syncDir dir : D dir → syncs D (syncDir E dir : io C unit).
Proof.
  intros HD. apply syncs_sys. intros w d. cbn. rewrite map_lookup_imap.
  destruct (w_dirs w !! d) as [kept|]; cbn; [|by split; [|left]]. split; [by intros [= ->]|].
  intros [= [->|H]%orb_true_iff]; [by left|]. apply bool_decide_eq_true in H as ->. by right.
Qed.

Lemma syncs_CreateTemp dir pattern : syncs D (os_CreateTemp E dir pattern : io C string).
Proof. by apply syncs_sys, syncs_keep. Qed.

Lemma syncs_Remove path : syncs D (os_Remove E path : io C unit).
Proof. apply syncs_sys, syncs_keep. intros w. by case_match. Qed.

Lemma syncs_Write path data err : syncs D (file_Write E path data err : io C unit).
Proof. apply syncs_sys, syncs_keep. intros w. by case_match. Qed.

Lemma syncs_Sync path : syncs D (file_Sync E path : io C unit).
Proof. by apply syncs_sys, syncs_keep. Qed.

Lemma syncs_Close path : syncs D (file_Close E path : io C unit).
Proof. by apply syncs_sys, syncs_keep. Qed.

Lemma syncs_Rename from to : syncs D (os_Rename E from to : io C unit).
Proof. apply syncs_sys, syncs_keep. intros w. by case_match. Qed.

Lemma syncs_read path : syncs D (read_file E path : io C C).
Proof. apply syncs_sys, syncs_keep. intros w. by case_match. Qed.

Lemma syncs_exists path : syncs D (fileExists E path : io C bool).
Proof. apply syncs_keep. intros w. unfold fileExists, sys. destruct (io_fault _ _); [done|]. cbn. by destruct (w_vol w !! path). Qed.
End dirs.

Create HintDb syncs.
#[export] Hint Resolve syncs_ret syncs_err syncs_of syncs_MkdirAll syncs_syncDir syncs_CreateTemp syncs_Remove
  syncs_Write syncs_Sync syncs_Close syncs_Rename syncs_read syncs_exists : syncs.

(** Goes through a program whose calls are in [syncs]. *)
Ltac solve_syncs := repeat first
  [ progress intros
  | solve [eauto with syncs]
  | apply syncs_bind
  | apply syncs_try
  | case_match ].

(** A path in a directory is the directory, a separator and a name without one. *)
Lemma dir_of_split p : has_char "/" p = true → ∃ t, p = dir_of p +:+ "/" +:+ t ∧ has_char "/" t = false.
Proof.
  unfold dir_of. intros H. rewrite H. revert H. induction p as [|c p IH]; [done|]. cbn. intros H.
  destruct (has_char "/" p) eqn:Hp.
  - destruct (IH eq_refl) as (t & Ht & Hno). exists t. split; [|done]. exact (f_equal (String c) Ht).
  - rewrite orb_false_r in H. apply bool_decide_eq_true in H as ->. by exists p.
Qed.

Lemma dir_of_flat p : has_char "/" p = false → dir_of p = ".".
Proof. unfold dir_of. by intros ->. Qed.

Lemma parents_from_prefix p seen d : d ∈ parents_from seen p → ∃ s, seen +:+ p = d +:+ "/" +:+ s.
Proof.
  revert seen. induction p as [|c p IH]; intros seen; cbn [parents_from]; [by intros ?%not_elem_of_nil|].
  assert (seen +:+ String c p = (seen +:+ String c "") +:+ p) as Hsplit by by rewrite append_assoc_str.
  case_bool_decide as Hc; [|rewrite Hsplit; apply IH].
  intros [->|Hd]%elem_of_cons; [|rewrite Hsplit; by apply IH]. destruct Hc as [-> _]. by exists p.
Qed.

Lemma parents_prefix p d : d ∈ parents p → ∃ s, p = d +:+ "/" +:+ s.
Proof. apply parents_from_prefix. Qed.

(** The directory above one that is above [p]. *)
Lemma parents_up p d : d ∈ parents p → dir_of d ≠ "." → ∃ t s, p = dir_of d +:+ "/" +:+ t +:+ "/" +:+ s.
Proof.
  intros [s ->]%parents_prefix Hd. destruct (has_char "/" d) eqn:Hc; [|by apply dir_of_flat in Hc].
  destruct (dir_of_split d Hc) as (t & Ht & _). exists t, s. rewrite Ht at 1. by rewrite !append_assoc_str.
Qed.

(** ** Runs without faults *)

(** The action succeeds with an answer and a world in [Q]. *)
Definition succeeds {S A} (m : st S A) (Q : A → S → Prop) (w : S) : Prop :=
  ∃ a w', m w = (Ok a, w') ∧ Q a w'.

Lemma succeeds_bind {S A B} (m : st S A) (k : A → st S B) Q w :
  succeeds m (λ a w', succeeds (k a) Q w') w → succeeds (io_bind m k) Q w.
Proof. intros (a & w1 & H1 & b & w2 & H2 & HQ). exists b, w2. unfold io_bind. by rewrite H1. Qed.

Lemma succeeds_mono {S A} (m : st S A) (Q Q' : A → S → Prop) w :
  (∀ a w', Q a w' → Q' a w') → succeeds m Q w → succeeds m Q' w.
Proof. intros HQ (a & w' & H & H'). exists a, w'. auto. Qed.

Lemma succeeds_ret {S A} (a : A) (Q : A → S → Prop) w : Q a w → succeeds (io_ret a) Q w.
Proof. intros. by exists a, w. Qed.

Lemma succeeds_try {S A} (m : st S A) Q w :
  (let '(r, w') := m w in Q r w') → succeeds (io_try m) Q w.
Proof. unfold succeeds, io_try. destruct (m w) as [r w']. eauto. Qed.

Lemma succeeds_try_ok {S A} (m : st S A) Q w :
  succeeds m (λ a w', Q (Ok a) w') w → succeeds (io_try m) Q w.
Proof. intros (a & w' & H & HQ). apply succeeds_try. by rewrite H. Qed.

Section no_faults.
Context {C : Type} `{HC : Content C} (E : env).
Context (no_fault : ∀ t, io_fault E t = None).
Set Default Proof Using "Type no_fault".

Lemma sys_runs {A} (act : io C A) w : sys E act w = act (tick w).
Proof. unfold sys. by rewrite no_fault. Qed.

Lemma succeeds_sys {A} (act : io C A) Q w : succeeds act Q (tick w) → succeeds (sys E act) Q w.
Proof. unfold succeeds. by rewrite sys_runs. Qed.

Lemma succeeds_quiet_unit {A} (a : A) (Q : A → world C → Prop) w :
  (∀ w' : world C, w_vol w' = w_vol w → Q a w') → succeeds (sys E (io_ret a)) Q w.
Proof. intros H. apply succeeds_sys, succeeds_ret. by apply H. Qed.

Lemma succeeds_MkdirAll dir (Q : unit → world C → Prop) w :
  (∀ w' : world C, w_vol w' = w_vol w → w_dur w' = w_dur w → Q tt w') → succeeds (os_MkdirAll E dir) Q w.
Proof. intros HQ. apply succeeds_sys. eexists _, _. split; [done|]. by apply HQ. Qed.

Lemma succeeds_rename from to (Q : unit → world C → Prop) w f :
  w_vol w !! from = Some f →
  (∀ w' : world C, w_vol w' = <[to := f]> (delete from (w_vol w)) → Q tt w') → succeeds (os_Rename E from to) Q w.
Proof.
  intros Hf HQ. apply succeeds_sys. exists tt, (set_vol (λ v, <[to := f]> (delete from v)) (tick w)).
  simpl. rewrite Hf. split; [done|]. by apply HQ.
Qed.

Lemma succeeds_syncDir dir (Q : unit → world C → Prop) w :
  (∀ w' : world C, w_vol w' = w_vol w → Q tt w') → succeeds (syncDir E dir) Q w.
Proof. intros HQ. apply succeeds_sys. eexists _, _. split; [done|]. by apply HQ. Qed.

Lemma succeeds_CreateTemp dir pattern Q w :
  (∀ t (w' : world C), only_tmp (filepath_Join dir (pattern +:+ t)) w w' → Q (filepath_Join dir (pattern +:+ t)) w') →
  succeeds (os_CreateTemp E dir pattern) Q w.
Proof.
  intros HQ. apply succeeds_sys. eexists _, _. split; [done|].
  destruct (fresh_string_prefix (w_vol (tick w)) (filepath_Join dir pattern)) as [t Ht].
  rewrite Ht. unfold filepath_Join in *. rewrite !append_assoc_str in *.
  apply HQ. split; [|done]. intros p Hp. simpl. by rewrite lookup_insert_ne.
Qed.

Set Default Proof Using "Type".
End no_faults.
