(* ===== verification/Sha256.v ===== *)
(** * Sha256: the digest crypto/sha256 computes

    FIPS 180-4 on byte lists, executable.  The program never relies on more
    than that the digest is a function of the bytes and has 32 of them. *)
From S2P Require Import Prelude Text.
From stdpp Require Import options.

Definition w32 (x : N) : N := x `mod` u32_bound.
Definition add32 (x y : N) : N := w32 (x + y).
Definition rotr (n x : N) : N :=
  N.lor (N.shiftr x n) (w32 (N.shiftl x (32 - n))).

Definition big_sigma0 (x : N) : N := N.lxor (N.lxor (rotr 2 x) (rotr 13 x)) (rotr 22 x).
Definition big_sigma1 (x : N) : N := N.lxor (N.lxor (rotr 6 x) (rotr 11 x)) (rotr 25 x).
Definition small_sigma0 (x : N) : N := N.lxor (N.lxor (rotr 7 x) (rotr 18 x)) (N.shiftr x 3).
Definition small_sigma1 (x : N) : N := N.lxor (N.lxor (rotr 17 x) (rotr 19 x)) (N.shiftr x 10).
Definition choose32 (x y z : N) : N :=
  N.lxor (N.land x y) (N.land (N.lxor x 4294967295) z).
Definition majority32 (x y z : N) : N :=
  N.lxor (N.lxor (N.land x y) (N.land x z)) (N.land y z).

Definition round_constants : list N := [
  1116352408; 1899447441; 3049323471; 3921009573; 961987163; 1508970993; 2453635748; 2870763221;
  3624381080; 310598401; 607225278; 1426881987; 1925078388; 2162078206; 2614888103; 3248222580;
  3835390401; 4022224774; 264347078; 604807628; 770255983; 1249150122; 1555081692; 1996064986;
  2554220882; 2821834349; 2952996808; 3210313671; 3336571891; 3584528711; 113926993; 338241895;
  666307205; 773529912; 1294757372; 1396182291; 1695183700; 1986661051; 2177026350; 2456956037;
  2730485921; 2820302411; 3259730800; 3345764771; 3516065817; 3600352804; 4094571909; 275423344;
  430227734; 506948616; 659060556; 883997877; 958139571; 1322822218; 1537002063; 1747873779;
  1955562222; 2024104815; 2227730452; 2361852424; 2428436474; 2756734187; 3204031479; 3329325298]%N.

Definition initial_words : list N := [
  1779033703; 3144134277; 1013904242; 2773480762;
  1359893119; 2600822924; 528734635; 1541459225]%N.

(** Big-endian words of a byte list, and back. *)
Fixpoint words_of (b : list N) : list N :=
  match b with
  | b0 :: b1 :: b2 :: b3 :: r => (b0 * 16777216 + b1 * 65536 + b2 * 256 + b3)%N :: words_of r
  | _ => []
  end.

Definition word_bytes (w : N) : list N :=
  [(w / 16777216) mod 256; (w / 65536) mod 256; (w / 256) mod 256; w mod 256]%N.

Definition length_bytes (n : N) : list N :=
  map (λ i : N, (N.shiftr n (8 * i) mod 256)%N) [7; 6; 5; 4; 3; 2; 1; 0]%N.

(** The message, the bit 1, zeros to 56 modulo 64, and the length in bits. *)
Definition sha_pad (b : list N) : list N :=
  let n := length b in
  let zeros := (64 - (n + 9) mod 64) mod 64 in
  b ++ [128%N] ++ replicate zeros 0%N ++ length_bytes (8 * N.of_nat n).

(** The schedule is kept newest first, so [W[t-2]] is at position 1. *)
Fixpoint extend_schedule (k : nat) (w : list N) : list N :=
  match k with
  | 0 => w
  | S k' =>
      let at_ i := nth i w 0%N in
      let x := add32 (add32 (small_sigma1 (at_ 1)) (at_ 6)) (add32 (small_sigma0 (at_ 14)) (at_ 15)) in
      extend_schedule k' (x :: w)
  end.

Definition sha_round (s : list N) (kw : N * N) : list N :=
  match s with
  | [a; b; c; d; e; f; g; h] =>
      let t1 := add32 (add32 (add32 h (big_sigma1 e)) (choose32 e f g)) (add32 kw.1 kw.2) in
      let t2 := add32 (big_sigma0 a) (majority32 a b c) in
      [add32 t1 t2; a; b; c; add32 d t1; e; f; g]
  | _ => s
  end.

Definition sha_block (s : list N) (block : list N) : list N :=
  let schedule := rev (extend_schedule 48 (rev (words_of block))) in
  zip_with add32 s (fold_left sha_round (zip round_constants schedule) s).

Fixpoint sha_blocks (fuel : nat) (s : list N) (b : list N) : list N :=
  match fuel with
  | 0 => s
  | S f => match b with
           | [] => s
           | _ => sha_blocks f (sha_block s (take 64 b)) (drop 64 b)
           end
  end.

(** [sha256.Sum256]: one unit of fuel per byte is more than one per block. *)
Definition sha256 (b : list N) : list N :=
  let p := sha_pad b in
  concat (map word_bytes (sha_blocks (length p) initial_words p)).

(** [hex.EncodeToString(sha256.Sum256(data))]. *)
Definition sha256_hex (data : string) : string := hex_encode (sha256 (bytes_of data)).

Example sha256_abc : sha256_hex "abc" =
  "ba7816bf8f01cfea414140de5dae2223b00361a396177a9cb410ff61f20015ad".
Proof. vm_compute. reflexivity. Qed.

Example sha256_two_blocks :
  sha256_hex "abcdbcdecdefdefgefghfghighijhijkijkljklmklmnlmnomnopnopq" =
  "248d6a61d20638b8e5c026930c3e6039a33ce45964ff2167f6ecedd419db06c1".
Proof. vm_compute. reflexivity. Qed.

Example sha256_empty : sha256_hex "" =
  "e3b0c44298fc1c149afbf4c8996fb92427ae41e4649b934ca495991b7852b855".
Proof. vm_compute. reflexivity. Qed.

Lemma sha_block_length s b : length s = 8 → length (sha_block s b) = 8.
Proof.
  intros Hs. unfold sha_block. rewrite length_zip_with.
  assert (∀ l s', length s' = 8 → length (fold_left sha_round l s') = 8) as Hf.
  { induction l as [|x l IH]; intros s' Hs'; [done|]. apply IH.
    unfold sha_round. repeat case_match; simplify_eq/=; done. }
  rewrite Hf by done. lia.
Qed.

Lemma sha_blocks_length fuel s b : length s = 8 → length (sha_blocks fuel s b) = 8.
Proof.
  revert s b. induction fuel as [|f IH]; intros s b Hs; [done|].
  simpl. destruct b; [done|]. by apply IH, sha_block_length.
Qed.

(** A digest is 32 bytes. *)
Lemma sha256_length b : length (sha256 b) = 32.
Proof.
  unfold sha256. pose proof (sha_blocks_length (length (sha_pad b)) initial_words (sha_pad b) eq_refl) as H.
  destruct (sha_blocks _ _ _) as [|? [|? [|? [|? [|? [|? [|? [|? [|]]]]]]]]]; done.
Qed.

Lemma sha256_bytes b : Forall (λ x, x < 256)%N (sha256 b).
Proof.
  unfold sha256. apply Forall_concat, Forall_map, Forall_true. intros w.
  unfold compose, word_bytes. repeat constructor; apply N.mod_upper_bound; done.
Qed.

Lemma sha256_hex_length d : String.length (sha256_hex d) = 64.
Proof. unfold sha256_hex. by rewrite hex_encode_length, sha256_length. Qed.

Lemma sha256_hex_all_hex d : all_hex (sha256_hex d) = true.
Proof. apply hex_encode_all_hex, sha256_bytes. Qed.

#[export] Hint Rewrite sha256_hex_length sha256_hex_all_hex : clusterha_rw.
#[global] Opaque sha256.
