(* ===== verification/Json.v ===== *)
(** * Json: what the program uses of encoding/json

    A JSON text is represented by the value it denotes ([json]); white space
    and the spelling of escapes inside a text are not represented, numbers keep
    their literal.  [json_text] is the text [json.Marshal] produces.  The
    decoding functions below follow [json.Unmarshal]: fields are looked up by
    exact and then by case-folded name, unknown members are skipped, [null]
    leaves a scalar or a struct unchanged, a repeated member is assigned again. *)
From S2P Require Import Prelude Text.
From stdpp Require Import options.
From Stdlib Require Import Ascii.

#[warnings="-register-all"]
Inductive json : Type :=
| JNull
| JBool (b : bool)
| JNum (literal : string)
| JStr (s : string)
| JArr (l : list json)
| JObj (ms : list (string * json)).

(** [json.RawMessage]: [None] is the empty message. *)
Abbreviation RawMessage := (option json) (only parsing).

(** ** Printing *)

(** The escape [json.Marshal] writes for a rune (HTML escaping on), or the
    bytes of the rune. *)
Definition escape_rune (p : option N * list N) : string :=
  match p with
  | (None, _) => "\ufffd"
  | (Some r, bs) =>
      if (r =? 34)%N then "\" +:+ string_of [34%N]
      else if (r =? 92)%N then "\\"
      else if (r =? 8)%N then "\b"
      else if (r =? 12)%N then "\f"
      else if (r =? 10)%N then "\n"
      else if (r =? 13)%N then "\r"
      else if (r =? 9)%N then "\t"
      else if ((r <? 32) || (r =? 60) || (r =? 62) || (r =? 38))%N
      then "\u00" +:+ hex_encode [r]
      else if (r =? 8232)%N then "\u2028"
      else if (r =? 8233)%N then "\u2029"
      else string_of bs
  end.

Definition quote : string := string_of [34%N].

Definition string_text (s : string) : string :=
  quote +:+ String.concat "" (map escape_rune (runes (bytes_of s))) +:+ quote.

Fixpoint json_text (j : json) : string :=
  match j with
  | JNull => "null"
  | JBool true => "true"
  | JBool false => "false"
  | JNum lit => lit
  | JStr s => string_text s
  | JArr l => "[" +:+ String.concat "," (map json_text l) +:+ "]"
  | JObj ms =>
      "{" +:+ String.concat ","
        (map (λ m : string * json, string_text m.1 +:+ ":" +:+ json_text m.2) ms) +:+ "}"
  end.

(** Go orders map keys by bytes. *)
Fixpoint str_ltb (a b : string) : bool :=
  match a, b with
  | EmptyString, String _ _ => true
  | String x a', String y b' =>
      (N_of_ascii x <? N_of_ascii y)%N || (bool_decide (x = y) && str_ltb a' b')
  | _, EmptyString => false
  end.

(** Insertion in a list of members ordered by key, replacing an equal key. *)
Fixpoint assoc_insert {V} (k : string) (v : V) (l : list (string * V)) : list (string * V) :=
  match l with
  | [] => [(k, v)]
  | (k', v') :: l' =>
      if str_eqb k k' then (k, v) :: l'
      else if str_ltb k k' then (k, v) :: l
      else (k', v') :: assoc_insert k v l'
  end.

Definition sorted_entries {V} (m : gmap string V) : list (string * V) :=
  foldr (λ kv, assoc_insert kv.1 kv.2) [] (map_to_list m).

Lemma assoc_insert_fresh {V} k (v : V) l : k ∉ l.*1 → assoc_insert k v l ≡ₚ (k, v) :: l.
Proof.
  induction l as [|[k' v'] l IH]; simpl; [done|]. intros Hk. apply not_elem_of_cons in Hk as [Hne Hk].
  rewrite str_eqb_neq by done. destruct (str_ltb k k'); [done|].
  rewrite IH by done. apply perm_swap.
Qed.

Lemma sorted_entries_perm {V} (m : gmap string V) : sorted_entries m ≡ₚ map_to_list m.
Proof.
  unfold sorted_entries. pose proof (NoDup_fst_map_to_list m) as Hnd.
  induction (map_to_list m) as [|[k v] l IH]; simpl in *; [done|].
  apply NoDup_cons in Hnd as [Hk Hnd]. rewrite assoc_insert_fresh; [by rewrite IH|].
  by rewrite IH.
Qed.

(** ** Encoding *)

(** The members of a struct in field order; [None] is an omitted field. *)
Definition enc_struct (fields : list (option (string * json))) : json := JObj (omap id fields).
Definition field (k : string) (j : json) : option (string * json) := Some (k, j).
Definition field_unless (omit : bool) (k : string) (j : json) : option (string * json) :=
  if omit then None else Some (k, j).

Definition enc_uint (n : N) : json := JNum (FormatUint n).
Definition enc_int (z : Z) : json := JNum (FormatInt z).
Definition enc_string (s : string) : json := JStr (utf8_fix s).
Definition enc_raw (r : RawMessage) : json := default JNull r.
Definition enc_map {V} (enc : V → json) (m : gmap string V) : json :=
  JObj (map (λ kv : string * V, (utf8_fix kv.1, enc kv.2)) (sorted_entries m)).

(** ** Decoding *)

(** The case-folded form of a member name.  U+017F and U+212A fold to the
    letters S and K. *)
Definition upper (n : N) : N := if ((97 <=? n) && (n <=? 122))%N then (n - 32)%N else n.
Definition fold_name (s : string) : list N :=
  map (λ p : option N * list N,
    match p.1 with
    | Some 383 => 83
    | Some 8490 => 75
    | Some r => upper r
    | None => 65533
    end%N) (runes (bytes_of s)).

Definition find_field {S} (fields : list (string * (json → S → option S))) (k : string)
    : option (json → S → option S) :=
  match find (λ f, str_eqb f.1 k) fields with
  | Some f => Some f.2
  | None => snd <$> find (λ f, bool_decide (fold_name f.1 = fold_name k)) fields
  end.

Definition dec_struct {S} (fields : list (string * (json → S → option S))) (j : json) (s : S)
    : option S :=
  match j with
  | JNull => Some s
  | JObj ms =>
      foldl (λ acc (m : string * json),
        match acc with
        | None => None
        | Some s => match find_field fields m.1 with
                    | Some set => set m.2 s
                    | None => Some s
                    end
        end) (Some s) ms
  | _ => None
  end.

(** A property every field setter keeps holds of what is decoded. *)
Lemma dec_struct_inv {S} (P : S → Prop) (fields : list (string * (json → S → option S))) j s s' :
  Forall (λ f, ∀ j s s', P s → f.2 j s = Some s' → P s') fields →
  P s → dec_struct fields j s = Some s' → P s'.
Proof.
  intros Hf Hs H. destruct j as [| | | | |ms]; try discriminate H; [by injection H as <-|].
  cbn [dec_struct] in H.
  assert (∀ acc s', foldl (λ acc (m : string * json),
        match acc with
        | None => None
        | Some s => match find_field fields m.1 with Some set => set m.2 s | None => Some s end
        end) acc ms = Some s' → (∀ s, acc = Some s → P s) → P s') as Hgen.
  { clear H Hs s s'. induction ms as [|[k v] ms IH]; intros acc s'; cbn [foldl fst snd]; [by eauto|].
    intros H Hacc. eapply IH; [exact H|]. intros s1 H1. destruct acc as [s0|]; [|done].
    destruct (find_field fields k) as [set|] eqn:Hk; [|by eauto].
    assert (∃ f, f ∈ fields ∧ set = f.2) as (f & Hin & ->).
    { unfold find_field in Hk. destruct (find (λ f, str_eqb f.1 k) fields) as [f|] eqn:E1.
      - apply find_some in E1 as [E1 _]. injection Hk as <-. exists f.
        split; [by apply list_elem_of_In|done].
      - clear E1. destruct (find _ fields) as [f|] eqn:E2; [|done]. apply find_some in E2 as [E2 _].
        injection Hk as <-. exists f. split; [by apply list_elem_of_In|done]. }
    rewrite Forall_forall in Hf. eapply Hf; eauto. }
  eapply Hgen; [exact H|]. by intros ? [= <-].
Qed.

(** Decoding an encoded struct member by member. *)
Lemma dec_fields_nil {S} (fields : list (string * (json → S → option S))) s :
  dec_struct fields (enc_struct []) s = Some s.
Proof. done. Qed.

Lemma dec_fields_field {S} (fields : list (string * (json → S → option S))) k v l s set s' r :
  find_field fields k = Some set → set v s = Some s' → dec_struct fields (enc_struct l) s' = r →
  dec_struct fields (enc_struct (field k v :: l)) s = r.
Proof. intros Hk Hv <-. unfold enc_struct, dec_struct. simpl. by rewrite Hk, Hv. Qed.

Lemma dec_fields_unless {S} (fields : list (string * (json → S → option S))) (b : bool) k v l s r :
  (b = true → dec_struct fields (enc_struct l) s = r) →
  (b = false → dec_struct fields (enc_struct (field k v :: l)) s = r) →
  dec_struct fields (enc_struct (field_unless b k v :: l)) s = r.
Proof. destruct b; [intros H _; by rewrite <- H|intros _ H; by rewrite <- H]. Qed.

(** An optional member is omitted only where decoding it would change nothing. *)
Lemma dec_fields_optional {S} (fields : list (string * (json → S → option S))) (b : bool) k v l s set s' r :
  find_field fields k = Some set → (b = false → set v s = Some s') → (b = true → s = s') →
  dec_struct fields (enc_struct l) s' = r → dec_struct fields (enc_struct (field_unless b k v :: l)) s = r.
Proof.
  intros Hk Hf Ht Hr. apply dec_fields_unless; intros Hb; [by rewrite (Ht Hb)|].
  eapply dec_fields_field; [exact Hk|by apply Hf|done].
Qed.

(** A field setter from a decoder for the field's type. *)
Definition set_field {S A} (get : S → A) (put : A → S → S) (dec : json → A → option A)
    (j : json) (s : S) : option S :=
  (λ a, put a s) <$> dec j (get s).

Lemma set_field_Some {S A} (get : S → A) (put : A → S → S) dec j s a :
  dec j (get s) = Some a → set_field get put dec j s = Some (put a s).
Proof. unfold set_field. by intros ->. Qed.

Definition dec_string (j : json) (cur : string) : option string :=
  match j with JStr s => Some s | JNull => Some cur | _ => None end.

(** A string Go encodes without replacing bytes. *)
Definition valid_utf8 (s : string) : Prop := utf8_fix s = s.

Lemma dec_enc_string s cur : valid_utf8 s → dec_string (enc_string s) cur = Some s.
Proof. unfold enc_string, valid_utf8. simpl. by intros ->. Qed.

Definition dec_bool (j : json) (cur : bool) : option bool :=
  match j with JBool b => Some b | JNull => Some cur | _ => None end.

(** [uint64] and [uint32] fields, by the bound of the type. *)
Definition dec_uint (bound : N) (j : json) (cur : N) : option N :=
  match j with JNum lit => ParseUint bound lit | JNull => Some cur | _ => None end.

Lemma dec_uint_bound bound j cur n : (cur < bound)%N → dec_uint bound j cur = Some n → (n < bound)%N.
Proof. destruct j; try discriminate; simpl; [by intros ? [= <-]|]. intros _. apply ParseUint_bound. Qed.

Lemma dec_enc_uint bound n cur : (n < bound)%N → dec_uint bound (enc_uint n) cur = Some n.
Proof. apply ParseUint_FormatUint. Qed.

Definition dec_int64 (j : json) (cur : Z) : option Z :=
  match j with JNum lit => ParseInt64 lit | JNull => Some cur | _ => None end.

(** A pointer field: [null] sets it to nil, another value is decoded into the
    pointed-to value. *)
Definition dec_ptr {A} (zero : A) (dec : json → A → option A) (j : json) (cur : option A)
    : option (option A) :=
  match j with
  | JNull => Some None
  | _ => Some <$> dec j (default zero cur)
  end.

(** [RawMessage.UnmarshalJSON] keeps any value, [null] included. *)
Definition dec_raw (j : json) (_ : RawMessage) : option RawMessage := Some (Some j).

(** A map: [null] is the nil map; members are added to the current map. *)
Definition dec_gomap {V} (zero : V) (dec : json → V → option V) (j : json) (cur : gomap V)
    : option (gomap V) :=
  match j with
  | JNull => Some None
  | JObj ms =>
      Some <$> foldl (λ acc (m : string * json),
        match acc with
        | None => None
        | Some c => (λ v, <[m.1 := v]> c) <$> dec m.2 zero
        end) (Some (gm_entries cur)) ms
  | _ => None
  end.

(** The same where the program treats the nil map as the empty one. *)
Definition dec_map {V} (zero : V) (dec : json → V → option V) (j : json) (cur : gmap string V)
    : option (gmap string V) :=
  gm_entries <$> dec_gomap zero dec j (Some cur).

Definition dec_list {A} (zero : A) (dec : json → A → option A) (j : json) (_ : list A)
    : option (list A) :=
  match j with
  | JNull => Some []
  | JArr l => mapM (λ j, dec j zero) l
  | _ => None
  end.

(** ** Decoding into [any] and writing back *)

(** A number literal as sign, integer and decimal exponent. *)
Fixpoint split_digits (s : string) : string * string :=
  match s with
  | String c s' => match digit_value c with
                   | Some _ => let '(d, r) := split_digits s' in (String c d, r)
                   | None => ("", s)
                   end
  | EmptyString => ("", "")
  end.

Definition scan_number (lit : string) : option (bool * N * Z) :=
  let '(neg, s) := match lit with String "-" s => (true, s) | _ => (false, lit) end in
  let '(int, s) := split_digits s in
  let '(frac, s) := match s with String "." s => split_digits s | _ => ("", s) end in
  let expo :=
    match s with
    | "" => Some 0%Z
    | String ("e" | "E") (String "-" d) => Z.opp ∘ Z.of_N <$> parse_digits 0 d
    | String ("e" | "E") (String "+" d) => Z.of_N <$> parse_digits 0 d
    | String ("e" | "E") d => Z.of_N <$> parse_digits 0 d
    | _ => None
    end in
  match parse_digits 0 (int +:+ frac), expo with
  | Some n, Some e => Some (neg, n, (e - Z.of_nat (String.length frac))%Z)
  | _, _ => None
  end.

(** A non-negative float64 [m * 2^e]. *)
Definition pow2 (e : Z) : N := N.shiftl 1 (Z.to_N e).

(** The float64 nearest to [num / den], ties to even; [None] past the range. *)
Definition round_float64 (num den : N) : option (N * Z) :=
  if (num =? 0)%N then Some (0%N, 0%Z) else
  let e1 := (Z.of_N (N.log2 num) - Z.of_N (N.log2 den) - 53)%Z in
  let over (e : Z) := (den * pow2 e)%N in
  let scaled (e : Z) : N := (num * pow2 (- e))%N in
  let reaches (e : Z) := (over e <=? scaled e)%N in
  let e2 := if reaches (e1 + 53)%Z then (e1 + 1)%Z else e1 in
  let e3 := Z.max e2 (-1074) in
  let q := (scaled e3 / over e3)%N in
  let r := (scaled e3 mod over e3)%N in
  let up := ((over e3 <? 2 * r) || (over e3 =? 2 * r) && N.odd q)%N in
  let q' := if up then (q + 1)%N else q in
  let '(q', e3) := if (q' =? 9007199254740992)%N then (4503599627370496%N, (e3 + 1)%Z) else (q', e3) in
  if (971 <? e3)%Z then None else Some (q', e3).

Definition decimal_float64 (n : N) (e : Z) : option (N * Z) :=
  if (e <? 0)%Z then round_float64 n (10 ^ Z.to_N (- e))
  else round_float64 (n * 10 ^ Z.to_N e) 1.

(** Position of the decimal point: [10^(p-1) <= m*2^e < 10^p]. *)
Definition decimal_point (m : N) (e : Z) : Z :=
  let num := (m * pow2 e)%N in
  let den := pow2 (- e) in
  let digits (n : N) := Z.of_nat (String.length (FormatUint n)) in
  if (den <=? num)%N then digits (num / den)%N
  else (1 - digits (den / num)%N)%Z.

(** The shortest decimal digits that read back as [m * 2^e], tried with [k]
    digits, then [k+1], and so on. *)
Fixpoint shortest_digits (fuel : nat) (k : Z) (m : N) (e p : Z) : N :=
  let s := (k - p)%Z in
  let num := (m * pow2 e * 10 ^ Z.to_N s)%N in
  let den := (pow2 (- e) * 10 ^ Z.to_N (- s))%N in
  let lo := (num / den)%N in
  let r := (num mod den)%N in
  let good (d : N) := bool_decide (decimal_float64 d (- s) = Some (m, e)) in
  let first := if (2 * r <? den)%N then lo else (lo + 1)%N in
  let second := if (2 * r <? den)%N then (lo + 1)%N else lo in
  if good first then first
  else if good second then second
  else match fuel with
       | 0 => first
       | S f => shortest_digits f (k + 1) m e p
       end.

Fixpoint zeros (n : nat) : string :=
  match n with 0 => "" | S n' => String "0" (zeros n') end.

(** The text [json.Marshal] writes for a float64. *)
Definition float64_text (neg : bool) (m : N) (e : Z) : string :=
  let sign := if neg then "-" else "" in
  if (m =? 0)%N then sign +:+ "0" else
  let p0 := decimal_point m e in
  let d0 := shortest_digits 17 1 m e p0 in
  let raw := FormatUint d0 in
  let ds := string_of (rev (drop_while (λ b, (b =? 48)%N) (rev (bytes_of raw)))) in
  let n := Z.of_nat (String.length ds) in
  (* one digit rounded up to 10 moves the point *)
  let p := if (d0 =? 10)%N then (p0 + 1)%Z else p0 in
  let small := (p <=? -6)%Z in
  let large := (21 <? p)%Z in
  sign +:+
  if small || large then
    let x := (p - 1)%Z in
    let tail := drop_chars 1 ds in
    take_chars 1 ds +:+ (if str_eqb tail "" then "" else "." +:+ tail) +:+ "e" +:+
    (if (x <? 0)%Z then "-" else "+") +:+ FormatUint (Z.to_N (Z.abs x))
  else if (p <=? 0)%Z then "0." +:+ zeros (Z.to_nat (- p)) +:+ ds
  else if (n <=? p)%Z then ds +:+ zeros (Z.to_nat (p - n))
  else take_chars (Z.to_nat p) ds +:+ "." +:+ drop_chars (Z.to_nat p) ds.

(** The number literal [json.Marshal] writes for the float64 a literal reads
    as; [None] when the literal is out of range. *)
Definition number_any (lit : string) : option string :=
  match scan_number lit with
  | Some (neg, n, e) =>
      match decimal_float64 n e with
      | Some (m, e') => Some (float64_text neg m e')
      | None => None
      end
  | None => None
  end.

(** [json.Unmarshal] into [any] followed by [json.Marshal]: numbers go through
    float64, members are ordered by key and the last of equal keys is kept. *)
Fixpoint canonical_any (j : json) : option json :=
  match j with
  | JNum lit => JNum <$> number_any lit
  | JArr l => JArr <$> mapM canonical_any l
  | JObj ms =>
      (λ l, JObj (foldl (λ acc m, assoc_insert m.1 m.2 acc) [] l))
        <$> mapM (λ m : string * json, pair m.1 <$> canonical_any m.2) ms
  | _ => Some j
  end.

Example number_any_int : number_any "42" = Some "42". Proof. vm_compute. reflexivity. Qed.
Example number_any_frac : number_any "0.1" = Some "0.1". Proof. vm_compute. reflexivity. Qed.
Example number_any_neg : number_any "-12.500" = Some "-12.5". Proof. vm_compute. reflexivity. Qed.
Example number_any_e : number_any "1E+2" = Some "100". Proof. vm_compute. reflexivity. Qed.
Example number_any_large : number_any "1e21" = Some "1e+21". Proof. vm_compute. reflexivity. Qed.
Example number_any_below : number_any "999999999999999999999" = Some "1e+21". Proof. vm_compute. reflexivity. Qed.
Example number_any_f : number_any "123456789012345678" = Some "123456789012345680". Proof. vm_compute. reflexivity. Qed.
Example number_any_small : number_any "0.0000001" = Some "1e-7". Proof. vm_compute. reflexivity. Qed.
Example number_any_micro : number_any "0.000001" = Some "0.000001". Proof. vm_compute. reflexivity. Qed.
Example number_any_min : number_any "5e-324" = Some "5e-324". Proof. vm_compute. reflexivity. Qed.
Example number_any_max : number_any "1.7976931348623157e308" = Some "1.7976931348623157e+308". Proof. vm_compute. reflexivity. Qed.
Example number_any_over : number_any "1e400" = None. Proof. vm_compute. reflexivity. Qed.
Example number_any_2_53 : number_any "9007199254740993" = Some "9007199254740992". Proof. vm_compute. reflexivity. Qed.
Example json_text_escape : json_text (JObj [("a", JStr "<x>"); ("b", JArr [JNull; JBool true; JNum "7"])])
  = "{" +:+ quote +:+ "a" +:+ quote +:+ ":" +:+ quote +:+ "\u003cx\u003e" +:+ quote +:+ "," +:+
    quote +:+ "b" +:+ quote +:+ ":[null,true,7]}".
Proof. vm_compute. reflexivity. Qed.

(** Decode the next member of an encoded struct; what is left is the decoding
    of its value and the rest. *)
Ltac dec_member :=
  eapply dec_fields_field;
    [reflexivity
    |apply set_field_Some; first [eapply dec_enc_uint; eassumption | eapply dec_enc_string; eassumption | idtac]
    |].

(** The same for an optional member whose value [tac] decodes. *)
Ltac dec_optional_by tac :=
  eapply dec_fields_optional;
    [reflexivity|intros _; apply set_field_Some; solve [tac]|intros Hb; bool_simpl; cbn in Hb; subst; reflexivity|].
Ltac dec_optional := dec_optional_by ltac:(first [eapply dec_enc_uint; eassumption|eapply dec_enc_string; eassumption]).
