(* ===== verification/GoTime.v ===== *)
(** * GoTime: what the program uses of package time

    A [time.Time] is its instant in nanoseconds since the Unix epoch and the
    offset of its zone in seconds; the monotonic reading is not represented.
    A [time.Duration] is a 64-bit count of nanoseconds ([Z] in range). *)
From S2P Require Import Prelude Text Json.
From stdpp Require Import options.
From Stdlib Require Import Ascii.

Record time := Time_ { t_ns : Z; t_off : Z }.

#[export] Instance time_eq_dec : EqDecision time.
Proof. solve_decision. Defined.

Abbreviation duration := Z (only parsing).
Definition nanosecond : duration := 1%Z.
Definition millisecond : duration := (10 ^ 6)%Z.
Definition second : duration := (10 ^ 9)%Z.
Definition minute : duration := (60 * second)%Z.

(** [time.Time{}]: midnight of January 1, year 1, UTC. *)
Definition zero_time : time := Time_ (-62135596800 * second)%Z 0.
Definition time_IsZero (t : time) : bool := (t_ns t =? t_ns zero_time)%Z.
Definition time_After (t u : time) : bool := (t_ns u <? t_ns t)%Z.
Definition time_Before (t u : time) : bool := (t_ns t <? t_ns u)%Z.
Definition time_Add (t : time) (d : duration) : time := Time_ (t_ns t + d)%Z (t_off t).

(** [t.Sub(u)], which saturates. *)
Definition time_Sub (t u : time) : duration :=
  Z.max i64_min (Z.min i64_max (t_ns t - t_ns u)).

(** ** Calendar *)

(** Days since 1970-01-01 of a date of the proleptic Gregorian calendar, with
    years counted from March. *)
Definition days_of_civil (y m d : Z) : Z :=
  let y' := if (m <=? 2)%Z then (y - 1)%Z else y in
  let era := (y' / 400)%Z in
  let yoe := (y' - era * 400)%Z in
  let mp := ((m + 9) mod 12)%Z in
  let doy := ((153 * mp + 2) / 5 + d - 1)%Z in
  let doe := (yoe * 365 + yoe / 4 - yoe / 100 + doy)%Z in
  (era * 146097 + doe - 719468)%Z.

Definition civil_of_days (n : Z) : Z * Z * Z :=
  let z := (n + 719468)%Z in
  let era := (z / 146097)%Z in
  let doe := (z - era * 146097)%Z in
  let yoe := ((doe - doe / 1460 + doe / 36524 - doe / 146096) / 365)%Z in
  let doy := (doe - (365 * yoe + yoe / 4 - yoe / 100))%Z in
  let mp := ((5 * doy + 2) / 153)%Z in
  let d := (doy - (153 * mp + 2) / 5 + 1)%Z in
  let m := if (mp <? 10)%Z then (mp + 3)%Z else (mp - 9)%Z in
  let y := (yoe + era * 400)%Z in
  ((if (m <=? 2)%Z then y + 1 else y)%Z, m, d).

Definition leap (y : Z) : bool :=
  ((y mod 4 =? 0) && (negb (y mod 100 =? 0) || (y mod 400 =? 0)))%Z.

Definition days_in_month (y m : Z) : Z :=
  if (m =? 2)%Z then (if leap y then 29 else 28)%Z
  else if ((m =? 4) || (m =? 6) || (m =? 9) || (m =? 11))%Z then 30%Z else 31%Z.

(** ** RFC 3339 *)

(** [n] decimal digits of [v]. *)
Fixpoint pad_digits (n : nat) (v : Z) : string :=
  match n with
  | 0 => ""
  | S n' => pad_digits n' (v / 10) +:+ String (ascii_of_N (48 + Z.to_N (v mod 10))) ""
  end.

Definition trim_zeros (s : string) : string := TrimRightChar "0" s.

(** [Time.MarshalJSON]: RFC 3339 with nanoseconds, an error for a year outside
    [0,9999] or a zone hour outside [0,23]. *)
Definition time_text (t : time) : result string :=
  let local := (t_ns t + t_off t * second)%Z in
  let secs := (local / second)%Z in
  let nanos := (local mod second)%Z in
  let '(y, m, d) := civil_of_days (secs / 86400) in
  let s := (secs mod 86400)%Z in
  let frac := trim_zeros (pad_digits 9 nanos) in
  let zone := Z.quot (t_off t) 60 in
  if ((y <? 0) || (9999 <? y))%Z then Err "year outside of range [0,9999]"
  else if (23 <? Z.abs zone / 60)%Z then Err "timezone hour outside of range [0,23]"
  else Ok (pad_digits 4 y +:+ "-" +:+ pad_digits 2 m +:+ "-" +:+ pad_digits 2 d +:+ "T"
    +:+ pad_digits 2 (s / 3600) +:+ ":" +:+ pad_digits 2 (s / 60 mod 60) +:+ ":"
    +:+ pad_digits 2 (s mod 60)
    +:+ (if str_eqb frac "" then "" else "." +:+ frac)
    +:+ (if (t_off t =? 0)%Z then "Z"
         else (if (zone <? 0)%Z then "-" else "+")
              +:+ pad_digits 2 (Z.abs zone / 60) +:+ ":" +:+ pad_digits 2 (Z.abs zone mod 60))).

Definition enc_time (t : time) : result json :=
  match time_text t with Ok s => Ok (JStr s) | Err e => Err e end.

(** Exactly [n] digits at the head of [s]. *)
Fixpoint read_digits (n : nat) (acc : Z) (s : string) : option (Z * string) :=
  match n with
  | 0 => Some (acc, s)
  | S n' => match s with
            | String c s' => match digit_value c with
                             | Some d => read_digits n' (10 * acc + Z.of_N d)%Z s'
                             | None => None
                             end
            | EmptyString => None
            end
  end.

Definition read_char (c : ascii) (s : string) : option string :=
  match s with
  | String a s' => if bool_decide (a = c) then Some s' else None
  | EmptyString => None
  end.

(** Nanoseconds of a fraction: nine digits count, later ones are dropped. *)
Definition frac_nanos (ds : string) : Z :=
  let padded := take_chars 9 (ds +:+ "000000000") in
  match parse_digits 0 padded with Some n => Z.of_N n | None => 0%Z end.

Definition in_range (lo v hi : Z) : option unit :=
  if ((lo <=? v) && (v <=? hi))%Z then Some tt else None.

(** [Time.UnmarshalJSON] on the content of a JSON string: strict RFC 3339. *)
Definition parse_time (s : string) : option time :=
  '(y, s) ← read_digits 4 0 s; s ← read_char "-" s;
  '(mo, s) ← read_digits 2 0 s; s ← read_char "-" s;
  '(d, s) ← read_digits 2 0 s; s ← read_char "T" s;
  '(h, s) ← read_digits 2 0 s; s ← read_char ":" s;
  '(mi, s) ← read_digits 2 0 s; s ← read_char ":" s;
  '(sec, s) ← read_digits 2 0 s;
  _ ← in_range 1 mo 12; _ ← in_range 1 d (days_in_month y mo);
  _ ← in_range 0 h 23; _ ← in_range 0 mi 59; _ ← in_range 0 sec 59;
  let '(ns, s) := match s with
    | String "." s' => let '(ds, r) := split_digits s' in
                       if str_eqb ds "" then (0%Z, s) else (frac_nanos ds, r)
    | _ => (0%Z, s)
    end in
  let base := (days_of_civil y mo d * 86400 + h * 3600 + mi * 60 + sec)%Z in
  match s with
  | "Z" => Some (Time_ (base * second + ns)%Z 0)
  | String ("+" | "-") s' =>
      '(zh, s1) ← read_digits 2 0 s'; s1 ← read_char ":" s1;
      '(zm, s1) ← read_digits 2 0 s1;
      _ ← in_range 0 zh 23; _ ← in_range 0 zm 59;
      if str_eqb s1 "" then
        let off := (if has_prefix "-" s then - (zh * 3600 + zm * 60) else zh * 3600 + zm * 60)%Z in
        Some (Time_ ((base - off) * second + ns)%Z off)
      else None
  | _ => None
  end.

Definition dec_time (j : json) (cur : time) : option time :=
  match j with JNull => Some cur | JStr s => parse_time s | _ => None end.

Example time_text_zero : time_text zero_time = Ok "0001-01-01T00:00:00Z".
Proof. vm_compute. reflexivity. Qed.
Example time_text_frac : time_text (Time_ 1700000000123400000 0) = Ok "2023-11-14T22:13:20.1234Z".
Proof. vm_compute. reflexivity. Qed.
Example time_text_zone : time_text (Time_ 1700000000000000000 (-12600)) = Ok "2023-11-14T18:43:20-03:30".
Proof. vm_compute. reflexivity. Qed.
Example parse_time_zone : parse_time "2023-11-14T18:43:20-03:30" = Some (Time_ 1700000000000000000 (-12600)).
Proof. vm_compute. reflexivity. Qed.
Example parse_time_leap : parse_time "2024-02-29T00:00:00Z" = Some (Time_ 1709164800000000000 0).
Proof. vm_compute. reflexivity. Qed.
Example parse_time_bad : parse_time "2023-02-29T00:00:00Z" = None.
Proof. vm_compute. reflexivity. Qed.

(** ** Lemmas *)

Lemma civil_of_days_range n y m d :
  civil_of_days n = (y, m, d) → (1 ≤ m ≤ 12 ∧ 1 ≤ d ≤ 31)%Z.
Proof.
  unfold civil_of_days. intros H. simplify_eq.
  set (z := (n + 719468)%Z). set (doe := (z - z / 146097 * 146097)%Z).
  assert (0 ≤ doe < 146097)%Z as Hdoe by (unfold doe; Z.to_euclidean_division_equations; lia).
  clearbody doe. clear z.
  set (yoe := ((doe - doe / 1460 + doe / 36524 - doe / 146096) / 365)%Z).
  set (doy := (doe - (365 * yoe + yoe / 4 - yoe / 100))%Z).
  assert (0 ≤ doy ≤ 365)%Z as Hdoy.
  { unfold doy, yoe. Z.to_euclidean_division_equations. lia. }
  clearbody doy. clear yoe.
  set (mp := ((5 * doy + 2) / 153)%Z).
  assert (0 ≤ mp ≤ 11)%Z as Hmp by (unfold mp; Z.to_euclidean_division_equations; lia).
  assert (0 ≤ doy - (153 * mp + 2) / 5 ≤ 30)%Z as Hd
    by (unfold mp; Z.to_euclidean_division_equations; lia).
  destruct (mp <? 10)%Z eqn:E; bool_simpl; lia.
Qed.
