(* ===== verification/GoTimeProofs.v ===== *)
(** * GoTimeProofs: a UTC time printed as RFC 3339 is read back *)
From S2P Require Import Prelude Text Json GoTime.
From stdpp Require Import options.
From Stdlib Require Import Ascii.

(** ** The calendar *)

(** The day of a year counted from March, with the year of the era it is in. *)
Definition era_day (doe : Z) : Z * Z :=
  let yoe := ((doe - doe / 1460 + doe / 36524 - doe / 146096) / 365)%Z in
  (yoe, doe - (365 * yoe + yoe / 4 - yoe / 100))%Z.

Definition month_day (doy : Z) : Z * Z :=
  let mp := ((5 * doy + 2) / 153)%Z in (mp, doy - (153 * mp + 2) / 5 + 1)%Z.

Lemma era_day_range doe :
  (0 ≤ doe < 146097)%Z → (0 ≤ (era_day doe).1 < 400 ∧ 0 ≤ (era_day doe).2 ≤ 365)%Z.
Proof. intros H. unfold era_day. cbn [fst snd]. Z.to_euclidean_division_equations. lia. Qed.

(** The last day of February is there in leap years only: a check of the 400
    years of an era. *)
Definition leap_checked (yoe : Z) : bool :=
  let doe := (365 * yoe + yoe / 4 - yoe / 100 + 365)%Z in
  negb (bool_decide (era_day doe = (yoe, 365%Z))) || leap (yoe + 1) || (146097 <=? doe)%Z.

Lemma leap_years_checked : forallb leap_checked (Z.of_nat <$> seq 0 400) = true.
Proof. vm_compute. reflexivity. Qed.

Lemma leap_era era y : leap (y + era * 400) = leap y.
Proof.
  unfold leap.
  assert ((y + era * 400) mod 4 = y mod 4)%Z as -> by (Z.to_euclidean_division_equations; lia).
  assert ((y + era * 400) mod 100 = y mod 100)%Z as -> by (Z.to_euclidean_division_equations; lia).
  by rewrite Z.mod_add.
Qed.

Lemma era_day_leap doe :
  (0 ≤ doe < 146097)%Z → (era_day doe).2 = 365%Z → leap ((era_day doe).1 + 1) = true.
Proof.
  intros Hd H. destruct (era_day_range _ Hd) as [Hy _]. destruct (era_day doe) as [yoe doy] eqn:He. cbn [fst snd] in *. subst.
  pose proof (proj1 (forallb_forall _ _) leap_years_checked yoe) as Hc.
  assert (doe = 365 * yoe + yoe / 4 - yoe / 100 + 365)%Z as Hdoe by (unfold era_day in He; simplify_eq; lia).
  unfold leap_checked in Hc. rewrite <- Hdoe, He, bool_decide_eq_true_2 in Hc by done.
  rewrite (proj2 (Z.leb_gt _ _)) in Hc by lia. cbn [negb orb] in Hc. rewrite orb_false_r in Hc. apply Hc.
  apply list_elem_of_In, list_elem_of_fmap. exists (Z.to_nat yoe). split; [lia|]. apply elem_of_seq. lia.
Qed.

Lemma month_day_range doy :
  (0 ≤ doy ≤ 365)%Z → let '(mp, d) := month_day doy in
  (0 ≤ mp ≤ 11 ∧ 1 ≤ d ∧ doy = (153 * mp + 2) / 5 + d - 1 ∧ d ≤ (153 * (mp + 1) + 2) / 5 - (153 * mp + 2) / 5
   ∧ (mp = 11 → d ≤ 29))%Z.
Proof. intros H. unfold month_day. Z.to_euclidean_division_equations. lia. Qed.

(** The months but February, counted from March. *)
Lemma month_length mp m d y :
  (0 ≤ mp ≤ 11)%Z → m = (if mp <? 10 then mp + 3 else mp - 9)%Z → m ≠ 2%Z →
  (d ≤ (153 * (mp + 1) + 2) / 5 - (153 * mp + 2) / 5)%Z → (d ≤ days_in_month y m)%Z.
Proof.
  intros Hmp -> H2 Hlen. assert (mp = 0 ∨ mp = 1 ∨ mp = 2 ∨ mp = 3 ∨ mp = 4 ∨ mp = 5 ∨ mp = 6 ∨ mp = 7 ∨ mp = 8
    ∨ mp = 9 ∨ mp = 10 ∨ mp = 11)%Z as Hc by lia.
  destruct_or! Hc; subst mp; unfold days_in_month; simpl in H2 |- *; try lia; Z.to_euclidean_division_equations; try lia.
Qed.

(** The civil date of a day is a date, and it is the date of that day only. *)
Lemma civil_round_trip n y m d :
  civil_of_days n = (y, m, d) →
  days_of_civil y m d = n ∧ (1 ≤ m ≤ 12)%Z ∧ (1 ≤ d ≤ days_in_month y m)%Z.
Proof.
  unfold civil_of_days. set (z := (n + 719468)%Z). set (era := (z / 146097)%Z).
  assert (0 ≤ z - era * 146097 < 146097)%Z as Hdoe by (unfold era; Z.to_euclidean_division_equations; lia).
  set (doe := (z - era * 146097)%Z) in *. pose proof (era_day_range _ Hdoe) as [Hy Hd].
  pose proof (era_day_leap _ Hdoe) as Hleap.
  unfold era_day in Hy, Hd, Hleap. cbn [fst snd] in Hy, Hd, Hleap.
  set (yoe := ((doe - doe / 1460 + doe / 36524 - doe / 146096) / 365)%Z) in *.
  set (doy := (doe - (365 * yoe + yoe / 4 - yoe / 100))%Z) in *.
  pose proof (month_day_range _ Hd) as Hm. unfold month_day in Hm.
  set (mp := ((5 * doy + 2) / 153)%Z) in *. destruct Hm as (Hmp & Hd1 & Hdoy & Hlen & Hfeb).
  set (dd := (doy - (153 * mp + 2) / 5 + 1)%Z) in *.
  intros [= <- <- <-]. unfold days_of_civil.
  assert (era * 400 ≤ yoe + era * 400 < (era + 1) * 400)%Z as Hera by lia.
  assert ((yoe + era * 400) / 400 = era)%Z as He by (Z.to_euclidean_division_equations; lia).
  assert (((if mp <? 10 then mp + 3 else mp - 9) + 9) mod 12 = mp)%Z as Hmp'.
  { destruct (mp <? 10)%Z eqn:E; bool_simpl; [|rewrite Z.mod_small; lia].
    replace (mp + 3 + 9)%Z with (mp + 1 * 12)%Z by lia. rewrite Z.mod_add by lia. apply Z.mod_small; lia. }
  set (m := (if mp <? 10 then mp + 3 else mp - 9)%Z) in *.
  assert (1 ≤ m ≤ 12)%Z as Hm12 by (unfold m; destruct (mp <? 10)%Z eqn:E; bool_simpl; lia).
  assert ((if m <=? 2 then (if m <=? 2 then yoe + era * 400 + 1 else yoe + era * 400) - 1
           else (if m <=? 2 then yoe + era * 400 + 1 else yoe + era * 400))%Z = (yoe + era * 400)%Z) as ->
    by (destruct (m <=? 2)%Z; lia).
  rewrite He, Hmp'. split_and!; [|lia|lia|lia|].
  { replace (yoe + era * 400 - era * 400)%Z with yoe by lia. unfold z, doe in *. lia. }
  destruct (m =? 2)%Z eqn:E2; bool_simpl.
  - assert (mp = 11)%Z as Hmp11 by (unfold m in E2; destruct (mp <? 10)%Z eqn:E; bool_simpl; lia).
    unfold days_in_month. rewrite E2. cbn [Z.leb Z.eqb Pos.eqb Z.compare Pos.compare Pos.compare_cont].
    replace (yoe + era * 400 + 1)%Z with (yoe + 1 + era * 400)%Z by lia. rewrite leap_era.
    destruct (decide (doy = 365)%Z) as [H365|H365]; [rewrite Hleap by done; lia|].
    rewrite Hmp11 in Hdoy. change ((153 * 11 + 2) / 5)%Z with 337%Z in Hdoy. destruct (leap _); lia.
  - by apply month_length with mp.
Qed.

(** ** Digits *)

Fixpoint all_digits (s : string) : Prop :=
  match s with "" => True | String c s' => digit_value c ≠ None ∧ all_digits s' end.

Lemma digit_char v : (0 ≤ v < 10)%Z → digit_value (ascii_of_N (48 + Z.to_N v)) = Some (Z.to_N v).
Proof.
  intros Hv. assert (v = 0 ∨ v = 1 ∨ v = 2 ∨ v = 3 ∨ v = 4 ∨ v = 5 ∨ v = 6 ∨ v = 7 ∨ v = 8 ∨ v = 9)%Z as Hc by lia.
  by destruct_or! Hc; subst.
Qed.

Lemma mod_pow_S v n : (0 ≤ v → 10 * ((v / 10) mod 10 ^ Z.of_nat n) + v mod 10 = v mod 10 ^ Z.of_nat (S n))%Z.
Proof.
  intros Hv. replace (10 ^ Z.of_nat (S n))%Z with (10 * 10 ^ Z.of_nat n)%Z
    by (rewrite Nat2Z.inj_succ, Z.pow_succ_r; lia).
  rewrite Z.rem_mul_r; [lia|lia|]. apply Z.pow_pos_nonneg; lia.
Qed.

Lemma read_pad n k v acc s :
  (0 ≤ v)%Z → read_digits (n + k) acc (pad_digits n v +:+ s)
    = read_digits k (acc * 10 ^ Z.of_nat n + v mod 10 ^ Z.of_nat n) s.
Proof.
  revert k v acc s. induction n as [|n IH]; intros k v acc s Hv.
  { cbn [pad_digits]. rewrite Z.mod_1_r. change (0 + k) with k. f_equal. lia. }
  cbn [pad_digits]. rewrite append_assoc_str. change (S n + k) with (S (n + k)). rewrite plus_n_Sm.
  rewrite IH by (apply Z.div_pos; lia).
  match goal with |- context [String ?c "" +:+ s] => change (String c "" +:+ s) with (String c s) end.
  cbn [read_digits]. rewrite digit_char by (apply Z.mod_pos_bound; lia). f_equal.
  rewrite Z2N.id by (apply Z.mod_pos_bound; lia). rewrite <- (mod_pow_S v n Hv).
  rewrite Nat2Z.inj_succ, Z.pow_succ_r by lia. lia.
Qed.

Lemma read_pad_exact n v s :
  (0 ≤ v < 10 ^ Z.of_nat n)%Z → read_digits n 0 (pad_digits n v +:+ s) = Some (v, s).
Proof.
  intros Hv. rewrite (plus_n_O n) at 1. rewrite read_pad by lia. simpl. by rewrite Z.mod_small.
Qed.

Lemma pad_all_digits n v : (0 ≤ v)%Z → all_digits (pad_digits n v).
Proof.
  assert (∀ a c, all_digits a → digit_value c ≠ None → all_digits (a +:+ String c "")) as Happ.
  { intros a c. induction a as [|x a IH]; [by repeat split|]. intros [??] ?. split; [done|by apply IH]. }
  revert v. induction n as [|n IH]; intros v Hv; [done|]. cbn [pad_digits]. apply Happ.
  - apply IH. apply Z.div_pos; lia.
  - by rewrite digit_char by (apply Z.mod_pos_bound; lia).
Qed.

Lemma length_append (a b : string) : String.length (a +:+ b) = String.length a + String.length b.
Proof. induction a as [|c a IH]; [done|]. simpl. by f_equal. Qed.

Lemma pad_length n v : String.length (pad_digits n v) = n.
Proof.
  revert v. induction n as [|n IH]; intros v; [done|]. cbn [pad_digits].
  rewrite length_append, IH. simpl. lia.
Qed.

Lemma split_digits_app a s :
  all_digits a → match s with String c _ => digit_value c = None | "" => True end → split_digits (a +:+ s) = (a, s).
Proof.
  intros Ha Hs. induction a as [|c a IH].
  - change ("" +:+ s) with s. destruct s as [|c s]; [done|]. simpl. by rewrite Hs.
  - destruct Ha as [Hc Ha]. change (String c a +:+ s) with (String c (a +:+ s)). cbn [split_digits].
    destruct (digit_value c); [|done]. by rewrite IH.
Qed.

Lemma parse_digits_read n acc s v :
  read_digits n (Z.of_N acc) s = Some (v, "") → parse_digits acc s = Some (Z.to_N v).
Proof.
  revert acc s. induction n as [|n IH]; intros acc s; cbn [read_digits].
  - intros [= <- ->]. by rewrite N2Z.id.
  - destruct s as [|c s]; [done|]. cbn [parse_digits]. destruct (digit_value c) as [d|]; [|done].
    intros H. apply IH. rewrite <- H. f_equal. lia.
Qed.

(** ** The fraction of a second *)

Definition zeros (k : nat) : string := string_of (replicate k 48%N).

Lemma string_of_bytes s : string_of (bytes_of s) = s.
Proof. induction s as [|c s IH]; simpl; [done|]. by rewrite ascii_N_embedding, IH. Qed.

Lemma string_of_app l k : string_of (l ++ k) = string_of l +:+ string_of k.
Proof.
  induction l as [|b l IH]; [done|]. simpl. rewrite IH.
  by change (String (ascii_of_N b) (string_of l) +:+ string_of k) with (String (ascii_of_N b) (string_of l +:+ string_of k)).
Qed.

Lemma drop_while_split {A} (f : A → bool) l : ∃ l0, l = l0 ++ drop_while f l ∧ Forall (λ x, f x = true) l0.
Proof.
  induction l as [|x l (l0 & Hl & H0)]; [by exists []|]. simpl. destruct (f x) eqn:Hx; [|by exists []].
  exists (x :: l0). split; [simpl; by f_equal|by constructor].
Qed.

Lemma trim_zeros_spec s : ∃ k, s = trim_zeros s +:+ zeros k.
Proof.
  unfold trim_zeros, TrimRightChar.
  destruct (drop_while_split (λ b, (b =? N_of_ascii "0")%N) (rev (bytes_of s))) as (l0 & Hl & H0).
  exists (length l0). rewrite <- (string_of_bytes s) at 1. rewrite <- (rev_involutive (bytes_of s)), Hl, rev_app_distr at 1.
  rewrite string_of_app. f_equal. unfold zeros. f_equal.
  symmetry. apply replicate_as_Forall. rewrite length_rev. split; [done|].
  apply Forall_rev. eapply Forall_impl; [exact H0|]. intros b Hb. simpl in Hb. bool_simpl. by rewrite Hb.
Qed.

Lemma bytes_of_app a b : bytes_of (a +:+ b) = bytes_of a ++ bytes_of b.
Proof. induction a as [|c a IH]; [done|]. simpl. by rewrite <- IH. Qed.

Lemma length_bytes_of s : length (bytes_of s) = String.length s.
Proof. induction s; simpl; congruence. Qed.

Lemma take_chars_app n a b : String.length a = n → take_chars n (a +:+ b) = a.
Proof.
  intros <-. unfold take_chars. rewrite bytes_of_app, take_app_length', string_of_bytes; [done|]. by rewrite length_bytes_of.
Qed.

Lemma zeros_add j k : zeros (j + k) = zeros j +:+ zeros k.
Proof. unfold zeros. by rewrite replicate_add, string_of_app. Qed.

Lemma zeros_length k : String.length (zeros k) = k.
Proof. unfold zeros. induction k; simpl; congruence. Qed.

Lemma all_digits_app a b : all_digits (a +:+ b) ↔ all_digits a ∧ all_digits b.
Proof.
  induction a as [|c a IH]; [change ("" +:+ b) with b; simpl; tauto|].
  change (String c a +:+ b) with (String c (a +:+ b)). simpl. rewrite IH. tauto.
Qed.

(** The printed fraction, with its point, is read back to its end. *)
Lemma frac_round_trip ns : (0 ≤ ns < second)%Z →
  all_digits (trim_zeros (pad_digits 9 ns)) ∧ frac_nanos (trim_zeros (pad_digits 9 ns)) = ns
  ∧ (trim_zeros (pad_digits 9 ns) = "" → ns = 0%Z).
Proof.
  intros Hns. destruct (trim_zeros_spec (pad_digits 9 ns)) as [k Hk]. set (f := trim_zeros _) in *.
  assert (k ≤ 9) as Hk9.
  { pose proof (f_equal String.length Hk) as Hl. rewrite length_append, zeros_length, pad_length in Hl. lia. }
  assert (parse_digits 0 (pad_digits 9 ns) = Some (Z.to_N ns)) as Hp.
  { apply (parse_digits_read 9). rewrite <- (append_nil_r_str (pad_digits 9 ns)). by apply read_pad_exact. }
  assert (frac_nanos f = ns) as Hf.
  { unfold frac_nanos. change "000000000" with (zeros 9). replace 9 with (k + (9 - k)) at 2 by lia.
    rewrite zeros_add, <- append_assoc_str, <- Hk, take_chars_app by apply pad_length. rewrite Hp. lia. }
  split_and!; [|done|].
  - apply (all_digits_app f (zeros k)). rewrite <- Hk. apply pad_all_digits. lia.
  - intros H0. rewrite H0 in Hf. by rewrite <- Hf.
Qed.

(** ** RFC 3339 *)

Lemma read_char_hit c s : read_char c (String c s) = Some s.
Proof. simpl. by rewrite bool_decide_eq_true_2. Qed.

Lemma in_range_hit lo v hi : (lo ≤ v ≤ hi)%Z → in_range lo v hi = Some tt.
Proof. intros [H1 H2]. unfold in_range. by rewrite (proj2 (Z.leb_le _ _) H1), (proj2 (Z.leb_le _ _) H2). Qed.

Lemma read_char_app c (s : string) : read_char c (String c "" +:+ s) = Some s.
Proof. exact (read_char_hit c s). Qed.

#[local] Opaque pad_digits.

(** What follows the seconds: an optional fraction, then the zone. *)
Lemma frac_then_zone ns :
  (0 ≤ ns < second)%Z →
  let frac := trim_zeros (pad_digits 9 ns) in
  match (if str_eqb frac "" then "" else "." +:+ frac) +:+ "Z" with
  | String "." s' => let '(ds, r) := split_digits s' in
                     if str_eqb ds "" then (0%Z, (if str_eqb frac "" then "" else "." +:+ frac) +:+ "Z")
                     else (frac_nanos ds, r)
  | _ => (0%Z, (if str_eqb frac "" then "" else "." +:+ frac) +:+ "Z")
  end = (ns, "Z").
Proof.
  intros Hns frac. destruct (frac_round_trip ns Hns) as (Hd & Hf & H0). fold frac in Hd, Hf, H0.
  destruct (str_eqb frac "") eqn:He; bool_simpl.
  - by rewrite (H0 He).
  - rewrite append_assoc_str. change ("." +:+ frac +:+ "Z") with (String "." (frac +:+ "Z")). cbn iota beta.
    rewrite split_digits_app by done. rewrite str_eqb_neq by done. by rewrite Hf.
Qed.

(** A time in UTC is read back from its text. *)
Lemma time_round_trip t s :
  t_off t = 0%Z → time_text t = Ok s → parse_time s = Some t.
Proof.
  destruct t as [x off]. cbn [t_off t_ns]. intros ->. unfold time_text. cbn [t_off t_ns].
  replace (x + 0 * second)%Z with x by lia.
  assert (0 ≤ x mod second < second)%Z as Hns by by apply Z.mod_pos_bound.
  set (secs := (x / second)%Z). assert (0 ≤ secs mod 86400 < 86400)%Z as Hs by by apply Z.mod_pos_bound.
  set (h := (secs mod 86400)%Z) in *. destruct (civil_of_days (secs / 86400)) as [[y m] d] eqn:Hc.
  destruct (civil_round_trip _ _ _ _ Hc) as (Hdays & Hm & Hd).
  destruct (_ || _)%bool eqn:Hy; bool_simpl; [done|]. change (23 <? Z.abs (Z.quot 0 60) / 60)%Z with false.
  cbn iota. change ((0 =? 0)%Z) with true. cbn iota. intros [= <-].
  assert (days_in_month y m ≤ 31)%Z as Hmax.
  { unfold days_in_month. destruct (m =? 2)%Z; [destruct (leap y)|destruct (_ || _)%bool]; lia. }
  assert (0 ≤ h / 3600 ≤ 23 ∧ 0 ≤ h / 60 mod 60 ≤ 59 ∧ 0 ≤ h mod 60 ≤ 59)%Z as (Hh & Hmi & Hse)
    by (Z.to_euclidean_division_equations; lia).
  unfold parse_time.
  repeat (first [rewrite read_pad_exact by (simpl; lia)|rewrite read_char_app]; cbn [mbind option_bind]).
  rewrite !in_range_hit by lia. cbn [mbind option_bind].
  pose proof (frac_then_zone _ Hns) as Hz. cbv zeta in Hz. rewrite Hz. do 2 f_equal.
  rewrite Hdays. unfold h, secs in *. clear -Hns. set (q := (x / second)%Z).
  assert (q = q / 86400 * 86400 + (q mod 86400) / 3600 * 3600 + (q mod 86400) / 60 mod 60 * 60
    + (q mod 86400) mod 60)%Z as Hq by (clear; Z.to_euclidean_division_equations; lia).
  rewrite <- Hq. unfold q. pose proof (Z.div_mod x second ltac:(done)). lia.
Qed.

(** The codec of times in UTC. *)
Lemma dec_enc_time t j cur : t_off t = 0%Z → enc_time t = Ok j → dec_time j cur = Some t.
Proof.
  intros Hoff. unfold enc_time. destruct (time_text t) as [s|] eqn:Ht; [|done]. intros [= <-].
  by apply time_round_trip.
Qed.
