(* ===== verification/Duration.v ===== *)
(** * Duration: durations as the configuration writes them (duration.go)

    [Duration] is an int64 count of nanoseconds; conversions from seconds
    multiply and wrap.  [time_ParseDuration] and [duration_text] follow
    [time.ParseDuration] and [time.Duration.String]; the fraction of a unit is
    computed in float64 as there. *)
From S2P Require Import Prelude Text Json GoTime.
From stdpp Require Import options.
From Stdlib Require Import Ascii.
#[local] Open Scope go_scope.

Definition microsecond : duration := 1000.
Definition hour : duration := (60 * minute)%Z.

(** ** Non-negative float64 values [m * 2^e] *)

Definition float64 : Type := N * Z.

Definition float_num (f : float64) : N := (f.1 * pow2 (f.2))%N.
Definition float_den (f : float64) : N := pow2 (- f.2).
Definition float_of (n : N) : float64 := default (0%N, 0%Z) (round_float64 n 1).
Definition float_mul (a b : float64) : float64 :=
  default (0%N, 0%Z) (round_float64 (float_num a * float_num b) (float_den a * float_den b)).
Definition float_div (a b : float64) : float64 :=
  default (0%N, 0%Z) (round_float64 (float_num a * float_den b) (float_den a * float_num b)).
(** Conversion to an integer drops the fraction. *)
Definition float_trunc (a : float64) : N := (float_num a / float_den a)%N.

(** ** [time.ParseDuration] *)

Definition two63 : N := 2 ^ 63.

(** Digits at the head; [None] past 2^63. *)
Fixpoint leadingInt (x : N) (s : string) : option (N * string) :=
  match s with
  | String c s' =>
      match digit_value c with
      | None => Some (x, s)
      | Some d =>
          if (two63 / 10 <? x)%N then None
          else let x := (x * 10 + d)%N in
               if (two63 <? x)%N then None else leadingInt x s'
      end
  | EmptyString => Some (x, s)
  end.

(** Digits after the point, with their scale; later digits are dropped. *)
Fixpoint leadingFraction (x : N) (scale : float64) (overflow : bool) (s : string) : N * float64 * string :=
  match s with
  | String c s' =>
      match digit_value c with
      | None => (x, scale, s)
      | Some d =>
          if overflow then leadingFraction x scale true s'
          else if ((two63 - 1) / 10 <? x)%N then leadingFraction x scale true s'
          else let y := (x * 10 + d)%N in
               if (two63 <? y)%N then leadingFraction x scale true s'
               else leadingFraction y (float_mul scale (float_of 10)) false s'
      end
  | EmptyString => (x, scale, s)
  end.

Definition unit_of (u : string) : option N :=
  if str_eqb u "ns" then Some 1%N
  else if str_eqb u "us" || str_eqb u (string_of [194; 181; 115]%N) || str_eqb u (string_of [206; 188; 115]%N)
  then Some (Z.to_N microsecond)
  else if str_eqb u "ms" then Some (Z.to_N millisecond)
  else if str_eqb u "s" then Some (Z.to_N second)
  else if str_eqb u "m" then Some (Z.to_N minute)
  else if str_eqb u "h" then Some (Z.to_N hour)
  else None.

Definition ends_unit (c : ascii) : bool :=
  bool_decide (c = "."%char) || match digit_value c with Some _ => true | None => false end.

Fixpoint take_unit (s : string) : string * string :=
  match s with
  | String c s' => if ends_unit c then ("", s) else let '(u, r) := take_unit s' in (String c u, r)
  | EmptyString => ("", "")
  end.

(** One number with its unit: its nanoseconds and what is left. *)
Definition parse_unit (s : string) : option (N * string) :=
  match s with
  | EmptyString => None
  | String c0 _ =>
      if negb (ends_unit c0) then None
      else match leadingInt 0 s with
      | None => None
      | Some (v, s1) =>
          let pre := negb (String.length s1 =? String.length s) in
          let '(f, scale, s2, post) :=
            match s1 with
            | String "." s1' =>
                let '(f, scale, s2) := leadingFraction 0 (1%N, 0%Z) false s1' in
                (f, scale, s2, negb (String.length s2 =? String.length s1'))
            | _ => (0%N, (1%N, 0%Z), s1, false)
            end in
          if negb pre && negb post then None
          else let '(u, rest) := take_unit s2 in
          match (if str_eqb u "" then None else unit_of u) with
          | None => None
          | Some unit =>
              if (two63 / unit <? v)%N then None
              else
                let v := (v * unit)%N in
                if (0 <? f)%N then
                  let v := ((v + float_trunc (float_mul (float_of f) (float_div (float_of unit) scale)))
                              mod u64_bound)%N in
                  if (two63 <? v)%N then None else Some (v, rest)
                else Some (v, rest)
          end
      end
  end.

(** The loop; every turn consumes a character. *)
Fixpoint parse_units (fuel : nat) (d : N) (s : string) : option N :=
  match s with
  | EmptyString => Some d
  | _ =>
      match fuel with
      | 0 => None
      | S fuel =>
          match parse_unit s with
          | None => None
          | Some (v, rest) =>
              let d := ((d + v) mod u64_bound)%N in
              if (two63 <? d)%N then None else parse_units fuel d rest
          end
      end
  end.

Definition time_ParseDuration (orig : string) : option duration :=
  let '(neg, s) := match orig with
                   | String "-" s => (true, s)
                   | String "+" s => (false, s)
                   | _ => (false, orig)
                   end in
  if str_eqb s "0" then Some 0%Z
  else if str_eqb s "" then None
  else match parse_units (String.length s) 0 s with
  | None => None
  | Some d =>
      if neg then Some (- Z.of_N d)%Z
      else if (two63 - 1 <? d)%N then None else Some (Z.of_N d)
  end.

Example parse_simple : time_ParseDuration "2m3.5s" = Some (123500 * millisecond)%Z.
Proof. vm_compute. reflexivity. Qed.
Example parse_neg : time_ParseDuration "-.25h" = Some (- 15 * minute)%Z.
Proof. vm_compute. reflexivity. Qed.
Example parse_bad : time_ParseDuration "3" = None /\ time_ParseDuration "s" = None
  /\ time_ParseDuration "9223372037s" = None.
Proof. vm_compute. auto. Qed.

(** [parseDuration] of node.go: a contact age, -1 when there is none. *)
Definition parseDuration (value : string) : duration :=
  if str_eqb value "never" || str_eqb value "" then (-1)%Z
  else default (-1)%Z (time_ParseDuration value).

Definition minDuration (a b : duration) : duration := if (a <? b)%Z then a else b.

(** ** [Duration] *)

(** [time.Duration(v) * time.Second] on int64. *)
Definition of_seconds (v : Z) : duration := i64_wrap (v * second).

Definition UnmarshalText (text : string) (d : duration) : result duration :=
  match time_ParseDuration text with Some v => Ok v | None => Err "time: invalid duration" end.

(** The values a TOML decoder hands over; a float64 by its integer part. *)
Inductive toml_value : Type :=
| TomlString (s : string)
| TomlInt64 (v : Z)
| TomlInt (v : Z)
| TomlFloat (integer_part : Z)
| TomlOther.

Definition UnmarshalTOML (value : toml_value) : result duration :=
  match value with
  | TomlString v => match time_ParseDuration v with Some d => Ok d | None => Err "time: invalid duration" end
  | TomlInt64 v | TomlInt v | TomlFloat v => Ok (of_seconds v)
  | TomlOther => Err "invalid duration value %T"
  end.

Definition ParseDuration (raw : string) : result duration :=
  match ParseInt64 raw with
  | Some seconds => Ok (of_seconds seconds)
  | None => match time_ParseDuration raw with Some d => Ok d | None => Err "time: invalid duration" end
  end.

(** ** [time.Duration.String] *)

(** A fraction of [prec] digits without trailing zeros, and the integer part. *)
Definition fmtFrac (prec : nat) (u : Z) : string * Z :=
  let digits := trim_zeros (pad_digits prec (u mod 10 ^ Z.of_nat prec)) in
  ((if str_eqb digits "" then "" else "." +:+ digits), (u / 10 ^ Z.of_nat prec)%Z).

Definition duration_text (d : duration) : string :=
  let u := Z.abs d in
  let sign := if (d <? 0)%Z then "-" else "" in
  if (u =? 0)%Z then "0s"
  else sign +:+
    if (u <? second)%Z then
      let '(prec, suffix) :=
        if (u <? microsecond)%Z then (0, "ns")
        else if (u <? millisecond)%Z then (3, string_of [194; 181; 115]%N)
        else (6, "ms") in
      let '(frac, n) := fmtFrac prec u in
      FormatInt n +:+ frac +:+ suffix
    else
      let '(frac, n) := fmtFrac 9 u in
      let minutes := (n / 60)%Z in
      (if (minutes =? 0)%Z then ""
       else (if (minutes / 60 =? 0)%Z then "" else FormatInt (minutes / 60) +:+ "h")
            +:+ FormatInt (minutes mod 60) +:+ "m")
      +:+ FormatInt (n mod 60) +:+ frac +:+ "s".

Example text_2s : duration_text (2 * second)%Z = "2s". Proof. vm_compute. reflexivity. Qed.
Example text_hm : duration_text (90 * minute + 1500 * millisecond)%Z = "1h30m1.5s".
Proof. vm_compute. reflexivity. Qed.
Example text_ms : duration_text (-1500000)%Z = "-1.5ms". Proof. vm_compute. reflexivity. Qed.

Definition MarshalText (d : duration) : string := duration_text d.

(** ** Properties *)

(** a bare number is read as seconds and multiplied on int64: the result is
    the number of seconds exactly when it fits in 64 bits, and otherwise wraps
    around without an error. *)
Theorem ParseDuration_seconds (v : Z) :
  i64_in_range v →
  ∃ d, ParseDuration (FormatInt v) = Ok d ∧ i64_in_range d
    ∧ (d = v * second ↔ i64_in_range (v * second))%Z
    ∧ (d mod 2 ^ 64 = (v * second) mod 2 ^ 64)%Z.
Proof.
  intros Hv. exists (of_seconds v). unfold ParseDuration. rewrite ParseInt64_FormatInt by done.
  split_and!; [done|apply i64_wrap_range| |apply i64_wrap_mod]. unfold of_seconds. split.
  - intros <-. apply i64_wrap_range.
  - apply i64_wrap_id.
Qed.

Lemma ParseDuration_seconds_witness :
  ParseDuration "9223372037" = Ok (-9223372036709551616)%Z
  ∧ ∃ d, ParseDuration "9223372037" = Ok d ∧ d ≠ (9223372037 * second)%Z.
Proof.
  split; [reflexivity|].
  destruct (ParseDuration_seconds 9223372037) as (d & H1 & H2 & H3 & _).
  - split; vm_compute; discriminate.
  - exists d. split; [exact H1|]. intros Heq. apply H3 in Heq as [_ Heq]. vm_compute in Heq. by apply Heq.
Defined.
