(* ===== verification/Config.v ===== *)
(** * Config: the configuration of a node (config.go)

    [NormalizeConfig] fills in the defaults and [ValidateConfig] checks what a
    clustered node needs.  [SplitHostPort] follows net.SplitHostPort; the URL
    parser of net/url is the argument [url_Parse], of which the code reads the
    five components of [parsed_url]. *)
From S2P Require Import Prelude Text Json GoTime Duration.
From stdpp Require Import options.
From Stdlib Require Import Ascii.
#[local] Open Scope go_scope.

Record TLSConfig := mkTLSConfig {
  tls_Enabled : bool;
  tls_CAFile : string;
  tls_CertFile : string;
  tls_KeyFile : string;
  tls_ServerName : string;
}.

Record Member := mkMember {
  mb_NodeID : string;
  mb_Addr : string;
  mb_InternalAPIURL : string;
}.

#[export] Instance Member_eq_dec : EqDecision Member.
Proof. solve_decision. Defined.

Definition zero_Member : Member := mkMember "" "" "".

Record Config := mkConfig {
  Enabled : bool;
  ClusterID : string;
  NodeID : string;
  ExternalAPIBindAddr : string;
  RaftBindAddr : string;
  RaftAdvertiseAddr : string;
  InternalAPIBindAddr : string;
  InternalAPIAdvertiseAddr : string;
  DataDir : string;
  BootstrapExpect : Z;
  JoinExisting : bool;
  InitialMembers : list string;
  MembershipAdminNodeIDs : list string;
  ReadConsistency : string;
  MaxLeaderContactAge : duration;
  MaxQuorumVerificationAge : duration;
  EmergencyStaleRead : bool;
  EmergencyStaleReadMaxAge : duration;
  SnapshotPublishInterval : duration;
  SnapshotPublishRetryMin : duration;
  SnapshotPublishRetryMax : duration;
  SnapshotFreshnessMaxAge : duration;
  SnapshotDurablePolicy : string;
  AdditionalNonVoterReplicas : Z;
  GenerationRetention : Z;
  GenerationPinTTL : duration;
  MaxSnapshotBlobBytes : Z;
  MaxSnapshotBlobPuts : Z;
  InternalTLS : TLSConfig;
}.

Definition DefaultReadConsistency : string := "bounded".
Definition DefaultMaxLeaderContactAge : duration := (2 * second)%Z.
Definition DefaultMaxQuorumVerificationAge : duration := (2 * second)%Z.
Definition DefaultEmergencyStaleReadMaxAge : duration := (15 * minute)%Z.
Definition DefaultSnapshotPublishInterval : duration := minute.
Definition DefaultSnapshotPublishRetryMin : duration := (5 * second)%Z.
Definition DefaultSnapshotPublishRetryMax : duration := minute.
Definition DefaultSnapshotFreshnessMaxAge : duration := (5 * minute)%Z.
Definition DefaultGenerationRetention : Z := 3.
Definition DefaultGenerationPinTTL : duration := (5 * minute)%Z.
Definition DefaultMaxSnapshotBlobBytes : Z := (512 * 1024 * 1024)%Z.
Definition DefaultMaxSnapshotBlobPuts : Z := 2.
Definition SnapshotDurablePolicyVoterQuorum : string := "voter_quorum".

(** [if x == "" { x = d }] and [if x <= 0 { x = d }]. *)
Definition str_or (x d : string) : string := if str_eqb x "" then d else x.
Definition pos_or (x d : Z) : Z := if (x <=? 0)%Z then d else x.

Definition NormalizeConfig (cfg : Config) : Config := {|
  Enabled := Enabled cfg;
  ClusterID := ClusterID cfg;
  NodeID := NodeID cfg;
  ExternalAPIBindAddr := ExternalAPIBindAddr cfg;
  RaftBindAddr := RaftBindAddr cfg;
  RaftAdvertiseAddr := RaftAdvertiseAddr cfg;
  InternalAPIBindAddr := InternalAPIBindAddr cfg;
  InternalAPIAdvertiseAddr := InternalAPIAdvertiseAddr cfg;
  DataDir := DataDir cfg;
  BootstrapExpect := BootstrapExpect cfg;
  JoinExisting := JoinExisting cfg;
  InitialMembers := InitialMembers cfg;
  MembershipAdminNodeIDs := MembershipAdminNodeIDs cfg;
  ReadConsistency := str_or (ReadConsistency cfg) DefaultReadConsistency;
  MaxLeaderContactAge := pos_or (MaxLeaderContactAge cfg) DefaultMaxLeaderContactAge;
  MaxQuorumVerificationAge := pos_or (MaxQuorumVerificationAge cfg) DefaultMaxQuorumVerificationAge;
  EmergencyStaleRead := EmergencyStaleRead cfg;
  EmergencyStaleReadMaxAge := pos_or (EmergencyStaleReadMaxAge cfg) DefaultEmergencyStaleReadMaxAge;
  SnapshotPublishInterval := pos_or (SnapshotPublishInterval cfg) DefaultSnapshotPublishInterval;
  SnapshotPublishRetryMin := pos_or (SnapshotPublishRetryMin cfg) DefaultSnapshotPublishRetryMin;
  SnapshotPublishRetryMax := pos_or (SnapshotPublishRetryMax cfg) DefaultSnapshotPublishRetryMax;
  SnapshotFreshnessMaxAge := pos_or (SnapshotFreshnessMaxAge cfg) DefaultSnapshotFreshnessMaxAge;
  SnapshotDurablePolicy := str_or (SnapshotDurablePolicy cfg) SnapshotDurablePolicyVoterQuorum;
  AdditionalNonVoterReplicas := AdditionalNonVoterReplicas cfg;
  GenerationRetention := pos_or (GenerationRetention cfg) DefaultGenerationRetention;
  GenerationPinTTL := pos_or (GenerationPinTTL cfg) DefaultGenerationPinTTL;
  MaxSnapshotBlobBytes := pos_or (MaxSnapshotBlobBytes cfg) DefaultMaxSnapshotBlobBytes;
  MaxSnapshotBlobPuts := pos_or (MaxSnapshotBlobPuts cfg) DefaultMaxSnapshotBlobPuts;
  InternalTLS := InternalTLS cfg;
|}.

(** ** Addresses *)

(** Positions of a byte, as [strings.IndexByte] and [strings.LastIndexByte]. *)
Fixpoint index_byte (c : ascii) (s : string) : option nat :=
  match s with
  | EmptyString => None
  | String a s' => if bool_decide (a = c) then Some 0 else S <$> index_byte c s'
  end.
Fixpoint last_index_byte (c : ascii) (s : string) : option nat :=
  match s with
  | EmptyString => None
  | String a s' => match last_index_byte c s' with
                   | Some i => Some (S i)
                   | None => if bool_decide (a = c) then Some 0 else None
                   end
  end.

Definition SplitHostPort (hostport : string) : result (string * string) :=
  match last_index_byte ":" hostport with
  | None => Err "missing port in address"
  | Some i =>
      let finish (host : string) (j k : nat) : result (string * string) :=
        if has_char "[" (drop_chars j hostport) then Err "unexpected '[' in address"
        else if has_char "]" (drop_chars k hostport) then Err "unexpected ']' in address"
        else Ok (host, drop_chars (S i) hostport) in
      match hostport with
      | String "[" _ =>
          match index_byte "]" hostport with
          | None => Err "missing ']' in address"
          | Some close =>
              if (S close =? String.length hostport) then Err "missing port in address"
              else if (S close =? i) then finish (take_chars (close - 1) (drop_chars 1 hostport)) 1 (S close)
              else match drop_chars (S close) hostport with
                   | String ":" _ => Err "too many colons in address"
                   | _ => Err "missing port in address"
                   end
          end
      | _ =>
          let host := take_chars i hostport in
          if has_char ":" host then Err "too many colons in address" else finish host 0 0
      end
  end.

Definition validateHostPort (addr : string) : result unit :=
  match SplitHostPort addr with
  | Err e => Err "%s must be host:port: %w"
  | Ok (host, port) =>
      if str_eqb (TrimSpace host) "" || str_eqb (TrimSpace port) ""
      then Err "%s must include host and port" else Ok tt
  end.

Record parsed_url := mkURL {
  u_Scheme : string;
  u_Host : string;
  u_Hostname : string;
  u_RawQuery : string;
  u_Fragment : string;
}.

Definition ParseInitialMember (item : string) : result Member :=
  match split_n "=" 2 item with
  | [id; rest] =>
      if str_eqb (TrimSpace id) "" || str_eqb (TrimSpace rest) ""
      then Err "cluster.initial_members entry %q must be node_id=host:port or node_id=host:port|https://internal-host:port"
      else
        match split_n "|" 2 (TrimSpace rest) with
        | [addr] => Ok (mkMember (TrimSpace id) (TrimSpace addr) "")
        | addr :: url :: _ =>
            Ok (mkMember (TrimSpace id) (TrimSpace addr) (TrimRightChar "/" (TrimSpace url)))
        | [] => Ok (mkMember (TrimSpace id) "" "")
        end
  | _ => Err "cluster.initial_members entry %q must be node_id=host:port or node_id=host:port|https://internal-host:port"
  end.

Fixpoint ParseInitialMembers (raw : list string) : result (list Member) :=
  match raw with
  | [] => Ok []
  | item :: raw =>
      let? member := ParseInitialMember item in
      let? members := ParseInitialMembers raw in
      Ok (member :: members)
  end.

Section validate.
Context (url_Parse : string → option parsed_url).

Definition validateInternalAdvertiseURL (raw : string) : result unit :=
  match url_Parse raw with
  | None => Err "cluster.internal_api_advertise_addr is invalid: %w"
  | Some parsed =>
      if negb (str_eqb (u_Scheme parsed) "https") || str_eqb (u_Host parsed) ""
      then Err "cluster.internal_api_advertise_addr must be an absolute https URL"
      else
        let host := u_Hostname parsed in
        if str_eqb host "0.0.0.0" || str_eqb host "::" || str_eqb host ""
        then Err "cluster.internal_api_advertise_addr must not use an unspecified address"
        else if negb (str_eqb (u_RawQuery parsed) "") || negb (str_eqb (u_Fragment parsed) "")
        then Err "cluster.internal_api_advertise_addr must not include query or fragment"
        else Ok tt
  end.

(** One turn of the loop over the initial members: the ids seen, and whether
    the node itself was among them. *)
Definition validateMember (node_id : string) (acc : gset string * bool) (member : Member)
    : result (gset string * bool) :=
  let '(seen, foundSelf) := acc in
  if bool_decide (mb_NodeID member ∈ seen)
  then Err "cluster.initial_members contains duplicate node_id %q"
  else
    let seen := {[ mb_NodeID member ]} ∪ seen in
    let foundSelf := foundSelf || str_eqb (mb_NodeID member) node_id in
    let? _ := validateHostPort (mb_Addr member) in
    if str_eqb (mb_InternalAPIURL member) "" then Ok (seen, foundSelf)
    else match validateInternalAdvertiseURL (mb_InternalAPIURL member) with
         | Err _ => Err "cluster.initial_members internal API for node %q: %w"
         | Ok _ => Ok (seen, foundSelf)
         end.

Definition ValidateConfig (cfg : Config) : result unit :=
  if negb (Enabled cfg) then Ok tt else
  if negb (str_eqb (ReadConsistency cfg) "bounded") && negb (str_eqb (ReadConsistency cfg) "linearizable")
  then Err "cluster.read_consistency must be %q or %q, got %q" else
  if (SnapshotPublishRetryMax cfg <? SnapshotPublishRetryMin cfg)%Z
  then Err "cluster.snapshot_publish_retry_min must not exceed cluster.snapshot_publish_retry_max" else
  if (EmergencyStaleReadMaxAge cfg <? SnapshotFreshnessMaxAge cfg)%Z && EmergencyStaleRead cfg
  then Err "cluster.emergency_stale_read_max_age must be at least cluster.snapshot_freshness_max_age" else
  if str_eqb (TrimSpace (ClusterID cfg)) ""
  then Err "cluster.cluster_id is required when cluster.enabled=true" else
  if str_eqb (TrimSpace (NodeID cfg)) ""
  then Err "cluster.node_id is required when cluster.enabled=true" else
  if str_eqb (TrimSpace (DataDir cfg)) ""
  then Err "cluster.data_dir is required when cluster.enabled=true" else
  let? _ := validateHostPort (RaftBindAddr cfg) in
  if negb (BootstrapExpect cfg =? 3)%Z
  then Err "cluster.bootstrap_expect must be 3 for the initial production topology, got %d" else
  if negb (Z.of_nat (length (InitialMembers cfg)) =? BootstrapExpect cfg)%Z
  then Err "cluster.initial_members must contain %d members, got %d" else
  let? members := ParseInitialMembers (InitialMembers cfg) in
  let? loop := rfold (validateMember (NodeID cfg)) (∅, false) members in
  if negb loop.2 && negb (JoinExisting cfg)
  then Err "cluster.node_id %q is not present in cluster.initial_members" else
  let? _ := validateHostPort (RaftAdvertiseAddr cfg) in
  if has_prefix "0.0.0.0:" (RaftAdvertiseAddr cfg) || has_prefix "[::]:" (RaftAdvertiseAddr cfg)
  then Err "cluster.raft_advertise_addr must not use an unspecified address" else
  let? _ := validateInternalAdvertiseURL (InternalAPIAdvertiseAddr cfg) in
  let? _ := validateHostPort (InternalAPIBindAddr cfg) in
  if negb (str_eqb (SnapshotDurablePolicy cfg) SnapshotDurablePolicyVoterQuorum)
  then Err "cluster.snapshot_durable_policy must be %q in production" else
  if (AdditionalNonVoterReplicas cfg <? 0)%Z
  then Err "cluster.additional_non_voter_replicas must not be negative" else
  if negb (tls_Enabled (InternalTLS cfg))
  then Err "cluster.internal_tls.enabled must be true when cluster.enabled=true" else
  if str_eqb (TrimSpace (tls_CAFile (InternalTLS cfg))) ""
     || str_eqb (TrimSpace (tls_CertFile (InternalTLS cfg))) ""
     || str_eqb (TrimSpace (tls_KeyFile (InternalTLS cfg))) ""
  then Err "cluster.internal_tls ca_file, cert_file and key_file are required when cluster.enabled=true"
  else Ok tt.

End validate.

(** ** Lemmas *)

Lemma NormalizeConfig_idemp cfg : NormalizeConfig (NormalizeConfig cfg) = NormalizeConfig cfg.
Proof.
  assert (∀ x d, (0 < d)%Z → pos_or (pos_or x d) d = pos_or x d) as Hp.
  { intros x d Hd. unfold pos_or. destruct (x <=? 0)%Z eqn:Hx; [|by rewrite Hx]. by destruct (d <=? 0)%Z. }
  assert (∀ x d, d ≠ "" → str_or (str_or x d) d = str_or x d) as Hs.
  { intros x d Hd. unfold str_or. destruct (str_eqb x "") eqn:Hx; [|by rewrite Hx]. by destruct (str_eqb d ""). }
  unfold NormalizeConfig. cbn. by rewrite !Hp, !Hs.
Qed.

Lemma pos_or_pos x d : (0 < d)%Z → (0 < pos_or x d)%Z.
Proof. unfold pos_or. destruct (x <=? 0)%Z eqn:H; bool_simpl; lia. Qed.

(** The loop over the members collects their ids without repetition. *)
Lemma validateMember_loop url_Parse node_id members seen found acc :
  rfold (validateMember url_Parse node_id) (seen, found) members = Ok acc →
  NoDup (mb_NodeID <$> members) ∧ (∀ m, m ∈ members → mb_NodeID m ∉ seen
    ∧ validateHostPort (mb_Addr m) = Ok tt
    ∧ (mb_InternalAPIURL m ≠ "" → validateInternalAdvertiseURL url_Parse (mb_InternalAPIURL m) = Ok tt))
  ∧ acc.2 = found || existsb (λ m, str_eqb (mb_NodeID m) node_id) members.
Proof.
  revert seen found. induction members as [|m members IH]; intros seen found.
  - intros [= <-]. simpl. split_and!; [constructor|by intros m Hm%not_elem_of_nil|by rewrite orb_false_r].
  - cbn [rfold]. intros H. apply rbind_Ok in H as ([seen' found'] & Hm & H).
    apply IH in H as (Hnd & Hall & Hf). unfold validateMember in Hm.
    case_bool_decide as Hs; [done|]. apply rbind_Ok in Hm as ([] & Hhp & Hm).
    assert (seen' = {[ mb_NodeID m ]} ∪ seen ∧ found' = found || str_eqb (mb_NodeID m) node_id
      ∧ (mb_InternalAPIURL m ≠ "" → validateInternalAdvertiseURL url_Parse (mb_InternalAPIURL m) = Ok tt)) as (-> & -> & Hurl).
    { destruct (str_eqb (mb_InternalAPIURL m) "") eqn:Hu; [by bool_simpl; injection Hm as <- <-|].
      by destruct (validateInternalAdvertiseURL _ _) as [[]|]; [injection Hm as <- <-|]. }
    split_and!.
    + rewrite fmap_cons, NoDup_cons. split; [|done].
      intros (m' & Hid & Hin)%list_elem_of_fmap. destruct (Hall m' Hin) as [Hni _]. set_solver.
    + intros m' [->|Hin]%elem_of_cons; [done|]. destruct (Hall m' Hin). set_solver.
    + rewrite Hf. cbn [existsb]. by rewrite orb_assoc.
Qed.

Lemma ParseInitialMembers_length raw members :
  ParseInitialMembers raw = Ok members → length members = length raw.
Proof.
  revert members. induction raw as [|item raw IH]; intros members; cbn [ParseInitialMembers]; [by intros [= <-]|].
  intros (m & _ & H)%rbind_Ok. apply rbind_Ok in H as (ms & Hms & [= <-]). simpl. by rewrite (IH ms).
Qed.

(** ** Properties *)

(** What [NewNode] may rely on for an enabled cluster. *)
Record config_ok (url_Parse : string → option parsed_url) (cfg : Config) : Prop := {
  co_consistency : ReadConsistency cfg = "bounded" ∨ ReadConsistency cfg = "linearizable";
  co_ages : (0 < MaxLeaderContactAge cfg)%Z ∧ (0 < MaxQuorumVerificationAge cfg)%Z
    ∧ (0 < EmergencyStaleReadMaxAge cfg)%Z ∧ (0 < GenerationPinTTL cfg)%Z
    ∧ (0 < SnapshotPublishInterval cfg)%Z ∧ (0 < SnapshotFreshnessMaxAge cfg)%Z;
  co_limits : (0 < GenerationRetention cfg)%Z ∧ (0 < MaxSnapshotBlobBytes cfg)%Z
    ∧ (0 < MaxSnapshotBlobPuts cfg)%Z ∧ (0 ≤ AdditionalNonVoterReplicas cfg)%Z;
  co_retry : (0 < SnapshotPublishRetryMin cfg ≤ SnapshotPublishRetryMax cfg)%Z;
  co_stale : EmergencyStaleRead cfg = true →
    (SnapshotFreshnessMaxAge cfg ≤ EmergencyStaleReadMaxAge cfg)%Z;
  co_named : TrimSpace (ClusterID cfg) ≠ "" ∧ TrimSpace (NodeID cfg) ≠ "" ∧ TrimSpace (DataDir cfg) ≠ "";
  co_addresses : validateHostPort (RaftBindAddr cfg) = Ok tt ∧ validateHostPort (RaftAdvertiseAddr cfg) = Ok tt
    ∧ has_prefix "0.0.0.0:" (RaftAdvertiseAddr cfg) = false ∧ has_prefix "[::]:" (RaftAdvertiseAddr cfg) = false
    ∧ validateHostPort (InternalAPIBindAddr cfg) = Ok tt
    ∧ validateInternalAdvertiseURL url_Parse (InternalAPIAdvertiseAddr cfg) = Ok tt;
  co_members : ∃ members, ParseInitialMembers (InitialMembers cfg) = Ok members
    ∧ length members = 3 ∧ NoDup (mb_NodeID <$> members)
    ∧ (∀ m, m ∈ members → validateHostPort (mb_Addr m) = Ok tt
         ∧ (mb_InternalAPIURL m ≠ "" → validateInternalAdvertiseURL url_Parse (mb_InternalAPIURL m) = Ok tt))
    ∧ (JoinExisting cfg = false → NodeID cfg ∈ mb_NodeID <$> members);
  co_durable : SnapshotDurablePolicy cfg = SnapshotDurablePolicyVoterQuorum;
  co_tls : tls_Enabled (InternalTLS cfg) = true ∧ TrimSpace (tls_CAFile (InternalTLS cfg)) ≠ ""
    ∧ TrimSpace (tls_CertFile (InternalTLS cfg)) ≠ "" ∧ TrimSpace (tls_KeyFile (InternalTLS cfg)) ≠ "";
}.


(** A parser good enough for the witness: it accepts one host. *)
Definition witness_parse (raw : string) : option parsed_url :=
  Some (mkURL "https" "h:1" "h" "" "").
Definition witness_config : Config := mkConfig true "c" "n1" "" "0.0.0.0:7000" "h1:7000" "0.0.0.0:7443"
  "https://h1:7443" "/data" 3 false ["n1=h1:7000"; "n2=h2:7000|https://h2:7443/"; " n3 = h3:7000 "] []
  "" 0 0 false 0 0 0 0 0 "" 0 0 0 0 0 (mkTLSConfig true "ca" "crt" "key" "").

