(* ===== verification/Peers.v ===== *)
(** * Peers: the peer registry and who may connect (transport.go, internal_http.go)

    The registry maps node ids to the members a node talks to.  The Raft
    listener, the Raft dialer and the internal API decide from the certificate
    of the other side, after TLS has verified its chain: [certificate] is what
    they read of it.  TLS itself and the dialing are not modelled; opening the
    Raft listener is part of [Lifecycle]. *)
From S2P Require Import Prelude Text Json GoTime Duration Config.
From stdpp Require Import options.
#[local] Open Scope go_scope.

(** The subject of a peer certificate. *)
Record certificate := mkCertificate { CommonName : string; Organization : list string }.

Abbreviation peerRegistry := (gmap string Member) (only parsing).

Definition Replace (members : list Member) (r : peerRegistry) : peerRegistry :=
  foldl (λ r member, <[ mb_NodeID member := member ]> r) ∅ members.
Definition newPeerRegistry (members : list Member) : peerRegistry := Replace members ∅.
Definition Upsert (member : Member) (r : peerRegistry) : peerRegistry := <[ mb_NodeID member := member ]> r.
Definition Remove (nodeID : string) (r : peerRegistry) : peerRegistry := delete nodeID r.
Definition registry_Member (r : peerRegistry) (nodeID : string) : option Member := r !! nodeID.

(** The first match of the loop; with one member per address the iteration
    order does not matter. *)
Definition NodeIDByAddress (r : peerRegistry) (address : string) : option string :=
  fst <$> find (λ kv : string * Member, str_eqb (mb_Addr kv.2) address) (map_to_list r).

Fixpoint containsString (values : list string) (wanted : string) : bool :=
  match values with
  | [] => false
  | value :: values => if str_eqb value wanted then true else containsString values wanted
  end.

(** [VerifyConnection] of the Raft listener. *)
Definition verify_raft_client (cfg : Config) (peers : peerRegistry) (certs : list certificate) : result unit :=
  match certs with
  | [] => Err "raft peer did not present a certificate"
  | cert :: _ =>
      if negb (containsString (Organization cert) (ClusterID cfg))
      then Err "raft peer certificate is not scoped to cluster %q"
      else match registry_Member peers (CommonName cert) with
           | None => Err "raft peer certificate identity %q is not a committed member"
           | Some _ => Ok tt
           end
  end.

(** [VerifyConnection] of [Dial], for the address dialed. *)
Definition verify_raft_server (peers : peerRegistry) (address : string) (certs : list certificate)
    : result unit :=
  match NodeIDByAddress peers address with
  | None => Err "raft address %s is not in committed membership"
  | Some expectedID =>
      match certs with
      | [] => Err "raft server did not present a certificate"
      | cert :: _ =>
          if negb (str_eqb (CommonName cert) expectedID)
          then Err "raft server certificate identity %q does not match member %q" else Ok tt
      end
  end.

(** ** The internal API *)

Definition StatusOK : N := 200.
Definition StatusAccepted : N := 202.
Definition StatusNoContent : N := 204.
Definition StatusBadRequest : N := 400.
Definition StatusUnauthorized : N := 401.
Definition StatusForbidden : N := 403.
Definition StatusNotFound : N := 404.
Definition StatusConflict : N := 409.
Definition StatusRequestEntityTooLarge : N := 413.
Definition StatusTooManyRequests : N := 429.
Definition StatusServiceUnavailable : N := 503.

(** [r.TLS]: [None] without TLS. *)
Definition requireMemberCertificate {A} (cfg : Config) (peers : peerRegistry)
    (tls : option (list certificate)) (reject : string → N → A) (next : A) : A :=
  match tls with
  | None | Some [] => reject "authenticated cluster member certificate required" StatusUnauthorized
  | Some (cert :: _) =>
      if negb (containsString (Organization cert) (ClusterID cfg))
      then reject "certificate cluster identity does not match" StatusForbidden
      else match registry_Member peers (CommonName cert) with
           | None => reject "certificate identity is not a committed cluster member" StatusForbidden
           | Some _ => next
           end
  end.

Definition authorizeMembershipAdmin (cfg : Config) (tls : option (list certificate)) : bool :=
  match tls with
  | None | Some [] => false
  | Some (cert :: _) => containsString (MembershipAdminNodeIDs cfg) (CommonName cert)
  end.

(** ** Lemmas *)

Lemma containsString_spec values wanted : containsString values wanted = true ↔ wanted ∈ values.
Proof.
  induction values as [|v values IH]; simpl.
  - split; [done|]. by intros ?%not_elem_of_nil.
  - destruct (str_eqb v wanted) eqn:Hv; bool_simpl; rewrite elem_of_cons.
    + split; [by left|done].
    + rewrite IH. split; [by right|by intros [->|]].
Qed.

(** The registry after [Replace]: the last member of each id. *)
Lemma Replace_lookup members r id m :
  NoDup (mb_NodeID <$> members) →
  Replace members r !! id = Some m ↔ m ∈ members ∧ mb_NodeID m = id.
Proof.
  unfold Replace. intros Hnd.
  assert (∀ acc : peerRegistry, foldl (λ (r : peerRegistry) m, <[ mb_NodeID m := m ]> r) acc members !! id = Some m ↔
    (m ∈ members ∧ mb_NodeID m = id) ∨ (id ∉ mb_NodeID <$> members ∧ acc !! id = Some m)) as Hgen.
  { revert Hnd. induction members as [|x members IH]; intros Hnd acc; cbn [foldl].
    - split; [intros; right; split; [by apply not_elem_of_nil|done]|].
      intros [[Hm%not_elem_of_nil _]|[_ ?]]; done.
    - rewrite fmap_cons, NoDup_cons in Hnd. destruct Hnd as [Hx Hnd]. rewrite IH by done.
      rewrite lookup_insert_Some, fmap_cons, elem_of_cons, not_elem_of_cons. split.
      + intros [[? ?]|[Hni [[<- ->]|[Hne Hm]]]]; [by auto|by auto|by right].
      + intros [[[->|Hm] <-]|[[Hne Hni] Hm]]; [right; split; [done|by left]|by auto|right; split; [done|by right]]. }
  rewrite Hgen. split; [intros [?|[_ Hm]]; [done|by rewrite lookup_empty in Hm]|by left].
Qed.

(** ** Properties *)

(** The certificate is of this cluster and names a member of the registry. *)
Definition member_certificate (cfg : Config) (peers : peerRegistry) (certs : list certificate) : Prop :=
  ∃ cert rest, certs = cert :: rest ∧ ClusterID cfg ∈ Organization cert
    ∧ is_Some (peers !! CommonName cert).

(** a Raft connection is accepted, and a request reaches the internal API,
    exactly when the first certificate is scoped to the cluster and names a
    member of the registry, so the two doors agree; a node that is removed from
    the registry is shut out of both. *)
Theorem peer_access (cfg : Config) (peers : peerRegistry) (certs : list certificate) :
  (verify_raft_client cfg peers certs = Ok tt ↔ member_certificate cfg peers certs)
  ∧ (requireMemberCertificate cfg peers (Some certs) (λ _ _, false) true = true
     ↔ member_certificate cfg peers certs)
  ∧ ∀ id org rest, certs = mkCertificate id org :: rest →
      is_ok (verify_raft_client cfg (Remove id peers) certs) = false
      ∧ requireMemberCertificate cfg (Remove id peers) (Some certs) (λ _ _, false) true = false.
Proof.
  unfold member_certificate, verify_raft_client, requireMemberCertificate, registry_Member, Remove.
  split_and!.
  - destruct certs as [|cert rest]; [split; [done|by intros (?&?&?&_)]|].
    destruct (containsString _ _) eqn:Hc; cbn [negb].
    + apply containsString_spec in Hc. destruct (peers !! CommonName cert) eqn:Hp.
      * split; [intros _|done]. exists cert, rest. rewrite Hp. eauto.
      * split; [done|]. intros (c & ? & [= <- <-] & _ & [m Hm]). by rewrite Hp in Hm.
    + split; [done|]. intros (c & ? & [= <- <-] & Ho & _). apply containsString_spec in Ho. by rewrite Ho in Hc.
  - destruct certs as [|cert rest]; [split; [done|by intros (?&?&?&_)]|].
    destruct (containsString _ _) eqn:Hc; cbn [negb].
    + apply containsString_spec in Hc. destruct (peers !! CommonName cert) eqn:Hp.
      * split; [intros _|done]. exists cert, rest. rewrite Hp. eauto.
      * split; [done|]. intros (c & ? & [= <- <-] & _ & [m Hm]). by rewrite Hp in Hm.
    + split; [done|]. intros (c & ? & [= <- <-] & Ho & _). apply containsString_spec in Ho. by rewrite Ho in Hc.
  - intros id org rest ->. cbn [CommonName Organization]. rewrite lookup_delete_eq.
    by destruct (negb _).
Qed.

(** Addresses tell members apart. *)
Definition distinct_addresses (peers : peerRegistry) : Prop :=
  ∀ i j m n, peers !! i = Some m → peers !! j = Some n → mb_Addr m = mb_Addr n → i = j.

(** when the members' addresses are distinct, dialing an address accepts
    exactly a server whose certificate names the member of that address. *)
Theorem dial_identity (peers : peerRegistry) (address : string) (cert : certificate) (rest : list certificate) :
  distinct_addresses peers →
  verify_raft_server peers address (cert :: rest) = Ok tt
  ↔ ∃ m, peers !! CommonName cert = Some m ∧ mb_Addr m = address.
Proof.
  intros Hd. unfold verify_raft_server, NodeIDByAddress.
  destruct (find _ _) as [[id m]|] eqn:Hf; simpl.
  - apply find_some in Hf as [Hin Ha]. apply list_elem_of_In, elem_of_map_to_list in Hin.
    simpl in Ha. bool_simpl. destruct (str_eqb (CommonName cert) id) eqn:Hid; cbn [negb]; bool_simpl.
    + subst. split; [eauto|done].
    + split; [done|]. intros (n & Hn & Hna). destruct Hid.
      apply (Hd _ _ _ _ Hn Hin). congruence.
  - split; [done|]. intros (m & Hm & Ha). apply elem_of_map_to_list, list_elem_of_In in Hm.
    eapply find_none in Hf; [|exact Hm]. simpl in Hf. by bool_simpl.
Qed.

Lemma dial_identity_witness :
  verify_raft_server (newPeerRegistry [mkMember "n1" "h1:7000" ""]) "h1:7000" [mkCertificate "n1" ["c"]] = Ok tt.
Proof.
  apply (dial_identity (newPeerRegistry [mkMember "n1" "h1:7000" ""]) "h1:7000" (mkCertificate "n1" ["c"]) []).
  - intros i j m n Hi Hj _. change (({[ "n1" := mkMember "n1" "h1:7000" "" ]} : peerRegistry) !! i = Some m) in Hi.
    change (({[ "n1" := mkMember "n1" "h1:7000" "" ]} : peerRegistry) !! j = Some n) in Hj.
    apply lookup_singleton_Some in Hi as [<- _]. apply lookup_singleton_Some in Hj as [<- _]. reflexivity.
  - exists (mkMember "n1" "h1:7000" ""). split; reflexivity.
Defined.
