(* ===== verification/Capability.v ===== *)
(** * Capability: versions, node capabilities and the cluster gate (capability.go)

    The gate fixes which protocol, command and schema versions may be used and
    the least capability level of voters and leaders.  Every function of the
    source normalises a gate before it reads it, so a gate denotes its normal
    form: [gate_equiv] is that equality, and the operations are [Proper] for
    it. *)
From S2P Require Import Prelude Text Json.
From stdpp Require Import options.
#[local] Open Scope go_scope.

Definition LegacyProtocolVersion : N := 1.
Definition LegacyCommandVersion : N := 1.
Definition LegacyManifestSchemaVersion : N := 1.
Definition LegacyDatasetSchemaVersion : N := 1.
Definition CurrentProtocolVersion : N := 1.
Definition CurrentCommandVersion : N := 1.
Definition CurrentManifestSchemaVersion : N := 2.
Definition CurrentDatasetSchemaVersion : N := 2.
Definition CapabilityLevelMonotonicSnapshotSequence : N := 3.
Definition CurrentCapabilityLevel : N := CapabilityLevelMonotonicSnapshotSequence.

Record VersionRange := mkVersionRange { vr_Min : N; vr_Max : N }.

Definition Supports (r : VersionRange) (version : N) : bool :=
  negb (vr_Min r =? 0)%N && (vr_Min r <=? version)%N && (version <=? vr_Max r)%N.

Record NodeCapabilities := mkNodeCapabilities {
  nc_CapabilityLevel : N;
  nc_Protocol : VersionRange;
  nc_Command : VersionRange;
  nc_ManifestSchema : VersionRange;
  nc_DatasetSchema : VersionRange;
}.

Record CapabilityGate := mkCapabilityGate {
  cg_ProtocolVersion : N;
  cg_CommandVersion : N;
  cg_ManifestSchemaVersion : N;
  cg_DatasetSchemaVersions : gmap string N;
  cg_MinimumLeaderCapability : N;
  cg_MinimumVoterCapability : N;
}.

#[export] Instance VersionRange_eq_dec : EqDecision VersionRange.
Proof. solve_decision. Defined.
#[export] Instance NodeCapabilities_eq_dec : EqDecision NodeCapabilities.
Proof. solve_decision. Defined.
#[export] Instance CapabilityGate_eq_dec : EqDecision CapabilityGate.
Proof. solve_decision. Defined.

Definition SupportedNodeCapabilities : NodeCapabilities := {|
  nc_CapabilityLevel := CurrentCapabilityLevel;
  nc_Protocol := mkVersionRange LegacyProtocolVersion CurrentProtocolVersion;
  nc_Command := mkVersionRange LegacyCommandVersion CurrentCommandVersion;
  nc_ManifestSchema := mkVersionRange LegacyManifestSchemaVersion CurrentManifestSchemaVersion;
  nc_DatasetSchema := mkVersionRange LegacyDatasetSchemaVersion CurrentDatasetSchemaVersion;
|}.

Definition LegacyCapabilityGate : CapabilityGate := {|
  cg_ProtocolVersion := LegacyProtocolVersion;
  cg_CommandVersion := LegacyCommandVersion;
  cg_ManifestSchemaVersion := LegacyManifestSchemaVersion;
  cg_DatasetSchemaVersions := {[ "*" := LegacyDatasetSchemaVersion ]};
  cg_MinimumLeaderCapability := 1;
  cg_MinimumVoterCapability := 1;
|}.

(** Go's idiom [if x == 0 { x = d }]. *)
Definition or_default (x d : N) : N := if (x =? 0)%N then d else x.

Definition normalizeCapabilityGate (gate : CapabilityGate) : CapabilityGate :=
  let legacy := LegacyCapabilityGate in {|
    cg_ProtocolVersion := or_default (cg_ProtocolVersion gate) (cg_ProtocolVersion legacy);
    cg_CommandVersion := or_default (cg_CommandVersion gate) (cg_CommandVersion legacy);
    cg_ManifestSchemaVersion :=
      or_default (cg_ManifestSchemaVersion gate) (cg_ManifestSchemaVersion legacy);
    cg_DatasetSchemaVersions :=
      if bool_decide (cg_DatasetSchemaVersions gate = ∅)
      then {[ "*" := LegacyDatasetSchemaVersion ]}
      else (λ version, or_default version LegacyDatasetSchemaVersion)
             <$> cg_DatasetSchemaVersions gate;
    cg_MinimumLeaderCapability :=
      or_default (cg_MinimumLeaderCapability gate) (cg_MinimumLeaderCapability legacy);
    cg_MinimumVoterCapability :=
      or_default (cg_MinimumVoterCapability gate) (cg_MinimumVoterCapability legacy);
  |}.

Definition DatasetSchemaVersion (g : CapabilityGate) (name : string) : N :=
  let g := normalizeCapabilityGate g in
  match cg_DatasetSchemaVersions g !! name with
  | Some version => version
  | None => match cg_DatasetSchemaVersions g !! "*" with
            | Some version => version
            | None => LegacyDatasetSchemaVersion
            end
  end.

(** Reading a missing key of a Go [map[string]uint32] gives 0. *)
Definition capabilityGatesEqual (left right : CapabilityGate) : bool :=
  let left := normalizeCapabilityGate left in
  let right := normalizeCapabilityGate right in
  if negb (cg_ProtocolVersion left =? cg_ProtocolVersion right)%N
     || negb (cg_CommandVersion left =? cg_CommandVersion right)%N
     || negb (cg_ManifestSchemaVersion left =? cg_ManifestSchemaVersion right)%N
     || negb (cg_MinimumLeaderCapability left =? cg_MinimumLeaderCapability right)%N
     || negb (cg_MinimumVoterCapability left =? cg_MinimumVoterCapability right)%N
     || negb (size (cg_DatasetSchemaVersions left) =? size (cg_DatasetSchemaVersions right))
  then false
  else forallb (λ '(name, version),
         (default 0 (cg_DatasetSchemaVersions right !! name) =? version)%N)
       (map_to_list (cg_DatasetSchemaVersions left)).

Definition SupportsGate (c : NodeCapabilities) (gate : CapabilityGate) (leader : bool) : bool :=
  let gate := normalizeCapabilityGate gate in
  let minimum := if leader then cg_MinimumLeaderCapability gate
                 else cg_MinimumVoterCapability gate in
  if (nc_CapabilityLevel c <? minimum)%N
     || negb (Supports (nc_Protocol c) (cg_ProtocolVersion gate))
     || negb (Supports (nc_Command c) (cg_CommandVersion gate))
     || negb (Supports (nc_ManifestSchema c) (cg_ManifestSchemaVersion gate))
  then false
  else forallb (λ '(_, version), Supports (nc_DatasetSchema c) version)
         (map_to_list (cg_DatasetSchemaVersions gate)).

Definition validateCapabilityGate (gate : CapabilityGate) : result unit :=
  let gate := normalizeCapabilityGate gate in
  if (cg_ProtocolVersion gate =? 0)%N || (cg_CommandVersion gate =? 0)%N
     || (cg_ManifestSchemaVersion gate =? 0)%N
  then Err "capability gate versions must be non-zero"
  else if (cg_MinimumLeaderCapability gate =? 0)%N || (cg_MinimumVoterCapability gate =? 0)%N
  then Err "capability gate minimum capability levels must be non-zero"
  else rall (λ '(name, version),
         if str_eqb name "" || (version =? 0)%N
         then Err "dataset schema name and version must be non-zero" else Ok tt)
       (map_to_list (cg_DatasetSchemaVersions gate)).

(** ** JSON form of capabilities and gates (the struct tags) *)

Definition enc_VersionRange (r : VersionRange) : json :=
  enc_struct [field "min" (enc_uint (vr_Min r)); field "max" (enc_uint (vr_Max r))].

Definition enc_NodeCapabilities (c : NodeCapabilities) : json :=
  enc_struct [field "capability_level" (enc_uint (nc_CapabilityLevel c));
    field "protocol" (enc_VersionRange (nc_Protocol c));
    field "command" (enc_VersionRange (nc_Command c));
    field "manifest_schema" (enc_VersionRange (nc_ManifestSchema c));
    field "dataset_schema" (enc_VersionRange (nc_DatasetSchema c))].

(** A gate is only encoded after normalisation, which never leaves the dataset
    map nil. *)
Definition enc_CapabilityGate (g : CapabilityGate) : json :=
  enc_struct [field "protocol_version" (enc_uint (cg_ProtocolVersion g));
    field "command_version" (enc_uint (cg_CommandVersion g));
    field "manifest_schema_version" (enc_uint (cg_ManifestSchemaVersion g));
    field "dataset_schema_versions" (enc_map enc_uint (cg_DatasetSchemaVersions g));
    field "minimum_leader_capability" (enc_uint (cg_MinimumLeaderCapability g));
    field "minimum_voter_capability" (enc_uint (cg_MinimumVoterCapability g))].

Definition zero_VersionRange : VersionRange := mkVersionRange 0 0.
Definition zero_NodeCapabilities : NodeCapabilities :=
  mkNodeCapabilities 0 zero_VersionRange zero_VersionRange zero_VersionRange zero_VersionRange.
Definition zero_CapabilityGate : CapabilityGate := mkCapabilityGate 0 0 0 ∅ 0 0.

Definition dec_VersionRange : json → VersionRange → option VersionRange :=
  dec_struct [
    ("min", set_field vr_Min (λ x s, mkVersionRange x (vr_Max s)) (dec_uint u32_bound));
    ("max", set_field vr_Max (λ x s, mkVersionRange (vr_Min s) x) (dec_uint u32_bound))].

Definition dec_NodeCapabilities : json → NodeCapabilities → option NodeCapabilities :=
  dec_struct [
    ("capability_level", set_field nc_CapabilityLevel
      (λ x '(mkNodeCapabilities _ b c d e), mkNodeCapabilities x b c d e) (dec_uint u32_bound));
    ("protocol", set_field nc_Protocol
      (λ x '(mkNodeCapabilities a _ c d e), mkNodeCapabilities a x c d e) dec_VersionRange);
    ("command", set_field nc_Command
      (λ x '(mkNodeCapabilities a b _ d e), mkNodeCapabilities a b x d e) dec_VersionRange);
    ("manifest_schema", set_field nc_ManifestSchema
      (λ x '(mkNodeCapabilities a b c _ e), mkNodeCapabilities a b c x e) dec_VersionRange);
    ("dataset_schema", set_field nc_DatasetSchema
      (λ x '(mkNodeCapabilities a b c d _), mkNodeCapabilities a b c d x) dec_VersionRange)].

Definition dec_CapabilityGate : json → CapabilityGate → option CapabilityGate :=
  dec_struct [
    ("protocol_version", set_field cg_ProtocolVersion
      (λ x '(mkCapabilityGate _ b c d e f), mkCapabilityGate x b c d e f) (dec_uint u32_bound));
    ("command_version", set_field cg_CommandVersion
      (λ x '(mkCapabilityGate a _ c d e f), mkCapabilityGate a x c d e f) (dec_uint u32_bound));
    ("manifest_schema_version", set_field cg_ManifestSchemaVersion
      (λ x '(mkCapabilityGate a b _ d e f), mkCapabilityGate a b x d e f) (dec_uint u32_bound));
    ("dataset_schema_versions", set_field cg_DatasetSchemaVersions
      (λ x '(mkCapabilityGate a b c _ e f), mkCapabilityGate a b c x e f)
      (dec_map 0%N (dec_uint u32_bound)));
    ("minimum_leader_capability", set_field cg_MinimumLeaderCapability
      (λ x '(mkCapabilityGate a b c d _ f), mkCapabilityGate a b c d x f) (dec_uint u32_bound));
    ("minimum_voter_capability", set_field cg_MinimumVoterCapability
      (λ x '(mkCapabilityGate a b c d e _), mkCapabilityGate a b c d e x) (dec_uint u32_bound))].

(** ** Specification *)

(** A gate in normal form: every version and level is non-zero and some
    dataset version is given. *)
Record gate_normal (g : CapabilityGate) : Prop := {
  gn_protocol : cg_ProtocolVersion g ≠ 0%N;
  gn_command : cg_CommandVersion g ≠ 0%N;
  gn_manifest : cg_ManifestSchemaVersion g ≠ 0%N;
  gn_leader : cg_MinimumLeaderCapability g ≠ 0%N;
  gn_voter : cg_MinimumVoterCapability g ≠ 0%N;
  gn_some : cg_DatasetSchemaVersions g ≠ ∅;
  gn_datasets : map_Forall (λ _ v, v ≠ 0%N) (cg_DatasetSchemaVersions g);
}.

(** Two gates mean the same when their normal forms are equal. *)
Definition gate_equiv (g h : CapabilityGate) : Prop :=
  normalizeCapabilityGate g = normalizeCapabilityGate h.

#[export] Instance gate_equivalence : Equivalence gate_equiv.
Proof. unfold gate_equiv. split; [done | by intros ?? -> | by intros ??? -> ->]. Qed.

(** What a node must offer under a gate, read off the normal form. *)
Record gate_supported (c : NodeCapabilities) (g : CapabilityGate) (leader : bool) : Prop := {
  gs_level : ((if leader then cg_MinimumLeaderCapability g else cg_MinimumVoterCapability g)
              ≤ nc_CapabilityLevel c)%N;
  gs_protocol : (vr_Min (nc_Protocol c) ≤ cg_ProtocolVersion g ≤ vr_Max (nc_Protocol c))%N;
  gs_command : (vr_Min (nc_Command c) ≤ cg_CommandVersion g ≤ vr_Max (nc_Command c))%N;
  gs_manifest :
    (vr_Min (nc_ManifestSchema c) ≤ cg_ManifestSchemaVersion g ≤ vr_Max (nc_ManifestSchema c))%N;
  gs_datasets : map_Forall (λ _ v,
    vr_Min (nc_DatasetSchema c) ≤ v ≤ vr_Max (nc_DatasetSchema c))%N (cg_DatasetSchemaVersions g);
  gs_min_set : vr_Min (nc_Protocol c) ≠ 0%N ∧ vr_Min (nc_Command c) ≠ 0%N
    ∧ vr_Min (nc_ManifestSchema c) ≠ 0%N ∧ vr_Min (nc_DatasetSchema c) ≠ 0%N;
}.

(** ** Lemmas *)

Lemma Supports_spec r v :
  Supports r v = true ↔ vr_Min r ≠ 0%N ∧ (vr_Min r ≤ v ≤ vr_Max r)%N.
Proof.
  unfold Supports. rewrite !andb_true_iff, negb_true_iff, N.eqb_neq, !N.leb_le. tauto.
Qed.

Lemma or_default_nonzero x d : d ≠ 0%N → or_default x d ≠ 0%N.
Proof. unfold or_default. intros. by split_guards. Qed.

Lemma or_default_id x d : x ≠ 0%N → or_default x d = x.
Proof. unfold or_default. intros H. apply N.eqb_neq in H. by rewrite H. Qed.

#[export] Hint Resolve or_default_nonzero or_default_id : clusterha.

Lemma normalize_normal g : gate_normal (normalizeCapabilityGate g).
Proof.
  split; simpl; auto with clusterha; case_bool_decide as E.
  - apply map_non_empty_singleton.
  - intros H%fmap_empty_iff. done.
  - by apply map_Forall_singleton.
  - intros k v. rewrite lookup_fmap, fmap_Some. intros (v' & _ & ->). auto with clusterha.
Qed.

Lemma normalize_id g : gate_normal g → normalizeCapabilityGate g = g.
Proof.
  intros [H1 H2 H3 H4 H5 H6 H7]. destruct g as [p c m d l v]; simpl in *.
  unfold normalizeCapabilityGate; simpl. rewrite bool_decide_eq_false_2 by done.
  rewrite !or_default_id by done. f_equal.
  apply map_eq. intros k. rewrite lookup_fmap.
  destruct (d !! k) as [x|] eqn:E; [|done]. simpl.
  by rewrite or_default_id by (by eapply H7).
Qed.

Lemma normalize_idemp g :
  normalizeCapabilityGate (normalizeCapabilityGate g) = normalizeCapabilityGate g.
Proof. apply normalize_id, normalize_normal. Qed.

#[export] Hint Rewrite normalize_idemp : clusterha_rw.
#[export] Hint Resolve normalize_normal : clusterha.

Lemma normalize_equiv g : gate_equiv (normalizeCapabilityGate g) g.
Proof. apply normalize_idemp. Qed.

#[export] Instance SupportsGate_proper c : Proper (gate_equiv ==> (=) ==> (=)) (SupportsGate c).
Proof. unfold gate_equiv, SupportsGate. by intros g h -> ? ? ->. Qed.

#[export] Instance capabilityGatesEqual_proper :
  Proper (gate_equiv ==> gate_equiv ==> (=)) capabilityGatesEqual.
Proof. unfold gate_equiv, capabilityGatesEqual. by intros g h -> ? ? ->. Qed.

#[export] Instance validateCapabilityGate_proper :
  Proper (gate_equiv ==> (=)) validateCapabilityGate.
Proof. unfold gate_equiv, validateCapabilityGate. by intros g h ->. Qed.

#[export] Instance DatasetSchemaVersion_proper :
  Proper (gate_equiv ==> (=) ==> (=)) DatasetSchemaVersion.
Proof. unfold gate_equiv, DatasetSchemaVersion. by intros g h -> ? ? ->. Qed.

(** Two maps of the same size, one of which is read through the other. *)
Lemma maps_equal_by_size (m1 m2 : gmap string N) :
  map_Forall (λ _ v, v ≠ 0%N) m1 →
  size m1 = size m2 →
  (∀ k v, m1 !! k = Some v → default 0%N (m2 !! k) = v) → m1 = m2.
Proof.
  intros Hnz Hsize Hread.
  assert (m1 ⊆ m2) as Hsub.
  { apply map_subseteq_spec. intros k v Hk. specialize (Hread k v Hk).
    destruct (m2 !! k); simpl in *; [by subst|]. subst. by apply Hnz in Hk. }
  apply map_subseteq_size_eq; [done|lia].
Qed.

(** The comparison of the source decides equality of normal forms. *)
Lemma gates_equal_iff l r : capabilityGatesEqual l r = true ↔ gate_equiv l r.
Proof.
  unfold capabilityGatesEqual, gate_equiv.
  destruct (normalize_normal l) as [_ _ _ _ _ _ Hl].
  set (L := normalizeCapabilityGate l) in *. set (R := normalizeCapabilityGate r) in *.
  clearbody L R. split.
  - destruct (_ || _) eqn:E; [done|]. intros Hf. rewrite forallb_map in Hf. bool_simpl.
    apply Nat.eqb_eq in H0.
    assert (cg_DatasetSchemaVersions L = cg_DatasetSchemaVersions R) as Hd.
    { apply maps_equal_by_size; [done..|]. intros k v Hk. by apply N.eqb_eq, (Hf k v). }
    destruct L, R; simpl in *. congruence.
  - intros ->. rewrite !N.eqb_refl, Nat.eqb_refl. simpl.
    apply forallb_map. intros k v ->. apply N.eqb_refl.
Qed.

Lemma SupportsGate_iff c g leader :
  SupportsGate c g leader = true ↔ gate_supported c (normalizeCapabilityGate g) leader.
Proof.
  unfold SupportsGate. pose proof (normalize_normal g) as Hn.
  set (G := normalizeCapabilityGate g) in *. clearbody G. split.
  - destruct (_ || _) eqn:E; [done|]. intros Hf. rewrite forallb_map in Hf. bool_simpl.
    repeat match goal with H : Supports _ _ = true |- _ => apply Supports_spec in H as [? ?] end.
    assert (∀ k v, cg_DatasetSchemaVersions G !! k = Some v →
      vr_Min (nc_DatasetSchema c) ≠ 0%N ∧
      (vr_Min (nc_DatasetSchema c) ≤ v ≤ vr_Max (nc_DatasetSchema c))%N) as Hd
      by (intros k v Hk; apply Supports_spec; by apply (Hf k v)).
    destruct (map_choose _ (gn_some _ Hn)) as (k0 & v0 & Hk0).
    split; [done..| |].
    + intros k v Hk. by apply (Hd k v).
    + repeat split; try done. by apply (Hd k0 v0).
  - intros [Hl Hp Hc Hm Hd (? & ? & ? & ?)].
    rewrite (proj2 (N.ltb_ge _ _) Hl). simpl.
    rewrite !(proj2 (Supports_spec _ _)) by done. simpl.
    apply forallb_map. intros k v Hk. apply Supports_spec. split; [done|]. by apply (Hd k v).
Qed.

Lemma Supports_zero r : Supports r 0 = false.
Proof.
  destruct (Supports r 0) eqn:E; [|done]. apply Supports_spec in E. lia.
Qed.

(** The binary of this source under the gate a new cluster starts with. *)
Lemma legacy_gate_normal : gate_normal LegacyCapabilityGate.
Proof. split; [done..|apply map_non_empty_singleton|by apply map_Forall_singleton]. Qed.

#[export] Hint Resolve legacy_gate_normal : clusterha.

(** ** Properties *)

(** [capabilityGatesEqual] decides whether two gates mean the same. *)
Theorem capabilityGatesEqual_spec (l r : CapabilityGate) :
  capabilityGatesEqual l r = true ↔ normalizeCapabilityGate l = normalizeCapabilityGate r.
Proof. apply gates_equal_iff. Qed.

(** normalisation is idempotent, reaches normal form, and no function of the
    gate can tell a gate from its normal form. *)
Theorem normalizeCapabilityGate_canonical (g : CapabilityGate) :
  gate_normal (normalizeCapabilityGate g)
  ∧ normalizeCapabilityGate (normalizeCapabilityGate g) = normalizeCapabilityGate g
  ∧ (∀ c leader, SupportsGate c (normalizeCapabilityGate g) leader = SupportsGate c g leader)
  ∧ (∀ name, DatasetSchemaVersion (normalizeCapabilityGate g) name = DatasetSchemaVersion g name)
  ∧ capabilityGatesEqual (normalizeCapabilityGate g) g = true.
Proof.
  split_and!; [apply normalize_normal | apply normalize_idemp |..].
  - intros c leader. by rewrite normalize_equiv.
  - intros name. by rewrite normalize_equiv.
  - apply gates_equal_iff, normalize_equiv.
Qed.

(** a node supports a gate exactly when its capability level reaches the
    minimum of the role and each of its version ranges holds the gate's
    versions. *)
Theorem SupportsGate_spec (c : NodeCapabilities) (g : CapabilityGate) (leader : bool) :
  SupportsGate c g leader = true ↔ gate_supported c (normalizeCapabilityGate g) leader.
Proof. apply SupportsGate_iff. Qed.

(** the two non-zero tests of [validateCapabilityGate] never fire after
    normalisation; the gate is rejected exactly when a dataset has the empty
    name. *)
Theorem validateCapabilityGate_spec (g : CapabilityGate) :
  validateCapabilityGate g = Ok tt ↔ cg_DatasetSchemaVersions g !! "" = None.
Proof.
  unfold validateCapabilityGate. destruct (normalize_normal g) as [Hp Hc Hm Hl Hv _ Hd].
  rewrite !(proj2 (N.eqb_neq _ _)) by done. simpl orb. cbn iota.
  rewrite rall_map.
  assert (cg_DatasetSchemaVersions (normalizeCapabilityGate g) !! "" = None ↔
          cg_DatasetSchemaVersions g !! "" = None) as <-.
  { simpl. case_bool_decide as E.
    - rewrite E. by rewrite lookup_singleton_ne.
    - rewrite lookup_fmap. by destruct (cg_DatasetSchemaVersions g !! ""). }
  split.
  - intros H. destruct (_ !! "") as [v|] eqn:E; [|done].
    specialize (H "" v E). done.
  - intros H k v Hk. destruct (str_eqb k "") eqn:E.
    + apply str_eqb_eq in E as ->. congruence.
    + simpl. assert (v ≠ 0%N) as Hv0 by (by apply (Hd k v)).
      apply N.eqb_neq in Hv0. by rewrite Hv0.
Qed.
