(* ===== verification/Manifest.v ===== *)
(** * Manifest: generations, manifests and their validation (snapshot.go, first
    half, and Node.ParseGeneration)

    A manifest lists the datasets of a snapshot generation and the hashes of
    the blobs that hold them.  The loops over the dataset map are written over
    [map_to_list]; that acceptance does not depend on the iteration order Go
    picks is a theorem. *)
From S2P Require Import Prelude Text Sha256 Json GoTime Capability.
From stdpp Require Import options.
From Stdlib Require Import Ascii.
#[local] Open Scope go_scope.

Definition HashPrefixSHA256 : string := "sha256:".

Record Generation := mkGeneration {
  g_ClusterID : string;
  g_LeaderEpoch : N;
  g_Sequence : N;
  g_ManifestHash : string;
}.

Record DatasetShardRef := mkDatasetShardRef {
  s_Key : string;
  s_BlobHash : string;
  s_RecordCount : Z;
  s_UncompressedBytes : Z;
}.

Record DatasetRef := mkDatasetRef {
  d_Name : string;
  d_SchemaVersion : N;
  d_Scope : string;
  d_BlobHash : string;
  d_Encoding : string;
  d_RecordCount : Z;
  d_CollectedAt : time;
  d_SourceSuccess : bool;
  d_SourceError : string;
  d_PreviousBlobHash : string;
  d_Required : bool;
  d_Stale : bool;
  d_UncompressedBytes : Z;
  d_Shards : list DatasetShardRef;
}.

Record Manifest := mkManifest {
  m_SchemaVersion : N;
  m_Generation : Generation;
  m_VoterConfigurationIndex : N;
  m_CreatedAt : time;
  m_Datasets : gomap DatasetRef;
}.

#[export] Instance Generation_eq_dec : EqDecision Generation.
Proof. solve_decision. Defined.
#[export] Instance DatasetShardRef_eq_dec : EqDecision DatasetShardRef.
Proof. solve_decision. Defined.
#[export] Instance DatasetRef_eq_dec : EqDecision DatasetRef.
Proof. solve_decision. Defined.
#[export] Instance Manifest_eq_dec : EqDecision Manifest.
Proof. solve_decision. Defined.

Definition zero_Generation : Generation := mkGeneration "" 0 0 "".
Definition zero_Manifest : Manifest := mkManifest 0 zero_Generation 0 zero_time None.
Definition zero_DatasetShardRef : DatasetShardRef := mkDatasetShardRef "" "" 0 0.
Definition zero_DatasetRef : DatasetRef :=
  mkDatasetRef "" 0 "" "" "" 0 zero_time false "" "" false false 0 [].

Definition datasets (m : Manifest) : gmap string DatasetRef := gm_entries (m_Datasets m).

(** ** Generations *)

Definition generation_Equal (g other : Generation) : bool :=
  str_eqb (g_ClusterID g) (g_ClusterID other) && (g_LeaderEpoch g =? g_LeaderEpoch other)%N
  && (g_Sequence g =? g_Sequence other)%N && str_eqb (g_ManifestHash g) (g_ManifestHash other).

Definition generation_IsZero (g : Generation) : bool :=
  str_eqb (g_ClusterID g) "" && (g_LeaderEpoch g =? 0)%N && (g_Sequence g =? 0)%N
  && str_eqb (g_ManifestHash g) "".

Definition generation_String (g : Generation) : string :=
  g_ClusterID g +:+ "/" +:+ FormatUint (g_LeaderEpoch g) +:+ "/" +:+ FormatUint (g_Sequence g)
  +:+ "/" +:+ g_ManifestHash g.

(** [Node.ParseGeneration] of a node configured for [cluster_id]. *)
Definition ParseGeneration (cluster_id : string) (value : string) : result Generation :=
  match split_n "/" 4 value with
  | [p0; p1; p2; p3] =>
      match ParseUint u64_bound p1 with
      | None => Err "invalid generation epoch: %w"
      | Some epoch =>
          match ParseUint u64_bound p2 with
          | None => Err "invalid generation sequence: %w"
          | Some sequence =>
              let generation := mkGeneration p0 epoch sequence p3 in
              if negb (str_eqb (g_ClusterID generation) cluster_id)
                 || negb (has_prefix HashPrefixSHA256 (g_ManifestHash generation))
              then Err "generation is not valid for this cluster"
              else Ok generation
          end
      end
  | _ => Err "invalid generation %q"
  end.

Definition containsGeneration (generations : list Generation) (wanted : Generation) : bool :=
  existsb (λ generation, generation_Equal generation wanted) generations.

Definition validateNextSnapshotSequence (previous : Manifest) (hasPrevious : bool) (sequence : N)
    : result unit :=
  if hasPrevious && (g_Sequence (m_Generation previous) =? u64_max)%N
  then Err "snapshot generation sequence exhausted"
  else
    let expected := if hasPrevious then u64_succ (g_Sequence (m_Generation previous)) else 1%N in
    if negb (sequence =? expected)%N
    then Err "snapshot generation sequence must be %d, got %d" else Ok tt.

(** ** Datasets *)

Definition datasetBlobHashes (dataset : DatasetRef) : list string :=
  if bool_decide (0 < length (d_Shards dataset)) then
    filter (λ h, h ≠ "") (s_BlobHash <$> d_Shards dataset)
  else if str_eqb (d_BlobHash dataset) "" then []
  else [d_BlobHash dataset].

(** Every blob a manifest needs, in the order the loops visit them. *)
Definition manifestBlobHashes (m : Manifest) : list string :=
  concat (map (λ kv : string * DatasetRef, datasetBlobHashes kv.2) (map_to_list (datasets m))).

Definition normalizeSHA256Hash (hash : string) : result string :=
  let hexHash := trim_prefix HashPrefixSHA256 hash in
  if negb (String.length hexHash =? 64) then Err "invalid sha256 hash length for %q"
  else if negb (all_hex hexHash) then Err "invalid sha256 hash %q: %w"
  else Ok hexHash.

Definition validateManifestCapability (manifest : Manifest) (gate : CapabilityGate) : result unit :=
  let gate := normalizeCapabilityGate gate in
  let manifestVersion := or_default (m_SchemaVersion manifest) LegacyManifestSchemaVersion in
  if negb (manifestVersion =? cg_ManifestSchemaVersion gate)%N
  then Err "manifest schema version %d is not active; active version is %d"
  else rall (λ '(name, dataset),
         let version := or_default (d_SchemaVersion dataset) LegacyDatasetSchemaVersion in
         if negb (version =? DatasetSchemaVersion gate name)%N
         then Err "dataset %q schema version %d is not active; active version is %d" else Ok tt)
       (map_to_list (datasets manifest)).

(** One turn of the shard loop of [ValidateManifest]: the keys seen so far and
    the running totals, which wrap like int64. *)
Definition validateShard (acc : gset string * Z * Z) (shard : DatasetShardRef)
    : result (gset string * Z * Z) :=
  let '(seen, records, uncompressedBytes) := acc in
  if str_eqb (s_Key shard) "" then Err "dataset %q shard %d has empty key"
  else if bool_decide (s_Key shard ∈ seen) then Err "dataset %q contains duplicate shard key %q"
  else
    let seen := {[ s_Key shard ]} ∪ seen in
    if negb (is_ok (normalizeSHA256Hash (s_BlobHash shard)))
    then Err "dataset %q shard %q blob_hash: %w"
    else if ((s_RecordCount shard <? 0) || (s_UncompressedBytes shard <? 0))%Z
    then Err "dataset %q shard %q has negative record or byte count"
    else Ok (seen, i64_wrap (records + s_RecordCount shard),
             i64_wrap (uncompressedBytes + s_UncompressedBytes shard)).

Definition validateDataset (name : string) (dataset : DatasetRef) : result unit :=
  if str_eqb name "" then Err "dataset name is empty"
  else if negb (str_eqb (d_Name dataset) name) then Err "dataset %q embeds mismatched name %q"
  else if ((d_RecordCount dataset <? 0) || (d_UncompressedBytes dataset <? 0))%Z
  then Err "dataset %q has negative record or byte count"
  else if negb (str_eqb (d_PreviousBlobHash dataset) "")
          && negb (is_ok (normalizeSHA256Hash (d_PreviousBlobHash dataset)))
  then Err "dataset %q previous_blob_hash: %w"
  else
    let hasBlob := negb (str_eqb (d_BlobHash dataset) "") in
    let hasShards := bool_decide (0 < length (d_Shards dataset)) in
    if Bool.eqb hasBlob hasShards then Err "dataset %q must contain exactly one of blob_hash or shards"
    else if hasBlob then
      if negb (is_ok (normalizeSHA256Hash (d_BlobHash dataset)))
      then Err "dataset %q blob_hash: %w" else Ok tt
    else
      let? totals := rfold validateShard (∅, 0%Z, 0%Z) (d_Shards dataset) in
      let '(_, records, uncompressedBytes) := totals in
      if negb (records =? d_RecordCount dataset)%Z
         || negb (uncompressedBytes =? d_UncompressedBytes dataset)%Z
      then Err "dataset %q shard totals records=%d bytes=%d do not match dataset records=%d bytes=%d"
      else Ok tt.

Definition ValidateManifest (manifest : Manifest) : result unit :=
  rall (λ '(name, dataset), validateDataset name dataset) (map_to_list (datasets manifest)).

(** The copy is deep; as a value it differs from the original only in that a
    nil dataset map becomes an empty one. *)
Definition cloneManifest (manifest : Manifest) : Manifest :=
  mkManifest (m_SchemaVersion manifest) (m_Generation manifest)
    (m_VoterConfigurationIndex manifest) (m_CreatedAt manifest) (Some (datasets manifest)).

(** ** JSON form *)

Definition enc_Generation (g : Generation) : json :=
  enc_struct [field "cluster_id" (enc_string (g_ClusterID g));
    field "leader_epoch" (enc_uint (g_LeaderEpoch g));
    field "sequence" (enc_uint (g_Sequence g));
    field "manifest_hash" (enc_string (g_ManifestHash g))].

Definition enc_DatasetShardRef (s : DatasetShardRef) : json :=
  enc_struct [field "key" (enc_string (s_Key s)); field "blob_hash" (enc_string (s_BlobHash s));
    field "record_count" (enc_int (s_RecordCount s));
    field "uncompressed_bytes" (enc_int (s_UncompressedBytes s))].

Definition enc_DatasetRef (d : DatasetRef) : result json :=
  let? collected := enc_time (d_CollectedAt d) in
  Ok (enc_struct [field "name" (enc_string (d_Name d));
    field "schema_version" (enc_uint (d_SchemaVersion d));
    field "scope" (enc_string (d_Scope d));
    field "blob_hash" (enc_string (d_BlobHash d));
    field "encoding" (enc_string (d_Encoding d));
    field "record_count" (enc_int (d_RecordCount d));
    field "collected_at" collected;
    field "source_success" (JBool (d_SourceSuccess d));
    field_unless (str_eqb (d_SourceError d) "") "source_error" (enc_string (d_SourceError d));
    field_unless (str_eqb (d_PreviousBlobHash d) "") "previous_blob_hash"
      (enc_string (d_PreviousBlobHash d));
    field "required" (JBool (d_Required d));
    field "stale" (JBool (d_Stale d));
    field_unless (d_UncompressedBytes d =? 0)%Z "uncompressed_bytes" (enc_int (d_UncompressedBytes d));
    field_unless (bool_decide (d_Shards d = [])) "shards"
      (JArr (map enc_DatasetShardRef (d_Shards d)))]).

(** [enc_map] for an encoder that can fail. *)
Fixpoint enc_members {V} (enc : V → result json) (l : list (string * V)) : result (list (string * json)) :=
  match l with
  | [] => Ok []
  | (k, v) :: l' =>
      let? j := enc v in
      let? ms := enc_members enc l' in
      Ok ((utf8_fix k, j) :: ms)
  end.

Definition enc_gomap {V} (enc : V → result json) (m : gomap V) : result json :=
  match m with
  | None => Ok JNull
  | Some m => let? ms := enc_members enc (sorted_entries m) in Ok (JObj ms)
  end.

Definition enc_Manifest (m : Manifest) : result json :=
  let? created := enc_time (m_CreatedAt m) in
  let? ds := enc_gomap enc_DatasetRef (m_Datasets m) in
  Ok (enc_struct [field "schema_version" (enc_uint (m_SchemaVersion m));
    field "generation" (enc_Generation (m_Generation m));
    field "voter_configuration_index" (enc_uint (m_VoterConfigurationIndex m));
    field "created_at" created;
    field "datasets" ds]).

Definition dec_Generation : json → Generation → option Generation :=
  dec_struct [
    ("cluster_id", set_field g_ClusterID (λ x '(mkGeneration _ b c d), mkGeneration x b c d) dec_string);
    ("leader_epoch", set_field g_LeaderEpoch
      (λ x '(mkGeneration a _ c d), mkGeneration a x c d) (dec_uint u64_bound));
    ("sequence", set_field g_Sequence
      (λ x '(mkGeneration a b _ d), mkGeneration a b x d) (dec_uint u64_bound));
    ("manifest_hash", set_field g_ManifestHash
      (λ x '(mkGeneration a b c _), mkGeneration a b c x) dec_string)].

Definition dec_DatasetShardRef : json → DatasetShardRef → option DatasetShardRef :=
  dec_struct [
    ("key", set_field s_Key (λ x '(mkDatasetShardRef _ b c d), mkDatasetShardRef x b c d) dec_string);
    ("blob_hash", set_field s_BlobHash
      (λ x '(mkDatasetShardRef a _ c d), mkDatasetShardRef a x c d) dec_string);
    ("record_count", set_field s_RecordCount
      (λ x '(mkDatasetShardRef a b _ d), mkDatasetShardRef a b x d) dec_int64);
    ("uncompressed_bytes", set_field s_UncompressedBytes
      (λ x '(mkDatasetShardRef a b c _), mkDatasetShardRef a b c x) dec_int64)].

Definition dec_DatasetRef : json → DatasetRef → option DatasetRef :=
  dec_struct [
    ("name", set_field d_Name (λ x '(mkDatasetRef _ b c d e f g h i j k l m n),
      mkDatasetRef x b c d e f g h i j k l m n) dec_string);
    ("schema_version", set_field d_SchemaVersion (λ x '(mkDatasetRef a _ c d e f g h i j k l m n),
      mkDatasetRef a x c d e f g h i j k l m n) (dec_uint u32_bound));
    ("scope", set_field d_Scope (λ x '(mkDatasetRef a b _ d e f g h i j k l m n),
      mkDatasetRef a b x d e f g h i j k l m n) dec_string);
    ("blob_hash", set_field d_BlobHash (λ x '(mkDatasetRef a b c _ e f g h i j k l m n),
      mkDatasetRef a b c x e f g h i j k l m n) dec_string);
    ("encoding", set_field d_Encoding (λ x '(mkDatasetRef a b c d _ f g h i j k l m n),
      mkDatasetRef a b c d x f g h i j k l m n) dec_string);
    ("record_count", set_field d_RecordCount (λ x '(mkDatasetRef a b c d e _ g h i j k l m n),
      mkDatasetRef a b c d e x g h i j k l m n) dec_int64);
    ("collected_at", set_field d_CollectedAt (λ x '(mkDatasetRef a b c d e f _ h i j k l m n),
      mkDatasetRef a b c d e f x h i j k l m n) dec_time);
    ("source_success", set_field d_SourceSuccess (λ x '(mkDatasetRef a b c d e f g _ i j k l m n),
      mkDatasetRef a b c d e f g x i j k l m n) dec_bool);
    ("source_error", set_field d_SourceError (λ x '(mkDatasetRef a b c d e f g h _ j k l m n),
      mkDatasetRef a b c d e f g h x j k l m n) dec_string);
    ("previous_blob_hash", set_field d_PreviousBlobHash
      (λ x '(mkDatasetRef a b c d e f g h i _ k l m n),
      mkDatasetRef a b c d e f g h i x k l m n) dec_string);
    ("required", set_field d_Required (λ x '(mkDatasetRef a b c d e f g h i j _ l m n),
      mkDatasetRef a b c d e f g h i j x l m n) dec_bool);
    ("stale", set_field d_Stale (λ x '(mkDatasetRef a b c d e f g h i j k _ m n),
      mkDatasetRef a b c d e f g h i j k x m n) dec_bool);
    ("uncompressed_bytes", set_field d_UncompressedBytes
      (λ x '(mkDatasetRef a b c d e f g h i j k l _ n),
      mkDatasetRef a b c d e f g h i j k l x n) dec_int64);
    ("shards", set_field d_Shards (λ x '(mkDatasetRef a b c d e f g h i j k l m _),
      mkDatasetRef a b c d e f g h i j k l m x) (dec_list zero_DatasetShardRef dec_DatasetShardRef))].

Definition dec_Manifest : json → Manifest → option Manifest :=
  dec_struct [
    ("schema_version", set_field m_SchemaVersion
      (λ x '(mkManifest _ b c d e), mkManifest x b c d e) (dec_uint u32_bound));
    ("generation", set_field m_Generation
      (λ x '(mkManifest a _ c d e), mkManifest a x c d e) dec_Generation);
    ("voter_configuration_index", set_field m_VoterConfigurationIndex
      (λ x '(mkManifest a b _ d e), mkManifest a b x d e) (dec_uint u64_bound));
    ("created_at", set_field m_CreatedAt
      (λ x '(mkManifest a b c _ e), mkManifest a b c x e) dec_time);
    ("datasets", set_field m_Datasets
      (λ x '(mkManifest a b c d _), mkManifest a b c d x) (dec_gomap zero_DatasetRef dec_DatasetRef))].

(** [manifest.Generation.ManifestHash = h]. *)
Definition with_manifest_hash (h : string) (m : Manifest) : Manifest :=
  let g := m_Generation m in
  mkManifest (m_SchemaVersion m)
    (mkGeneration (g_ClusterID g) (g_LeaderEpoch g) (g_Sequence g) h)
    (m_VoterConfigurationIndex m) (m_CreatedAt m) (m_Datasets m).

Definition ComputeManifestHash (manifest : Manifest) : result string :=
  let? data := enc_Manifest (with_manifest_hash "" manifest) in
  Ok (HashPrefixSHA256 +:+ sha256_hex (json_text data)).

(** ** Specification *)

(** A well-formed hash: 64 hexadecimal digits, optionally after the prefix. *)
Definition hash_ok (h : string) : Prop :=
  ∃ hexHash, normalizeSHA256Hash h = Ok hexHash.

(** Totals of a shard list over the integers, without wrap-around. *)
Definition shard_records (l : list DatasetShardRef) : Z := foldr (λ s, Z.add (s_RecordCount s)) 0%Z l.
Definition shard_bytes (l : list DatasetShardRef) : Z := foldr (λ s, Z.add (s_UncompressedBytes s)) 0%Z l.

Record shards_ok (l : list DatasetShardRef) : Prop := {
  sh_keys : NoDup (s_Key <$> l);
  sh_each : Forall (λ s, s_Key s ≠ "" ∧ hash_ok (s_BlobHash s)
                    ∧ (0 ≤ s_RecordCount s)%Z ∧ (0 ≤ s_UncompressedBytes s)%Z) l;
}.

(** What [ValidateManifest] accepts for one dataset. *)
Record dataset_ok (name : string) (d : DatasetRef) : Prop := {
  do_name : name ≠ "" ∧ d_Name d = name;
  do_counts : (0 ≤ d_RecordCount d)%Z ∧ (0 ≤ d_UncompressedBytes d)%Z;
  do_previous : d_PreviousBlobHash d = "" ∨ hash_ok (d_PreviousBlobHash d);
  do_storage :
    (d_Shards d = [] ∧ hash_ok (d_BlobHash d))
    ∨ (d_BlobHash d = "" ∧ d_Shards d ≠ [] ∧ shards_ok (d_Shards d)
       ∧ i64_wrap (shard_records (d_Shards d)) = d_RecordCount d
       ∧ i64_wrap (shard_bytes (d_Shards d)) = d_UncompressedBytes d);
}.

(** ** Lemmas *)

Lemma generation_Equal_eq g h : generation_Equal g h = true ↔ g = h.
Proof.
  unfold generation_Equal. rewrite !andb_true_iff, !str_eqb_eq, !N.eqb_eq.
  destruct g, h; simpl. naive_solver.
Qed.

Lemma generation_IsZero_eq g : generation_IsZero g = true ↔ g = zero_Generation.
Proof.
  unfold generation_IsZero, zero_Generation. rewrite !andb_true_iff, !str_eqb_eq, !N.eqb_eq.
  destruct g; simpl. naive_solver.
Qed.

Lemma containsGeneration_in l g : containsGeneration l g = true ↔ g ∈ l.
Proof.
  unfold containsGeneration. rewrite existsb_exists. split.
  - intros (x & Hx & ->%generation_Equal_eq). by apply list_elem_of_In.
  - intros H. exists g. split; [by apply list_elem_of_In|by apply generation_Equal_eq].
Qed.

Lemma hash_ok_dec h : is_ok (normalizeSHA256Hash h) = true ↔ hash_ok h.
Proof. unfold hash_ok. destruct (normalizeSHA256Hash h); naive_solver. Qed.

Lemma hash_ok_nonempty h : hash_ok h → h ≠ "".
Proof. intros [x Hx] ->. discriminate Hx. Qed.

Lemma normalize_digest d : normalizeSHA256Hash (HashPrefixSHA256 +:+ sha256_hex d) = Ok (sha256_hex d).
Proof.
  unfold normalizeSHA256Hash. autorewrite with clusterha_rw. done.
Qed.

Lemma split_generation_text a b c d :
  has_char "/" a = false → has_char "/" b = false → has_char "/" c = false →
  split_n "/" 4 (a +:+ "/" +:+ b +:+ "/" +:+ c +:+ "/" +:+ d) = [a; b; c; d].
Proof.
  intros Ha Hb Hc. assert (∀ x, "/" +:+ x = String "/" x) as Hs by done.
  rewrite !Hs. cbn [split_n]. rewrite !cut_app by done. done.
Qed.

Lemma i64_wrap_add x y : i64_wrap (i64_wrap x + y) = i64_wrap (x + y).
Proof.
  unfold i64_wrap. f_equal.
  replace ((x + 2 ^ 63) `mod` 2 ^ 64 - 2 ^ 63 + y + 2 ^ 63)%Z
    with ((x + 2 ^ 63) `mod` 2 ^ 64 + y)%Z by lia.
  rewrite Zplus_mod_idemp_l. f_equal. lia.
Qed.

Lemma shards_ok_cons s l :
  shards_ok (s :: l) ↔
  (s_Key s ≠ "" ∧ hash_ok (s_BlobHash s) ∧ (0 ≤ s_RecordCount s)%Z ∧ (0 ≤ s_UncompressedBytes s)%Z)
  ∧ s_Key s ∉ s_Key <$> l ∧ shards_ok l.
Proof.
  split.
  - intros [Hk He]. rewrite fmap_cons, NoDup_cons in Hk. inversion_clear He.
    destruct Hk. done.
  - intros (Hs & Hk & [Hn He]). split; [rewrite fmap_cons, NoDup_cons; done | by constructor].
Qed.

Lemma validateShard_Ok seen r0 b0 s acc :
  validateShard (seen, r0, b0) s = Ok acc ↔
  s_Key s ≠ "" ∧ s_Key s ∉ seen ∧ hash_ok (s_BlobHash s)
  ∧ (0 ≤ s_RecordCount s)%Z ∧ (0 ≤ s_UncompressedBytes s)%Z
  ∧ acc = ({[s_Key s]} ∪ seen, i64_wrap (r0 + s_RecordCount s), i64_wrap (b0 + s_UncompressedBytes s)).
Proof.
  unfold validateShard. rewrite <- hash_ok_dec. split.
  - intros. split_guards; try done.
  - intros (H1 & H2 & -> & H4 & H5 & ->).
    rewrite str_eqb_neq, bool_decide_eq_false_2 by done. simpl.
    apply Z.ltb_ge in H4, H5. by rewrite H4, H5.
Qed.

(** The loop over shards from any starting point: it accepts exactly the
    well-formed lists with fresh keys and leaves the wrapped totals. *)
Lemma validateShards_Ok l seen r0 b0 acc :
  rfold validateShard (seen, i64_wrap r0, i64_wrap b0) l = Ok acc ↔
  shards_ok l ∧ (∀ k, k ∈ s_Key <$> l → k ∉ seen)
  ∧ acc = (list_to_set (s_Key <$> l) ∪ seen,
           i64_wrap (r0 + shard_records l), i64_wrap (b0 + shard_bytes l)).
Proof.
  revert seen r0 b0. induction l as [|s l IH]; intros seen r0 b0; simpl.
  - rewrite !Z.add_0_r, union_empty_l_L. split.
    + intros [= <-]. split_and!; [split; constructor | set_solver | done].
    + by intros (_ & _ & ->).
  - rewrite rbind_Ok. setoid_rewrite validateShard_Ok. rewrite shards_ok_cons.
    setoid_rewrite elem_of_cons. split.
    + intros (a & (H1 & H2 & H3 & H4 & H5 & ->) & H).
      rewrite !i64_wrap_add in H. apply IH in H as (Hl & Hk & ->).
      split_and!; try done; [set_solver..|].
      f_equal; [f_equal; [set_solver|]|]; f_equal; lia.
    + intros (((H1 & H2 & H3 & H4) & H5 & Hl) & Hk & ->).
      eexists. split; [split_and!; try done; by apply Hk; left|].
      rewrite !i64_wrap_add. apply IH. split_and!; [done|set_solver|].
      f_equal; [f_equal; [set_solver|]|]; f_equal; lia.
Qed.

Lemma validateDataset_Ok name d : validateDataset name d = Ok tt ↔ dataset_ok name d.
Proof.
  assert (∀ acc, rfold validateShard (∅, 0%Z, 0%Z) (d_Shards d) = Ok acc ↔
    shards_ok (d_Shards d) ∧ acc = (list_to_set (s_Key <$> d_Shards d),
      i64_wrap (shard_records (d_Shards d)), i64_wrap (shard_bytes (d_Shards d)))) as Hloop.
  { intros acc. change (∅, 0%Z, 0%Z) with (∅ : gset string, i64_wrap 0, i64_wrap 0).
    rewrite validateShards_Ok, union_empty_r_L. set_solver. }
  unfold validateDataset. split.
  - intros H. destruct (str_eqb name "") eqn:?; [done|].
    destruct (negb (str_eqb (d_Name d) name)) eqn:?; [done|].
    destruct (_ || _)%Z eqn:?; [done|].
    destruct (negb (str_eqb (d_PreviousBlobHash d) "") && _) eqn:Hprev; [done|].
    bool_simpl. split; [done..| |].
    + destruct (str_eqb (d_PreviousBlobHash d) "") eqn:E; [left; by apply str_eqb_eq|].
      simpl in Hprev. bool_simpl. right. by apply hash_ok_dec.
    + destruct (Bool.eqb _ _) eqn:Hxor; [done|].
      destruct (str_eqb (d_BlobHash d) "") eqn:Hblob; simpl in *.
      * assert (d_Shards d ≠ []) by (intros Hnil; by rewrite Hnil in Hxor).
        right. apply rbind_Ok in H as ([[seen r] b] & (Hok & [= -> -> ->])%Hloop & H).
        destruct (_ || _) eqn:Ht; [done|]. bool_simpl.
        split_and!; done.
      * left. split; [|apply hash_ok_dec; by split_guards].
        destruct (d_Shards d); [done|]. by rewrite bool_decide_eq_true_2 in Hxor by (simpl; lia).
  - intros [[Hn Hd] [Hr Hb] Hp Hs].
    rewrite (str_eqb_neq name), (proj2 (str_eqb_eq (d_Name d) name)) by done. simpl.
    rewrite (proj2 (Z.ltb_ge _ _) Hr), (proj2 (Z.ltb_ge _ _) Hb). simpl.
    assert (negb (str_eqb (d_PreviousBlobHash d) "")
      && negb (is_ok (normalizeSHA256Hash (d_PreviousBlobHash d))) = false) as ->.
    { destruct Hp as [->|Hp%hash_ok_dec]; [done|]. rewrite Hp. apply andb_false_r. }
    destruct Hs as [[Hnil Hh] | (Hblob & Hne & Hsh & Hr1 & Hb1)].
    + rewrite Hnil. rewrite (str_eqb_neq (d_BlobHash d)) by (by apply hash_ok_nonempty). simpl.
      apply hash_ok_dec in Hh. by rewrite Hh.
    + rewrite Hblob. simpl. rewrite bool_decide_eq_true_2.
      2:{ destruct (d_Shards d); [done|simpl; lia]. }
      simpl. rewrite (proj2 (Hloop _) (conj Hsh eq_refl)). simpl.
      by rewrite Hr1, Hb1, !Z.eqb_refl.
Qed.

Lemma ValidateManifest_Ok m :
  ValidateManifest m = Ok tt ↔ map_Forall dataset_ok (datasets m).
Proof.
  unfold ValidateManifest. rewrite rall_map. split.
  - intros H k d Hk. by apply validateDataset_Ok, (H k d).
  - intros H k d Hk. by apply validateDataset_Ok, (H k d).
Qed.

Lemma datasetBlobHashes_ok name d h : dataset_ok name d → h ∈ datasetBlobHashes d → hash_ok h.
Proof.
  intros [_ _ _ Hs]. unfold datasetBlobHashes. case_bool_decide as Hl.
  - destruct Hs as [[Hnil _]|(_ & _ & [_ He] & _)]; [rewrite Hnil in Hl; simpl in Hl; lia|].
    rewrite list_elem_of_filter. intros [_ (s & -> & Hin)%list_elem_of_fmap].
    rewrite Forall_forall in He. by apply He.
  - destruct Hs as [[_ Hh]|(_ & Hne & _)]; [|destruct (d_Shards d); [done|simpl in *; lia]].
    destruct (str_eqb _ _); [by intros ?%not_elem_of_nil|].
    by intros ->%list_elem_of_singleton.
Qed.

Lemma elem_of_manifestBlobHashes m h :
  h ∈ manifestBlobHashes m ↔ ∃ name d, datasets m !! name = Some d ∧ h ∈ datasetBlobHashes d.
Proof.
  unfold manifestBlobHashes. rewrite list_elem_of_In, in_concat. split.
  - intros (l & ([k d] & <- & Hkd)%in_map_iff & Hh). exists k, d. split.
    + by apply elem_of_map_to_list, list_elem_of_In.
    + by apply list_elem_of_In.
  - intros (k & d & Hk & Hh). exists (datasetBlobHashes d). split; [|by apply list_elem_of_In].
    apply in_map_iff. exists (k, d). split; [done|]. by apply list_elem_of_In, elem_of_map_to_list.
Qed.

Lemma with_manifest_hash_twice h h' m :
  with_manifest_hash h (with_manifest_hash h' m) = with_manifest_hash h m.
Proof. done. Qed.

Lemma ParseGeneration_Ok cid v g :
  ParseGeneration cid v = Ok g →
  ∃ p1 p2, v = cid +:+ "/" +:+ p1 +:+ "/" +:+ p2 +:+ "/" +:+ g_ManifestHash g
  ∧ has_char "/" cid = false ∧ g_ClusterID g = cid
  ∧ ParseUint u64_bound p1 = Some (g_LeaderEpoch g) ∧ ParseUint u64_bound p2 = Some (g_Sequence g)
  ∧ has_prefix HashPrefixSHA256 (g_ManifestHash g) = true.
Proof.
  unfold ParseGeneration. cbn [split_n].
  destruct (cut "/" v) as [[p0 r0]|] eqn:E0; [|done].
  destruct (cut "/" r0) as [[p1 r1]|] eqn:E1; [|done].
  destruct (cut "/" r1) as [[p2 r2]|] eqn:E2; [|done].
  apply cut_Some in E0 as [-> H0], E1 as [-> H1], E2 as [-> H2].
  destruct (ParseUint u64_bound p1) eqn:F1; [|done].
  destruct (ParseUint u64_bound p2) eqn:F2; [|done].
  destruct (_ || _) eqn:E; [done|]. intros [= <-]. simpl in *. bool_simpl. subst.
  eauto 10.
Qed.

Lemma ParseGeneration_String cid g :
  g_ClusterID g = cid → has_char "/" cid = false →
  (g_LeaderEpoch g < u64_bound)%N → (g_Sequence g < u64_bound)%N →
  has_prefix HashPrefixSHA256 (g_ManifestHash g) = true →
  ParseGeneration cid (generation_String g) = Ok g.
Proof.
  intros Hc Hs He Hq Hp. unfold ParseGeneration, generation_String.
  rewrite split_generation_text by (try apply has_char_FormatUint; by subst).
  rewrite !ParseUint_FormatUint by done. cbv beta iota zeta. cbn [g_ClusterID g_ManifestHash].
  rewrite Hc, str_eqb_refl, Hp. simpl. subst. by destruct g.
Qed.

(** ** Properties *)

(** printing a generation of the cluster and parsing it gives it back. *)
Theorem ParseGeneration_roundtrip (cid : string) (g : Generation) :
  g_ClusterID g = cid → has_char "/" cid = false →
  (g_LeaderEpoch g < u64_bound)%N → (g_Sequence g < u64_bound)%N →
  has_prefix HashPrefixSHA256 (g_ManifestHash g) = true →
  ParseGeneration cid (generation_String g) = Ok g.
Proof. apply ParseGeneration_String. Qed.

Lemma ParseGeneration_roundtrip_witness :
  let g := mkGeneration "meraki-prod" 7 18446744073709551615 "sha256:ab/cd" in
  generation_String g = "meraki-prod/7/18446744073709551615/sha256:ab/cd"
  ∧ ParseGeneration "meraki-prod" (generation_String g) = Ok g.
Proof.
  split; [vm_compute; reflexivity|].
  apply (ParseGeneration_roundtrip "meraki-prod"); vm_compute; reflexivity.
Defined.

(** whatever [ParseGeneration] accepts belongs to the node's cluster, names
    a sha256 manifest, is within 64 bits, and prints to a text that parses to
    the same generation, so accepted texts have one canonical spelling. *)
Theorem ParseGeneration_sound (cid value : string) (g : Generation) :
  ParseGeneration cid value = Ok g →
  g_ClusterID g = cid ∧ has_prefix HashPrefixSHA256 (g_ManifestHash g) = true
  ∧ (g_LeaderEpoch g < u64_bound)%N ∧ (g_Sequence g < u64_bound)%N
  ∧ ParseGeneration cid (generation_String g) = Ok g.
Proof.
  intros (p1 & p2 & _ & Hs & Hc & H1%ParseUint_bound & H2%ParseUint_bound & Hp)%ParseGeneration_Ok.
  split_and!; try done. by apply ParseGeneration_String.
Qed.

Lemma ParseGeneration_sound_witness :
  ParseGeneration "c" "c/01/2/sha256:x" = Ok (mkGeneration "c" 1 2 "sha256:x")
  ∧ ParseGeneration "c" "c/1/2/sha256:x" = Ok (mkGeneration "c" 1 2 "sha256:x").
Proof.
  assert (ParseGeneration "c" "c/01/2/sha256:x" = Ok (mkGeneration "c" 1 2 "sha256:x")) as H
    by (vm_compute; reflexivity).
  split; [exact H|]. exact (proj2 (proj2 (proj2 (proj2 (ParseGeneration_sound _ _ _ H))))).
Defined.

(** a sequence is accepted exactly when it is 1 for the first snapshot or
    one more than the previous one, without wrap-around at 2^64. *)
Theorem validateNextSnapshotSequence_spec (previous : Manifest) (hasPrevious : bool) (sequence : N) :
  (g_Sequence (m_Generation previous) < u64_bound)%N →
  validateNextSnapshotSequence previous hasPrevious sequence = Ok tt ↔
  if hasPrevious
  then (sequence < u64_bound)%N ∧ sequence = (g_Sequence (m_Generation previous) + 1)%N
  else sequence = 1%N.
Proof.
  intros Hb. unfold validateNextSnapshotSequence. destruct hasPrevious; simpl.
  - destruct (_ =? u64_max)%N eqn:E; bool_simpl.
    + unfold u64_max in E. split; [done|]. unfold u64_bound in *. lia.
    + rewrite u64_succ_small by (unfold u64_max, u64_bound in *; lia).
      destruct (sequence =? _)%N eqn:F; bool_simpl; simpl; [|naive_solver].
      unfold u64_max, u64_bound in *. split; [lia|done].
  - destruct (sequence =? 1)%N eqn:F; bool_simpl; simpl; naive_solver.
Qed.

Lemma validateNextSnapshotSequence_spec_witness :
  let previous := mkManifest 1 (mkGeneration "c" 1 u64_max "") 0 zero_time None in
  validateNextSnapshotSequence previous true 0 ≠ Ok tt.
Proof.
  intros previous H.
  apply (validateNextSnapshotSequence_spec previous true 0) in H; [|vm_compute; reflexivity].
  destruct H as [_ H]. discriminate H.
Defined.

(** [ValidateManifest] accepts exactly the manifests all of whose datasets
    are well formed, whatever the iteration order of the map. *)
Theorem ValidateManifest_spec (m : Manifest) :
  (ValidateManifest m = Ok tt ↔ map_Forall dataset_ok (datasets m))
  ∧ ∀ l, l ≡ₚ map_to_list (datasets m) →
    (rall (λ '(name, dataset), validateDataset name dataset) l = Ok tt ↔ ValidateManifest m = Ok tt).
Proof. split; [apply ValidateManifest_Ok | intros l Hl; by apply rall_perm]. Qed.

(** when the shard totals fit in 64 bits, an accepted sharded dataset
    declares exactly the sums of its shards. *)
Theorem ValidateManifest_totals (m : Manifest) (name : string) (d : DatasetRef) :
  ValidateManifest m = Ok tt → datasets m !! name = Some d → d_Shards d ≠ [] →
  i64_in_range (shard_records (d_Shards d)) → i64_in_range (shard_bytes (d_Shards d)) →
  d_RecordCount d = shard_records (d_Shards d) ∧ d_UncompressedBytes d = shard_bytes (d_Shards d).
Proof.
  intros Hv Hd Hne Hr Hb. apply ValidateManifest_Ok in Hv.
  destruct (do_storage _ _ (Hv name d Hd)) as [[? _]|(_ & _ & _ & <- & <-)]; [done|].
  by rewrite !i64_wrap_id.
Qed.

(** A 64-digit hash for the witnesses. *)
Definition sample_hash : string := HashPrefixSHA256 +:+ sha256_hex "sample".

Definition sample_sharded (counts : list Z) (total : Z) : Manifest :=
  mkManifest 2 (mkGeneration "c" 1 1 "") 0 zero_time (Some {[ "wan" :=
    mkDatasetRef "wan" 2 "global" "" "json" total zero_time true "" "" true false 0
      (imap (λ i n, mkDatasetShardRef (FormatUint (N.of_nat i)) sample_hash n 0) counts) ]}).

Lemma ValidateManifest_totals_witness : ValidateManifest (sample_sharded [1; 2]%Z 3) = Ok tt ∧ 3%Z = (1 + 2)%Z.
Proof.
  assert (ValidateManifest (sample_sharded [1; 2]%Z 3) = Ok tt) as H by (vm_compute; reflexivity).
  split; [exact H|].
  refine (proj1 (ValidateManifest_totals (sample_sharded [1; 2]%Z 3) "wan" _ H eq_refl _ _ _));
    [discriminate | split; vm_compute; discriminate | split; vm_compute; discriminate].
Defined.

(** the running totals of [ValidateManifest] wrap: four shards of 2^62
    records each are accepted for a dataset that declares no record. *)
Theorem ValidateManifest_wraps :
  let m := sample_sharded [2 ^ 62; 2 ^ 62; 2 ^ 62; 2 ^ 62]%Z 0 in
  ValidateManifest m = Ok tt
  ∧ ∃ d, datasets m !! "wan" = Some d ∧ d_RecordCount d = 0%Z
       ∧ shard_records (d_Shards d) = (2 ^ 64)%Z.
Proof. split; [vm_compute; reflexivity|]. eexists. split_and!; vm_compute; reflexivity. Qed.

(** every blob hash of an accepted manifest is a well-formed sha256 hash. *)
Theorem ValidateManifest_hashes (m : Manifest) (h : string) :
  ValidateManifest m = Ok tt → h ∈ manifestBlobHashes m → hash_ok h.
Proof.
  intros Hv (name & d & Hd & Hh)%elem_of_manifestBlobHashes.
  apply ValidateManifest_Ok in Hv. by eapply datasetBlobHashes_ok, Hh; apply Hv.
Qed.

Lemma ValidateManifest_hashes_witness : hash_ok sample_hash.
Proof.
  apply (ValidateManifest_hashes (sample_sharded [1; 2]%Z 3)); [vm_compute; reflexivity|].
  vm_compute. left.
Defined.

(** the manifest hash does not depend on the hash already in the manifest,
    and is a well-formed prefixed digest. *)
Theorem ComputeManifestHash_spec (m : Manifest) (h : string) :
  ComputeManifestHash (with_manifest_hash h m) = ComputeManifestHash m
  ∧ ∀ hash, ComputeManifestHash m = Ok hash →
      has_prefix HashPrefixSHA256 hash = true ∧ hash_ok hash ∧ hash ≠ "".
Proof.
  split; [unfold ComputeManifestHash; by rewrite with_manifest_hash_twice|].
  unfold ComputeManifestHash. intros hash (j & _ & [= <-])%rbind_Ok.
  assert (hash_ok (HashPrefixSHA256 +:+ sha256_hex (json_text j))) as Hok
    by (eexists; apply normalize_digest).
  split_and!; [apply has_prefix_app | done | by apply hash_ok_nonempty].
Qed.

(** a manifest passes the gate exactly when its schema version and that of
    each dataset, 0 counting as 1, are the ones the gate activates. *)
Theorem validateManifestCapability_spec (m : Manifest) (gate : CapabilityGate) :
  validateManifestCapability m gate = Ok tt ↔
  or_default (m_SchemaVersion m) 1 = cg_ManifestSchemaVersion (normalizeCapabilityGate gate)
  ∧ map_Forall (λ name d, or_default (d_SchemaVersion d) 1 = DatasetSchemaVersion gate name) (datasets m).
Proof.
  unfold validateManifestCapability, LegacyManifestSchemaVersion, LegacyDatasetSchemaVersion.
  destruct (or_default _ 1 =? _)%N eqn:E; bool_simpl; simpl; [|naive_solver].
  rewrite rall_map. setoid_rewrite normalize_equiv. split.
  - intros H. split; [done|]. intros k d Hk. specialize (H k d Hk). by split_guards.
  - intros [_ H] k d Hk. specialize (H k d Hk). simpl in H. by rewrite H, N.eqb_refl.
Qed.
