(* ===== verification/Codec.v ===== *)
(** * Codec: what is written as JSON is read back

    Round trips of the types that go to disk, to the log or to a peer, for
    values a Go program writes without loss: text is UTF-8, numbers fit their
    types, times are in UTC (or are read back by themselves). *)
From S2P Require Import Prelude Text Json GoTime GoTimeProofs Capability Config Manifest.
From stdpp Require Import options.

(** ** Containers *)

Section containers.
Context {V : Type} (enc : V → result json) (dec : json → V → option V) (zero : V).

(** Members of a map, decoded one after the other into a map. *)
Definition dec_members (cur : option (gmap string V)) (ms : list (string * json)) : option (gmap string V) :=
  foldl (λ acc (m : string * json),
    match acc with None => None | Some c => (λ v, <[ m.1 := v ]> c) <$> dec m.2 zero end) cur ms.

Lemma dec_members_enc l ms cur :
  (∀ k v, (k, v) ∈ l → valid_utf8 k ∧ ∀ j, enc v = Ok j → dec j zero = Some v) →
  enc_members enc l = Ok ms →
  dec_members (Some cur) ms = Some (foldl (λ c kv, <[ kv.1 := kv.2 ]> c) cur l).
Proof.
  revert ms cur. induction l as [|[k v] l IH]; intros ms cur Hok; cbn [enc_members]; [by intros [= <-]|].
  rewrite rbind_Ok. intros (j & Hj & H). apply rbind_Ok in H as (ms' & Hms & H). injection H as <-.
  destruct (Hok k v) as [Hk Hv]; [by left|]. unfold dec_members. cbn [foldl fst snd].
  rewrite (Hv _ Hj), Hk. cbn [fmap option_fmap option_map]. apply IH; [|done].
  intros. apply Hok. by right.
Qed.

Lemma foldl_insert_sorted (m : gmap string V) :
  foldl (λ c kv, <[ kv.1 := kv.2 ]> c) ∅ (sorted_entries m) = m.
Proof.
  assert (∀ (l : list (string * V)) (c : gmap string V), foldl (λ c kv, <[ kv.1 := kv.2 ]> c) c l = list_to_map (reverse l) ∪ c) as Hf.
  { induction l as [|[k v] l IH]; intros c; cbn [foldl fst snd]; [cbn; by rewrite (left_id_L ∅ (∪))|].
    rewrite IH, reverse_cons, list_to_map_app. cbn. by rewrite insert_empty, <- map_union_assoc, <- insert_union_singleton_l. }
  assert (reverse (sorted_entries m) ≡ₚ map_to_list m) as Hp by (by rewrite reverse_Permutation, sorted_entries_perm).
  rewrite Hf, (right_id_L ∅ (∪)). etrans; [|apply list_to_map_to_list]. apply list_to_map_proper; [|done].
  rewrite Hp. apply NoDup_fst_map_to_list.
Qed.

Lemma dec_enc_gomap (m : gmap string V) j cur :
  gm_entries cur = ∅ →
  (∀ k v, m !! k = Some v → valid_utf8 k ∧ ∀ j, enc v = Ok j → dec j zero = Some v) →
  enc_gomap enc (Some m) = Ok j → dec_gomap zero dec j cur = Some (Some m).
Proof.
  intros Hcur Hok. cbn [enc_gomap]. rewrite rbind_Ok. intros (ms & Hms & [= <-]). cbn [dec_gomap]. rewrite Hcur.
  pose proof (dec_members_enc (sorted_entries m) ms ∅) as H. unfold dec_members in H. rewrite H, foldl_insert_sorted; [done| |done].
  intros k v Hkv. apply Hok. apply elem_of_map_to_list. by rewrite <- sorted_entries_perm.
Qed.
End containers.

Lemma enc_members_pure {V} (enc : V → json) l :
  enc_members (λ v, Ok (enc v)) l = Ok (map (λ kv : string * V, (utf8_fix kv.1, enc kv.2)) l).
Proof. induction l as [|[k v] l IH]; [done|]. cbn [enc_members rbind]. by rewrite IH. Qed.

Lemma dec_enc_map {V} (enc : V → json) dec (zero : V) (m : gmap string V) :
  (∀ k v, m !! k = Some v → valid_utf8 k ∧ dec (enc v) zero = Some v) →
  dec_map zero dec (enc_map enc m) ∅ = Some m.
Proof.
  intros Hok. unfold dec_map. rewrite (dec_enc_gomap (λ v, Ok (enc v)) dec zero m); [done|done| |].
  - intros k v Hk. destruct (Hok k v Hk). by split; [|intros ? [= <-]].
  - cbn [enc_gomap]. by rewrite enc_members_pure.
Qed.

Lemma dec_enc_list {A} (enc : A → json) dec (zero : A) l cur :
  (∀ a, a ∈ l → dec (enc a) zero = Some a) → dec_list zero dec (JArr (map enc l)) cur = Some l.
Proof.
  intros Hok. cbn [dec_list]. induction l as [|a l IH]; [done|]. cbn [map mapM].
  rewrite (Hok a) by left. cbn. rewrite IH; [done|]. intros. apply Hok. by right.
Qed.

Lemma dec_enc_int z cur : i64_in_range z → dec_int64 (enc_int z) cur = Some z.
Proof. apply ParseInt64_FormatInt. Qed.

(** A time that is read back from what is written; those in UTC are. *)
Definition time_wire (t : time) : Prop := ∀ j cur, enc_time t = Ok j → dec_time j cur = Some t.

Lemma utc_wire t : t_off t = 0%Z → time_wire t.
Proof. intros H j cur. by apply dec_enc_time. Qed.

(** ** Capabilities *)

Definition range_wire (r : VersionRange) : Prop := (vr_Min r < u32_bound ∧ vr_Max r < u32_bound)%N.

Lemma dec_enc_VersionRange r cur : range_wire r → dec_VersionRange (enc_VersionRange r) cur = Some r.
Proof.
  destruct r as [lo hi]. intros [Hlo Hhi]. cbn [vr_Min vr_Max] in *. unfold dec_VersionRange, enc_VersionRange.
  dec_member. dec_member. done.
Qed.

Record capabilities_wire (c : NodeCapabilities) : Prop := {
  cw_level : (nc_CapabilityLevel c < u32_bound)%N;
  cw_protocol : range_wire (nc_Protocol c);
  cw_command : range_wire (nc_Command c);
  cw_manifest : range_wire (nc_ManifestSchema c);
  cw_dataset : range_wire (nc_DatasetSchema c);
}.

Lemma dec_enc_NodeCapabilities c cur :
  capabilities_wire c → dec_NodeCapabilities (enc_NodeCapabilities c) cur = Some c.
Proof.
  destruct c, cur. intros [Hl Hp Hc Hm Hd]. cbn in Hl, Hp, Hc, Hm, Hd. unfold dec_NodeCapabilities, enc_NodeCapabilities.
  dec_member. do 4 (dec_member; [by apply dec_enc_VersionRange|]). done.
Qed.

Record gate_wire (g : CapabilityGate) : Prop := {
  gw_protocol : (cg_ProtocolVersion g < u32_bound)%N;
  gw_command : (cg_CommandVersion g < u32_bound)%N;
  gw_manifest : (cg_ManifestSchemaVersion g < u32_bound)%N;
  gw_datasets : ∀ k v, cg_DatasetSchemaVersions g !! k = Some v → valid_utf8 k ∧ (v < u32_bound)%N;
  gw_leader : (cg_MinimumLeaderCapability g < u32_bound)%N;
  gw_voter : (cg_MinimumVoterCapability g < u32_bound)%N;
}.

(** The map of the current value is empty: decoding adds to it. *)
Lemma dec_enc_CapabilityGate g cur :
  gate_wire g → cg_DatasetSchemaVersions cur = ∅ → dec_CapabilityGate (enc_CapabilityGate g) cur = Some g.
Proof.
  destruct g, cur. intros [Hp Hc Hm Hd Hl Hv] He. cbn in Hp, Hc, Hm, Hd, Hl, Hv, He. subst.
  unfold dec_CapabilityGate, enc_CapabilityGate. dec_member. dec_member. dec_member. dec_member.
  { apply dec_enc_map. intros k v Hk. destruct (Hd k v Hk). split; [done|]. by apply dec_enc_uint. }
  dec_member. dec_member. done.
Qed.

(** ** Members of the cluster *)

Record generation_wire (g : Generation) : Prop := {
  nw_cluster : valid_utf8 (g_ClusterID g);
  nw_epoch : (g_LeaderEpoch g < u64_bound)%N;
  nw_sequence : (g_Sequence g < u64_bound)%N;
  nw_hash : valid_utf8 (g_ManifestHash g);
}.

Lemma dec_enc_Generation g cur : generation_wire g → dec_Generation (enc_Generation g) cur = Some g.
Proof.
  destruct g, cur. intros [Hc He Hs Hh]. cbn in Hc, He, Hs, Hh. unfold dec_Generation, enc_Generation.
  do 4 dec_member. done.
Qed.

(** ** Manifests *)

Record shard_wire (s : DatasetShardRef) : Prop := {
  hw_key : valid_utf8 (s_Key s);
  hw_hash : valid_utf8 (s_BlobHash s);
  hw_records : i64_in_range (s_RecordCount s);
  hw_bytes : i64_in_range (s_UncompressedBytes s);
}.

Lemma dec_enc_DatasetShardRef s cur : shard_wire s → dec_DatasetShardRef (enc_DatasetShardRef s) cur = Some s.
Proof.
  destruct s, cur. intros [Hk Hh Hr Hb]. cbn in Hk, Hh, Hr, Hb. unfold dec_DatasetShardRef, enc_DatasetShardRef.
  do 2 dec_member. do 2 (dec_member; [by apply dec_enc_int|]). done.
Qed.

Record dataset_wire (d : DatasetRef) : Prop := {
  dw_name : valid_utf8 (d_Name d);
  dw_schema : (d_SchemaVersion d < u32_bound)%N;
  dw_scope : valid_utf8 (d_Scope d);
  dw_hash : valid_utf8 (d_BlobHash d);
  dw_encoding : valid_utf8 (d_Encoding d);
  dw_records : i64_in_range (d_RecordCount d);
  dw_collected : time_wire (d_CollectedAt d);
  dw_error : valid_utf8 (d_SourceError d);
  dw_previous : valid_utf8 (d_PreviousBlobHash d);
  dw_bytes : i64_in_range (d_UncompressedBytes d);
  dw_shards : Forall shard_wire (d_Shards d);
}.

Lemma dec_enc_DatasetRef d j : dataset_wire d → enc_DatasetRef d = Ok j → dec_DatasetRef j zero_DatasetRef = Some d.
Proof.
  destruct d as [n sv sc h en rc ca ss se pb rq st ub sh]. intros [Hn Hsv Hsc Hh Hen Hrc Hca Hse Hpb Hub Hsh]. cbn in *.
  unfold enc_DatasetRef. rewrite rbind_Ok. intros (created & Hcr & [= <-]).
  cbn [d_Name d_SchemaVersion d_Scope d_BlobHash d_Encoding d_RecordCount d_CollectedAt d_SourceSuccess d_SourceError
    d_PreviousBlobHash d_Required d_Stale d_UncompressedBytes d_Shards] in *.
  unfold dec_DatasetRef, zero_DatasetRef. do 5 dec_member. dec_member; [by apply dec_enc_int|].
  dec_member; [by apply Hca|]. dec_member; [done|].
  dec_optional. dec_optional. dec_member; [done|]. dec_member; [done|].
  dec_optional_by ltac:(by apply dec_enc_int).
  dec_optional_by ltac:(apply dec_enc_list; intros s Hs; apply dec_enc_DatasetShardRef; by eapply Forall_forall in Hsh).
  done.
Qed.

Record manifest_wire (m : Manifest) : Prop := {
  mw_schema : (m_SchemaVersion m < u32_bound)%N;
  mw_generation : generation_wire (m_Generation m);
  mw_index : (m_VoterConfigurationIndex m < u64_bound)%N;
  mw_created : time_wire (m_CreatedAt m);
  mw_datasets : ∀ k d, datasets m !! k = Some d → valid_utf8 k ∧ dataset_wire d;
}.

Lemma dec_enc_Manifest m j : manifest_wire m → enc_Manifest m = Ok j → dec_Manifest j zero_Manifest = Some m.
Proof.
  destruct m as [sv g vi ca ds]. intros [Hsv Hg Hvi Hca Hds].
  cbn [m_SchemaVersion m_Generation m_VoterConfigurationIndex m_CreatedAt] in *.
  unfold enc_Manifest. rewrite rbind_Ok. intros (created & Hcr & H). apply rbind_Ok in H as (dsj & Hdsj & [= <-]).
  cbn [m_SchemaVersion m_Generation m_VoterConfigurationIndex m_CreatedAt m_Datasets] in *.
  unfold dec_Manifest, zero_Manifest. dec_member. dec_member; [by apply dec_enc_Generation|]. dec_member.
  dec_member; [by apply Hca|]. eapply dec_fields_field; [reflexivity|apply set_field_Some|reflexivity].
  destruct ds as [ds|]; [|by injection Hdsj as <-].
  apply (dec_enc_gomap enc_DatasetRef dec_DatasetRef zero_DatasetRef ds); [done| |done].
  intros k d Hk. destruct (Hds k d Hk) as [Hkey Hd]. split; [done|]. intros dj Hdj. by apply dec_enc_DatasetRef.
Qed.
