(* ===== verification/BlobStore.v ===== *)
(** * BlobStore: the content-addressed store (snapshot.go, second half)

    Objects are files below [blobDir], named by their digest; the calls are
    those of [Io], over files of bytes.  Here the calls of one store are taken
    one after the other; [BlobThreads] lets them overlap, with the per-hash
    mutexes of [lockHash]. *)
From S2P Require Import Prelude Text Io Sha256 Json GoTime Capability Manifest.
From stdpp Require Import stringmap options.
From Stdlib Require Import Ascii.

Abbreviation io := (Io.io string) (only parsing).
Abbreviation world := (Io.world string) (only parsing).
Abbreviation file := (Io.file string) (only parsing).
#[local] Open Scope io_scope.

(** What a reader delivers: its bytes, then end of file or an error. *)
Record reader := mkReader { r_data : string; r_err : option error }.

Section store.
Context (E : env).

(** [io.Copy] into an open file. *)
Definition io_Copy (path : string) (r : reader) : io unit := file_Write E path (r_data r) (r_err r).

Context (root : string).

Definition blobDir : string := filepath_Join (filepath_Join root "blobs") "sha256".
Definition stagingDir : string := filepath_Join root "staging".
Definition quarantineDir : string := filepath_Join root "quarantine".

(** The path of an object from its 64 hexadecimal digits. *)
Definition objectPath (hexHash : string) : string :=
  filepath_Join (filepath_Join blobDir (take_chars 2 hexHash)) (drop_chars 2 hexHash).

Definition pathFor (hash : string) : result string :=
  match normalizeSHA256Hash hash with
  | Ok hexHash => Ok (objectPath hexHash)
  | Err e => Err e
  end.

Definition Verify (hash : string) : io unit :=
  do! path := io_of (pathFor hash) in
  do! data := read_file E path in
  let actual := HashPrefixSHA256 +:+ sha256_hex data in
  if negb (str_eqb actual hash) then io_err "blob checksum mismatch: expected %s got %s"
  else io_ret tt.

Definition quarantine (path hash : string) : io unit :=
  run! os_MkdirAll E quarantineDir in
  do! hexHash := io_of (normalizeSHA256Hash hash) in
  do! destination := (λ w, (Ok (filepath_Join quarantineDir (hexHash +:+ "-" +:+ FormatUint (io_nanos E (w_ticks w)))), w)) in
  do! r := io_try (os_Rename E path destination) in
  match r with
  | Err e => if IsNotExist e then io_ret tt else io_err e
  | Ok _ =>
      run! syncDir E quarantineDir in
      syncDir E (dir_of path)
  end.

(** The end of [Put] and [PutHash], after the object's directory was made: keep
    a valid object, quarantine an invalid one, move the staged file in place.
    The boolean result is [removeTmp] at the return. *)
Definition install (path hash tmpName : string) : io (result unit * bool) :=
  do! v := io_try (Verify hash) in
  match v with
  | Ok _ => io_ret (Ok tt, true)
  | Err e =>
      do! exists_ := (if IsNotExist e then io_ret false else fileExists E path) in
      do! q := (if exists_ then io_try (quarantine path hash) else io_ret (Ok tt)) in
      match q with
      | Err _ => io_ret (Err "quarantine invalid blob %s: %w", true)
      | Ok _ =>
          do! r := io_try (os_Rename E tmpName path) in
          match r with
          | Err e => io_ret (Err e, true)
          | Ok _ =>
              do! s := io_try (io_bind (syncDir E (dir_of path)) (λ _, syncDir E stagingDir)) in
              io_ret (s, false)
          end
      end
  end.

(** The deferred [os.Remove(tmpName)], whose error is dropped. *)
Definition with_tmp {A} (tmpName : string) (body : io (result A * bool)) : io A := λ w,
  match body w with
  | (Ok (r, removeTmp), w') => if removeTmp then (r, (os_Remove E tmpName w').2) else (r, w')
  | (Err e, w') => (Err e, (os_Remove E tmpName w').2)
  end.

(** Staging: the bytes are copied to a new file while they are hashed; [accept]
    is the digest test of [PutHash].  Yields the digest in hexadecimal. *)
Definition stage (tmpName : string) (r : reader) (accept : string → result unit) : io string :=
  do! c := io_try (io_Copy tmpName r) in
  match c with
  | Err e => run! io_try (file_Close E tmpName) in io_err e
  | Ok _ =>
      let hexHash := sha256_hex (r_data r) in
      match accept hexHash with
      | Err e => run! io_try (file_Close E tmpName) in io_err e
      | Ok _ =>
          do! s := io_try (file_Sync E tmpName) in
          match s with
          | Err e => run! io_try (file_Close E tmpName) in io_err e
          | Ok _ => run! file_Close E tmpName in io_ret hexHash
          end
      end
  end.

Definition Put (r : reader) : io string :=
  run! os_MkdirAll E stagingDir in
  do! tmpName := os_CreateTemp E stagingDir ".blob-" in
  with_tmp tmpName
    (do! hexHash := stage tmpName r (λ _, Ok tt) in
     let hash := HashPrefixSHA256 +:+ hexHash in
     do! path := io_of (pathFor hash) in
     run! os_MkdirAll E (dir_of path) in
     do! o := install path hash tmpName in
     io_ret (match o.1 with Ok _ => Ok hash | Err e => Err e end, o.2)).

Definition PutBytes (data : string) : io string := Put (mkReader data None).

Definition PutHash (hash : string) (r : reader) : io unit :=
  do! expected := io_of (normalizeSHA256Hash hash) in
  run! os_MkdirAll E stagingDir in
  do! tmpName := os_CreateTemp E stagingDir ".blob-" in
  with_tmp tmpName
    (run! stage tmpName r (λ actual,
       if negb (str_eqb actual expected)
       then Err "blob checksum mismatch: expected %s got %s" else Ok tt) in
     do! path := io_of (pathFor hash) in
     run! os_MkdirAll E (dir_of path) in
     install path hash tmpName).

Definition Open (hash : string) : io string :=
  run! Verify hash in
  do! path := io_of (pathFor hash) in
  read_file E path.

Definition Read (hash : string) : io string := Open hash.

Definition Has (hash : string) : io bool :=
  do! v := io_try (Verify hash) in io_ret (is_ok v).

(** The hash [GC] reads off a path below [blobDir]: the relative path without
    separators, when it has 64 characters. *)
Fixpoint remove_slashes (s : string) : string :=
  match s with
  | EmptyString => ""
  | String c s' => if bool_decide (c = "/"%char) then remove_slashes s' else String c (remove_slashes s')
  end.

Definition gc_hash (path : string) : option string :=
  let prefix := blobDir +:+ "/" in
  if has_prefix prefix path then
    let hexHash := remove_slashes (drop_chars (String.length prefix) path) in
    if String.length hexHash =? 64 then Some (HashPrefixSHA256 +:+ hexHash) else None
  else None.

(** The walk over the files, with the count of removed ones at each return. *)
Fixpoint gc_walk (retained : gset string) (paths : list string) (removed : nat) : io (nat * result unit) :=
  match paths with
  | [] => io_ret (removed, Ok tt)
  | path :: rest =>
      match gc_hash path with
      | None => gc_walk retained rest removed
      | Some hash =>
          if bool_decide (hash ∈ retained) then gc_walk retained rest removed
          else
            do! r := io_try (os_Remove E path) in
            match r with
            | Err e => if IsNotExist e then gc_walk retained rest (removed + 1)
                       else io_ret (removed, Err e)
            | Ok _ => gc_walk retained rest (removed + 1)
            end
      end
  end.

(** [filepath.WalkDir] visits the files in lexical order; listing the tree can
    fail like any system call, and a missing tree is no error. *)
Definition GC (retained : gset string) : io (nat * result unit) :=
  do! l := io_try (sys E (λ w, (Ok (map fst (sorted_entries (w_vol w))), w))) in
  match l with
  | Err e => io_ret (0, if IsNotExist e then Ok tt else Err e)
  | Ok paths => gc_walk retained paths 0
  end.

End store.
