(* ===== verification/BlobStoreProofs.v ===== *)
(** * BlobStoreProofs: reasoning about the content-addressed store

    A weakest-precondition calculus for the I/O of [BlobStore] under any choice
    of failing system calls, the effect of each operation as a lemma of that
    calculus ([wp_quarantine], [wp_install], [wp_stage], [wp_Put],
    [wp_PutHash]), and rules for the runs without faults ([succeeds]). *)
From S2P Require Import Prelude Text Io Sha256 Json GoTime Capability Manifest BlobStore.
From stdpp Require Import stringmap options.
From Stdlib Require Import Ascii.
#[local] Open Scope io_scope.

(** ** Reasoning about I/O *)

(** The blob a store holds for 64 hexadecimal digits, if its file verifies. *)
Definition stored (root : string) (w : world) (hexHash : string) : option string :=
  match w_vol w !! objectPath root hexHash with
  | Some f => if str_eqb (sha256_hex (f_data f)) hexHash then Some (f_data f) else None
  | None => None
  end.

(** Paths below the object directory and below the quarantine directory. *)
Definition in_blobs (root p : string) : bool := has_prefix (blobDir root +:+ "/") p.
Definition in_quarantine (root p : string) : bool := has_prefix (quarantineDir root +:+ "/") p.

(** A system call of the process changes only the paths in [S]. *)
Definition same_outside (S : string → Prop) (w w' : world) : Prop :=
  ∀ p, ¬ S p → w_vol w' !! p = w_vol w !! p.

(** ** Paths *)

Lemma wp_Verify E root hash Q w :
  (∀ e w', w_vol w' = w_vol w → w_dur w' = w_dur w → Q (Err e) w') →
  (∀ hx f w', normalizeSHA256Hash hash = Ok hx → w_vol w !! objectPath root hx = Some f →
    HashPrefixSHA256 +:+ sha256_hex (f_data f) = hash →
    w_vol w' = w_vol w → w_dur w' = w_dur w → Q (Ok tt) w') →
  wp (Verify E root hash) Q w.
Proof.
  intros He Hok. unfold Verify, pathFor. apply wp_bind, wp_of.
  destruct (normalizeSHA256Hash hash) as [hx|e] eqn:Hn; [|by apply He].
  apply wp_bind, wp_read; [done|]. intros f w' Hf Hv Hd.
  destruct (str_eqb _ hash) eqn:Heq; simpl; [|by apply wp_err, He].
  apply wp_ret. eapply Hok; try done. by apply str_eqb_eq.
Qed.


Lemma objectPath_in_blobs root hx : in_blobs root (objectPath root hx) = true.
Proof.
  unfold in_blobs, objectPath, filepath_Join. rewrite !append_assoc_str.
  rewrite has_prefix_app_same. done.
Qed.

Lemma objectPath_length_inj a b :
  String.length a = String.length b → ∀ n, String.length (take_chars n a) = String.length (take_chars n b).
Proof.
  intros Hl n. unfold take_chars. revert a b Hl.
  induction n as [|n IH]; intros [|x a] [|y b] Hl; simpl in *; try done.
  f_equal. apply IH. lia.
Qed.

Lemma objectPath_inj root a b :
  String.length a = String.length b → objectPath root a = objectPath root b → a = b.
Proof.
  intros Hl H. unfold objectPath, filepath_Join in H. rewrite !append_assoc_str in H.
  do 2 apply append_inj_l in H.
  apply append_inj_length in H as [Ht Hd]; [|by apply objectPath_length_inj].
  apply append_inj_l in Hd.
  by rewrite <- (take_drop_chars 2 a), <- (take_drop_chars 2 b), Ht, Hd.
Qed.

Lemma staging_not_blobs root t : in_blobs root (filepath_Join (stagingDir root) t) = false.
Proof.
  unfold in_blobs, blobDir, stagingDir, filepath_Join. by rewrite !append_assoc_str, has_prefix_app_same.
Qed.

Lemma quarantine_not_blobs root t : in_blobs root (filepath_Join (quarantineDir root) t) = false.
Proof.
  unfold in_blobs, blobDir, quarantineDir, filepath_Join. by rewrite !append_assoc_str, has_prefix_app_same.
Qed.

Lemma normalize_length h hx : normalizeSHA256Hash h = Ok hx → String.length hx = 64.
Proof.
  unfold normalizeSHA256Hash. destruct (negb (_ =? 64)) eqn:E1; [done|].
  destruct (negb (all_hex _)); [done|]. intros [= <-]. bool_simpl. by apply Nat.eqb_eq.
Qed.

Lemma stored_frame root w w' p :
  w_vol w' !! objectPath root p = w_vol w !! objectPath root p → stored root w' p = stored root w p.
Proof. unfold stored. by intros ->. Qed.

Section installs.
Context (E : env) (root : string).

(** Only the object's path may differ among the objects. *)
Definition only_object (hx : string) (w w' : world) : Prop :=
  ∀ p, in_blobs root p = true → p ≠ objectPath root hx → w_vol w' !! p = w_vol w !! p.

(** What [install] leaves at the object's path. *)
Definition installed (hash hx : string) (new : file) (w : world)
    (r : result (result unit * bool)) (w' : world) : Prop :=
  let path := objectPath root hx in
  only_object hx w w' ∧
  match r with
  | Ok (Ok tt, true) =>
      w_vol w' = w_vol w ∧ w_dur w' = w_dur w
      ∧ ∃ f, w_vol w !! path = Some f ∧ HashPrefixSHA256 +:+ sha256_hex (f_data f) = hash
  | Ok (Ok tt, false) =>
      w_vol w' !! path = Some new ∧ w_dur w' !! path = Some (f_data new)
  | _ => w_vol w' !! path = w_vol w !! path ∨ w_vol w' !! path = None ∨ w_vol w' !! path = Some new
  end.

Lemma only_object_same hx w w' : w_vol w' = w_vol w → only_object hx w w'.
Proof. intros H p _ _. by rewrite H. Qed.

Lemma only_object_trans hx w1 w2 w3 : only_object hx w1 w2 → only_object hx w2 w3 → only_object hx w1 w3.
Proof. intros H1 H2 p Hb Hp. by rewrite H2, H1. Qed.

(** Quarantining moves the file out of the object directory or leaves it. *)
Lemma wp_quarantine hash hx tmp new w :
  normalizeSHA256Hash hash = Ok hx → w_vol w !! tmp = Some new →
  in_blobs root tmp = false → has_prefix (stagingDir root +:+ "/") tmp = true →
  wp (quarantine E root (objectPath root hx) hash) (λ r w',
    only_object hx w w' ∧ w_vol w' !! tmp = Some new
    ∧ (w_vol w' !! objectPath root hx = w_vol w !! objectPath root hx
       ∨ w_vol w' !! objectPath root hx = None)) w.
Proof.
  intros Hn Ht Hb Hs. unfold quarantine.
  apply wp_bind, (wp_quiet _ _ _ (quiet_MkdirAll E _)). intros r w1 Hv _.
  destruct r as [[]|e]; [|rewrite Hv; split_and!; auto using only_object_same].
  apply wp_bind, wp_of. rewrite Hn. apply wp_bind. unfold wp at 1; simpl.
  set (dst := filepath_Join (quarantineDir root) _).
  assert (in_blobs root dst = false) as Hdst by apply quarantine_not_blobs.
  assert (dst ≠ tmp) as Hne.
  { intros <-. unfold dst, quarantineDir, stagingDir, filepath_Join in Hs.
    by rewrite !append_assoc_str, has_prefix_app_same in Hs. }
  assert (objectPath root hx ≠ tmp) as Hpt by (intros <-; by rewrite objectPath_in_blobs in Hb).
  assert (objectPath root hx ≠ dst) as Hpd by (intros Heq; rewrite <- Heq, objectPath_in_blobs in Hdst; done).
  assert (∀ w', w_vol w' = w_vol w1 →
    only_object hx w w' ∧ w_vol w' !! tmp = Some new
    ∧ (w_vol w' !! objectPath root hx = w_vol w !! objectPath root hx
       ∨ w_vol w' !! objectPath root hx = None)) as Hkeep.
  { intros w' Hw. rewrite Hv in Hw. split_and!; [by apply only_object_same|by rewrite Hw|left; by rewrite Hw]. }
  apply wp_bind, wp_try, wp_Rename.
  - intros e w2 H2 _. destruct (IsNotExist e); [apply wp_ret|apply wp_err]; by apply Hkeep.
  - intros f w2 Hf H2 _.
    assert (∀ w', w_vol w' = w_vol w2 →
      only_object hx w w' ∧ w_vol w' !! tmp = Some new
      ∧ (w_vol w' !! objectPath root hx = w_vol w !! objectPath root hx
         ∨ w_vol w' !! objectPath root hx = None)) as Hmoved.
    { intros w' Hw. rewrite H2, Hv in Hw. split_and!.
      - intros p Hp Hpo. rewrite Hw, lookup_insert_ne, lookup_delete_ne; [done|done|congruence].
      - by rewrite Hw, lookup_insert_ne, lookup_delete_ne.
      - right. rewrite Hw, lookup_insert_ne by done. apply lookup_delete_eq. }
    apply wp_bind, wp_syncDir; [intros; by apply Hmoved|]. intros w3 H3 _ _.
    apply wp_syncDir; [intros; apply Hmoved; congruence|]. intros w4 H4 _ _.
    apply Hmoved. congruence.
Qed.

Lemma wp_install hash hx tmp new w :
  normalizeSHA256Hash hash = Ok hx → w_vol w !! tmp = Some new → f_synced new = true →
  in_blobs root tmp = false → has_prefix (stagingDir root +:+ "/") tmp = true →
  wp (install E root (objectPath root hx) hash tmp) (installed hash hx new w) w.
Proof.
  intros Hn Ht Hs Hb Hst. unfold install. set (path := objectPath root hx).
  assert (path ≠ tmp) as Hpt by (intros <-; unfold path in Hb; by rewrite objectPath_in_blobs in Hb).
  apply wp_bind, wp_try, wp_Verify.
  2:{ intros hx' f w1 Hn' Hf Hh Hv Hd. rewrite Hn in Hn'. injection Hn' as <-.
      apply wp_ret. split; [by apply only_object_same|]. split_and!; eauto. }
  intros e w1 Hv1 Hd1. apply wp_bind.
  assert (∀ Q, (∀ b w', w_vol w' = w_vol w → Q (Ok b) w') →
    wp (if IsNotExist e then io_ret false else fileExists E path) Q w1) as Hexists.
  { intros Q HQ. destruct (IsNotExist e); [by apply wp_ret, HQ|].
    unfold wp, fileExists, sys. destruct (io_fault E (w_ticks w1)); simpl; [by apply HQ|].
    destruct (_ !! path); by apply HQ. }
  apply Hexists. intros b w2 Hv2. apply wp_bind.
  assert (∀ Q, (∀ q w', only_object hx w w' → w_vol w' !! tmp = Some new →
      (w_vol w' !! path = w_vol w !! path ∨ w_vol w' !! path = None) → Q (Ok q) w') →
    wp (if b then io_try (quarantine E root path hash) else io_ret (Ok tt)) Q w2) as Hq.
  { intros Q HQ. destruct b.
    - apply wp_try. eapply wp_mono; [apply (wp_quarantine hash hx tmp new); rewrite ?Hv2; auto|].
      simpl. intros r w' (H1 & H2 & H3). rewrite Hv2 in H3. apply HQ; auto.
      eapply only_object_trans, H1. by apply only_object_same.
    - apply wp_ret, HQ; rewrite ?Hv2; auto. by apply only_object_same. }
  apply Hq. intros q w3 Ho3 Ht3 Hp3.
  destruct q as [[]|eq]; [|apply wp_ret; split; [done|tauto]].
  apply wp_bind, wp_try, wp_Rename.
  { intros e4 w4 H4 _. apply wp_ret. split; [|rewrite H4; tauto].
    eapply only_object_trans; [apply Ho3|by apply only_object_same]. }
  intros f w4 Hf H4 _. rewrite Ht3 in Hf. injection Hf as <-.
  assert (only_object hx w w4 ∧ w_vol w4 !! path = Some new) as [Ho4 Hp4].
  { split; [|rewrite H4; apply lookup_insert_eq].
    eapply only_object_trans; [apply Ho3|]. intros p Hp Hpo.
    rewrite H4, lookup_insert_ne, lookup_delete_ne; [done|congruence|done]. }
  assert (∀ w', w_vol w' = w_vol w4 → only_object hx w w' ∧ w_vol w' !! path = Some new) as Hend.
  { intros w' Hw. split; [|by rewrite Hw]. eapply only_object_trans; [apply Ho4|by apply only_object_same]. }
  apply wp_bind, wp_try, wp_bind, wp_syncDir.
  { intros e5 w5 H5 _. apply wp_ret. destruct (Hend w5 H5). split; auto. }
  intros w5 H5 Hdur _. apply wp_syncDir.
  { intros e6 w6 H6 _. apply wp_ret. destruct (Hend w6); [congruence|]. split; auto. }
  intros w6 H6 Hin Hout. apply wp_ret. destruct (Hend w6) as [Ho6 Hp6]; [congruence|].
  split_and!; [done..|].
  destruct (decide (dir_of path = stagingDir root)) as [Hd|Hd].
  - apply Hin; [done| |done]. by rewrite H5.
  - rewrite Hout by done. by apply Hdur.
Qed.

End installs.

Section puts.
Context (E : env) (root : string).

(** Steps that leave alone everything but the staged file. *)
Lemma wp_stage tmp r accept w :
  wp (stage E tmp r accept) (λ res w', only_tmp tmp w w' ∧
    match res with
    | Ok hx => hx = sha256_hex (r_data r) ∧ r_err r = None ∧ accept hx = Ok tt
               ∧ w_vol w' !! tmp = Some (mkFile (r_data r) true)
    | Err _ => True
    end) w.
Proof.
  unfold stage. apply wp_bind, wp_try.
  assert (∀ e w1, only_tmp tmp w w1 →
    wp (run! io_try (file_Close E tmp) in io_err e) (λ res w', only_tmp tmp w w' ∧
      match res with
      | Ok hx => hx = sha256_hex (r_data r) ∧ r_err r = None ∧ accept hx = Ok tt
                 ∧ w_vol w' !! tmp = Some (mkFile (r_data r) true)
      | Err _ => True
      end) w1) as Hclose.
  { intros e w1 H1. apply wp_bind, wp_try, (wp_quiet _ _ _ (quiet_Close E _)).
    intros _ w2 Hv Hd. apply wp_err. split; [|done].
    eapply only_tmp_trans; [done|by apply only_tmp_refl]. }
  unfold io_Copy. apply wp_sys; [intros e _; apply Hclose; by apply only_tmp_refl|]. intros _.
  unfold wp at 1; simpl. set (w1 := set_vol _ (tick w)).
  assert (only_tmp tmp w w1) as H1
    by (split; [intros p Hp; by apply lookup_insert_ne|done]).
  destruct (r_err r) as [e|] eqn:Hr; [by apply Hclose|].
  destruct (accept _) as [[]|e] eqn:Hacc; [|by apply Hclose].
  apply wp_bind, wp_try. unfold file_Sync. apply wp_sys.
  { intros e _. apply Hclose. eapply only_tmp_trans; [done|by apply only_tmp_refl]. }
  intros _. unfold wp at 1; simpl. set (w2 := set_vol _ (tick w1)).
  assert (only_tmp tmp w w2) as H2.
  { eapply only_tmp_trans; [done|]. split; [|done]. intros p Hp. by apply lookup_alter_ne. }
  assert (w_vol w2 !! tmp = Some (mkFile (r_data r) true)) as Ht.
  { simpl. rewrite lookup_alter_eq, lookup_insert_eq. done. }
  clearbody w2. apply wp_bind, (wp_quiet _ _ _ (quiet_Close E _)). intros rc w3 Hv Hd.
  assert (only_tmp tmp w w3) by (eapply only_tmp_trans; [done|by apply only_tmp_refl]).
  destruct rc; [|done]. apply wp_ret. split_and!; try done. by rewrite Hv.
Qed.

Lemma wp_with_tmp {A} tmp (body : io (result A * bool)) Q w :
  wp body (λ r w1,
    match r with
    | Ok (r', false) => Q r' w1
    | Ok (r', true) => ∀ w', only_tmp tmp w1 w' → Q r' w'
    | Err e => ∀ w', only_tmp tmp w1 w' → Q (Err e) w'
    end) w →
  wp (with_tmp E tmp body) Q w.
Proof.
  unfold wp at 1 2, with_tmp. destruct (body w) as [[[r' []]|e] w1]; simpl; intros H.
  - apply H. by apply (wp_Remove E tmp (λ _ w', only_tmp tmp w1 w')).
  - done.
  - apply H. by apply (wp_Remove E tmp (λ _ w', only_tmp tmp w1 w')).
Qed.

(** The effect of a deposit of [data] under [hash], whose digits are [hx]. *)
Definition deposited {A} (a : A) (hash hx data : string) (w : world) (r : result A) (w' : world) : Prop :=
  let path := objectPath root hx in
  only_object root hx w w' ∧
  match r with
  | Ok b => b = a ∧
      ((∃ f, w_vol w !! path = Some f ∧ w_vol w' !! path = Some f
             ∧ HashPrefixSHA256 +:+ sha256_hex (f_data f) = hash ∧ w_dur w' = w_dur w)
       ∨ (w_vol w' !! path = Some (mkFile data true) ∧ w_dur w' !! path = Some data))
  | Err _ => w_vol w' !! path = w_vol w !! path ∨ w_vol w' !! path = None
             ∨ w_vol w' !! path = Some (mkFile data true)
  end.

Lemma only_tmp_object hx tmp w w' :
  in_blobs root tmp = false → only_tmp tmp w w' →
  only_object root hx w w' ∧ w_vol w' !! objectPath root hx = w_vol w !! objectPath root hx.
Proof.
  intros Hb [Hv _]. split.
  - intros p Hp _. apply Hv. by intros ->; rewrite Hb in Hp.
  - apply Hv. intros <-. by rewrite objectPath_in_blobs in Hb.
Qed.

(** From the staged file to the return of [Put] and [PutHash]. *)
Lemma deposit_steps {A} (a : A) hash hx data tmp w0 w :
  normalizeSHA256Hash hash = Ok hx → in_blobs root tmp = false →
  has_prefix (stagingDir root +:+ "/") tmp = true →
  only_tmp tmp w0 w → w_vol w !! tmp = Some (mkFile data true) →
  wp (do! path := io_of (pathFor root hash) in
      run! os_MkdirAll E (dir_of path) in
      do! o := install E root path hash tmp in
      io_ret (match o.1 with Ok _ => Ok a | Err e => Err e end, o.2))
    (λ r w1, match r with
     | Ok (r', false) => deposited a hash hx data w0 r' w1
     | Ok (r', true) => ∀ w', only_tmp tmp w1 w' → deposited a hash hx data w0 r' w'
     | Err e => ∀ w', only_tmp tmp w1 w' → deposited a hash hx data w0 (Err e) w'
     end) w.
Proof.
  intros Hn Hb Hs H0 Ht.
  destruct (only_tmp_object hx tmp _ _ Hb H0) as [Ho0 Hp0].
  unfold pathFor. rewrite Hn. apply wp_bind, wp_of, wp_bind.
  apply (wp_quiet _ _ _ (quiet_MkdirAll E _)). intros rm w1 Hv1 Hd1.
  destruct rm as [[]|e].
  2:{ intros w' H'. destruct (only_tmp_object hx tmp _ _ Hb H') as [Ho' Hp'].
      split; [|left; by rewrite Hp', Hv1].
      do 2 (eapply only_object_trans; [|done]). eapply only_object_trans; [done|].
      by apply only_object_same. }
  apply wp_bind. eapply wp_mono.
  { apply (wp_install E root hash hx tmp (mkFile data true)); rewrite ?Hv1; done. }
  intros r w2 [Ho2 H2]. rewrite Hv1 in H2.
  assert (only_object root hx w0 w2) as Ho.
  { do 2 (eapply only_object_trans; [done|]). eapply only_object_trans; [by apply only_object_same|done]. }
  assert (∀ w', only_tmp tmp w2 w' →
    only_object root hx w0 w' ∧ w_vol w' !! objectPath root hx = w_vol w2 !! objectPath root hx ∧ w_dur w' = w_dur w2) as Hafter.
  { intros w' H'. destruct (only_tmp_object hx tmp _ _ Hb H') as [Ho' Hp'].
    split_and!; [by eapply only_object_trans|done|apply H']. }
  destruct r as [[[[]|e] []]|e]; simpl.
  - apply wp_ret. intros w' (Hoo & Hpp & Hdd)%Hafter. destruct H2 as (Hvv & Hdur & f & Hf & Hh).
    split_and!; [done|done|]. left. exists f. split_and!; [by rewrite <- Hp0 in *|by rewrite Hpp, Hvv|done|].
    destruct H0 as [_ H0d]. congruence.
  - apply wp_ret. split_and!; [done|done|]. right. tauto.
  - apply wp_ret. intros w' (Hoo & Hpp & _)%Hafter. split; [done|]. rewrite Hpp.
    rewrite Hp0 in H2. tauto.
  - apply wp_ret. split; [done|]. rewrite Hp0 in H2. tauto.
  - intros w' (Hoo & Hpp & _)%Hafter. split; [done|]. rewrite Hpp. rewrite Hp0 in H2. tauto.
Qed.

End puts.

Section put_specs.
Context (E : env) (root : string).

Lemma staging_prefix t :
  has_prefix (stagingDir root +:+ "/") (filepath_Join (stagingDir root) t) = true.
Proof. unfold filepath_Join. by rewrite has_prefix_app_same. Qed.

Lemma deposited_quiet {A} (a : A) hash hx data w e w' :
  w_vol w' = w_vol w → deposited root a hash hx data w (Err e) w'.
Proof. intros H. split; [by apply only_object_same|left; by rewrite H]. Qed.

Lemma deposited_tmp {A} (a : A) hash hx data tmp w e w' :
  in_blobs root tmp = false → only_tmp tmp w w' → deposited root a hash hx data w (Err e) w'.
Proof. intros Hb Ho. destruct (only_tmp_object root hx tmp _ _ Hb Ho). split; auto. Qed.

(** The part of a deposit that follows staging, with answer [a]. *)
Definition deposit_rest {A} (a : A) (hash tmpName : string) : io (result A * bool) :=
  do! path := io_of (pathFor root hash) in
  run! os_MkdirAll E (dir_of path) in
  do! o := install E root path hash tmpName in
  io_ret (match o.1 with Ok _ => Ok a | Err e => Err e end, o.2).

(** Creating the staged file and running a body that deposits it. *)
Lemma staged_deposit {A} (a : A) hash hx r accept (rest : string → string → io (result A * bool)) w :
  normalizeSHA256Hash hash = Ok hx →
  (accept (sha256_hex (r_data r)) = Ok tt → sha256_hex (r_data r) = hx) →
  (∀ tmp w, rest hx tmp w = deposit_rest a hash tmp w) →
  wp (run! os_MkdirAll E (stagingDir root) in
      do! tmpName := os_CreateTemp E (stagingDir root) ".blob-" in
      with_tmp E tmpName (do! d := stage E tmpName r accept in rest d tmpName))
    (λ res w', deposited root a hash hx (r_data r) w res w' ∧
       (is_ok res = true → r_err r = None ∧ sha256_hex (r_data r) = hx) ∧
       (accept (sha256_hex (r_data r)) ≠ Ok tt →
        ∀ p, in_blobs root p = true → w_vol w' !! p = w_vol w !! p)) w.
Proof.
  intros Hn Hacc Hrest. apply wp_bind, (wp_quiet _ _ _ (quiet_MkdirAll E _)). intros rm w1 Hv1 Hd1.
  destruct rm as [[]|e]; [|split_and!; [by apply deposited_quiet|done|by rewrite Hv1]].
  apply wp_bind, wp_CreateTemp.
  { intros e w2 H2 _. rewrite Hv1 in H2. split_and!; [by apply deposited_quiet|done|by rewrite H2]. }
  intros t w2 _ H2. set (tmp := filepath_Join _ _) in *.
  assert (in_blobs root tmp = false) as Hb by apply staging_not_blobs.
  assert (only_tmp tmp w w2) as H02 by (eapply only_tmp_trans; [by apply only_tmp_refl|done]).
  apply wp_with_tmp, wp_bind. eapply wp_mono; [apply wp_stage|]. intros res w3 [H3 Hres].
  assert (only_tmp tmp w w3) as H03 by (by eapply only_tmp_trans).
  destruct res as [d|e].
  - destruct Hres as (Hd & Hr & Ha & Ht). subst d. specialize (Hacc Ha). rewrite Hacc.
    unfold wp. rewrite Hrest.
    eapply wp_mono; [apply (deposit_steps E root a hash hx (r_data r) tmp w w3); try done; apply staging_prefix|].
    intros [[r' []]|e] w4 H4.
    + intros w5 H5. split_and!; [by apply H4|auto|destruct 1; by rewrite <- Hacc].
    + split_and!; [done|auto|destruct 1; by rewrite <- Hacc].
    + intros w5 H5. split_and!; [by apply H4|done|destruct 1; by rewrite <- Hacc].
  - intros w4 H4. assert (only_tmp tmp w w4) as H04 by (by eapply only_tmp_trans).
    split_and!; [by eapply deposited_tmp|done|].
    intros _ p Hp. apply H04. intros ->. by rewrite Hb in Hp.
Qed.

Lemma wp_Put r w :
  let hx := sha256_hex (r_data r) in
  let hash := HashPrefixSHA256 +:+ hx in
  wp (Put E root r) (λ res w',
    deposited root hash hash hx (r_data r) w res w' ∧ (is_ok res = true → r_err r = None)) w.
Proof.
  intros hx hash. unfold Put. eapply wp_mono.
  - apply (staged_deposit hash hash hx r (λ _, Ok tt) (λ hexHash tmpName,
      let hash := HashPrefixSHA256 +:+ hexHash in
      do! path := io_of (pathFor root hash) in
      run! os_MkdirAll E (dir_of path) in
      do! o := install E root path hash tmpName in
      io_ret (match o.1 with Ok _ => Ok hash | Err e => Err e end, o.2)));
      [apply normalize_digest|done|reflexivity].
  - simpl. intros res w' (H1 & H2 & _). split; [exact H1|]. intros Hok. by apply H2.
Qed.

Lemma wp_PutHash hash hx r w :
  normalizeSHA256Hash hash = Ok hx →
  wp (PutHash E root hash r) (λ res w',
    deposited root tt hash hx (r_data r) w res w'
    ∧ (is_ok res = true → r_err r = None ∧ sha256_hex (r_data r) = hx)
    ∧ (sha256_hex (r_data r) ≠ hx →
       ∀ p, in_blobs root p = true → w_vol w' !! p = w_vol w !! p)) w.
Proof.
  intros Hn. unfold PutHash. rewrite Hn. apply wp_bind, wp_of. eapply wp_mono.
  { apply (staged_deposit tt hash hx r _ (λ _ tmpName, _)); [done| |].
    - destruct (str_eqb _ hx) eqn:Heq; [|done]. intros _. by apply str_eqb_eq.
    - intros tmp w'. unfold deposit_rest, io_bind, io_of, io_ret. simpl.
      destruct (pathFor root hash) as [path|e]; [|done]. simpl.
      destruct (os_MkdirAll E (dir_of path) w') as [[[]|e] w2]; [|done].
      by destruct (install E root path hash tmp w2) as [[[[[]|e] b]|e] w3]. }
  simpl. intros res w' (H1 & H2 & H3). split_and!; [exact H1|exact H2|].
  intros Hne. apply H3. by rewrite str_eqb_neq.
Qed.

End put_specs.

(** ** From paths to blobs *)

Lemma stored_Some root w hx f :
  w_vol w !! objectPath root hx = Some f → sha256_hex (f_data f) = hx → stored root w hx = Some (f_data f).
Proof. intros Hf Hh. unfold stored. by rewrite Hf, Hh, str_eqb_refl. Qed.

Lemma stored_inv root w hx d :
  stored root w hx = Some d →
  ∃ f, w_vol w !! objectPath root hx = Some f ∧ f_data f = d ∧ sha256_hex d = hx.
Proof.
  unfold stored. destruct (w_vol w !! objectPath root hx) as [f|]; [|done].
  destruct (str_eqb _ hx) eqn:E; [|done]. intros [= <-]. apply str_eqb_eq in E. eauto.
Qed.

Lemma only_object_stored root hx w w' hx' :
  only_object root hx w w' → String.length hx' = String.length hx → hx' ≠ hx →
  stored root w' hx' = stored root w hx'.
Proof.
  intros H Hl Hne. apply stored_frame, H; [apply objectPath_in_blobs|].
  intros Heq. by apply Hne, (objectPath_inj root).
Qed.

Lemma normalize_prefixed x hx :
  normalizeSHA256Hash (HashPrefixSHA256 +:+ x) = Ok hx → x = hx.
Proof.
  unfold normalizeSHA256Hash. rewrite trim_prefix_app.
  destruct (negb _); [done|]. destruct (negb _); [done|]. by intros [= ->].
Qed.

(** A successful deposit leaves a verified blob: the new data, or data with the
    same digest that was there before. *)
Lemma deposited_stored {A} root (a b : A) hash hx data w w' :
  normalizeSHA256Hash hash = Ok hx → sha256_hex data = hx →
  deposited root a hash hx data w (Ok b) w' →
  b = a ∧ (stored root w' hx = Some data ∨ (stored root w' hx = stored root w hx ∧ is_Some (stored root w hx))).
Proof.
  intros Hn Hd [_ [-> [(f & Hf & Hf' & Hh & _)|[Hf' _]]]]; (split; [done|]).
  - right. rewrite <- Hh in Hn. apply normalize_prefixed in Hn.
    rewrite (stored_Some _ _ _ _ Hf), (stored_Some _ _ _ _ Hf') by done. eauto.
  - left. by apply (stored_Some _ _ _ (mkFile data true)).
Qed.

Lemma deposited_failed {A} root (a : A) hash hx data w e w' :
  sha256_hex data = hx → deposited root a hash hx data w (Err e) w' →
  stored root w' hx = stored root w hx ∨ stored root w' hx = None ∨ stored root w' hx = Some data.
Proof.
  intros Hd [_ [H|[H|H]]].
  - left. by apply stored_frame.
  - right; left. unfold stored. by rewrite H.
  - right; right. by apply (stored_Some _ _ _ (mkFile data true)).
Qed.

(** ** Success without faults *)

Section success.
Context (E : env) (root : string).
Context (no_fault : ∀ t, io_fault E t = None).
Set Default Proof Using "Type no_fault".

Lemma succeeds_quarantine hash hx tmp new w f :
  normalizeSHA256Hash hash = Ok hx → w_vol w !! objectPath root hx = Some f →
  w_vol w !! tmp = Some new → in_blobs root tmp = false →
  has_prefix (stagingDir root +:+ "/") tmp = true →
  succeeds (quarantine E root (objectPath root hx) hash) (λ _ w', w_vol w' !! tmp = Some new) w.
Proof.
  intros Hn Hf Ht Hb Hs.
  pose proof (wp_quarantine E root hash hx tmp new w Hn Ht Hb Hs) as Hw. unfold wp in Hw.
  assert (succeeds (quarantine E root (objectPath root hx) hash) (λ _ _, True) w) as (a & w' & Hq & _).
  { unfold quarantine. apply succeeds_bind, (succeeds_MkdirAll E no_fault). intros w1 H1 _.
    apply succeeds_bind. unfold io_of. rewrite Hn. exists hx, w1. split; [done|].
    apply succeeds_bind. eexists _, w1. split; [done|]. apply succeeds_bind, succeeds_try_ok.
    eapply (succeeds_rename E no_fault); [by rewrite H1|]. intros w2 _.
    apply succeeds_bind, (succeeds_syncDir E no_fault). intros w3 _. by apply (succeeds_syncDir E no_fault). }
  exists a, w'. rewrite Hq in Hw. simpl in Hw. split; [done|]. tauto.
Qed.

Lemma succeeds_install hash hx tmp new w :
  normalizeSHA256Hash hash = Ok hx → w_vol w !! tmp = Some new → in_blobs root tmp = false →
  has_prefix (stagingDir root +:+ "/") tmp = true →
  succeeds (install E root (objectPath root hx) hash tmp) (λ o _, o.1 = Ok tt) w.
Proof.
  intros Hn Ht Hb Hs. unfold install. apply succeeds_bind, succeeds_try.
  unfold Verify, pathFor, io_of, io_bind. rewrite Hn. unfold read_file. rewrite (sys_runs E no_fault). simpl.
  assert (∀ w', w_vol w' !! tmp = Some new →
    succeeds (do! r := io_try (os_Rename E tmp (objectPath root hx)) in
      match r with
      | Err e => io_ret (Err e, true)
      | Ok _ => do! s := io_try (io_bind (syncDir E (dir_of (objectPath root hx)))
                                   (λ _, syncDir E (stagingDir root))) in
                io_ret (s, false)
      end) (λ o _, o.1 = Ok tt) w') as Hmove.
  { intros w' Ht'. apply succeeds_bind, succeeds_try_ok. eapply (succeeds_rename E no_fault); [done|]. intros w1 _.
    apply succeeds_bind, succeeds_try_ok, succeeds_bind, (succeeds_syncDir E no_fault). intros w2 _.
    apply (succeeds_syncDir E no_fault). intros w3 _. by apply succeeds_ret. }
  destruct (w_vol w !! objectPath root hx) as [f|] eqn:Hf; simpl.
  - destruct (negb _); simpl; [|by apply succeeds_ret].
    apply (succeeds_bind (fileExists E _)). unfold fileExists.
    exists true, (tick (tick w)). rewrite (sys_runs E no_fault). simpl. rewrite Hf. split; [done|].
    apply succeeds_bind, succeeds_try_ok.
    destruct (succeeds_quarantine hash hx tmp new (tick (tick w)) f) as (u & w' & Hq & Ht'); [done..|].
    exists u, w'. split; [done|]. by apply Hmove.
  - exact (Hmove (tick w) Ht).
Qed.

Lemma stage_runs tmp r accept w :
  r_err r = None → accept (sha256_hex (r_data r)) = Ok tt →
  succeeds (stage E tmp r accept) (λ hx w', hx = sha256_hex (r_data r) ∧ only_tmp tmp w w'
    ∧ w_vol w' !! tmp = Some (mkFile (r_data r) true)) w.
Proof.
  intros Hr Ha. pose proof (wp_stage E tmp r accept w) as Hw. unfold wp in Hw.
  assert (succeeds (stage E tmp r accept) (λ _ _, True) w) as (hx & w' & Hs & _).
  { unfold stage. apply succeeds_bind, succeeds_try_ok. apply (succeeds_sys E no_fault).
    unfold succeeds at 1. simpl. rewrite Hr. eexists _, _. split; [done|]. rewrite Ha.
    apply succeeds_bind, succeeds_try_ok, (succeeds_sys E no_fault). eexists _, _. split; [done|].
    apply succeeds_bind, (succeeds_quiet_unit E no_fault). intros w1 _. by apply succeeds_ret. }
  exists hx, w'. rewrite Hs in Hw. simpl in Hw. split; [done|]. tauto.
Qed.

Lemma succeeds_with_tmp {A} tmp (body : io (result A * bool)) a (P : world → Prop) w :
  succeeds body (λ o w1, o.1 = Ok a ∧ ∀ w2, only_tmp tmp w1 w2 → P w2) w →
  succeeds (with_tmp E tmp body) (λ b w', b = a ∧ P w') w.
Proof.
  intros ([res rm] & w1 & Hb & Ho & HP). simpl in Ho. subst res. unfold succeeds, with_tmp. rewrite Hb.
  assert (P (os_Remove E tmp w1).2).
  { apply HP. by apply (wp_Remove E tmp (λ _ w', only_tmp tmp w1 w')). }
  assert (P w1) by (apply HP; by apply only_tmp_refl).
  destruct rm; eauto.
Qed.

(** A deposit succeeds when its last part does. *)
Lemma staged_succeeds {A} (a : A) hash hx r accept (rest : string → string → io (result A * bool))
    (P : world → Prop) w :
  normalizeSHA256Hash hash = Ok hx → r_err r = None → sha256_hex (r_data r) = hx →
  accept hx = Ok tt → (∀ tmp w, rest hx tmp w = deposit_rest E root a hash tmp w) →
  (∀ tmp w1, in_blobs root tmp = false → has_prefix (stagingDir root +:+ "/") tmp = true →
     only_tmp tmp w w1 → w_vol w1 !! tmp = Some (mkFile (r_data r) true) →
     succeeds (install E root (objectPath root hx) hash tmp)
       (λ o w2, o.1 = Ok tt ∧ ∀ w3, only_tmp tmp w2 w3 → P w3) w1) →
  succeeds (run! os_MkdirAll E (stagingDir root) in
      do! tmpName := os_CreateTemp E (stagingDir root) ".blob-" in
      with_tmp E tmpName (do! d := stage E tmpName r accept in rest d tmpName)) (λ b w', b = a ∧ P w') w.
Proof.
  intros Hn Hr Hh Ha Hrest Hinst.
  apply succeeds_bind, (succeeds_MkdirAll E no_fault). intros w0 Hv0 Hd0. apply succeeds_bind, (succeeds_CreateTemp E no_fault).
  intros t w1 H1. set (tmp := filepath_Join _ _) in *.
  assert (only_tmp tmp w w1) as H01 by (eapply only_tmp_trans; [by apply only_tmp_refl|done]).
  apply succeeds_with_tmp, succeeds_bind. rewrite <- Hh in Ha.
  destruct (stage_runs tmp r accept w1 Hr Ha) as (d & w2 & Hs & -> & H2 & Htmp).
  exists (sha256_hex (r_data r)), w2. split; [done|]. unfold succeeds. rewrite Hh, Hrest.
  unfold deposit_rest. apply succeeds_bind. unfold io_of, pathFor. rewrite Hn.
  eexists _, _. split; [done|]. apply succeeds_bind, (succeeds_MkdirAll E no_fault). intros w2' Hv2 Hd2. apply succeeds_bind.
  destruct (Hinst tmp w2') as (o & w5 & Hi & Ho & HP);
    [apply staging_not_blobs|apply staging_prefix| | |].
  { do 2 (eapply only_tmp_trans; [done|]). by apply only_tmp_refl. }
  { by rewrite Hv2. }
  exists o, w5. split; [done|]. apply succeeds_ret. simpl. by rewrite Ho.
Qed.

(** [install] over a verified file only reads. *)
Lemma succeeds_install_present hash hx tmp d w :
  normalizeSHA256Hash hash = Ok hx → hash = HashPrefixSHA256 +:+ hx → stored root w hx = Some d →
  succeeds (install E root (objectPath root hx) hash tmp) (λ o w', o.1 = Ok tt ∧ w_dur w' = w_dur w) w.
Proof.
  intros Hn Hp Hs. apply stored_inv in Hs as (f & Hf & <- & Hx).
  unfold install. apply succeeds_bind, succeeds_try.
  unfold Verify, pathFor, io_of, io_bind. rewrite Hn. unfold read_file. rewrite (sys_runs E no_fault). simpl.
  rewrite Hf, Hx, <- Hp, str_eqb_refl. by apply succeeds_ret.
Qed.

Set Default Proof Using "Type".
End success.

(** ** Which directories survive *)

Section dirs.
Context (E : env) (root : string).

(** The directories that storing an object of these digits syncs. *)
Definition synced_by (hx : string) (d : string) : Prop :=
  d ∈ [dir_of (objectPath root hx); stagingDir root; quarantineDir root].

Lemma synced_object hx : synced_by hx (dir_of (objectPath root hx)).
Proof. unfold synced_by. set_solver. Qed.
Lemma synced_staging hx : synced_by hx (stagingDir root).
Proof. unfold synced_by. set_solver. Qed.
Lemma synced_quarantine hx : synced_by hx (quarantineDir root).
Proof. unfold synced_by. set_solver. Qed.
#[local] Hint Resolve synced_object synced_staging synced_quarantine : syncs.

Lemma syncs_install hx hash tmp : syncs (synced_by hx) (install E root (objectPath root hx) hash tmp).
Proof.
  unfold install, Verify, quarantine. solve_syncs. by apply syncs_keep.
Qed.

Lemma syncs_with_tmp {A} D tmp (body : io (result A * bool)) : syncs D body → syncs D (with_tmp E tmp body).
Proof.
  intros H w d. unfold with_tmp. destruct (H w d) as [H1 H2]. destruct (body w) as [[[r b]|e] w']; cbn in H1, H2 |- *.
  - destruct b; cbn; [|done]. destruct (syncs_Remove E D tmp w' d). tauto.
  - destruct (syncs_Remove E D tmp w' d). tauto.
Qed.

Lemma syncs_stage D tmp r accept : syncs D (stage E tmp r accept).
Proof. unfold stage, io_Copy. solve_syncs. Qed.

Lemma stage_hash tmp r accept w hx w' : stage E tmp r accept w = (Ok hx, w') → hx = sha256_hex (r_data r).
Proof.
  unfold stage, io_bind, io_try, io_ret, io_err. intros H. repeat case_match; simplify_eq; done.
Qed.

Lemma syncs_Put r : syncs (synced_by (sha256_hex (r_data r))) (Put E root r).
Proof.
  unfold Put. apply syncs_bind; [solve_syncs|intros _]. apply syncs_bind; [solve_syncs|intros tmp].
  apply syncs_with_tmp, syncs_bind_on; [apply syncs_stage|]. intros hx w w' ->%stage_hash.
  unfold pathFor. rewrite normalize_digest. apply syncs_bind_on; [apply syncs_of|]. intros path w1 w1' [= <- <-].
  apply syncs_bind; [solve_syncs|intros _]. apply syncs_bind; [apply syncs_install|]. intros o. apply syncs_ret.
Qed.

Lemma joined_not_dot a b : filepath_Join a b ≠ ".".
Proof. intros H%(f_equal (has_char "/")). unfold filepath_Join in H. by rewrite !has_char_app, orb_true_r in H. Qed.

Lemma synced_not_dot hx : ¬ synced_by hx ".".
Proof.
  unfold synced_by. rewrite !elem_of_cons. intros [H|[H|[H|[]%not_elem_of_nil]]];
    [|by apply (joined_not_dot root "staging")|by apply (joined_not_dot root "quarantine")].
  assert (has_char "/" (objectPath root hx) = true) as Hslash.
  { unfold objectPath, filepath_Join. by rewrite !has_char_app, orb_true_r. }
  destruct (dir_of_split _ Hslash) as (t & Ht & Hflat). rewrite <- H in Ht.
  unfold objectPath, blobDir, filepath_Join in Ht. rewrite !append_assoc_str in Ht.
  destruct root as [|c [|c' r]]; [done|..]; cbn in Ht.
  - injection Ht as _ Ht. change t with ("" +:+ t) in Hflat. by rewrite <- Ht in Hflat.
  - injection Ht as _ _ Ht. change t with ("" +:+ t) in Hflat. rewrite <- Ht, has_char_app, orb_true_r in Hflat. done.
Qed.

(** None of them is the directory above one that the object lies below. *)
Lemma above_not_synced hx d : d ∈ parents (objectPath root hx) → ¬ synced_by hx (dir_of d).
Proof.
  intros Hd Hs. assert (has_char "/" (objectPath root hx) = true) as Hslash.
  { unfold objectPath, filepath_Join. by rewrite !has_char_app, orb_true_r. }
  destruct (dir_of_split _ Hslash) as (t0 & Ht0 & Hflat).
  assert (dir_of d ≠ ".") as Hdot.
  { intros Hdot. rewrite Hdot in Hs. by apply synced_not_dot in Hs. }
  destruct (parents_up _ _ Hd Hdot) as (t & s & Hp). unfold synced_by in Hs.
  rewrite !elem_of_cons in Hs. destruct Hs as [Hs|[Hs|[Hs|[]%not_elem_of_nil]]]; rewrite Hs in Hp.
  - rewrite Ht0 in Hp at 1. apply append_inj_l, append_inj_l in Hp as ->. by rewrite !has_char_app, orb_true_r in Hflat.
  - unfold objectPath, blobDir, stagingDir, filepath_Join in Hp. rewrite !append_assoc_str in Hp.
    by apply append_inj_l in Hp.
  - unfold objectPath, blobDir, quarantineDir, filepath_Join in Hp. rewrite !append_assoc_str in Hp.
    by apply append_inj_l in Hp.
Qed.

(** So whether the directories above an object survive is not up to [Put]. *)
Lemma Put_dirs r w d :
  d ∈ parents (objectPath root (sha256_hex (r_data r))) →
  w_dirs (Put E root r w).2 !! d = Some true ↔ w_dirs w !! d = Some true.
Proof.
  intros Hd. destruct (syncs_Put r w d) as [H1 H2]. split; [|done].
  intros [?|Hs]%H2; [done|]. by apply above_not_synced in Hs.
Qed.
End dirs.
