(* ===== verification/BlobStoreSpec.v ===== *)
(** * BlobStoreSpec: what the content-addressed store guarantees

    The properties of [Put], [PutBytes], [PutHash], [Read] and [GC] under every
    choice of failing system calls, and the durability of what they store. *)
From S2P Require Import Prelude Text Io Sha256 Json GoTime Capability Manifest.
From S2P Require Import BlobStore BlobStoreProofs.
From stdpp Require Import stringmap options.

(** ** Concrete environments for the witnesses *)

Definition no_faults : env := mkEnv (λ _, None) (λ _, 0%N).
Definition empty_world : world := mkWorld ∅ ∅ ∅ 0.
(** A system call that fails: the [n]-th one. *)
Definition fault_at (n : nat) : env :=
  mkEnv (λ t, if bool_decide (t = n) then Some "input/output error" else None) (λ _, 0%N).
Definition abc : reader := mkReader "abc" None.
Definition abc_hash : string := "sha256:ba7816bf8f01cfea414140de5dae2223b00361a396177a9cb410ff61f20015ad".

(** ** Calls that must succeed *)

Section success.
Context (E : env) (root : string) (no_fault : ∀ t, io_fault E t = None).
Set Default Proof Using "Type no_fault".

Lemma Put_succeeds r w :
  r_err r = None → ∃ w', Put E root r w = (Ok (HashPrefixSHA256 +:+ sha256_hex (r_data r)), w').
Proof.
  intros Hr.
  destruct (staged_succeeds E root no_fault (HashPrefixSHA256 +:+ sha256_hex (r_data r))
    (HashPrefixSHA256 +:+ sha256_hex (r_data r)) (sha256_hex (r_data r)) r (λ _, Ok tt)
    (λ hexHash tmpName,
       let hash := HashPrefixSHA256 +:+ hexHash in
       do! path := io_of (pathFor root hash) in
       run! os_MkdirAll E (dir_of path) in
       do! o := install E root path hash tmpName in
       io_ret (match o.1 with Ok _ => Ok hash | Err e => Err e end, o.2))%io (λ _, True) w)
    as (b & w' & H & -> & _); [apply normalize_digest|done..| |by exists w'].
  intros tmp w1 Hb Hs _ Ht.
  eapply succeeds_mono, succeeds_install; eauto using normalize_digest.
Qed.

Lemma Read_stored hash hx d w :
  normalizeSHA256Hash hash = Ok hx → hash = HashPrefixSHA256 +:+ hx → stored root w hx = Some d →
  (Read E root hash w).1 = Ok d.
Proof.
  intros Hn Hh Hs. apply stored_inv in Hs as (f & Hf & <- & Hx).
  unfold Read, Open, Verify, pathFor, io_of, io_bind. rewrite Hn. unfold read_file.
  rewrite (sys_runs E no_fault). simpl. rewrite Hf, Hx, <- Hh, str_eqb_refl. simpl.
  unfold read_file. rewrite (sys_runs E no_fault). simpl. by rewrite Hf.
Qed.

(** [PutHash] runs to its end and leaves a world in [P] when the last part does. *)
Lemma PutHash_runs hash hx r (P : world → Prop) w :
  normalizeSHA256Hash hash = Ok hx → r_err r = None → sha256_hex (r_data r) = hx →
  (∀ tmp w1, in_blobs root tmp = false → has_prefix (stagingDir root +:+ "/") tmp = true →
     only_tmp tmp w w1 → w_vol w1 !! tmp = Some (mkFile (r_data r) true) →
     succeeds (install E root (objectPath root hx) hash tmp)
       (λ o w2, o.1 = Ok tt ∧ ∀ w3, only_tmp tmp w2 w3 → P w3) w1) →
  ∃ w', PutHash E root hash r w = (Ok tt, w') ∧ P w'.
Proof.
  intros Hn Hr Hh Hinst.
  destruct (staged_succeeds E root no_fault tt hash hx r
    (λ actual, if negb (str_eqb actual hx)
       then Err "blob checksum mismatch: expected %s got %s" else Ok tt)
    (λ _ tmpName,
       do! path := io_of (pathFor root hash) in
       run! os_MkdirAll E (dir_of path) in
       install E root path hash tmpName)%io P w) as (b & w' & H & -> & HP); [done..| | |exact Hinst|].
  - by rewrite str_eqb_refl.
  - intros tmp w1. unfold deposit_rest, io_bind, io_ret.
    destruct (io_of (pathFor root hash) w1) as [[path|e] w2]; [|done].
    destruct (os_MkdirAll E (dir_of path) w2) as [[[]|e] w3]; [|done].
    by destruct (install E root path hash tmp w3) as [[[[[]|e] b]|e] w4].
  - exists w'. split; [|done]. unfold PutHash. unfold io_bind at 1, io_of at 1. by rewrite Hn.
Qed.

Lemma PutHash_succeeds hash hx r w :
  normalizeSHA256Hash hash = Ok hx → r_err r = None → sha256_hex (r_data r) = hx →
  ∃ w', PutHash E root hash r w = (Ok tt, w').
Proof.
  intros Hn Hr Hh. destruct (PutHash_runs hash hx r (λ _, True) w) as (w' & H & _); [done..| |eauto].
  intros tmp w1 Hb Hs _ Ht. eapply succeeds_mono, succeeds_install; eauto.
Qed.

Set Default Proof Using "Type".
End success.

(** ** The garbage collector *)

Section gc.
Context (E : env) (root : string) (retained : gset string).

(** [GC] may remove the file at [p]. *)
Definition collectable (p : string) : Prop :=
  ∃ hash, gc_hash root p = Some hash ∧ hash ∉ retained.

#[global] Instance collectable_dec p : Decision (collectable p).
Proof.
  refine (match gc_hash root p as o return gc_hash root p = o → _ with
          | Some hash => λ Ho, cast_if (decide (hash ∉ retained))
          | None => λ Ho, right _ end eq_refl);
    unfold collectable; rewrite Ho; naive_solver.
Defined.

(** The walk removes collectable files only; when it succeeds without a call
    that lies about a missing file it removes each of them, and counts them. *)
Lemma wp_gc_walk paths : ∀ removed w, NoDup paths → (∀ p, p ∈ paths → is_Some (w_vol w !! p)) →
  wp (gc_walk E root retained paths removed) (λ r w',
    (∀ p, ¬ collectable p → w_vol w' !! p = w_vol w !! p) ∧ w_dur w' = w_dur w
    ∧ ((∀ t, io_fault E t ≠ Some err_not_exist) →
       match r with
       | Ok (n, Ok _) => w_vol w' = filter (λ kv, ¬ (collectable kv.1 ∧ kv.1 ∈ paths)) (w_vol w)
                         ∧ removed + size (w_vol w) = n + size (w_vol w')
       | _ => True
       end)) w.
Proof.
  induction paths as [|p paths IH]; simpl; intros removed w Hnd Hin.
  { apply wp_ret. split_and!; [done..|]. intros _. split; [|done].
    symmetry. apply map_filter_id. intros i x _ [_ Hi]. by apply not_elem_of_nil in Hi. }
  apply NoDup_cons in Hnd as [Hp Hnd].
  assert (∀ q, q ∈ paths → is_Some (w_vol w !! q)) as Hin' by (intros q Hq; apply Hin; by right).
  assert (¬ collectable p → wp (gc_walk E root retained paths removed) (λ r w',
    (∀ q, ¬ collectable q → w_vol w' !! q = w_vol w !! q) ∧ w_dur w' = w_dur w
    ∧ ((∀ t, io_fault E t ≠ Some err_not_exist) →
       match r with
       | Ok (n, Ok _) => w_vol w' = filter (λ kv, ¬ (collectable kv.1 ∧ kv.1 ∈ p :: paths)) (w_vol w)
                         ∧ removed + size (w_vol w) = n + size (w_vol w')
       | _ => True
       end)) w) as Hskip.
  { intros Hc. eapply wp_mono; [by apply IH|]. intros r w' (H1 & H2 & H3). split_and!; [done..|].
    intros HE. specialize (H3 HE). destruct r as [[n [[]|e]]|e]; [|done..]. destruct H3 as [H3 H4].
    split; [|done]. rewrite H3. apply map_filter_ext. intros i x _. simpl. rewrite elem_of_cons.
    split; [|tauto]. intros Hn [Hci [->|Hi]]; [done|]. by apply Hn. }
  destruct (gc_hash root p) as [hash|] eqn:Hg.
  2:{ apply Hskip. unfold collectable. rewrite Hg. naive_solver. }
  case_bool_decide as Hr.
  { apply Hskip. unfold collectable. rewrite Hg. naive_solver. }
  assert (collectable p) as Hc by (exists hash; done).
  apply wp_bind, wp_try. unfold os_Remove. apply wp_sys.
  - intros e He. destruct (IsNotExist e) eqn:Hne.
    + eapply wp_mono; [apply IH; done|]. simpl. intros r w' (H1 & H2 & _). split_and!; [done..|].
      intros HE. apply str_eqb_eq in Hne. subst. by destruct (HE _ He).
    + apply wp_ret. done.
  - intros _. destruct (Hin p ltac:(by left)) as [f Hf]. unfold wp at 1; simpl. rewrite Hf.
    eapply wp_mono; [apply IH; [done|]|].
    { intros q Hq. simpl. rewrite lookup_delete_ne by (intros ->; done). by apply Hin'. }
    simpl. intros r w' (H1 & H2 & H3). split_and!; [|done|].
    + intros q Hq. rewrite H1 by done. apply lookup_delete_ne. by intros ->.
    + intros HE. specialize (H3 HE). destruct r as [[n [[]|e]]|e]; [|done..]. destruct H3 as [H3 H4].
      split.
      * rewrite H3. apply map_eq. intros i. apply option_eq. intros x.
        rewrite !map_lookup_filter_Some, lookup_delete_Some, elem_of_cons. simpl.
        naive_solver.
      * pose proof (map_size_delete_Some p (w_vol w) ltac:(eauto)) as Hsz.
        assert (size (w_vol w) ≠ 0) by (eapply map_size_ne_0_lookup_2; eauto). lia.
Qed.

End gc.

Lemma wp_GC E root retained w :
  wp (GC E root retained) (λ r w',
    (∀ p, ¬ collectable root retained p → w_vol w' !! p = w_vol w !! p)
    ∧ w_dur w' = w_dur w
    ∧ ((∀ t, io_fault E t ≠ Some err_not_exist) → ∀ n, r = Ok (n, Ok tt) →
       w_vol w' = filter (λ kv, ¬ collectable root retained kv.1) (w_vol w)
       ∧ n = size (w_vol w) - size (w_vol w'))) w.
Proof.
  unfold GC. apply wp_bind, wp_try, wp_sys.
  { intros e He. apply wp_ret. split_and!; [done..|]. intros HE n Hn. destruct (IsNotExist e) eqn:Hi.
    - apply str_eqb_eq in Hi. subst. by destruct (HE _ He).
    - done. }
  intros _. unfold wp at 1; simpl.
  assert (map fst (sorted_entries (w_vol w)) ≡ₚ (map_to_list (w_vol w)).*1) as Hperm
    by (by rewrite sorted_entries_perm).
  eapply wp_mono; [apply (wp_gc_walk E root retained); [rewrite Hperm; apply NoDup_fst_map_to_list|]|].
  { intros p Hp. rewrite Hperm in Hp. apply list_elem_of_fmap in Hp as ([q f] & -> & Hq).
    apply elem_of_map_to_list in Hq. simpl. rewrite Hq. eauto. }
  simpl. intros r w' (H1 & H2 & H3). split_and!; [done..|]. intros HE n ->. destruct (H3 HE) as [H4 H5].
  split; [|lia]. rewrite H4. apply map_filter_ext. intros p f Hf. simpl. rewrite Hperm.
  assert (p ∈ (map_to_list (w_vol w)).*1).
  { apply list_elem_of_fmap. exists (p, f). split; [done|]. by apply elem_of_map_to_list. }
  tauto.
Qed.

(** The path of an object names its digest. *)
Lemma remove_slashes_hex hx : all_hex hx = true → remove_slashes hx = hx.
Proof.
  induction hx as [|c hx IH]; [done|]. cbn [all_hex remove_slashes]. intros [Hc Hx]%andb_true_iff.
  case_bool_decide as Hs; [by subst|]. by rewrite IH.
Qed.

Lemma remove_slashes_app a b : remove_slashes (a +:+ b) = remove_slashes a +:+ remove_slashes b.
Proof.
  induction a as [|c a IH]; [done|]. change (String c a +:+ b) with (String c (a +:+ b)). cbn [remove_slashes].
  rewrite IH. by destruct (bool_decide _).
Qed.

Lemma gc_hash_object root hx :
  String.length hx = 64 → all_hex hx = true → gc_hash root (objectPath root hx) = Some (HashPrefixSHA256 +:+ hx).
Proof.
  intros Hl Hx. unfold gc_hash, objectPath, filepath_Join.
  set (rest := take_chars 2 hx +:+ "/" +:+ drop_chars 2 hx).
  assert ((blobDir root +:+ "/" +:+ take_chars 2 hx) +:+ "/" +:+ drop_chars 2 hx = (blobDir root +:+ "/") +:+ rest) as ->
    by (unfold rest; by rewrite !append_assoc_str).
  rewrite has_prefix_app, drop_chars_app. unfold rest. rewrite !remove_slashes_app.
  change (remove_slashes "/") with "". change ("" +:+ remove_slashes (drop_chars 2 hx)) with (remove_slashes (drop_chars 2 hx)).
  rewrite <- remove_slashes_app, take_drop_chars, remove_slashes_hex by done. by rewrite Hl.
Qed.

(** ** Properties *)

(** whatever system calls fail, a [Put] that succeeds answers the sha256 of
    the bytes read and leaves a verified blob under it: those bytes, or the
    blob of that digest that was there.  It succeeds only if the reader did
    not fail, and no blob of another digest changes. *)
Theorem Put_stores (E : env) (root : string) (r : reader) (w : world) (h : string) (w' : world) :
  Put E root r w = (Ok h, w') →
  let hx := sha256_hex (r_data r) in
  h = HashPrefixSHA256 +:+ hx ∧ r_err r = None
  ∧ (∀ hx', String.length hx' = 64 → hx' ≠ hx → stored root w' hx' = stored root w hx')
  ∧ ∃ d, stored root w' hx = Some d ∧ (d = r_data r ∨ stored root w hx = Some d).
Proof.
  intros H; cbv zeta. pose proof (wp_Put E root r w) as Hw. unfold wp in Hw. rewrite H in Hw. simpl in Hw.
  destruct Hw as [Hdep Hr]. split_and!; [by apply Hdep|by apply Hr| |].
  - intros hx' Hl Hne. eapply only_object_stored; [apply Hdep| |done].
    by rewrite sha256_hex_length.
  - eapply deposited_stored in Hdep as [-> Hs]; [|apply normalize_digest|done].
    destruct Hs as [Hs|[Hs [d Hd]]]; [eauto|]. exists d. rewrite Hs. auto.
Qed.

Lemma Put_stores_witness :
  ∃ h w', Put no_faults "/cas" abc empty_world = (Ok h, w') ∧ h = HashPrefixSHA256 +:+ sha256_hex "abc".
Proof.
  destruct (Put_succeeds no_faults "/cas" (λ _, eq_refl) abc empty_world eq_refl) as [w' H].
  exists (HashPrefixSHA256 +:+ sha256_hex "abc"), w'. split; [exact H|].
  exact (proj1 (Put_stores no_faults "/cas" abc empty_world _ w' H)).
Defined.

(** C34: in a run without faults [Put] succeeds whatever the store holds, corrupt
    files included, and [Read] of the hash it answers gives bytes of that
    digest: the bytes put, unless another blob of the same digest was there. *)
Theorem Put_Read (E : env) (root : string) (r : reader) (w : world) :
  (∀ t, io_fault E t = None) → r_err r = None →
  ∃ h w' d, Put E root r w = (Ok h, w') ∧ (Read E root h w').1 = Ok d
    ∧ h = HashPrefixSHA256 +:+ sha256_hex d
    ∧ (d = r_data r ∨ stored root w (sha256_hex (r_data r)) = Some d).
Proof.
  intros Hf Hr. destruct (Put_succeeds E root Hf r w Hr) as [w' H].
  pose proof (wp_Put E root r w) as Hw. unfold wp in Hw. rewrite H in Hw. simpl in Hw.
  destruct Hw as [Hdep _]. eapply deposited_stored in Hdep as [_ Hs]; [|apply normalize_digest|done].
  assert (∃ d, stored root w' (sha256_hex (r_data r)) = Some d
    ∧ (d = r_data r ∨ stored root w (sha256_hex (r_data r)) = Some d)) as (d & Hd & Hor).
  { destruct Hs as [Hs|[Hs [d Hd]]]; [eauto|]. exists d. rewrite Hs. auto. }
  exists (HashPrefixSHA256 +:+ sha256_hex (r_data r)), w', d. split_and!; [done| | |done].
  - eapply Read_stored; [done|apply normalize_digest|done|done].
  - apply stored_inv in Hd as (f & _ & _ & ->). done.
Qed.

Lemma Put_Read_witness :
  ∃ h w' d, Put no_faults "/cas" abc empty_world = (Ok h, w') ∧ (Read no_faults "/cas" h w').1 = Ok d
    ∧ h = HashPrefixSHA256 +:+ sha256_hex d
    ∧ (d = "abc" ∨ stored "/cas" empty_world (sha256_hex "abc") = Some d).
Proof. exact (Put_Read no_faults "/cas" abc empty_world (λ _, eq_refl) eq_refl). Defined.

(** under any faults a [Put] that fails leaves every blob of another digest
    as it was, and the blob of the digest written is the old one, the new one,
    or set aside; it never becomes a wrong blob. *)
Theorem Put_fails_safe (E : env) (root : string) (r : reader) (w : world) (e : error) (w' : world) :
  Put E root r w = (Err e, w') →
  let hx := sha256_hex (r_data r) in
  (∀ hx', String.length hx' = 64 → hx' ≠ hx → stored root w' hx' = stored root w hx')
  ∧ (stored root w' hx = stored root w hx ∨ stored root w' hx = Some (r_data r)
     ∨ stored root w' hx = None).
Proof.
  intros H; cbv zeta. pose proof (wp_Put E root r w) as Hw. unfold wp in Hw. rewrite H in Hw. simpl in Hw.
  destruct Hw as [Hdep _]. split.
  - intros hx' Hl Hne. eapply only_object_stored; [apply Hdep| |done].
    by rewrite sha256_hex_length.
  - eapply deposited_failed in Hdep; [|done]. tauto.
Qed.

Lemma Put_fails_safe_witness :
  ∃ w', Put (fault_at 0) "/cas" abc empty_world = (Err "input/output error", w')
    ∧ ∀ hx', String.length hx' = 64 → hx' ≠ sha256_hex "abc" →
        stored "/cas" w' hx' = stored "/cas" empty_world hx'.
Proof.
  exists (mkWorld ∅ ∅ ∅ 1). split; [reflexivity|].
  exact (proj1 (Put_fails_safe (fault_at 0) "/cas" abc empty_world _ (mkWorld ∅ ∅ ∅ 1) eq_refl)).
Defined.

(** [PutHash] succeeds only when the bytes have the digest asked for, and
    then a blob of that digest is stored and no other blob has changed; with
    other bytes it fails and changes no blob, whatever system calls fail. *)
Theorem PutHash_stores (E : env) (root hash hx : string) (r : reader) (w : world)
    (res : result unit) (w' : world) :
  normalizeSHA256Hash hash = Ok hx → PutHash E root hash r w = (res, w') →
  (∀ hx', String.length hx' = 64 → hx' ≠ hx → stored root w' hx' = stored root w hx')
  ∧ (is_ok res = true →
       sha256_hex (r_data r) = hx ∧ r_err r = None
       ∧ ∃ d, stored root w' hx = Some d ∧ (d = r_data r ∨ stored root w hx = Some d))
  ∧ (sha256_hex (r_data r) ≠ hx → is_ok res = false ∧ stored root w' hx = stored root w hx).
Proof.
  intros Hn H. pose proof (wp_PutHash E root hash hx r w Hn) as Hw. unfold wp in Hw. rewrite H in Hw.
  simpl in Hw. destruct Hw as (Hdep & Hok & Hsame). split_and!.
  - intros hx' Hl Hne. eapply only_object_stored; [apply Hdep| |done].
    by rewrite (normalize_length _ _ Hn).
  - intros Hr. destruct (Hok Hr) as [Hre Hh]. split_and!; [done..|].
    destruct res as [[]|e]; [|done].
    eapply deposited_stored in Hdep as [_ Hs]; [|done..].
    destruct Hs as [Hs|[Hs [d Hd]]]; [eauto|]. exists d. rewrite Hs. auto.
  - intros Hne. split.
    + destruct (is_ok res); [|done]. by destruct (Hok eq_refl).
    + apply stored_frame, Hsame; [done|]. apply objectPath_in_blobs.
Qed.

Lemma PutHash_stores_witness :
  ∃ res w', PutHash no_faults "/cas" abc_hash abc empty_world = (res, w')
    ∧ is_ok res = true ∧ sha256_hex "abc" = drop_chars 7 abc_hash.
Proof.
  destruct (PutHash_succeeds no_faults "/cas" (λ _, eq_refl) abc_hash (drop_chars 7 abc_hash) abc
    empty_world ltac:(vm_compute; reflexivity) eq_refl sha256_abc) as [w' H].
  exists (Ok tt), w'. split; [exact H|]. split; [reflexivity|].
  refine (proj1 (proj1 (proj2 (PutHash_stores no_faults "/cas" abc_hash (drop_chars 7 abc_hash) abc
    empty_world (Ok tt) w' _ H)) eq_refl)).
  vm_compute. reflexivity.
Defined.


(** A new store in which the directories above the example blob were made, and
    survive. *)
Definition ready_world : world :=
  mkWorld ∅ ∅ (gset_to_gmap true (list_to_set (parents (objectPath "/cas" (drop_chars 7 abc_hash))))) 0.

Lemma ready_parents d : d ∈ parents (objectPath "/cas" (drop_chars 7 abc_hash)) → w_dirs ready_world !! d = Some true.
Proof. intros Hd. apply lookup_gset_to_gmap_Some. split; [|done]. by apply elem_of_list_to_set. Qed.


(** So the first blob of its directory, which [Put] makes, can be lost although
    [Put] answered success. *)
Lemma first_of_directory_lost (E : env) (root : string) (r : reader) (w : world) (h : string) (w' : world) (d data : string) :
  Put E root r w = (Ok h, w') → d ∈ parents (objectPath root (sha256_hex (r_data r))) → w_dirs w !! d = None →
  ¬ survives w' (objectPath root (sha256_hex (r_data r))) data.
Proof.
  intros H Hd Hnew [_ Hs]. apply Hs in Hd as Hd'. pose proof (Put_dirs E root r w d Hd) as [H1 _].
  rewrite H in H1. rewrite H1 in Hnew; [done|exact Hd'].
Qed.

(** when a verified file is already in place, [Put] and [PutHash] answer
    success without syncing anything.  So after a first call that failed at
    the directory sync (the file renamed, its entry not yet stable) the retry
    is acknowledged while a power failure still loses the blob. *)
Theorem PutHash_present_not_synced (E : env) (root hash hx : string) (r : reader) (w : world) (d : string) :
  (∀ t, io_fault E t = None) → normalizeSHA256Hash hash = Ok hx → hash = HashPrefixSHA256 +:+ hx →
  r_err r = None → sha256_hex (r_data r) = hx → stored root w hx = Some d →
  ∃ w', PutHash E root hash r w = (Ok tt, w') ∧ w_dur w' = w_dur w.
Proof.
  intros Hf Hn Hp Hr Hh Hs. eapply (PutHash_runs E root Hf hash hx r (λ w', w_dur w' = w_dur w)); [done..|].
  intros tmp w1 Hb Hpre [Hv Hd] _. eapply succeeds_mono.
  2:{ eapply succeeds_install_present; [done..|]. erewrite stored_frame; [exact Hs|].
      apply Hv. intros <-. by rewrite objectPath_in_blobs in Hb. }
  intros o w2 [Ho Hd2]. split; [done|]. intros w3 [_ H3]. congruence.
Qed.

Lemma PutHash_present_not_synced_witness :
  ∃ w w', PutHash (fault_at 8) "/cas" abc_hash abc empty_world = (Err "input/output error", w)
    ∧ stored "/cas" w (drop_chars 7 abc_hash) = Some "abc"
    ∧ PutHash no_faults "/cas" abc_hash abc w = (Ok tt, w') ∧ w_dur w' = ∅.
Proof.
  set (hx := drop_chars 7 abc_hash).
  set (dirs := gset_to_gmap false (list_to_set ("/cas/staging" :: parents (objectPath "/cas" hx))) : gmap string bool).
  set (w := mkWorld {[ objectPath "/cas" hx := mkFile "abc" true ]} ∅ dirs 9).
  assert (stored "/cas" w hx = Some "abc") as Hs.
  { apply (stored_Some _ _ _ (mkFile "abc" true)); [apply lookup_insert_eq|exact sha256_abc]. }
  destruct (PutHash_present_not_synced no_faults "/cas" abc_hash hx abc w "abc" (λ _, eq_refl)
    ltac:(vm_compute; reflexivity) eq_refl eq_refl sha256_abc Hs) as (w' & H & Hd).
  exists w, w'. split; [|split; [exact Hs|split; [exact H|exact Hd]]].
  unfold PutHash, stage. change (r_data abc) with "abc". rewrite sha256_abc. vm_compute. reflexivity.
Defined.

(** whatever system calls fail, [GC] leaves every file whose hash is
    retained, and every file that is no object, and touches nothing stable; when
    it reports success (and no call lies about a missing file) the objects left
    are exactly those, and the count is the number of files removed. *)
Theorem GC_exact (E : env) (root : string) (retained : gset string) (w : world)
    (r : result (nat * result unit)) (w' : world) :
  GC E root retained w = (r, w') →
  (∀ p, ¬ collectable root retained p → w_vol w' !! p = w_vol w !! p)
  ∧ w_dur w' = w_dur w
  ∧ ((∀ t, io_fault E t ≠ Some err_not_exist) → ∀ n, r = Ok (n, Ok tt) →
       w_vol w' = filter (λ kv, ¬ collectable root retained kv.1) (w_vol w)
       ∧ n = size (w_vol w) - size (w_vol w')).
Proof.
  intros H. pose proof (wp_GC E root retained w) as Hw. unfold wp in Hw. by rewrite H in Hw.
Qed.

Lemma GC_exact_witness :
  let w := mkWorld {[ objectPath "" (drop_chars 7 abc_hash) := mkFile "abc" true ]} ∅ ∅ 0 in
  ∃ w', GC no_faults "" ∅ w = (Ok (1, Ok tt), w')
    ∧ w_vol w' = filter (λ kv, ¬ collectable "" ∅ kv.1) (w_vol w).
Proof.
  intros w. exists (mkWorld ∅ ∅ ∅ 2).
  assert (GC no_faults "" ∅ w = (Ok (1, Ok tt), mkWorld ∅ ∅ ∅ 2)) as H by (vm_compute; reflexivity).
  split; [exact H|].
  refine (proj1 (proj2 (proj2 (GC_exact no_faults "" ∅ w (Ok (1, Ok tt)) _ H)) _ 1 eq_refl)).
  discriminate.
Defined.
