(* ===== verification/BlobThreads.v ===== *)
(** * BlobThreads: the calls of one store taken at the same time (snapshot.go)

    HTTP handlers, the publisher and the maintenance loop call one [BlobStore]
    from different goroutines.  Here each call is a program: a sequence of
    system calls and of operations on the per-hash mutexes, between which the
    other goroutines may run.  The store's own state is the map of mutexes of
    [lockHash]; a system call is one step, and its effect is that of [Io].  A
    [schedule] says which goroutine moves next; [exec] runs one.  Reading a file
    is one step: objects are never written in place, so what an open file
    delivers is its content when it was opened.  The walk of [GC] lists the
    tree in one step.  [alone] runs a program without interference; the calls
    are then those of [BlobStore] ([BlobThreadsProofs]). *)
From S2P Require Import Prelude Text Io Sha256 Json GoTime Capability Manifest BlobStore.
From stdpp Require Import options.

(** ** Programs *)

(** What a goroutine still has to do, with the answer it will return. *)
Inductive prog (A : Type) : Type :=
| Return (r : result A)
| Syscall {X : Type} (act : io X) (k : result X → prog A)
| Lock (hash : string) (k : prog A)
| Unlock (hash : string) (k : prog A).
Arguments Return {A} _.
Arguments Syscall {A X} _ _.
Arguments Lock {A} _ _.
Arguments Unlock {A} _ _.

Fixpoint and_then {A B} (p : prog A) (k : result A → prog B) : prog B :=
  match p with
  | Return r => k r
  | Syscall act c => Syscall act (λ x, and_then (c x) k)
  | Lock h c => Lock h (and_then c k)
  | Unlock h c => Unlock h (and_then c k)
  end.

Definition prog_bind {A B} (p : prog A) (k : A → prog B) : prog B :=
  and_then p (λ r, match r with Ok a => k a | Err e => Return (Err e) end).
Definition prog_ret {A} (a : A) : prog A := Return (Ok a).
Definition prog_err {A} (e : error) : prog A := Return (Err e).
Definition prog_of {A} (r : result A) : prog A := Return r.
Definition prog_try {A} (p : prog A) : prog (result A) := and_then p (λ r, Return (Ok r)).
Definition call {A} (act : io A) : prog A := Syscall act Return.

Declare Scope prog_scope.
Delimit Scope prog_scope with prog.
Notation "'do!' x ':=' m 'in' k" := (prog_bind m (fun x => k))
  (at level 10, x name, m at level 100, k at level 200,
   format "'do!'  x  ':='  m  'in' '//' k") : prog_scope.
Notation "'run!' m 'in' k" := (prog_bind m (fun _ => k))
  (at level 10, m at level 100, k at level 200,
   format "'run!'  m  'in' '//' k") : prog_scope.
#[local] Open Scope prog_scope.

(** The program run by itself: every mutex is free. *)
Fixpoint alone {A} (p : prog A) : io A := λ w,
  match p with
  | Return r => (r, w)
  | Syscall act k => match act w with (x, w') => alone (k x) w' end
  | Lock _ k => alone k w
  | Unlock _ k => alone k w
  end.

(** ** The calls of the store *)

Section store.
Context (E : env) (root : string).

Definition Verify_steps (hash : string) : prog unit :=
  do! path := prog_of (pathFor root hash) in
  do! data := call (read_file E path) in
  let actual := HashPrefixSHA256 +:+ sha256_hex data in
  if negb (str_eqb actual hash) then prog_err "blob checksum mismatch: expected %s got %s"
  else prog_ret tt.

Definition quarantine_steps (path hash : string) : prog unit :=
  run! call (os_MkdirAll E (quarantineDir root)) in
  do! hexHash := prog_of (normalizeSHA256Hash hash) in
  do! destination := call (λ w, (Ok (filepath_Join (quarantineDir root) (hexHash +:+ "-" +:+ FormatUint (io_nanos E (w_ticks w)))), w)) in
  do! r := prog_try (call (os_Rename E path destination)) in
  match r with
  | Err e => if IsNotExist e then prog_ret tt else prog_err e
  | Ok _ =>
      run! call (syncDir E (quarantineDir root)) in
      call (syncDir E (dir_of path))
  end.

(** The object is missing, or invalid when [exists_]: put the staged file there. *)
Definition replace_steps (path hash tmpName : string) (exists_ : bool) : prog (result unit * bool) :=
  do! q := (if exists_ then prog_try (quarantine_steps path hash) else prog_ret (Ok tt)) in
  match q with
  | Err _ => prog_ret (Err "quarantine invalid blob %s: %w", true)
  | Ok _ =>
      do! r := prog_try (call (os_Rename E tmpName path)) in
      match r with
      | Err e => prog_ret (Err e, true)
      | Ok _ =>
          do! s := prog_try (run! call (syncDir E (dir_of path)) in
                             call (syncDir E (stagingDir root))) in
          prog_ret (s, false)
      end
  end.

(** The part of [Put] and [PutHash] after the mutex is taken. *)
Definition install_steps (path hash tmpName : string) : prog (result unit * bool) :=
  do! v := prog_try (Verify_steps hash) in
  match v with
  | Ok _ => prog_ret (Ok tt, true)
  | Err e =>
      do! exists_ := (if IsNotExist e then prog_ret false else call (fileExists E path)) in
      replace_steps path hash tmpName exists_
  end.

(** [unlock := s.lockHash(hash); defer unlock()] around the rest of the body. *)
Definition with_lock {A} (hash : string) (body : prog A) : prog A :=
  Lock hash (and_then body (λ r, Unlock hash (Return r))).

(** The deferred [os.Remove(tmpName)]; it runs after the mutex is released. *)
Definition with_tmp_steps {A} (tmpName : string) (body : prog (result A * bool)) : prog A :=
  do! o := prog_try body in
  match o with
  | Ok (r, removeTmp) =>
      if removeTmp then run! prog_try (call (os_Remove E tmpName)) in prog_of r else prog_of r
  | Err e => run! prog_try (call (os_Remove E tmpName)) in prog_err e
  end.

Definition stage_steps (tmpName : string) (r : reader) (accept : string → result unit) : prog string :=
  do! c := prog_try (call (io_Copy E tmpName r)) in
  match c with
  | Err e => run! prog_try (call (file_Close E tmpName)) in prog_err e
  | Ok _ =>
      let hexHash := sha256_hex (r_data r) in
      match accept hexHash with
      | Err e => run! prog_try (call (file_Close E tmpName)) in prog_err e
      | Ok _ =>
          do! s := prog_try (call (file_Sync E tmpName)) in
          match s with
          | Err e => run! prog_try (call (file_Close E tmpName)) in prog_err e
          | Ok _ => run! call (file_Close E tmpName) in prog_ret hexHash
          end
      end
  end.

Definition Put_steps (r : reader) : prog string :=
  run! call (os_MkdirAll E (stagingDir root)) in
  do! tmpName := call (os_CreateTemp E (stagingDir root) ".blob-") in
  with_tmp_steps tmpName
    (do! hexHash := stage_steps tmpName r (λ _, Ok tt) in
     let hash := HashPrefixSHA256 +:+ hexHash in
     do! path := prog_of (pathFor root hash) in
     run! call (os_MkdirAll E (dir_of path)) in
     do! o := with_lock hash (install_steps path hash tmpName) in
     prog_ret (match o.1 with Ok _ => Ok hash | Err e => Err e end, o.2)).

Definition PutHash_steps (hash : string) (r : reader) : prog unit :=
  do! expected := prog_of (normalizeSHA256Hash hash) in
  run! call (os_MkdirAll E (stagingDir root)) in
  do! tmpName := call (os_CreateTemp E (stagingDir root) ".blob-") in
  with_tmp_steps tmpName
    (run! stage_steps tmpName r (λ actual,
       if negb (str_eqb actual expected)
       then Err "blob checksum mismatch: expected %s got %s" else Ok tt) in
     do! path := prog_of (pathFor root hash) in
     run! call (os_MkdirAll E (dir_of path)) in
     with_lock hash (install_steps path hash tmpName)).

Definition Read_steps (hash : string) : prog string :=
  run! Verify_steps hash in
  do! path := prog_of (pathFor root hash) in
  call (read_file E path).

(** The body of the walk for one file; the result is whether it was counted. *)
Fixpoint gc_walk_steps (retained : gset string) (paths : list string) (removed : nat)
    : prog (nat * result unit) :=
  match paths with
  | [] => prog_ret (removed, Ok tt)
  | path :: rest =>
      match gc_hash root path with
      | None => gc_walk_steps retained rest removed
      | Some hash =>
          if bool_decide (hash ∈ retained) then gc_walk_steps retained rest removed
          else
            do! r := prog_try (with_lock hash (call (os_Remove E path))) in
            match r with
            | Err e => if IsNotExist e then gc_walk_steps retained rest (removed + 1)
                       else prog_ret (removed, Err e)
            | Ok _ => gc_walk_steps retained rest (removed + 1)
            end
      end
  end.

Definition GC_steps (retained : gset string) : prog (nat * result unit) :=
  do! l := prog_try (call (sys E (λ w, (Ok (map fst (sorted_entries (w_vol w))), w)))) in
  match l with
  | Err e => prog_ret (0, if IsNotExist e then Ok tt else Err e)
  | Ok paths => gc_walk_steps retained paths 0
  end.

(** ** Goroutines *)

(** A call somebody makes, and what it answers. *)
Inductive request :=
| RPut (r : reader)
| RPutHash (hash : string) (r : reader)
| RRead (hash : string)
| RVerify (hash : string)
| RGC (retained : gset string).

Inductive answer :=
| AHash (hash : string)
| ADone
| AData (data : string)
| ACollected (n : nat * result unit).

Definition serve (q : request) : prog answer :=
  match q with
  | RPut r => do! hash := Put_steps r in prog_ret (AHash hash)
  | RPutHash hash r => run! PutHash_steps hash r in prog_ret ADone
  | RRead hash => do! data := Read_steps hash in prog_ret (AData data)
  | RVerify hash => run! Verify_steps hash in prog_ret ADone
  | RGC retained => do! n := GC_steps retained in prog_ret (ACollected n)
  end.

End store.

(** The mutexes of [lockHash]: those created so far, each with the goroutine
    that holds it.  An entry is never deleted. *)
Abbreviation locks := (gmap string (option nat)) (only parsing).

Record thread := mkThread { th_request : request; th_prog : prog answer }.

(** The store in a running process: the files, the mutexes and the goroutines
    that have called it, numbered in the order they came. *)
Record system := mkSystem {
  s_world : world;
  s_locks : locks;
  s_threads : list thread;
}.

(** [NewBlobStore]. *)
Definition NewBlobStore (w : world) : system := mkSystem w ∅ [].

(** [lockHash] by goroutine [i]: the mutex is created when it is not there;
    [None] when another goroutine holds it and [i] has to wait. *)
Definition lockHash (hash : string) (i : nat) (ls : locks) : option locks :=
  match ls !! hash with
  | Some (Some _) => None
  | _ => Some (<[ hash := Some i ]> ls)
  end.

(** The function [lockHash] returns. *)
Definition unlockHash (hash : string) (ls : locks) : locks := <[ hash := None ]> ls.

(** The next step of a goroutine; [None] when it has returned or waits. *)
Definition step_prog {A} (i : nat) (p : prog A) (w : world) (ls : locks)
    : option (prog A * world * locks) :=
  match p with
  | Return _ => None
  | Syscall act k => match act w with (x, w') => Some (k x, w', ls) end
  | Lock h k => (λ ls', (k, w, ls')) <$> lockHash h i ls
  | Unlock h k => Some (k, w, unlockHash h ls)
  end.

Definition step_thread (i : nat) (s : system) : option system :=
  match s_threads s !! i with
  | Some t =>
      match step_prog i (th_prog t) (s_world s) (s_locks s) with
      | Some (p, w, ls) => Some (mkSystem w ls (<[ i := mkThread (th_request t) p ]> (s_threads s)))
      | None => None
      end
  | None => None
  end.

(** What happens next: a call arrives, or a goroutine is given a turn. *)
Inductive event :=
| Arrive (q : request)
| Turn (i : nat).

Definition step (E : env) (root : string) (e : event) (s : system) : system :=
  match e with
  | Arrive q => mkSystem (s_world s) (s_locks s) (s_threads s ++ [mkThread q (serve E root q)])
  | Turn i => default s (step_thread i s)
  end.

Definition exec (E : env) (root : string) (schedule : list event) (s : system) : system :=
  foldl (λ s e, step E root e s) s schedule.

(** The answer of goroutine [i], once it has returned. *)
Definition answered (s : system) (i : nat) (r : result answer) : Prop :=
  ∃ q, s_threads s !! i = Some (mkThread q (Return r)).

Definition returned {A} (p : prog A) : bool := match p with Return _ => true | _ => false end.
Definition all_returned (s : system) : bool := forallb (λ t, returned (th_prog t)) (s_threads s).
