(* ===== verification/BlobThreadsProofs.v ===== *)
(** * BlobThreadsProofs: running alone, and running with others

    First, a call that runs alone is the call of [BlobStore].  Then a program
    logic for calls that run with others: [safe] follows a program and says
    that its steps keep the guarantee [grants], as long as the steps of the
    others keep [rely].  The calls of the store are safe, and a pool of safe
    programs keeps the invariant [pool]. *)
From S2P Require Import Prelude Text Io Sha256 Json GoTime Capability Manifest BlobStore BlobStoreProofs BlobStoreSpec.
From S2P Require Import BlobThreads.
From stdpp Require Import stringmap options.
#[local] Open Scope prog_scope.

(** ** A call that runs alone *)

Lemma alone_and_then {A B} (p : prog A) (k : result A → prog B) w :
  alone (and_then p k) w = alone (k (alone p w).1) (alone p w).2.
Proof.
  revert w. induction p as [r|X act c IH|h c IH|h c IH]; intros w; simpl; [done| |apply IH..].
  destruct (act w) as [x w']. apply IH.
Qed.

Lemma alone_bind {A B} (p : prog A) (k : A → prog B) m (k' : A → io B) w :
  (∀ w, alone p w = m w) → (∀ a w, alone (k a) w = k' a w) →
  alone (prog_bind p k) w = io_bind m k' w.
Proof.
  intros Hm Hk. unfold prog_bind, io_bind. rewrite alone_and_then, Hm.
  destruct (m w) as [[a|e] w']; simpl; [apply Hk|done].
Qed.

Lemma alone_try {A} (p : prog A) m w : (∀ w, alone p w = m w) → alone (prog_try p) w = io_try m w.
Proof. intros Hm. unfold prog_try, io_try. rewrite alone_and_then, Hm. by destruct (m w). Qed.

Lemma alone_call {A} (act : io A) w : alone (call act) w = act w.
Proof. unfold call. simpl. by destruct (act w). Qed.

Lemma alone_with_lock {A} h (p : prog A) m w :
  (∀ w, alone p w = m w) → alone (with_lock h p) w = m w.
Proof. intros Hm. simpl. rewrite alone_and_then, Hm. simpl. by destruct (m w). Qed.

(** Follow both programs: the tactic leaves the places where they differ. *)
Ltac follow_alone :=
  repeat first
    [ reflexivity
    | apply alone_call
    | match goal with
      | |- alone (prog_bind _ _) _ = _ => apply alone_bind; intros
      | |- alone (prog_try _) _ = _ => apply alone_try; intros
      | |- alone (with_lock _ _) _ = _ => apply alone_with_lock; intros
      | |- alone (match ?x with _ => _ end) _ = match ?x with _ => _ end _ => destruct x
      | |- alone (if ?x then _ else _) _ = (if ?x then _ else _) _ => destruct x
      end
    | progress cbv zeta ].

Section alone.
Context (E : env) (root : string).

Lemma alone_Verify hash w : alone (Verify_steps E root hash) w = Verify E root hash w.
Proof. unfold Verify_steps, Verify. follow_alone. Qed.

Lemma alone_quarantine path hash w :
  alone (quarantine_steps E root path hash) w = quarantine E root path hash w.
Proof. unfold quarantine_steps, quarantine. follow_alone. Qed.

Lemma alone_install path hash tmp w :
  alone (install_steps E root path hash tmp) w = install E root path hash tmp w.
Proof.
  unfold install_steps, replace_steps, install.
  follow_alone; auto using alone_Verify, alone_quarantine. 
Qed.

Lemma alone_with_tmp {A} tmp (p : prog (result A * bool)) m w :
  (∀ w, alone p w = m w) → alone (with_tmp_steps E tmp p) w = with_tmp E tmp m w.
Proof.
  intros Hm. unfold with_tmp_steps, with_tmp.
  erewrite alone_bind; [|intros; by apply alone_try|intros; reflexivity].
  unfold io_bind, io_try. destruct (m w) as [[[r []]|e] w']; simpl; [|done|];
    by destruct (os_Remove E tmp w').
Qed.

Lemma alone_stage tmp r accept w : alone (stage_steps E tmp r accept) w = stage E tmp r accept w.
Proof. unfold stage_steps, stage. follow_alone. Qed.

Lemma alone_Put r w : alone (Put_steps E root r) w = Put E root r w.
Proof.
  unfold Put_steps, Put. follow_alone. apply alone_with_tmp. intros.
  follow_alone; auto using alone_stage, alone_install.
Qed.

Lemma alone_PutHash hash r w : alone (PutHash_steps E root hash r) w = PutHash E root hash r w.
Proof.
  unfold PutHash_steps, PutHash. follow_alone. apply alone_with_tmp. intros.
  follow_alone; auto using alone_stage, alone_install.
Qed.

Lemma alone_Read hash w : alone (Read_steps E root hash) w = Read E root hash w.
Proof. unfold Read_steps, Read, Open. follow_alone. apply alone_Verify. Qed.

Lemma alone_gc_walk retained paths n w :
  alone (gc_walk_steps E root retained paths n) w = gc_walk E root retained paths n w.
Proof.
  revert n w. induction paths as [|path rest IH]; intros n w; [done|]. simpl.
  destruct (gc_hash root path) as [hash|]; [|apply IH]. case_bool_decide; [apply IH|].
  apply alone_bind.
  - intros. apply alone_try. intros. apply alone_with_lock, alone_call.
  - intros [u|e] w1; [apply IH|]. destruct (IsNotExist e); [apply IH|done].
Qed.

Lemma alone_GC retained w : alone (GC_steps E root retained) w = GC E root retained w.
Proof. unfold GC_steps, GC. follow_alone. apply alone_gc_walk. Qed.

(** What the sequential store answers to a request. *)
Definition sequential (q : request) : io answer :=
  match q with
  | RPut r => io_bind (Put E root r) (λ hash, io_ret (AHash hash))
  | RPutHash hash r => io_bind (PutHash E root hash r) (λ _, io_ret ADone)
  | RRead hash => io_bind (Read E root hash) (λ data, io_ret (AData data))
  | RVerify hash => io_bind (Verify E root hash) (λ _, io_ret ADone)
  | RGC retained => io_bind (GC E root retained) (λ n, io_ret (ACollected n))
  end.

Lemma alone_serve q w : alone (serve E root q) w = sequential q w.
Proof.
  destruct q; cbn [serve sequential]; follow_alone;
    auto using alone_Put, alone_PutHash, alone_Read, alone_Verify, alone_GC.
Qed.

End alone.

(** ** A logic for calls that run with others *)

(** What a goroutine has in its hands: its staging file, and the mutex. *)
Record local := mkLocal { l_tmp : option string; l_key : option string }.
Definition idle : local := mkLocal None None.

Definition canonical (hx : string) : string := HashPrefixSHA256 +:+ hx.

Section logic.
Context (E : env) (root : string).

(** The digests of the objects that must not be lost; there may be none. *)
Context (K : string → Prop).
Context (K_hash : ∀ hx, K hx → normalizeSHA256Hash (canonical hx) = Ok hx).
Context (K_faults : ∀ hx, K hx → ∀ t, io_fault E t = None).
Set Default Proof Using "Type".

Definition staging (t : string) : Prop := ∃ x, t = filepath_Join (stagingDir root) x.
Definition object_at (w : world) (hx : string) : option file := w_vol w !! objectPath root hx.
Definition valid (w : world) (hx : string) : Prop := is_Some (stored root w hx).
(** No object, or a valid one. *)
Definition intact (w : world) (hx : string) : Prop := object_at w hx = None ∨ valid w hx.

(** What the others may do to a goroutine that holds [L]. *)
Record rely (L : local) (w w' : world) : Prop := {
  rely_tmp t : l_tmp L = Some t → w_vol w' !! t = w_vol w !! t;
  rely_intact hx : String.length hx = 64 → intact w hx → intact w' hx;
  rely_valid hx : K hx → valid w hx → valid w' hx;
  rely_key hx : K hx → l_key L = Some (canonical hx) → object_at w' hx = object_at w hx;
}.

(** The staging file of [L] is there. *)
Definition tmp_ok (L : local) (w : world) : Prop :=
  ∀ t, l_tmp L = Some t → staging t ∧ is_Some (w_vol w !! t).

(** What a system call of a goroutine that holds [L] may do, leaving it [L']. *)
Record grants (L L' : local) (w w' : world) : Prop := {
  grants_lock : l_key L' = l_key L;
  grants_ok : tmp_ok L' w';
  grants_fresh t : l_tmp L' = Some t → l_tmp L = Some t ∨ w_vol w !! t = None;
  grants_tmp t : staging t → is_Some (w_vol w !! t) → l_tmp L ≠ Some t → w_vol w' !! t = w_vol w !! t;
  grants_intact hx : String.length hx = 64 → intact w hx → intact w' hx;
  grants_valid hx : K hx → valid w hx → valid w' hx;
  grants_key hx : K hx → l_key L ≠ Some (canonical hx) → object_at w' hx = object_at w hx;
}.

Fixpoint safe {A} (Q : result A → local → world → Prop) (p : prog A) (L : local) (w : world) : Prop :=
  match p with
  | Return r => ∀ w0, rely L w w0 → Q r L w0
  | Syscall act k => ∀ w0, rely L w w0 → tmp_ok L w0 →
      ∃ L', grants L L' w0 (act w0).2 ∧ safe Q (k (act w0).1) L' (act w0).2
  | Lock h k => l_key L = None ∧ ∀ w0, rely L w w0 → safe Q k (mkLocal (l_tmp L) (Some h)) w0
  | Unlock h k => l_key L = Some h ∧ ∀ w0, rely L w w0 → safe Q k (mkLocal (l_tmp L) None) w0
  end.

(** *** Interference *)

Lemma stored_vol w w' hx : w_vol w' = w_vol w → stored root w' hx = stored root w hx.
Proof. intros H. apply stored_frame. by rewrite H. Qed.

Lemma valid_same w w' hx : object_at w' hx = object_at w hx → valid w hx → valid w' hx.
Proof. intros H. unfold valid. by rewrite (stored_frame root w w' hx H). Qed.

Lemma intact_same w w' hx : object_at w' hx = object_at w hx → intact w hx → intact w' hx.
Proof. unfold intact. intros H [Hi|Hi]; [left; congruence|right; by eapply valid_same]. Qed.

Lemma rely_vol L w w' : w_vol w' = w_vol w → rely L w w'.
Proof.
  intros H. assert (∀ hx, object_at w' hx = object_at w hx) as Ho by (intros; unfold object_at; by rewrite H).
  split; intros; eauto using valid_same, intact_same. by rewrite H.
Qed.

#[global] Instance rely_refl L : Reflexive (rely L).
Proof. intros w. by apply rely_vol. Qed.

#[global] Instance rely_trans L : Transitive (rely L).
Proof.
  intros w1 w2 w3 [Ht Hi Hv Hk] [Ht' Hi' Hv' Hk']. split; intros; eauto.
  - by rewrite Ht', Ht.
  - by rewrite Hk', Hk.
Qed.

Lemma safe_rely {A} Q (p : prog A) L w w' : safe Q p L w → rely L w w' → safe Q p L w'.
Proof.
  destruct p; simpl; intros H Hr.
  - intros w0 H0. apply H. by trans w'.
  - intros w0 H0. apply H. by trans w'.
  - destruct H as [Hl H]. split; [done|]. intros w0 H0. apply H. by trans w'.
  - destruct H as [Hl H]. split; [done|]. intros w0 H0. apply H. by trans w'.
Qed.

(** *** Rules *)

Lemma safe_and_then {A B} (Q : result A → local → world → Prop) Q' (p : prog A) (k : result A → prog B) L w :
  safe Q p L w → (∀ r L w, Q r L w → safe Q' (k r) L w) → safe Q' (and_then p k) L w.
Proof.
  intros Hp Hk. revert L w Hp. induction p as [r|X act c IH|h c IH|h c IH]; simpl; intros L w Hp.
  - apply Hk, Hp, reflexivity.
  - intros w0 H0 Ht. destruct (Hp w0 H0 Ht) as (L' & Hg & Hs). eauto.
  - destruct Hp as [Hl Hp]. eauto.
  - destruct Hp as [Hl Hp]. eauto.
Qed.

Lemma safe_bind {A B} (Q : result B → local → world → Prop) (p : prog A) (k : A → prog B) L w :
  safe (λ r L w, match r with Ok a => safe Q (k a) L w | Err e => ∀ w', rely L w w' → Q (Err e) L w' end) p L w →
  safe Q (prog_bind p k) L w.
Proof. intros H. eapply safe_and_then; [exact H|]. by intros [a|e] L' w'. Qed.

Lemma safe_mono {A} (Q Q' : result A → local → world → Prop) (p : prog A) L w :
  safe Q p L w → (∀ r L w, Q r L w → Q' r L w) → safe Q' p L w.
Proof.
  intros Hp HQ. revert L w Hp. induction p as [r|X act c IH|h c IH|h c IH]; simpl; intros L w Hp.
  - eauto.
  - intros w0 H0 Ht. destruct (Hp w0 H0 Ht) as (L' & Hg & Hs). eauto.
  - destruct Hp as [Hl Hp]. eauto.
  - destruct Hp as [Hl Hp]. eauto.
Qed.

Lemma safe_try {A} (Q : result (result A) → local → world → Prop) (p : prog A) L w :
  safe (λ r L w, ∀ w', rely L w w' → Q (Ok r) L w') p L w → safe Q (prog_try p) L w.
Proof. intros H. eapply safe_and_then; [exact H|]. by intros r L' w'. Qed.

Lemma safe_return {A} (Q : result A → local → world → Prop) r L w :
  (∀ w', rely L w w' → Q r L w') → safe Q (Return r) L w.
Proof. done. Qed.

Lemma safe_with_lock {A} (Q : result A → local → world → Prop) hash (p : prog A) t w :
  (∀ w', rely (mkLocal t None) w w' →
     safe (λ r L w, l_key L = Some hash ∧ ∀ w', rely (mkLocal (l_tmp L) None) w w' → Q r (mkLocal (l_tmp L) None) w')
       p (mkLocal t (Some hash)) w') →
  safe Q (with_lock hash p) (mkLocal t None) w.
Proof.
  intros H. split; [done|]. intros w0 H0. eapply safe_and_then; [by apply H|].
  intros r L w1 [Hk HQ]. split; [done|]. intros w2 H2 w3 H3. apply HQ.
  assert (rely (mkLocal (l_tmp L) None) w1 w2) as H12.
  { destruct H2 as [Ht Hi Hv Hk']. by split. }
  by trans w2.
Qed.

(** One system call, from its sequential specification. *)
Lemma safe_call {A} (Q : result A → local → world → Prop) (act : io A) L w :
  (∀ w0, rely L w w0 → tmp_ok L w0 →
     wp act (λ r w1, ∃ L', grants L L' w0 w1 ∧ ∀ w2, rely L' w1 w2 → Q r L' w2) w0) →
  safe Q (call act) L w.
Proof. intros H w0 H0 Ht. destruct (H w0 H0 Ht) as (L' & Hg & HQ). by exists L'. Qed.

Lemma grants_vol L w w' : tmp_ok L w → w_vol w' = w_vol w → grants L L w w'.
Proof.
  intros Ht H. destruct (rely_vol L _ _ H) as [H1 H2 H3 _].
  split; auto.
  - intros t. rewrite H. apply Ht.
  - intros. by rewrite H.
  - intros. unfold object_at. by rewrite H.
Qed.

(** A call that changes no file (it may flush some). *)
Definition keeps_vol {A} (act : io A) : Prop := ∀ w, w_vol (act w).2 = w_vol w.

Lemma quiet_keeps_vol {A} (act : io A) : quiet act → keeps_vol act.
Proof. intros H w. apply (H w). Qed.

Lemma syncDir_keeps_vol dir : keeps_vol (syncDir E dir).
Proof. intros w. unfold syncDir, sys. by destruct (io_fault E _). Qed.

Lemma safe_quiet {A} (Q : result A → local → world → Prop) (act : io A) L w :
  keeps_vol act → (∀ r w', rely L w w' → Q r L w') → safe Q (call act) L w.
Proof.
  intros Hq HQ. apply safe_call. intros w0 H0 Ht.
  exists L. split; [by apply grants_vol|]. intros w2 H2. apply HQ.
  trans w0; [done|]. by trans (act w0).2; [apply rely_vol|].
Qed.

Lemma grants_tick L L' w w' : grants L L' (tick w) w' → grants L L' w w'.
Proof. by intros []; split. Qed.

(** *** Steps that move files *)

Lemma staging_object t hx : staging t → t ≠ objectPath root hx.
Proof.
  intros [x ->] H. pose proof (staging_not_blobs root x) as Hb.
  rewrite H, objectPath_in_blobs in Hb. done.
Qed.

Lemma quarantine_object x hx : filepath_Join (quarantineDir root) x ≠ objectPath root hx.
Proof.
  intros H. pose proof (quarantine_not_blobs root x) as Hb.
  rewrite H, objectPath_in_blobs in Hb. done.
Qed.

Lemma staging_quarantine t x : staging t → t ≠ filepath_Join (quarantineDir root) x.
Proof.
  intros [y ->] H. unfold stagingDir, quarantineDir, filepath_Join in H. rewrite !append_assoc_str in H.
  do 2 apply append_inj_l in H. discriminate.
Qed.

Lemma K_length hx : K hx → String.length hx = 64.
Proof using K_hash. intros H. by eapply normalize_length, K_hash. Qed.

(** A step that touches, besides the staging file it holds, only paths that are
    no objects. *)
Lemma grants_own L L' w w' :
  l_key L' = l_key L → tmp_ok L' w' →
  (∀ t, l_tmp L' = Some t → l_tmp L = Some t ∨ w_vol w !! t = None) →
  (∀ t, staging t → is_Some (w_vol w !! t) → l_tmp L ≠ Some t → w_vol w' !! t = w_vol w !! t) →
  (∀ hx, object_at w' hx = object_at w hx) → grants L L' w w'.
Proof. intros. split; eauto using valid_same, intact_same. Qed.

End logic.

(** ** The calls are safe *)

Section calls.
Context (E : env) (root : string) (K : string → Prop).
Context (K_hash : ∀ hx, K hx → normalizeSHA256Hash (canonical hx) = Ok hx).
Context (K_faults : ∀ hx, K hx → ∀ t, io_fault E t = None).
Set Default Proof Using "Type".

(** What [Verify] saw, at the time it read the object. *)
Definition verified (hash hx : string) (r : result unit) (w : world) : Prop :=
  match r with
  | Ok _ => hash = canonical hx ∧ valid root w hx
  | Err e => (object_at root w hx = None ∧ e = err_not_exist)
             ∨ (∃ t, io_fault E t = Some e)
             ∨ (IsNotExist e = false ∧ ∃ f, object_at root w hx = Some f ∧ canonical (sha256_hex (f_data f)) ≠ hash)
  end.

Lemma safe_Verify Q hash hx L w :
  normalizeSHA256Hash hash = Ok hx →
  (∀ r w0 w', rely root K L w w0 → verified hash hx r w0 → rely root K L w0 w' → Q r L w') →
  safe root K Q (Verify_steps E root hash) L w.
Proof.
  intros Hn HQ. unfold Verify_steps, pathFor. rewrite Hn. apply safe_bind, safe_return. intros w1 H1.
  apply safe_bind, safe_call. intros w2 H2 Ht.
  assert (rely root K L w w2) as H02 by (by trans w1).
  apply wp_sys; [intros e He|intros Hf].
  - exists L. split; [by apply grants_vol|]. intros w3 H3 w4 H4. eapply (HQ (Err e) w2); [done|right; left; eauto|].
    trans w3; [|done]. trans (tick w2); [by apply rely_vol|done].
  - assert (rely root K L w2 (tick w2)) as Htk by (by apply rely_vol).
    unfold wp; simpl. destruct (w_vol w2 !! objectPath root hx) as [f|] eqn:Ho; simpl; exists L; (split; [by apply grants_vol|]).
    + intros w3 H3. destruct (str_eqb _ hash) eqn:Hs; simpl; intros w4 H4; bool_simpl.
      * subst hash. apply normalize_prefixed in Hn as <-.
        eapply (HQ (Ok tt) w2); [done| |by trans (tick w2); [|trans w3]].
        split; [done|]. exists (f_data f). by apply stored_Some.
      * eapply (HQ (Err _) w2); [done| |by trans (tick w2); [|trans w3]].
        right; right. split; [done|]. by exists f.
    + intros w3 H3 w4 H4. eapply (HQ (Err err_not_exist) w2); [done| |by trans (tick w2); [|trans w3]]. by left.
Qed.

(** The digest [hx] may be replaced: nothing relies on its object. *)
Definition replaceable (L : local) (hx : string) (w : world) : Prop :=
  K hx → l_key L = Some (canonical hx) ∧ ¬ valid root w hx.

Lemma replaceable_rely L hx w w' :
  replaceable L hx w → rely root K L w w' → replaceable L hx w'.
Proof.
  intros Hr H Hk. destruct (Hr Hk) as [Hl Hv]. split; [done|].
  intros Hv'. apply Hv. eapply valid_same; [|exact Hv']. symmetry. by eapply rely_key.
Qed.

Lemma grants_quarantine L hx x f w :
  tmp_ok root L w → String.length hx = 64 → replaceable L hx w →
  grants root K L L w
    (set_vol (λ v, <[ filepath_Join (quarantineDir root) x := f ]> (delete (objectPath root hx) v)) w).
Proof using K_hash.
  intros Ht Hl Hr. set (w' := set_vol _ w).
  assert (∀ t, staging root t → w_vol w' !! t = w_vol w !! t) as Hs.
  { intros t Hst. simpl. rewrite lookup_insert_ne by (by apply not_eq_sym, staging_quarantine).
    by rewrite lookup_delete_ne by (by apply not_eq_sym, staging_object). }
  assert (∀ hx', String.length hx' = 64 → hx' ≠ hx → object_at root w' hx' = object_at root w hx') as Ho.
  { intros hx' Hl' Hne. unfold object_at. simpl. rewrite lookup_insert_ne by apply quarantine_object.
    rewrite lookup_delete_ne; [done|]. intros He. apply objectPath_inj in He; congruence. }
  assert (object_at root w' hx = None) as Hx.
  { unfold object_at. simpl. rewrite lookup_insert_ne by apply quarantine_object. by rewrite lookup_delete_eq. }
  clearbody w'. split; auto.
  - intros t Hlt. destruct (Ht t Hlt) as [H1 H2]. by rewrite Hs.
  - intros hx' Hl'. destruct (decide (hx' = hx)) as [->|Hne]; [by left|by apply intact_same, Ho].
  - intros hx' Hk Hv. pose proof (K_length K K_hash hx' Hk) as Hl'. destruct (decide (hx' = hx)) as [->|Hne].
    + by destruct (Hr Hk).
    + by eapply valid_same; [apply Ho|].
  - intros hx' Hk Hne'. apply Ho; [by eapply K_length|]. intros ->. by destruct (Hr Hk).
Qed.

(** The staged file holds [data], flushed, and the object may be replaced. *)
Definition staged (L : local) (tmp data : string) (w : world) : Prop :=
  l_tmp L = Some tmp ∧ w_vol w !! tmp = Some (mkFile data true).

Lemma staged_rely L tmp data w w' : staged L tmp data w → rely root K L w w' → staged L tmp data w'.
Proof. intros [Hl Hw] H. split; [done|]. by rewrite (rely_tmp _ _ _ _ _ H). Qed.

Definition ready (L : local) (tmp data hx : string) (w : world) : Prop :=
  staged L tmp data w ∧ replaceable L hx w.

Lemma ready_rely L tmp data hx w w' : ready L tmp data hx w → rely root K L w w' → ready L tmp data hx w'.
Proof. intros [H1 H2] H. split; [by eapply staged_rely|by eapply replaceable_rely]. Qed.

Lemma ready_vol L tmp data hx w w' : ready L tmp data hx w → w_vol w' = w_vol w → ready L tmp data hx w'.
Proof. intros H Hv. eapply ready_rely; [exact H|by apply rely_vol]. Qed.

(** The object is moved out of the way. *)
Lemma safe_rename_out Q hx x tmp data L w :
  String.length hx = 64 → ready L tmp data hx w →
  (∀ r w', ready L tmp data hx w' → Q r L w') →
  safe root K Q (call (os_Rename E (objectPath root hx) (filepath_Join (quarantineDir root) x))) L w.
Proof using K_hash.
  intros Hl H HQ. apply safe_call. intros w1 H1 Ht1. eapply ready_rely in H; [|exact H1].
  assert (ready L tmp data hx (tick w1)) as Htick by (by apply (ready_vol _ _ _ _ w1)).
  apply wp_sys; [intros e _|intros _; unfold wp; simpl; destruct (w_vol w1 !! objectPath root hx) as [f|] eqn:Ho; simpl].
  1, 3: exists L; (split; [by apply grants_vol|]); intros w2 H2; apply HQ; by eapply ready_rely.
  exists L. destruct Htick as [[Hlt Hw] Hr].
  split; [by apply grants_tick, grants_quarantine|]. set (w2 := set_vol _ _). intros w3 H3.
  apply HQ. apply (ready_rely _ _ _ _ w2); [|done]. split; [split; [done|]|].
  - destruct (Ht1 tmp Hlt) as [Hst _]. simpl.
    rewrite lookup_insert_ne by (by apply not_eq_sym, staging_quarantine).
    by rewrite lookup_delete_ne by (by apply not_eq_sym, staging_object).
  - intros Hk. destruct (Hr Hk) as [Hlk _]. split; [done|]. unfold valid, stored. simpl.
    rewrite lookup_insert_ne by apply quarantine_object. rewrite lookup_delete_eq. by intros [].
Qed.

Lemma safe_quarantine Q hash hx tmp data L w :
  normalizeSHA256Hash hash = Ok hx → ready L tmp data hx w →
  (∀ r w', ready L tmp data hx w' → Q r L w') →
  safe root K Q (quarantine_steps E root (objectPath root hx) hash) L w.
Proof using K_hash.
  intros Hn H HQ. unfold quarantine_steps.
  apply safe_bind, safe_quiet; [apply quiet_keeps_vol, quiet_MkdirAll|].
  intros [[]|e] w1 H1; (eapply ready_rely in H; [|exact H1]); [|by eauto using ready_rely].
  apply safe_bind, safe_return. rewrite Hn. intros w2 H2. eapply ready_rely in H; [|exact H2].
  apply safe_bind, safe_call. intros w3 H3 Ht3. eapply ready_rely in H; [|exact H3].
  unfold wp at 1. cbn [fst snd]. exists L. split; [by apply grants_vol|]. intros w4 H4.
  eapply ready_rely in H; [|exact H4]. generalize (hx +:+ "-" +:+ FormatUint (io_nanos E (w_ticks w3))). intros x.
  clear w w1 w2 w3 H1 H2 H3 H4 Ht3. apply safe_bind, safe_try. apply (safe_rename_out _ _ _ tmp data); [by eapply normalize_length|done|].
  intros [[]|e] w5 H5 w6 H6; (eapply ready_rely in H5; [|exact H6]).
  - apply safe_bind, safe_quiet; [apply syncDir_keeps_vol|].
    intros [[]|e] w7 H7; (eapply ready_rely in H5; [|exact H7]); [|by eauto using ready_rely].
    apply safe_quiet; [apply syncDir_keeps_vol|]. eauto using ready_rely.
  - destruct (IsNotExist e); apply safe_return; eauto using ready_rely.
Qed.

(** What [install] leaves behind: with [removeTmp] the staging file is still
    held; without an error the object is there. *)
Definition install_post (L : local) (tmp hx : string) (o : result (result unit * bool)) (L' : local) (w : world) : Prop :=
  l_key L' = l_key L ∧
  match o with
  | Ok (r, removeTmp) => l_tmp L' = (if removeTmp then Some tmp else None) ∧ (is_ok r = true → K hx → valid root w hx)
  | Err _ => l_tmp L' = Some tmp
  end.

Lemma install_post_rely L tmp hx o L' w w' :
  install_post L tmp hx o L' w → rely root K L' w w' → install_post L tmp hx o L' w'.
Proof.
  intros [Hk H] Hr. split; [done|]. destruct o as [[r rm]|e]; [|done]. destruct H as [Ht Hv].
  split; [done|]. intros Hok HK. eapply rely_valid; eauto.
Qed.

(** The staged file takes the object's place. *)
Lemma safe_rename_in Q hx tmp data L w :
  String.length hx = 64 → staged L tmp data w → sha256_hex data = hx →
  (K hx → l_key L = Some (canonical hx)) →
  (∀ e w', staged L tmp data w' → Q (Err e) L w') →
  (∀ w', (K hx → valid root w' hx) → Q (Ok tt) (mkLocal None (l_key L)) w') →
  safe root K Q (call (os_Rename E tmp (objectPath root hx))) L w.
Proof using K_hash.
  intros Hl Hs Hd Hkey HE HQ. apply safe_call. intros w1 H1 Ht1. eapply staged_rely in Hs; [|exact H1].
  apply wp_sys; [intros e _|intros _].
  { exists L. split; [by apply grants_vol|]. intros w2 H2. apply HE. eapply staged_rely; [|exact H2].
    eapply staged_rely; [exact Hs|by apply rely_vol]. }
  destruct Hs as [Hlt Hw]. unfold wp; simpl. rewrite Hw. simpl. set (w2 := set_vol _ _).
  destruct (Ht1 tmp Hlt) as [Hst _]. exists (mkLocal None (l_key L)).
  assert (object_at root w2 hx = Some (mkFile data true)) as Ho by (unfold object_at; simpl; by rewrite lookup_insert_eq).
  assert (valid root w2 hx) as Hv by (exists data; by eapply (stored_Some root w2 hx (mkFile data true))).
  assert (∀ hx', String.length hx' = 64 → hx' ≠ hx → object_at root w2 hx' = object_at root w1 hx') as Hother.
  { intros hx' Hl' Hne. unfold object_at. simpl. rewrite lookup_insert_ne.
    - by rewrite lookup_delete_ne by (by apply staging_object).
    - intros He. apply objectPath_inj in He; congruence. }
  split.
  - split; try done; simpl.
    + intros t Hstt _ Hne. rewrite lookup_insert_ne by (by apply not_eq_sym, staging_object).
      rewrite lookup_delete_ne; [done|]. congruence.
    + intros hx' Hl'. destruct (decide (hx' = hx)) as [->|Hne]; [by right|by apply intact_same, Hother].
    + intros hx' Hk Hv'. destruct (decide (hx' = hx)) as [->|Hne]; [done|].
      eapply valid_same; [|exact Hv']. apply Hother; [by eapply K_length|done].
    + intros hx' Hk Hne. apply Hother; [by eapply K_length|]. intros ->. auto.
  - intros w3 H3. apply HQ. intros Hk. by eapply rely_valid.
Qed.

Lemma safe_replace Q hash hx tmp data ex L w :
  normalizeSHA256Hash hash = Ok hx → (K hx → l_key L = Some (canonical hx)) →
  ready L tmp data hx w → sha256_hex data = hx →
  (∀ o L' w', install_post L tmp hx o L' w' → Q o L' w') →
  safe root K Q (replace_steps E root (objectPath root hx) hash tmp ex) L w.
Proof using K_hash.
  intros Hn Hkey Hr Hd HQ. unfold replace_steps.
  assert (∀ e L' w', l_tmp L' = Some tmp → l_key L' = l_key L → Q (Ok (Err e, true)) L' w') as Herr.
  { intros e L' w' Ht Hk. apply HQ. by split_and!. }
  apply safe_bind.
  assert (∀ (q : result unit) w', ready L tmp data hx w' → safe root K Q
      match q with
      | Err _ => prog_ret (Err "quarantine invalid blob %s: %w", true)
      | Ok _ =>
          do! r := prog_try (call (os_Rename E tmp (objectPath root hx))) in
          match r with
          | Err e => prog_ret (Err e, true)
          | Ok _ =>
              do! s := prog_try (run! call (syncDir E (dir_of (objectPath root hx))) in
                                 call (syncDir E (stagingDir root))) in
              prog_ret (s, false)
          end
      end L w') as Hrest.
  2: { destruct ex.
       - apply safe_try, (safe_quarantine _ _ hx tmp data); [done..|]. intros r w1 H1 w2 H2.
         apply (Hrest r). by eapply ready_rely.
       - apply safe_return. intros w1 H1. apply (Hrest (Ok tt)). by eapply ready_rely. }
  clear Hr w. intros [[]|e] w [[Hlt Hw] _]; [|apply safe_return; by auto].
  apply safe_bind, safe_try, (safe_rename_in _ hx tmp data); [by eapply normalize_length|done..| |].
  - intros e w1 [H1 _] w2 H2. apply safe_return. auto.
  - intros w1 H1 w2 H2. apply safe_bind, safe_try.
    assert (∀ s w3, rely root K (mkLocal None (l_key L)) w2 w3 →
      safe root K Q (prog_ret (s, false)) (mkLocal None (l_key L)) w3) as Hend.
    { intros s w3 H3. apply safe_return. intros w4 H4. apply HQ. split_and!; [done..|].
      intros _ Hk. eapply rely_valid; [exact H4|done|]. eapply rely_valid; [exact H3|done|].
      eapply rely_valid; eauto. }
    apply safe_bind, safe_quiet; [apply syncDir_keeps_vol|].
    intros [[]|e] w3 H3.
    + apply safe_quiet; [apply syncDir_keeps_vol|]. intros r w4 H4 w5 H5. apply Hend.
      trans w3; [done|]. by trans w4.
    + intros w4 H4 w5 H5. apply Hend. trans w3; [done|]. by trans w4.
Qed.

Lemma safe_install Q hash hx tmp data L w :
  normalizeSHA256Hash hash = Ok hx → (K hx → hash = canonical hx) →
  l_key L = Some hash → staged L tmp data w → sha256_hex data = hx →
  (∀ o L' w', install_post L tmp hx o L' w' → Q o L' w') →
  safe root K Q (install_steps E root (objectPath root hx) hash tmp) L w.
Proof using K_hash K_faults.
  intros Hn Hcan Hkey Hs Hd HQ. unfold install_steps.
  apply safe_bind, safe_try, (safe_Verify _ _ hx); [done|].
  intros v w1 w2 H1 Hv H2 w3 H3. assert (rely root K L w1 w3) as H13 by (by trans w2).
  eapply staged_rely in Hs; [|exact H1]. destruct v as [[]|e].
  { destruct Hv as [_ Hv]. intros w4 H4. apply HQ. destruct Hs as [Hlt _]. split_and!; [done..|].
    intros _ Hk. eapply rely_valid; [exact H4|done|]. by eapply rely_valid. }
  assert (ready L tmp data hx w3) as Hr.
  { apply (ready_rely _ _ _ _ w1); [|done]. split; [done|]. intros Hk. rewrite <- Hcan by done. split; [done|].
    intros [d Hd']. apply stored_inv in Hd' as (f & Ho & <- & Hf). unfold verified, object_at in Hv.
    destruct Hv as [[Hv _]|[[t Ht]|(_ & f' & Hf' & Hne)]]; [congruence| |].
    - by rewrite (K_faults hx Hk) in Ht.
    - rewrite Ho in Hf'. simplify_eq. by rewrite Hf, <- Hcan in Hne. }
  clear w w1 w2 H1 Hv H2 H3 H13 Hs.
  assert (∀ ex w', ready L tmp data hx w' →
    safe root K Q (replace_steps E root (objectPath root hx) hash tmp ex) L w') as Hrest.
  { intros ex w' Hr'. apply (safe_replace _ _ _ _ data); auto. intros Hk. by rewrite <- Hcan. }
  apply safe_bind. destruct (IsNotExist e).
  - intros w4 H4. apply Hrest. by eapply ready_rely.
  - apply safe_quiet; [apply quiet_keeps_vol, quiet_exists|].
    intros [ex|e'] w4 H4; [apply Hrest; by eapply ready_rely|].
    intros w5 H5. apply HQ. split; [done|]. apply Hr.
Qed.

(** *** The staging file *)

(** Valid objects that must be kept are still there. *)
Definition keeps (w w' : world) : Prop := ∀ hx, K hx → valid root w hx → valid root w' hx.

Lemma rely_keeps L w w' : rely root K L w w' → keeps w w'.
Proof. intros H hx. apply H. Qed.

Lemma keeps_trans w1 w2 w3 : keeps w1 w2 → keeps w2 w3 → keeps w1 w3.
Proof. intros H1 H2 hx Hk Hv. auto. Qed.

Lemma only_tmp_objects tmp w w' hx :
  staging root tmp → only_tmp tmp w w' → object_at root w' hx = object_at root w hx.
Proof. intros Ht [Hv _]. apply Hv. by apply not_eq_sym, staging_object. Qed.

(** A call on the staging file that leaves it there. *)
Lemma safe_own {A} Q (act : io A) (P : result A → option file → Prop) tmp L w :
  l_tmp L = Some tmp →
  (∀ w0, is_Some (w_vol w0 !! tmp) → rely root K L w w0 →
     wp act (λ r w1, only_tmp tmp w0 w1 ∧ is_Some (w_vol w1 !! tmp) ∧ P r (w_vol w1 !! tmp)) w0) →
  (∀ r w', P r (w_vol w' !! tmp) → Q r L w') →
  safe root K Q (call act) L w.
Proof.
  intros Hl Hact HQ. apply safe_call. intros w0 H0 Ht0. destruct (Ht0 tmp Hl) as [Hst Hs].
  eapply wp_mono; [by apply Hact|]. simpl. intros r w1 (Hv & Hs1 & HP). exists L. split.
  - apply grants_own; auto.
    + intros t Ht. rewrite Hl in Ht. by simplify_eq.
    + intros t Hstt _ Hne. apply Hv. congruence.
    + intros hx. by eapply only_tmp_objects.
  - intros w2 H2. apply HQ. by rewrite (rely_tmp _ _ _ _ _ H2).
Qed.

Lemma safe_remove_tmp Q tmp L w :
  l_tmp L = Some tmp →
  (∀ r w', keeps w w' → Q r (mkLocal None (l_key L)) w') →
  safe root K Q (call (os_Remove E tmp)) L w.
Proof.
  intros Hl HQ. apply safe_call. intros w0 H0 Ht0. destruct (Ht0 tmp Hl) as [Hst _].
  apply wp_Remove. intros r w1 Hv. exists (mkLocal None (l_key L)).
  assert (grants root K L (mkLocal None (l_key L)) w0 w1) as Hg.
  { apply grants_own; try done.
    - intros t Hstt _ Hne. apply Hv. congruence.
    - intros hx. by eapply only_tmp_objects. }
  split; [done|]. intros w2 H2. apply HQ. eapply keeps_trans; [by eapply rely_keeps|].
  eapply keeps_trans; [intros hx; by eapply grants_valid|by eapply rely_keeps].
Qed.

Lemma safe_with_tmp {A} (Q : result A → local → world → Prop) tmp (body : prog (result A * bool)) L w :
  safe root K (λ o L' w', l_key L' = None ∧
    let '(r, removeTmp) := match o with Ok o => o | Err e => (Err e, true) end in
    l_tmp L' = (if removeTmp then Some tmp else None) ∧ ∀ w'', keeps w' w'' → Q r idle w'') body L w →
  safe root K Q (with_tmp_steps E tmp body) L w.
Proof.
  intros H. unfold with_tmp_steps. apply safe_bind, safe_try. eapply safe_mono; [exact H|].
  clear L w H. intros o L w [Hk H] w1 H1. apply rely_keeps in H1. destruct L as [lt lk]. simpl in Hk. subst lk.
  assert (∀ r, l_tmp (mkLocal lt None) = Some tmp → (∀ w'', keeps w w'' → Q r idle w'') →
    safe root K Q (run! prog_try (call (os_Remove E tmp)) in prog_of r) (mkLocal lt None) w1) as Hrm.
  { intros r Ht Hr. apply safe_bind, safe_try, safe_remove_tmp; [done|]. intros _ w2 H2 w3 H3.
    apply safe_return. intros w4 H4. apply Hr. apply rely_keeps in H3, H4.
    intros hx Hkx Hv. auto. }
  destruct o as [[r []]|e]; destruct H as [Ht Hr].
  - by apply Hrm.
  - simpl in Ht. subst lt. apply safe_return. intros w2 H2. apply Hr. apply rely_keeps in H2. by eapply keeps_trans.
  - apply (Hrm (Err e)); done.
Qed.

Lemma safe_stage Q tmp r accept L w :
  l_tmp L = Some tmp →
  (∀ hx w', hx = sha256_hex (r_data r) → r_err r = None → accept hx = Ok tt → staged L tmp (r_data r) w' → Q (Ok hx) L w') →
  (∀ e w', Q (Err e) L w') →
  safe root K Q (stage_steps E tmp r accept) L w.
Proof.
  intros Hl Hok HE. unfold stage_steps.
  assert (∀ e w, safe root K Q (run! prog_try (call (file_Close E tmp)) in prog_err e) L w) as Hclose.
  { intros e w'. apply safe_bind, safe_try, safe_quiet; [apply quiet_keeps_vol, quiet_Close|].
    intros _ w1 _ w2 _. by apply safe_return. }
  apply safe_bind, safe_try.
  apply (safe_own _ _ (λ c f, is_ok c = true → r_err r = None ∧ f = Some (mkFile (r_data r) false)) tmp); [done|..].
  { intros w0 [f Hf] _. apply wp_sys.
    - intros e _. split_and!; [by apply only_tmp_refl|by exists f|done].
    - intros _. unfold wp. simpl. destruct (r_err r); simpl; rewrite lookup_insert_eq;
        (split_and!; [split; [intros p Hp; by apply lookup_insert_ne|done]|done|done]). }
  intros [[]|e] w1 H1 w2 H2; [|by apply Hclose]. destruct (H1 eq_refl) as [Herr Hf].
  destruct (accept _) as [[]|e] eqn:Hacc; [|by apply Hclose].
  apply safe_bind, safe_try.
  apply (safe_own _ _ (λ c f, is_ok c = true → f = Some (mkFile (r_data r) true)) tmp); [done|..].
  { intros w3 [f Hf3] H3. apply wp_sys.
    - intros e _. split_and!; [by apply only_tmp_refl|by exists f|done].
    - intros _. unfold wp. simpl. rewrite lookup_alter_eq, Hf3. simpl. split_and!; [|done|].
      + split; [intros p Hp; by apply lookup_alter_ne|done].
      + intros _. rewrite (rely_tmp _ _ _ _ _ H3), (rely_tmp _ _ _ _ _ H2), Hf in Hf3 by done. by simplify_eq/=. }
  intros [[]|e] w3 H3 w4 H4; [|by apply Hclose].
  apply safe_bind, safe_quiet; [apply quiet_keeps_vol, quiet_Close|].
  intros [[]|e] w5 H5; [|by auto]. apply safe_return. intros w6 H6. apply Hok; [done..|].
  split; [done|]. rewrite (rely_tmp _ _ _ _ _ H6), (rely_tmp _ _ _ _ _ H5), (rely_tmp _ _ _ _ _ H4) by done. auto.
Qed.

(** *** Whole calls *)

Lemma safe_create Q w :
  (∀ tmp w', Q (Ok tmp) (mkLocal (Some tmp) None) w') → (∀ e w', Q (Err e) idle w') →
  safe root K Q (call (os_CreateTemp E (stagingDir root) ".blob-")) idle w.
Proof.
  intros Hok HE. apply safe_call. intros w0 H0 Ht0.
  set (name := fresh_string (filepath_Join (stagingDir root) ".blob-") (w_vol w0)).
  assert (w_vol w0 !! name = None) as Hfresh by apply fresh_string_fresh.
  assert (staging root name) as Hst.
  { destruct (fresh_string_prefix (w_vol w0) (filepath_Join (stagingDir root) ".blob-")) as [t Ht].
    exists (".blob-" +:+ t). unfold name. rewrite Ht. unfold filepath_Join. by rewrite !append_assoc_str. }
  apply wp_sys; [intros e _; exists idle; split; [by apply grants_vol|auto]|]. intros _.
  change (∃ L', grants root K idle L' w0 (set_vol (<[ name := mkFile "" false ]>) (tick w0))
    ∧ ∀ w2, rely root K L' (set_vol (<[ name := mkFile "" false ]>) (tick w0)) w2 → Q (Ok name) L' w2).
  exists (mkLocal (Some name) None). split; [|auto].
  apply grants_tick, grants_own; simpl.
  - done.
  - intros t [= <-]. split; [done|]. simpl. by rewrite lookup_insert_eq.
  - intros t [= <-]. by right.
  - intros t _ Hs _. rewrite lookup_insert_ne; [done|]. intros <-. rewrite Hfresh in Hs. by destruct Hs.
  - intros hx. unfold object_at. simpl. by rewrite lookup_insert_ne by (by apply staging_object).
Qed.

(** A deposit under the mutex of [hash]. *)
Lemma safe_deposit Q hash hx data tmp L w :
  normalizeSHA256Hash hash = Ok hx → (K hx → hash = canonical hx) → sha256_hex data = hx →
  l_key L = None → staged L tmp data w →
  (∀ o L' w', install_post idle tmp hx o L' w' → Q o L' w') →
  safe root K Q (with_lock hash (install_steps E root (objectPath root hx) hash tmp)) L w.
Proof using K_hash K_faults.
  intros Hn Hcan Hd Hkey Hs HQ. destruct L as [lt lk]. simpl in Hkey. subst lk.
  assert (lt = Some tmp) as -> by apply Hs.
  apply safe_with_lock. intros w2 H2. eapply staged_rely in Hs; [|exact H2].
  apply (safe_install _ _ hx _ data); [done..| |done|].
  { destruct Hs as [_ Hs]. by split. }
  intros o L w3 [Hk H]. split; [done|]. intros w4 H4. apply HQ, (install_post_rely _ _ _ _ _ w3); [|done].
  split; [done|]. by destruct o as [[]|].
Qed.

(** What an answer says, when and after it is given. *)
Definition good (q : request) (r : result answer) (w : world) : Prop :=
  match q, r with
  | RPut rd, Ok a => r_err rd = None ∧ a = AHash (canonical (sha256_hex (r_data rd)))
                     ∧ (K (sha256_hex (r_data rd)) → valid root w (sha256_hex (r_data rd)))
  | RPutHash hash rd, Ok a => r_err rd = None ∧ normalizeSHA256Hash hash = Ok (sha256_hex (r_data rd))
                     ∧ (K (sha256_hex (r_data rd)) → valid root w (sha256_hex (r_data rd)))
  | RRead hash, Ok a => ∃ d, a = AData d ∧ hash = canonical (sha256_hex d)
  | RVerify hash, Ok a => ∃ hx, hash = canonical hx ∧ (K hx → valid root w hx)
  | _, _ => True
  end.

(** Requests that respect the digests to be kept: uploads name them with their
    prefix, and collections retain them. *)
Definition respects (q : request) : Prop :=
  match q with
  | RPutHash hash _ => ∀ hx, normalizeSHA256Hash hash = Ok hx → K hx → hash = canonical hx
  | RGC retained => ∀ hx, K hx → canonical hx ∈ retained
  | _ => True
  end.

(** What the pool asks of a goroutine: at the end it holds nothing. *)
Definition finished (q : request) (r : result answer) (L : local) (w : world) : Prop :=
  l_key L = None ∧ good q r w.

Lemma safe_Put r w :
  safe root K (λ a L w', l_key L = None ∧ good (RPut r) (match a with Ok h => Ok (AHash h) | Err e => Err e end) w')
    (Put_steps E root r) idle w.
Proof using K_hash K_faults.
  unfold Put_steps. apply safe_bind, safe_quiet; [apply quiet_keeps_vol, quiet_MkdirAll|].
  intros [[]|e] w1 _; [|by intros]. apply safe_bind, safe_create; [|by intros].
  intros tmp w2. apply safe_with_tmp, safe_bind, safe_stage; [done| |by intros].
  intros hx w3 -> Herr _ Hs. unfold pathFor. fold (canonical (sha256_hex (r_data r))).
  destruct (normalizeSHA256Hash (canonical (sha256_hex (r_data r)))) as [hx|e] eqn:Hn; [|by apply safe_bind, safe_return; intros].
  apply normalize_prefixed in Hn as Hx. subst hx. apply safe_bind, safe_return. intros w4 H4.
  eapply staged_rely in Hs; [|exact H4].
  apply safe_bind, safe_quiet; [apply quiet_keeps_vol, quiet_MkdirAll|].
  intros [[]|e] w5 H5; [|intros w6 H6; by split_and!; auto]. eapply staged_rely in Hs; [|exact H5].
  apply safe_bind, (safe_deposit _ _ _ (r_data r) tmp); [done..|].
  intros [[r' rm]|e] L w6 [Hk H]; simpl in H.
  - destruct H as [Ht Hv]. apply safe_return. intros w7 H7. split; [done|]. simpl. split; [done|].
    intros w8 H8. split; [done|]. destruct r' as [[]|e]; [|done]. split_and!; [done..|].
    intros HK. apply rely_keeps in H7. auto.
  - intros w7 H7. by split_and!.
Qed.

Lemma safe_PutHash hash r w :
  respects (RPutHash hash r) →
  safe root K (λ a L w', l_key L = None ∧ good (RPutHash hash r) (match a with Ok _ => Ok ADone | Err e => Err e end) w')
    (PutHash_steps E root hash r) idle w.
Proof using K_hash K_faults.
  intros Hresp. unfold PutHash_steps. destruct (normalizeSHA256Hash hash) as [hx|e] eqn:Hn; [|by apply safe_bind, safe_return].
  apply safe_bind, safe_return. intros w0 _.
  apply safe_bind, safe_quiet; [apply quiet_keeps_vol, quiet_MkdirAll|].
  intros [[]|e] w1 _; [|by intros]. apply safe_bind, safe_create; [|by intros].
  intros tmp w2. apply safe_with_tmp, safe_bind, safe_stage; [done| |by intros].
  intros hx' w3 -> Herr Hacc Hs. destruct (negb _) eqn:He in Hacc; [done|]. bool_simpl. clear Hacc.
  unfold pathFor. rewrite Hn. apply safe_bind, safe_return. intros w4 H4.
  eapply staged_rely in Hs; [|exact H4].
  apply safe_bind, safe_quiet; [apply quiet_keeps_vol, quiet_MkdirAll|].
  intros [[]|e] w5 H5; [|intros w6 H6; by split_and!; auto]. eapply staged_rely in Hs; [|exact H5].
  apply (safe_deposit _ _ hx (r_data r) tmp); [done|by apply Hresp|done..|].
  intros [[r' rm]|e] L w6 [Hk H]; simpl in H; (split; [done|]).
  - destruct H as [Ht Hv]. split; [done|]. intros w8 H8. split; [done|]. destruct r' as [[]|e]; [|done].
    subst hx. split_and!; auto.
  - by split_and!.
Qed.

Lemma safe_Read hash w :
  safe root K (λ a L w', l_key L = None ∧ good (RRead hash) (match a with Ok d => Ok (AData d) | Err e => Err e end) w')
    (Read_steps E root hash) idle w.
Proof.
  unfold Read_steps. destruct (normalizeSHA256Hash hash) as [hx|e] eqn:Hn.
  2: { unfold Verify_steps, pathFor. rewrite Hn. by apply safe_bind, safe_bind, safe_return. }
  assert (String.length hx = 64) as Hl by (by eapply normalize_length).
  apply safe_bind, (safe_Verify _ _ hx); [done|]. intros [[]|e] w0 w1 H0 Hv H1; [|by intros].
  destruct Hv as [-> Hv]. unfold pathFor. rewrite Hn. apply safe_bind, safe_return. intros w2 H2.
  apply safe_call. intros w3 H3 Ht3. assert (intact root w3 hx) as Hi.
  { eapply rely_intact; [exact H3|done|]. eapply rely_intact; [exact H2|done|].
    eapply rely_intact; [exact H1|done|]. by right. }
  apply wp_read; [intros e w4 Hv4 _|intros f w4 Hf Hv4 _]; exists idle; (split; [by apply grants_vol|]); intros w5 H5; [done|].
  split; [done|]. exists (f_data f). split; [done|]. destruct Hi as [Hi|[d Hi]].
  - unfold object_at in Hi. congruence.
  - apply stored_inv in Hi as (f' & Hf' & <- & Hx). rewrite Hf in Hf'. simplify_eq. done.
Qed.

Lemma safe_Verify_call hash w :
  safe root K (λ a L w', l_key L = None ∧ good (RVerify hash) (match a with Ok _ => Ok ADone | Err e => Err e end) w')
    (Verify_steps E root hash) idle w.
Proof.
  destruct (normalizeSHA256Hash hash) as [hx|e] eqn:Hn.
  2: { unfold Verify_steps, pathFor. rewrite Hn. by apply safe_bind, safe_return. }
  apply (safe_Verify _ _ hx); [done|]. intros [[]|e] w0 w1 H0 Hv H1; [|done].
  destruct Hv as [-> Hv]. split; [done|]. exists hx. split; [done|]. intros Hk. by eapply rely_valid.
Qed.

Lemma wp_Remove_cases path Q (w : world) :
  (∀ r (w' : world), w_vol w' = w_vol w ∨ w_vol w' = delete path (w_vol w) → Q r w') → wp (os_Remove E path) Q w.
Proof.
  intros H. apply wp_sys; [intros e _; apply H; by left|]. intros _. unfold wp. simpl.
  destruct (w_vol w !! path); apply H; [by right|by left].
Qed.

(** Removing a file that [GC] may collect, under its mutex. *)
Lemma safe_collect Q retained hash path w :
  gc_hash root path = Some hash → hash ∉ retained → respects (RGC retained) →
  (∀ r w', Q r idle w') →
  safe root K Q (with_lock hash (call (os_Remove E path))) idle w.
Proof using K_hash.
  intros Hg Hnr Hresp HQ. apply safe_with_lock. intros w1 H1. apply safe_call. intros w2 H2 Ht2.
  assert (in_blobs root path = true) as Hb.
  { unfold gc_hash in Hg. unfold in_blobs. by destruct (has_prefix _ _). }
  apply wp_Remove_cases. intros r w3 [Hv|Hv]; exists (mkLocal None (Some hash)); (split; [|by split; intros]).
  { by apply grants_vol. }
  assert (∀ p, p ≠ path → w_vol w3 !! p = w_vol w2 !! p) as Hother by (intros p Hp; by rewrite Hv, lookup_delete_ne).
  assert (∀ hx, K hx → object_at root w3 hx = object_at root w2 hx) as Ho.
  { intros hx Hk. apply Hother. intros <-. pose proof (K_hash hx Hk) as Hn.
    rewrite gc_hash_object in Hg.
    - simplify_eq. apply Hnr, Hresp, Hk.
    - by eapply normalize_length.
    - unfold normalizeSHA256Hash, canonical in Hn. rewrite trim_prefix_app in Hn.
      destruct (negb (_ =? 64)); [done|]. by destruct (all_hex hx). }
  split; try done.
  - intros t [x ->] _ _. apply Hother. intros He. by rewrite <- He, staging_not_blobs in Hb.
  - intros hx Hl Hi. destruct (decide (objectPath root hx = path)) as [He|Hne].
    + left. unfold object_at. by rewrite He, Hv, lookup_delete_eq.
    + eapply intact_same; [by apply Hother|done].
  - intros hx Hk. apply valid_same. auto.
  - auto.
Qed.

Lemma safe_gc_walk Q retained paths : respects (RGC retained) →
  (∀ r w', Q r idle w') → ∀ n w, safe root K Q (gc_walk_steps E root retained paths n) idle w.
Proof using K_hash.
  intros Hresp HQ. induction paths as [|path rest IH]; intros n w; [by apply safe_return|]. simpl.
  destruct (gc_hash root path) as [hash|] eqn:Hg; [|apply IH]. case_bool_decide as Hr; [apply IH|].
  apply safe_bind, safe_try, (safe_collect _ retained); [done..|]. intros [u|e] w1 w2 H2; [apply IH|].
  destruct (IsNotExist e); [apply IH|by apply safe_return].
Qed.

Lemma safe_GC retained w :
  respects (RGC retained) → safe root K (λ a L w', l_key L = None) (GC_steps E root retained) idle w.
Proof using K_hash.
  intros Hresp. unfold GC_steps. apply safe_bind, safe_try, safe_quiet.
  { intros w0. unfold sys. by destruct (io_fault E _). }
  intros [paths|e] w1 H1 w2 H2; [by apply safe_gc_walk|by apply safe_return].
Qed.

Lemma good_rely q r L w w' : good q r w → rely root K L w w' → good q r w'.
Proof.
  intros H Hr. apply rely_keeps in Hr. destruct q, r as [a|e]; simpl in *; try done.
  - destruct H as (H1 & H2 & H3). split_and!; auto.
  - destruct H as (H1 & H2 & H3). split_and!; auto.
  - destruct H as (hx & H1 & H2). eauto.
Qed.

(** Every call that respects the kept digests is safe. *)
Lemma safe_serve q w : respects q → safe root K (finished q) (serve E root q) idle w.
Proof using K_hash K_faults.
  intros Hq. destruct q as [r|hash r|hash|hash|retained]; cbn [serve]; apply safe_bind.
  - eapply safe_mono; [apply safe_Put|]. intros [a|e] L w1 H; [|by intros].
    apply safe_return. intros w2 H2. destruct H as [Hk H]. split; [done|]. by eapply good_rely.
  - eapply safe_mono; [by apply safe_PutHash|]. intros [a|e] L w1 H; [|by intros].
    apply safe_return. intros w2 H2. destruct H as [Hk H]. split; [done|]. by eapply good_rely.
  - eapply safe_mono; [apply safe_Read|]. intros [a|e] L w1 H; [|by intros].
    apply safe_return. intros w2 H2. destruct H as [Hk H]. split; [done|]. by eapply good_rely.
  - eapply safe_mono; [apply safe_Verify_call|]. intros [a|e] L w1 H; [|by intros].
    apply safe_return. intros w2 H2. destruct H as [Hk H]. split; [done|]. by eapply good_rely.
  - eapply safe_mono; [by apply safe_GC|]. intros [a|e] L w1 H; [|by intros].
    by apply safe_return.
Qed.

End calls.
