(* ===== verification/BlobThreadsSpec.v ===== *)
(** * BlobThreadsSpec: what the store promises when calls overlap

    The invariant of a pool of goroutines, kept by every schedule, and what
    follows from it: a call that runs alone answers like the sequential store,
    reads are intact, acknowledged objects stay, and every call returns. *)
From S2P Require Import Prelude Text Io Sha256 Json GoTime Capability Manifest BlobStore BlobStoreProofs BlobStoreSpec.
From S2P Require Import BlobThreads BlobThreadsProofs.
From stdpp Require Import functions options.

(** ** The pool *)

Section pool.
Context (E : env) (root : string) (K : string → Prop).
Context (K_hash : ∀ hx, K hx → normalizeSHA256Hash (canonical hx) = Ok hx).
Context (K_faults : ∀ hx, K hx → ∀ t, io_fault E t = None).
Set Default Proof Using "Type".

(** [Ls i] is what goroutine [i] holds: staging files are held by one goroutine,
    mutexes by the goroutine the lock map names. *)
Record pool (Ls : nat → local) (s : system) : Prop := {
  pool_safe i t : s_threads s !! i = Some t →
    safe root K (finished root K (th_request t)) (th_prog t) (Ls i) (s_world s);
  pool_tmp i j t : l_tmp (Ls i) = Some t → l_tmp (Ls j) = Some t → i = j;
  pool_ok i : tmp_ok root (Ls i) (s_world s);
  pool_lock i h : l_key (Ls i) = Some h ↔ s_locks s !! h = Some (Some i);
  pool_out i : length (s_threads s) ≤ i → Ls i = idle;
}.

Lemma pool_new w : pool (λ _, idle) (NewBlobStore w).
Proof. split; simpl; try done. Qed.

Lemma pool_arrive Ls s q : respects K q → pool Ls s → pool Ls (step E root (Arrive q) s).
Proof using K_hash K_faults.
  intros Hq [H1 H2 H3 H4 H5]. split; simpl; auto.
  - intros i t Ht. apply lookup_app_Some in Ht as [Ht|[Hl Ht]]; [by apply H1|].
    apply list_lookup_singleton_Some in Ht as [Hi <-]. rewrite H5 by done. by apply safe_serve.
  - intros i Hl. apply H5. rewrite length_app in Hl. lia.
Qed.

(** The step of one goroutine is no surprise to another. *)
Lemma pool_interference Ls s i j L' w' :
  pool Ls s → i ≠ j → grants root K (Ls i) L' (s_world s) w' → rely root K (Ls j) (s_world s) w'.
Proof.
  intros Hp Hij Hg. split.
  - intros t Ht. destruct (pool_ok _ _ Hp j t Ht) as [Hst Hs]. apply (grants_tmp _ _ _ _ _ _ Hg); [done..|].
    intros Hi. apply Hij. by eapply pool_tmp.
  - apply (grants_intact _ _ _ _ _ _ Hg).
  - apply (grants_valid _ _ _ _ _ _ Hg).
  - intros hx Hk Hj. apply (grants_key _ _ _ _ _ _ Hg); [done|]. intros Hi.
    apply (pool_lock _ _ Hp) in Hi, Hj. rewrite Hi in Hj. by simplify_eq.
Qed.

(** The pool after goroutine [i] moved to [p], holding [L']. *)
Lemma pool_update Ls s i q p0 p L' w' ls' :
  pool Ls s → s_threads s !! i = Some (mkThread q p0) →
  safe root K (finished root K q) p L' w' →
  (∀ j, j ≠ i → rely root K (Ls j) (s_world s) w') →
  tmp_ok root L' w' →
  (∀ t, l_tmp L' = Some t → ∀ j, j ≠ i → l_tmp (Ls j) ≠ Some t) →
  (∀ h, l_key L' = Some h ↔ ls' !! h = Some (Some i)) →
  (∀ j h, j ≠ i → s_locks s !! h = Some (Some j) ↔ ls' !! h = Some (Some j)) →
  pool (<[ i := L' ]> Ls) (mkSystem w' ls' (<[ i := mkThread q p ]> (s_threads s))).
Proof.
  intros [H1 H2 H3 H4 H5] Hi Hs Hr Ht Hd Hk Hl.
  assert (i < length (s_threads s)) as Hlt by (by eapply lookup_lt_Some).
  split; simpl.
  - intros j t Hj. destruct (decide (j = i)) as [->|Hne].
    + rewrite list_lookup_insert_eq in Hj by done. simplify_eq/=. by rewrite fn_lookup_insert.
    + rewrite list_lookup_insert_ne in Hj by done. rewrite fn_lookup_insert_ne by done.
      eapply safe_rely; [by apply H1|by apply Hr].
  - intros j k t. destruct (decide (j = i)) as [->|Hj], (decide (k = i)) as [->|Hk'];
      rewrite ?fn_lookup_insert, ?fn_lookup_insert_ne by done; eauto; intros Ha Hb; exfalso; by eapply Hd.
  - intros j. destruct (decide (j = i)) as [->|Hne]; [by rewrite fn_lookup_insert|].
    rewrite fn_lookup_insert_ne by done. intros t Hjt. destruct (H3 j t Hjt) as [Hst Hsome].
    split; [done|]. by rewrite (rely_tmp _ _ _ _ _ (Hr j Hne)).
  - intros j h. destruct (decide (j = i)) as [->|Hne]; [by rewrite fn_lookup_insert|].
    rewrite fn_lookup_insert_ne by done. rewrite H4. by apply Hl.
  - intros j Hj. rewrite length_insert in Hj. rewrite fn_lookup_insert_ne by lia. by apply H5.
Qed.

(** The world of a turn: a system call, or none. *)
Lemma turn_keeps Ls s i s' : pool Ls s → step_thread i s = Some s' → keeps root K (s_world s) (s_world s').
Proof.
  intros Hp. unfold step_thread. destruct (s_threads s !! i) as [[q p0]|] eqn:Hi; [|done]. simpl.
  pose proof (pool_safe _ _ Hp i _ Hi) as Hs. simpl in Hs.
  destruct p0 as [r|X act k|h k|h k]; simpl; [done| | |].
  - destruct (Hs (s_world s) (reflexivity _) (pool_ok _ _ Hp i)) as (L' & Hg & _).
    destruct (act (s_world s)) as [x w']. intros [= <-]. intros hx. apply (grants_valid _ _ _ _ _ _ Hg).
  - destruct (lockHash _ _ _); simpl; [|done]. intros [= <-]. by intros hx.
  - intros [= <-]. by intros hx.
Qed.

Lemma pool_turn Ls s i s' : pool Ls s → step_thread i s = Some s' → ∃ Ls', pool Ls' s'.
Proof.
  intros Hp. unfold step_thread. destruct (s_threads s !! i) as [[q p0]|] eqn:Hi; [|done]. simpl.
  pose proof (pool_safe _ _ Hp i _ Hi) as Hs. simpl in Hs.
  assert (∀ t, l_tmp (Ls i) = Some t → ∀ j, j ≠ i → l_tmp (Ls j) ≠ Some t) as Hd.
  { intros t Ht j Hne Hj. apply Hne. by eapply pool_tmp. }
  destruct p0 as [r|X act k|h k|h k]; simpl; [done| | |].
  - destruct (Hs (s_world s) (reflexivity _) (pool_ok _ _ Hp i)) as (L' & Hg & Hs').
    destruct (act (s_world s)) as [x w'] eqn:Ha. simpl in *. intros [= <-].
    exists (<[ i := L' ]> Ls). apply (pool_update _ _ _ _ (Syscall act k)); auto.
    + intros j Hne. by eapply pool_interference.
    + by apply (grants_ok _ _ _ _ _ _ Hg).
    + intros t Ht j Hne Hj. destruct (grants_fresh _ _ _ _ _ _ Hg t Ht) as [Hl|Hl]; [by eapply Hd|].
      destruct (pool_ok _ _ Hp j t Hj) as [_ Hsome]. rewrite Hl in Hsome. by destruct Hsome.
    + intros h. rewrite (grants_lock _ _ _ _ _ _ Hg). apply (pool_lock _ _ Hp).
  - destruct Hs as [Hl Hs]. unfold lockHash. destruct (s_locks s !! h) as [[j|]|] eqn:Hh; simpl; [done|..].
    all: intros [= <-]; exists (<[ i := mkLocal (l_tmp (Ls i)) (Some h) ]> Ls).
    all: apply (pool_update _ _ _ _ (Lock h k)); auto; simpl; try done; try (by apply Hs); try (by apply (pool_ok _ _ Hp i)).
    1, 3: intros h'; split; [intros [= <-]; by rewrite lookup_insert_eq|].
    1, 2: destruct (decide (h = h')) as [->|Hne]; [done|]; rewrite lookup_insert_ne by done;
          intros Hl'; apply (pool_lock _ _ Hp) in Hl'; congruence.
    all: intros j h' Hne; destruct (decide (h = h')) as [->|Hne'];
         [rewrite lookup_insert_eq, Hh; split; intros; simplify_eq|by rewrite lookup_insert_ne].
  - destruct Hs as [Hl Hs]. intros [= <-]. exists (<[ i := mkLocal (l_tmp (Ls i)) None ]> Ls).
    apply (pool_lock _ _ Hp) in Hl as Hh. unfold unlockHash.
    apply (pool_update _ _ _ _ (Unlock h k)); auto; simpl; try done; try (by apply Hs); try (by apply (pool_ok _ _ Hp i)).
    + intros h'. split; [done|]. destruct (decide (h = h')) as [->|Hne]; [by rewrite lookup_insert_eq|].
      rewrite lookup_insert_ne by done. intros Hl'. apply (pool_lock _ _ Hp) in Hl'. congruence.
    + intros j h' Hne. destruct (decide (h = h')) as [->|Hne'].
      * rewrite lookup_insert_eq, Hh. split; intros; simplify_eq.
      * by rewrite lookup_insert_ne.
Qed.

Lemma pool_step Ls s e : (∀ q, e = Arrive q → respects K q) → pool Ls s →
  ∃ Ls', pool Ls' (step E root e s) ∧ keeps root K (s_world s) (s_world (step E root e s)).
Proof using K_hash K_faults.
  intros Hq Hp. destruct e as [q|i]; [exists Ls; split; [by apply pool_arrive; auto|by intros hx]|].
  simpl. destruct (step_thread i s) as [s'|] eqn:Hs; simpl.
  - destruct (pool_turn _ _ _ _ Hp Hs) as [Ls' Hp']. exists Ls'. split; [done|]. by eapply turn_keeps.
  - exists Ls. split; [done|]. by intros hx.
Qed.

Lemma pool_exec schedule : ∀ Ls s, (∀ q, Arrive q ∈ schedule → respects K q) → pool Ls s →
  ∃ Ls', pool Ls' (exec E root schedule s) ∧ keeps root K (s_world s) (s_world (exec E root schedule s)).
Proof using K_hash K_faults.
  induction schedule as [|e schedule IH]; intros Ls s Hq Hp; [exists Ls; split; [done|by intros hx]|].
  destruct (pool_step Ls s e) as (Ls' & Hp' & Hk); [intros q ->; apply Hq; by left|done|].
  destruct (IH Ls' (step E root e s)) as (Ls2 & Hp2 & Hk2); [|done|].
  - intros q Hin. apply Hq. by right.
  - exists Ls2. split; [done|]. intros hx Hx Hv. apply Hk2; auto.
Qed.

(** What an answer says holds. *)
Lemma pool_answer Ls s i q r : pool Ls s → s_threads s !! i = Some (mkThread q (Return r)) → good root K q r (s_world s).
Proof. intros Hp Hi. by apply (pool_safe _ _ Hp _ _ Hi (s_world s)). Qed.

End pool.

(** ** Every call returns *)

(** The next program of a goroutine. *)
Definition child {A} (p' p : prog A) : Prop :=
  match p with
  | Return _ => False
  | Syscall act k => ∃ x, p' = k x
  | Lock _ k | Unlock _ k => p' = k
  end.

Lemma child_wf {A} : well_founded (@child A).
Proof. intros p. induction p; constructor; simpl; [done|intros _ [x ->]; auto|by intros _ ->..]. Qed.

(** One element of a list moves to a child. *)
Inductive moved {A} : list (prog A) → list (prog A) → Prop :=
| moved_head p' p l : child p' p → moved (p' :: l) (p :: l)
| moved_tail p l' l : moved l' l → moved (p :: l') (p :: l).

Lemma moved_wf {A} : well_founded (@moved A).
Proof.
  intros l. induction l as [|p l IH]; [constructor; intros y Hy; inversion Hy|].
  revert l IH. induction (child_wf p) as [p _ IHp]. intros l Hl. induction Hl as [l Hl IHl].
  constructor. intros y Hy. inversion Hy as [p' ? ? Hc|? l' ? Hm]; subst.
  - apply IHp; [done|by constructor].
  - by apply IHl.
Qed.

Lemma moved_lookup {A} (l : list (prog A)) i p p' :
  l !! i = Some p → child p' p → moved (<[ i := p' ]> l) l.
Proof.
  revert i. induction l as [|x l IH]; intros [|i] Hi Hc; simplify_eq/=; constructor; auto.
Qed.

Lemma tc_wf {A} (R : A → A → Prop) : well_founded R → well_founded (tc R).
Proof.
  intros HR x. induction (HR x) as [x _ IH]. constructor. intros y Hy.
  induction Hy as [y x Hy|y z x Hy _ IHy]; [by apply IH|].
  apply (Acc_inv (IHy IH)). by apply tc_once.
Qed.

Definition remaining (s : system) : list (prog answer) := th_prog <$> s_threads s.

Lemma step_thread_moved i s s' : step_thread i s = Some s' → moved (remaining s') (remaining s).
Proof.
  unfold step_thread, remaining. destruct (s_threads s !! i) as [[q p]|] eqn:Hi; [|done]. simpl.
  destruct (step_prog i p _ _) as [[[p' w] ls]|] eqn:Hp; [|done]. intros [= <-]. simpl.
  rewrite list_fmap_insert. apply (moved_lookup _ _ p); [by rewrite list_lookup_fmap, Hi|].
  destruct p as [r|X act k|h k|h k]; simpl in Hp; [done|..].
  - destruct (act _) as [x w'']. simplify_eq. by exists x.
  - apply fmap_Some in Hp as (ls' & _ & Hp). by simplify_eq.
  - by simplify_eq.
Qed.

(** Turns for the goroutines of a list: either nobody moved, or there is less
    to do. *)
Lemma turns_moved E root l : ∀ s,
  (exec E root (Turn <$> l) s = s ∧ ∀ i, i ∈ l → step_thread i s = None)
  ∨ tc moved (remaining (exec E root (Turn <$> l) s)) (remaining s).
Proof.
  induction l as [|i l IH]; intros s; [left; split; [done|]; intros i Hi; by apply not_elem_of_nil in Hi|].
  change (exec E root (Turn <$> i :: l) s) with (exec E root (Turn <$> l) (default s (step_thread i s))).
  destruct (step_thread i s) as [s'|] eqn:Hs; [change (default s (Some s')) with s'|change (default s None) with s].
  - right. apply step_thread_moved in Hs. destruct (IH s') as [[-> _]|Hm]; [by apply tc_once|].
    eapply tc_transitive; [exact Hm|]. by apply tc_once.
  - destruct (IH s) as [[Heq Hn]|Hm]; [left|by right]. split; [done|].
    intros j [->|Hj]%elem_of_cons; auto.
Qed.

Lemma exec_app E root l1 l2 s : exec E root (l1 ++ l2) s = exec E root l2 (exec E root l1 s).
Proof. apply foldl_app. Qed.

(** A turn for every goroutine, [n] times over. *)
Definition round (s : system) : list event := Turn <$> seq 0 (length (s_threads s)).

Fixpoint round_robin (E : env) (root : string) (n : nat) (s : system) : system :=
  match n with
  | 0 => s
  | S n => round_robin E root n (exec E root (round s) s)
  end.

(** Somebody can always move: a mutex somebody waits for is held by a goroutine
    that can. *)
Lemma pool_progress root K Ls s :
  pool root K Ls s → (∀ i, step_thread i s = None) → all_returned s = true.
Proof.
  intros Hp Hn. unfold all_returned. apply Is_true_true, forallb_True, Forall_lookup. intros i [q p] Hi. simpl.
  assert (∀ i q p, s_threads s !! i = Some (mkThread q p) →
    match p with Return _ | Lock _ _ => True | _ => False end) as Hstuck.
  { clear i q p Hi. intros i q p Hi. specialize (Hn i). unfold step_thread in Hn. rewrite Hi in Hn.
    destruct p as [r|X act k|h k|h k]; try done. simpl in Hn. by destruct (act _). }
  destruct p as [r|X act k|h k|h k]; try done; [by apply Hstuck in Hi| |by apply Hstuck in Hi].
  exfalso. specialize (Hn i) as Hni. unfold step_thread in Hni. rewrite Hi in Hni. simpl in Hni.
  unfold lockHash in Hni. destruct (s_locks s !! h) as [[j|]|] eqn:Hh; try done.
  apply (pool_lock _ _ _ _ Hp) in Hh. destruct (s_threads s !! j) as [[q' p']|] eqn:Hj.
  - pose proof (pool_safe _ _ _ _ Hp j _ Hj) as Hs. apply Hstuck in Hj. destruct p' as [r| |h' k'|]; try done; simpl in Hs.
    + destruct (Hs (s_world s)) as [Hk _]; [reflexivity|]. congruence.
    + destruct Hs as [Hk _]. congruence.
  - rewrite (pool_out _ _ _ _ Hp) in Hh by (by apply lookup_ge_None). done.
Qed.

(** No digest is singled out: the pool of any schedule. *)
Lemma pool_any E root schedule w : ∃ Ls, pool root (λ _, False) Ls (exec E root schedule (NewBlobStore w)).
Proof.
  destruct (pool_exec E root (λ _, False) ltac:(done) ltac:(done) schedule (λ _, idle) (NewBlobStore w))
    as (Ls & Hp & _); [|apply pool_new|by exists Ls].
  by intros [r|hash r|hash|hash|retained] _; simpl.
Qed.

Lemma round_moved E root Ls s K :
  pool root K Ls s → all_returned s = true ∨ tc moved (remaining (exec E root (round s) s)) (remaining s).
Proof.
  intros Hp. destruct (turns_moved E root (seq 0 (length (s_threads s))) s) as [[_ Hn]|Hm]; [left|by right].
  eapply pool_progress; [exact Hp|]. intros i. destruct (decide (i < length (s_threads s))) as [Hl|Hl].
  - apply Hn, elem_of_seq. lia.
  - unfold step_thread. by rewrite lookup_ge_None_2 by lia.
Qed.

(** C23: Whatever calls overlap, in whatever order their steps were taken and
    whichever system calls fail, every goroutine returns if it is given enough
    turns: the per-hash mutexes never deadlock. *)
Theorem all_calls_return (E : env) (root : string) (schedule : list event) (w : world) :
  ∃ n, all_returned (round_robin E root n (exec E root schedule (NewBlobStore w))) = true.
Proof.
  remember (remaining (exec E root schedule (NewBlobStore w))) as l eqn:Hl. revert schedule Hl.
  induction (tc_wf _ moved_wf l) as [l _ IH]. intros schedule ->.
  destruct (pool_any E root schedule w) as [Ls Hp].
  destruct (round_moved E root _ _ _ Hp) as [Hr|Hm]; [by exists 0|].
  set (s := exec E root schedule _) in *.
  destruct (IH _ Hm (schedule ++ round s)) as [n Hn]; [by rewrite exec_app|].
  exists (S n). by rewrite exec_app in Hn.
Qed.

(** C22: A read that answers data answers the data of the digest asked for,
    whatever uploads, repairs and collections overlap with it, whatever the
    files were and whichever system calls fail. *)
Theorem reads_intact (E : env) (root : string) (schedule : list event) (w : world) (i : nat)
    (hash : string) (a : answer) :
  s_threads (exec E root schedule (NewBlobStore w)) !! i = Some (mkThread (RRead hash) (Return (Ok a))) →
  ∃ d, a = AData d ∧ hash = HashPrefixSHA256 +:+ sha256_hex d.
Proof.
  intros Hi. destruct (pool_any E root schedule w) as [Ls Hp].
  by apply (pool_answer _ _ _ _ _ _ _ Hp) in Hi.
Qed.

(** The read of a file that an upload is repairing at the same time. *)
Definition read_during_repair : list event :=
  [Arrive (RPut abc)] ++ replicate 11 (Turn 0) ++ [Arrive (RRead abc_hash)]
  ++ replicate 20 (Turn 0) ++ replicate 5 (Turn 1).
Definition corrupt_world : world :=
  mkWorld {[ objectPath "/cas" (drop_chars 7 abc_hash) := mkFile "abd" true ]} ∅ ∅ 0.

Lemma reads_intact_witness :
  s_threads (exec no_faults "/cas" read_during_repair (NewBlobStore corrupt_world)) !! 1
    = Some (mkThread (RRead abc_hash) (Return (Ok (AData "abc"))))
  ∧ ∃ d, AData "abc" = AData d ∧ abc_hash = HashPrefixSHA256 +:+ sha256_hex d.
Proof.
  assert (s_threads (exec no_faults "/cas" read_during_repair (NewBlobStore corrupt_world)) !! 1
    = Some (mkThread (RRead abc_hash) (Return (Ok (AData "abc"))))) as H by (vm_compute; reflexivity).
  split; [exact H|]. exact (reads_intact _ _ _ _ _ _ _ H).
Defined.

(** A request that does no harm to the object with digest [hx]: an upload names
    it with its prefix, a collection retains it. *)
Definition harmless (hx : string) (q : request) : Prop :=
  match q with
  | RPutHash hash _ => normalizeSHA256Hash hash = Ok hx → hash = HashPrefixSHA256 +:+ hx
  | RGC retained => HashPrefixSHA256 +:+ hx ∈ retained
  | _ => True
  end.

(** The upload of [hx] by goroutine [i] was acknowledged. *)
Definition acknowledged (s : system) (hx : string) : Prop :=
  ∃ i a, (∃ r, s_threads s !! i = Some (mkThread (RPut r) (Return (Ok a))) ∧ sha256_hex (r_data r) = hx)
       ∨ (∃ hash r, s_threads s !! i = Some (mkThread (RPutHash hash r) (Return (Ok a)))
                    ∧ normalizeSHA256Hash hash = Ok hx).


Lemma arrivals (P : request → Prop) schedule :
  Forall (λ e, match e with Arrive q => P q | Turn _ => True end) schedule → ∀ q, Arrive q ∈ schedule → P q.
Proof. intros H q Hq. rewrite Forall_forall in H. exact (H _ (proj1 (list_elem_of_In _ _) Hq)). Qed.

(** Two uploads of the same content and a collection, over a corrupt object. *)
Definition abc_digest : string := drop_chars 7 abc_hash.
Definition two_uploads : list event :=
  [Arrive (RPut abc); Arrive (RPutHash abc_hash abc)] ++ concat (replicate 18 [Turn 0; Turn 1]) ++ replicate 4 (Turn 0).
Definition then_collect : list event := [Arrive (RGC {[ abc_hash ]})] ++ concat (replicate 10 [Turn 1; Turn 2]).


(** ** A call that overlaps with no other *)

Lemma run_alone E root K (Q : result answer → local → world → Prop) i q (p : prog answer) : ∀ L s,
  safe root K Q p L (s_world s) → s_threads s !! i = Some (mkThread q p) → tmp_ok root L (s_world s) →
  (∀ h j, s_locks s !! h = Some (Some j) → l_key L = Some h) →
  ∃ n, let s' := exec E root (replicate n (Turn i)) s in
    s_threads s' !! i = Some (mkThread q (Return (alone p (s_world s)).1))
    ∧ s_world s' = (alone p (s_world s)).2.
Proof.
  induction p as [r|X act k IH|h k IH|h k IH]; intros L s Hs Hi Ht Hfree.
  - exists 0. by split.
  - destruct (Hs (s_world s) (reflexivity _) Ht) as (L' & Hg & Hs').
    destruct (act (s_world s)) as [x w'] eqn:Ha. simpl in *.
    destruct (IH x L' (mkSystem w' (s_locks s) (<[ i := mkThread q (k x) ]> (s_threads s)))) as (n & H1 & H2); simpl.
    + done.
    + apply list_lookup_insert_eq. by eapply lookup_lt_Some.
    + apply (grants_ok _ _ _ _ _ _ Hg).
    + intros h j Hh. rewrite (grants_lock _ _ _ _ _ _ Hg). eauto.
    + exists (S n). simpl in H1, H2 |- *. rewrite Ha. unfold step_thread. rewrite Hi. simpl. rewrite Ha. by split.
  - destruct Hs as [Hl Hs].
    assert (lockHash h i (s_locks s) = Some (<[ h := Some i ]> (s_locks s))) as Hlock.
    { unfold lockHash. destruct (s_locks s !! h) as [[j|]|] eqn:Hh; [|done..]. apply Hfree in Hh. congruence. }
    destruct (IH (mkLocal (l_tmp L) (Some h)) (mkSystem (s_world s) (<[ h := Some i ]> (s_locks s)) (<[ i := mkThread q k ]> (s_threads s))))
      as (n & H1 & H2); simpl.
    + by apply Hs.
    + apply list_lookup_insert_eq. by eapply lookup_lt_Some.
    + done.
    + intros h' j. destruct (decide (h = h')) as [->|Hne]; [done|]. rewrite lookup_insert_ne by done.
      intros Hh. apply Hfree in Hh. congruence.
    + exists (S n). simpl in H1, H2 |- *. unfold step_thread. rewrite Hi. simpl. rewrite Hlock. by split.
  - destruct Hs as [Hl Hs].
    destruct (IH (mkLocal (l_tmp L) None) (mkSystem (s_world s) (unlockHash h (s_locks s)) (<[ i := mkThread q k ]> (s_threads s))))
      as (n & H1 & H2); simpl.
    + by apply Hs.
    + apply list_lookup_insert_eq. by eapply lookup_lt_Some.
    + done.
    + intros h' j. unfold unlockHash. destruct (decide (h = h')) as [->|Hne]; [by rewrite lookup_insert_eq|].
      rewrite lookup_insert_ne by done. intros Hh. apply Hfree in Hh. congruence.
    + exists (S n). simpl in H1, H2 |- *. unfold step_thread. rewrite Hi. by split.
Qed.

Lemma returned_free root K Ls s :
  pool root K Ls s → all_returned s = true → ∀ h j, s_locks s !! h ≠ Some (Some j).
Proof.
  intros Hp Hr h j Hh. apply (pool_lock _ _ _ _ Hp) in Hh.
  destruct (s_threads s !! j) as [[q p]|] eqn:Hj.
  - pose proof (pool_safe _ _ _ _ Hp j _ Hj) as Hs. unfold all_returned in Hr.
    rewrite forallb_forall in Hr. specialize (Hr _ (proj1 (list_elem_of_In _ _) (list_elem_of_lookup_2 _ _ _ Hj))).
    destruct p as [r| | |]; try done. destruct (Hs (s_world s) (reflexivity _)) as [Hk _]. congruence.
  - rewrite (pool_out _ _ _ _ Hp) in Hh by (by apply lookup_ge_None). done.
Qed.


Definition settled : list event := two_uploads ++ replicate 30 (Turn 1).


(** ** What the mutexes do not cover *)

(** The mutexes go by the hash as the caller wrote it, and [Verify] compares
    that text with the prefixed digest.  An upload of the digits alone, which
    [normalizeSHA256Hash] accepts, takes another mutex, finds the acknowledged
    object invalid, and moves it to quarantine before putting its own copy in
    place: a reader in between gets an error although no system call failed. *)
Definition bare_upload : list event :=
  [Arrive (RPut abc)] ++ replicate 13 (Turn 0)
  ++ [Arrive (RPutHash abc_digest abc)] ++ replicate 12 (Turn 1)
  ++ [Arrive (RRead abc_hash); Turn 2].

(** An upload named without the [sha256:] prefix takes an acknowledged
    object away while it runs: a read started then fails, although no system
    call failed and nothing was collected. *)
Theorem bare_upload_disturbs :
  let s := exec no_faults "/cas" bare_upload (NewBlobStore empty_world) in
  acknowledged s abc_digest
  ∧ stored "/cas" (s_world s) abc_digest = None
  ∧ s_threads s !! 2 = Some (mkThread (RRead abc_hash) (Return (Err err_not_exist))).
Proof.
  intros s. split_and!.
  - exists 0, (AHash abc_hash). left. exists abc. split; [vm_compute; reflexivity|exact sha256_abc].
  - vm_compute. reflexivity.
  - vm_compute. reflexivity.
Qed.
