(* ===== verification/Fsm.v ===== *)
(** * Fsm: the replicated metadata state machine (consensus.go)

    [metadataFSM] is the state Raft replicates: [Apply] runs one committed log
    entry, [Snapshot]/[Persist]/[Restore] move the whole state between nodes,
    and an entry the node cannot interpret halts it with a fault that is kept
    in memory, in the state and in a file.

    [Apply] is the switch of the source with each command type a definition of
    its own ([apply_acquire_leadership] …).  Their outcome is a [verdict]: one
    of the early returns, a recorded fault, or the new state of the fields the
    branch assigns.  The entry's bytes are the JSON value they denote ([None]:
    not JSON).  The maps of the state are never nil: [newMetadataFSM] and
    [Restore] make them.  The mutexes are not represented: Raft calls [Apply]
    and [Restore] from one goroutine. *)
From S2P Require Import Prelude Text Io Sha256 Json GoTime Capability Manifest.
From stdpp Require Import options.
#[local] Open Scope go_scope.

Definition CommandAcquireLeadership : string := "acquire_leadership".
Definition CommandPutMetadata : string := "put_metadata".
Definition CommandPutMetadataBatch : string := "put_metadata_batch".
Definition CommandCommitSnapshot : string := "commit_snapshot".
Definition CommandActivateCapabilities : string := "activate_capabilities".

Record Command := mkCommand {
  c_ProtocolVersion : N;
  c_CommandVersion : N;
  c_ID : string;
  c_Type : string;
  c_ExpectedRevision : option N;
  c_LeaderEpoch : N;
  c_Payload : RawMessage;
  c_CreatedAt : time;
}.

Record AppliedCommand := mkAppliedCommand { ac_Revision : N; ac_Digest : string }.

Record FSMApplyFault := mkFSMApplyFault { ff_Index : N; ff_Error : string }.

Record MetadataState := mkMetadataState {
  ms_ClusterID : string;
  ms_Revision : N;
  ms_LeaderEpoch : N;
  ms_LeaderOwner : string;
  ms_LastLeadershipTerm : N;
  ms_Values : gmap string RawMessage;
  ms_Snapshots : gmap string Manifest;
  ms_ActiveSnapshot : string;
  ms_ActiveSnapshotIndex : N;
  ms_CapabilityGate : CapabilityGate;
  ms_ApplyFault : option FSMApplyFault;
  ms_AppliedCommands : gmap string AppliedCommand;
}.

Record applyResult := mkApplyResult { ar_Revision : N; ar_LeaderEpoch : N; ar_Error : string }.

Record metadataFSM := mkMetadataFSM {
  fsm_state : MetadataState;
  fsm_capabilities : NodeCapabilities;
  fsm_applyFault : FSMApplyFault;
  fsm_faultPersistError : string;
  fsm_faultFile : string;
}.

#[export] Instance AppliedCommand_eq_dec : EqDecision AppliedCommand.
Proof. solve_decision. Defined.
#[export] Instance FSMApplyFault_eq_dec : EqDecision FSMApplyFault.
Proof. solve_decision. Defined.

Definition no_fault : FSMApplyFault := mkFSMApplyFault 0 "".

Definition newMetadataFSM (clusterID : string) : metadataFSM :=
  mkMetadataFSM
    (mkMetadataState clusterID 0 0 "" 0 ∅ ∅ "" 0 LegacyCapabilityGate None ∅)
    SupportedNodeCapabilities no_fault "" "".

(** ** Field updates *)

Definition set_leadership (epoch term : N) (owner : string) (s : MetadataState) : MetadataState :=
  mkMetadataState (ms_ClusterID s) (ms_Revision s) epoch owner term (ms_Values s) (ms_Snapshots s)
    (ms_ActiveSnapshot s) (ms_ActiveSnapshotIndex s) (ms_CapabilityGate s) (ms_ApplyFault s)
    (ms_AppliedCommands s).

Definition set_values (values : gmap string RawMessage) (s : MetadataState) : MetadataState :=
  mkMetadataState (ms_ClusterID s) (ms_Revision s) (ms_LeaderEpoch s) (ms_LeaderOwner s)
    (ms_LastLeadershipTerm s) values (ms_Snapshots s) (ms_ActiveSnapshot s)
    (ms_ActiveSnapshotIndex s) (ms_CapabilityGate s) (ms_ApplyFault s) (ms_AppliedCommands s).

Definition set_snapshot (hash : string) (manifest : Manifest) (index : N) (s : MetadataState)
    : MetadataState :=
  mkMetadataState (ms_ClusterID s) (ms_Revision s) (ms_LeaderEpoch s) (ms_LeaderOwner s)
    (ms_LastLeadershipTerm s) (ms_Values s) (<[ hash := manifest ]> (ms_Snapshots s)) hash index
    (ms_CapabilityGate s) (ms_ApplyFault s) (ms_AppliedCommands s).

Definition set_gate (gate : CapabilityGate) (s : MetadataState) : MetadataState :=
  mkMetadataState (ms_ClusterID s) (ms_Revision s) (ms_LeaderEpoch s) (ms_LeaderOwner s)
    (ms_LastLeadershipTerm s) (ms_Values s) (ms_Snapshots s) (ms_ActiveSnapshot s)
    (ms_ActiveSnapshotIndex s) gate (ms_ApplyFault s) (ms_AppliedCommands s).

Definition set_state_fault (fault : option FSMApplyFault) (s : MetadataState) : MetadataState :=
  mkMetadataState (ms_ClusterID s) (ms_Revision s) (ms_LeaderEpoch s) (ms_LeaderOwner s)
    (ms_LastLeadershipTerm s) (ms_Values s) (ms_Snapshots s) (ms_ActiveSnapshot s)
    (ms_ActiveSnapshotIndex s) (ms_CapabilityGate s) fault (ms_AppliedCommands s).

(** The two assignments that end a successful [Apply]. *)
Definition commit_command (id digest : string) (s : MetadataState) : MetadataState :=
  let revision := u64_succ (ms_Revision s) in
  mkMetadataState (ms_ClusterID s) revision (ms_LeaderEpoch s) (ms_LeaderOwner s)
    (ms_LastLeadershipTerm s) (ms_Values s) (ms_Snapshots s) (ms_ActiveSnapshot s)
    (ms_ActiveSnapshotIndex s) (ms_CapabilityGate s) (ms_ApplyFault s)
    (<[ id := mkAppliedCommand revision digest ]> (ms_AppliedCommands s)).

Definition set_fsm_state (s : MetadataState) (f : metadataFSM) : metadataFSM :=
  mkMetadataFSM s (fsm_capabilities f) (fsm_applyFault f) (fsm_faultPersistError f) (fsm_faultFile f).

(** ** Decoding the entry and its payloads *)

Definition zero_Command : Command := mkCommand 0 0 "" "" None 0 None zero_time.

Definition dec_Command : json → Command → option Command :=
  dec_struct [
    ("protocol_version", set_field c_ProtocolVersion
      (λ x '(mkCommand _ b c d e f g h), mkCommand x b c d e f g h) (dec_uint u32_bound));
    ("command_version", set_field c_CommandVersion
      (λ x '(mkCommand a _ c d e f g h), mkCommand a x c d e f g h) (dec_uint u32_bound));
    ("command_id", set_field c_ID
      (λ x '(mkCommand a b _ d e f g h), mkCommand a b x d e f g h) dec_string);
    ("command_type", set_field c_Type
      (λ x '(mkCommand a b c _ e f g h), mkCommand a b c x e f g h) dec_string);
    ("expected_revision", set_field c_ExpectedRevision
      (λ x '(mkCommand a b c d _ f g h), mkCommand a b c d x f g h) (dec_ptr 0%N (dec_uint u64_bound)));
    ("leader_epoch", set_field c_LeaderEpoch
      (λ x '(mkCommand a b c d e _ g h), mkCommand a b c d e x g h) (dec_uint u64_bound));
    ("payload", set_field c_Payload
      (λ x '(mkCommand a b c d e f _ h), mkCommand a b c d e f x h) dec_raw);
    ("created_at", set_field c_CreatedAt
      (λ x '(mkCommand a b c d e f g _), mkCommand a b c d e f g x) dec_time)].

Record acquireLeadershipPayload := mkAcquireLeadershipPayload { al_NodeID : string; al_Term : N }.
Definition dec_acquireLeadershipPayload : json → acquireLeadershipPayload → option acquireLeadershipPayload :=
  dec_struct [
    ("node_id", set_field al_NodeID (λ x p, mkAcquireLeadershipPayload x (al_Term p)) dec_string);
    ("term", set_field al_Term (λ x p, mkAcquireLeadershipPayload (al_NodeID p) x) (dec_uint u64_bound))].

Record putMetadataPayload := mkPutMetadataPayload { pm_Key : string; pm_Value : RawMessage }.
Definition dec_putMetadataPayload : json → putMetadataPayload → option putMetadataPayload :=
  dec_struct [
    ("key", set_field pm_Key (λ x p, mkPutMetadataPayload x (pm_Value p)) dec_string);
    ("value", set_field pm_Value (λ x p, mkPutMetadataPayload (pm_Key p) x) dec_raw)].

Record putMetadataBatchPayload := mkPutMetadataBatchPayload { pb_Values : gmap string RawMessage }.
Definition dec_putMetadataBatchPayload : json → putMetadataBatchPayload → option putMetadataBatchPayload :=
  dec_struct [
    ("values", set_field pb_Values (λ x _, mkPutMetadataBatchPayload x) (dec_map None dec_raw))].

Record commitSnapshotPayload := mkCommitSnapshotPayload { cs_Manifest : Manifest }.
Definition dec_commitSnapshotPayload : json → commitSnapshotPayload → option commitSnapshotPayload :=
  dec_struct [
    ("manifest", set_field cs_Manifest (λ x _, mkCommitSnapshotPayload x) dec_Manifest)].

Record activateCapabilitiesPayload := mkActivateCapabilitiesPayload { ap_Gate : CapabilityGate }.
Definition dec_activateCapabilitiesPayload
    : json → activateCapabilitiesPayload → option activateCapabilitiesPayload :=
  dec_struct [
    ("gate", set_field ap_Gate (λ x _, mkActivateCapabilitiesPayload x) dec_CapabilityGate)].

(** [json.Unmarshal] of a raw message: an empty one is no JSON. *)
Definition Unmarshal {A} (dec : json → A → option A) (zero : A) (data : RawMessage) : option A :=
  match data with Some j => dec j zero | None => None end.

(** ** The digest that identifies a command's content *)

Definition commandDigest (command : Command) : result string :=
  match (match c_Payload command with
         | None => Some JNull
         | Some payload => canonical_any payload
         end) with
  | None => Err "canonicalize command payload: %w"
  | Some payload =>
      let canonical := enc_struct [
        field "command_type" (enc_string (c_Type command));
        field_unless (bool_decide (c_ExpectedRevision command = None)) "expected_revision"
          (enc_uint (default 0%N (c_ExpectedRevision command)));
        field "leader_epoch" (enc_uint (c_LeaderEpoch command));
        field "protocol_version" (enc_uint (c_ProtocolVersion command));
        field "command_version" (enc_uint (c_CommandVersion command));
        field_unless (match payload with JNull => true | _ => false end) "payload" payload] in
      Ok ("sha256:" +:+ sha256_hex (json_text canonical))
  end.

(** ** The fault and its file *)

Definition cloneFSMApplyFaultPtr (fault : option FSMApplyFault) : option FSMApplyFault :=
  match fault with
  | None => None
  | Some f => if str_eqb (ff_Error f) "" then None else Some f
  end.

Definition ApplyFault (f : metadataFSM) : FSMApplyFault * bool :=
  (fsm_applyFault f, negb (str_eqb (ff_Error (fsm_applyFault f)) "")).

Definition ApplyFaultPersistError (f : metadataFSM) : string := fsm_faultPersistError f.

Definition enc_FSMApplyFault (f : FSMApplyFault) : json :=
  enc_struct [field "index" (enc_uint (ff_Index f)); field "error" (enc_string (ff_Error f))].

Definition dec_FSMApplyFault : json → FSMApplyFault → option FSMApplyFault :=
  dec_struct [
    ("index", set_field ff_Index (λ x f, mkFSMApplyFault x (ff_Error f)) (dec_uint u64_bound));
    ("error", set_field ff_Error (λ x f, mkFSMApplyFault (ff_Index f) x) dec_string)].

(** The content of the fault file: what its bytes parse to. *)
#[export] Instance json_content : Content (option json) := None.
Abbreviation fio := (io (option json)) (only parsing).
Abbreviation disk := (world (option json)) (only parsing).

Section fsm.
Context (E : env).

(** [tmp.Chmod]: it can fail and changes no content. *)
Definition file_Chmod (path : string) : fio unit := sys E (io_ret tt).

(** The steps after the temporary file was made; [os.Remove] is deferred. *)
Definition write_fault (tmpPath path : string) (fault : FSMApplyFault) : fio unit := (
  do! c := io_try (file_Chmod tmpPath) in
  match c with
  | Err e => run! io_try (file_Close E tmpPath) in io_err e
  | Ok _ =>
      do! w := io_try (file_Write E tmpPath (Some (enc_FSMApplyFault fault)) None) in
      match w with
      | Err e => run! io_try (file_Close E tmpPath) in io_err e
      | Ok _ =>
          do! s := io_try (file_Sync E tmpPath) in
          match s with
          | Err e => run! io_try (file_Close E tmpPath) in io_err e
          | Ok _ =>
              run! file_Close E tmpPath in
              os_Rename E tmpPath path
          end
      end
  end)%io.

Definition persistFSMApplyFault (path : string) (fault : FSMApplyFault) : fio unit := (
  if str_eqb path "" then io_ret tt
  else
    run! os_MkdirAll E (dir_of path) in
    do! tmpPath := os_CreateTemp E (dir_of path) ".fsm-apply-fault-" in
    do! r := io_try (write_fault tmpPath path fault) in
    run! io_try (os_Remove E tmpPath) in
    io_of r)%io.

Definition persist_error (r : result unit) : string := match r with Ok _ => "" | Err e => e end.

Definition recordApplyFaultLocked (index : N) (message : string) (f : metadataFSM) (w : disk)
    : (applyResult * metadataFSM) * disk :=
  let '(f, w) :=
    if str_eqb (ff_Error (fsm_applyFault f)) "" then
      let fault := mkFSMApplyFault index message in
      let state := set_state_fault (cloneFSMApplyFaultPtr (Some fault)) (fsm_state f) in
      let '(r, w) := persistFSMApplyFault (fsm_faultFile f) fault w in
      (mkMetadataFSM state (fsm_capabilities f) fault (persist_error r) (fsm_faultFile f), w)
    else if bool_decide (ms_ApplyFault (fsm_state f) = None) then
      (set_fsm_state (set_state_fault (cloneFSMApplyFaultPtr (Some (fsm_applyFault f))) (fsm_state f)) f, w)
    else (f, w) in
  ((mkApplyResult (ms_Revision (fsm_state f)) (ms_LeaderEpoch (fsm_state f)) message, f), w).

(** [configureApplyFaultFile].  When the file does not decode the caller drops
    the machine; the fields it may have half decoded are not represented. *)
Definition configureApplyFaultFile (path : string) (f : metadataFSM) (w : disk)
    : result metadataFSM * disk :=
  let f := mkMetadataFSM (fsm_state f) (fsm_capabilities f) (fsm_applyFault f)
             (fsm_faultPersistError f) path in
  match read_file E path w with
  | (Err e, w) => (if IsNotExist e then Ok f else Err e, w)
  | (Ok data, w) =>
      (match Unmarshal dec_FSMApplyFault (fsm_applyFault f) data with
       | None => Err "decode persisted FSM apply fault: %w"
       | Some applyFault =>
           let f := mkMetadataFSM (fsm_state f) (fsm_capabilities f) applyFault
                      (fsm_faultPersistError f) path in
           Ok (match cloneFSMApplyFaultPtr (Some applyFault) with
               | None => f
               | Some fault => set_fsm_state (set_state_fault (Some fault) (fsm_state f)) f
               end)
       end, w)
  end.

(** ** One log entry *)

(** How the switch of [Apply] ends: a reply with an error, a recorded fault, or
    the state after the assignments of the branch. *)
Inductive verdict : Type :=
| Reject (e : string)
| Fault (message : string)
| Commit (s : MetadataState).

Definition apply_acquire_leadership (command : Command) (s : MetadataState) : verdict :=
  match Unmarshal dec_acquireLeadershipPayload (mkAcquireLeadershipPayload "" 0) (c_Payload command) with
  | None => Reject "decode acquire leadership payload: %v"
  | Some payload =>
      if str_eqb (al_NodeID payload) "" || (al_Term payload =? 0)%N
      then Reject "acquire leadership requires node_id and term"
      else if (al_Term payload <? ms_LastLeadershipTerm s)%N
      then Reject "leadership term moved backwards"
      else if (ms_LastLeadershipTerm s <? al_Term payload)%N
      then Commit (set_leadership (u64_succ (ms_LeaderEpoch s)) (al_Term payload) (al_NodeID payload) s)
      else Commit s
  end.

(** The fencing test the other branches start with. *)
Definition stale_epoch (command : Command) (s : MetadataState) : bool :=
  negb (c_LeaderEpoch command =? ms_LeaderEpoch s)%N || str_eqb (ms_LeaderOwner s) "".

Definition apply_put_metadata (command : Command) (s : MetadataState) : verdict :=
  if stale_epoch command s then Reject "leader epoch is not current"
  else match Unmarshal dec_putMetadataPayload (mkPutMetadataPayload "" None) (c_Payload command) with
  | None => Reject "decode metadata payload: %v"
  | Some payload =>
      if str_eqb (pm_Key payload) "" then Reject "metadata key is required"
      else Commit (set_values (<[ pm_Key payload := pm_Value payload ]> (ms_Values s)) s)
  end.

Definition apply_put_metadata_batch (command : Command) (s : MetadataState) : verdict :=
  if stale_epoch command s then Reject "leader epoch is not current"
  else match Unmarshal dec_putMetadataBatchPayload (mkPutMetadataBatchPayload ∅) (c_Payload command) with
  | None => Reject "decode metadata batch payload: %v"
  | Some payload =>
      if bool_decide (pb_Values payload = ∅) then Reject "metadata batch values are required"
      else
        match rfold (λ (validated : gmap string RawMessage) '(key, value),
                if str_eqb key "" then Err "metadata key is required"
                else Ok (<[ key := value ]> validated))
              ∅ (map_to_list (pb_Values payload)) with
        | Err e => Reject e
        | Ok validated =>
            Commit (set_values (foldr (λ kv values, <[ kv.1 := kv.2 ]> values) (ms_Values s)
                      (map_to_list validated)) s)
        end
  end.

Definition apply_commit_snapshot (index : N) (gate : CapabilityGate) (command : Command)
    (s : MetadataState) : verdict :=
  if stale_epoch command s then Reject "leader epoch is not current"
  else match Unmarshal dec_commitSnapshotPayload (mkCommitSnapshotPayload zero_Manifest)
               (c_Payload command) with
  | None => Reject "decode snapshot payload: %v"
  | Some payload =>
      let manifest := cs_Manifest payload in
      if negb (str_eqb (g_ClusterID (m_Generation manifest)) (ms_ClusterID s))
      then Reject "snapshot cluster_id is not current"
      else if negb (g_LeaderEpoch (m_Generation manifest) =? ms_LeaderEpoch s)%N
      then Reject "snapshot leader epoch is not current"
      else
        let monotonic :=
          if (CapabilityLevelMonotonicSnapshotSequence <=? cg_MinimumVoterCapability gate)%N then
            let hasPrevious := negb (str_eqb (ms_ActiveSnapshot s) "") in
            let previous := if hasPrevious then ms_Snapshots s !! ms_ActiveSnapshot s
                            else Some zero_Manifest in
            match previous with
            | None => Some (Fault "active snapshot manifest is missing from FSM state")
            | Some previous =>
                match validateNextSnapshotSequence previous hasPrevious
                        (g_Sequence (m_Generation manifest)) with
                | Err e => Some (Reject e)
                | Ok _ => None
                end
            end
          else None in
        match monotonic with
        | Some v => v
        | None =>
            match validateManifestCapability manifest gate with
            | Err e => Fault e
            | Ok _ =>
                match ComputeManifestHash manifest with
                | Err e => Reject e
                | Ok hash =>
                    if negb (str_eqb hash (g_ManifestHash (m_Generation manifest)))
                    then Reject "manifest hash mismatch"
                    else Commit (set_snapshot hash manifest index s)
                end
            end
        end
  end.

Definition apply_activate_capabilities (capabilities : NodeCapabilities) (command : Command)
    (s : MetadataState) : verdict :=
  if stale_epoch command s then Reject "leader epoch is not current"
  else match Unmarshal dec_activateCapabilitiesPayload
               (mkActivateCapabilitiesPayload zero_CapabilityGate) (c_Payload command) with
  | None => Reject "decode capability gate payload: %v"
  | Some payload =>
      let gate := normalizeCapabilityGate (ap_Gate payload) in
      match validateCapabilityGate gate with
      | Err e => Reject e
      | Ok _ =>
          if negb (SupportsGate capabilities gate false)
          then Fault "local node does not support requested capability gate"
          else Commit (set_gate gate s)
      end
  end.

Definition apply_type (index : N) (capabilities : NodeCapabilities) (gate : CapabilityGate)
    (command : Command) (s : MetadataState) : verdict :=
  let type := c_Type command in
  if str_eqb type CommandAcquireLeadership then apply_acquire_leadership command s
  else if str_eqb type CommandPutMetadata then apply_put_metadata command s
  else if str_eqb type CommandPutMetadataBatch then apply_put_metadata_batch command s
  else if str_eqb type CommandCommitSnapshot then apply_commit_snapshot index gate command s
  else if str_eqb type CommandActivateCapabilities
  then apply_activate_capabilities capabilities command s
  else Fault "unsupported command type %q".

(** [Apply] once the entry is decoded, has an id and versions, and no fault is
    recorded: the reply without assignments, the fault, or the new state and
    the digest to remember. *)
Inductive outcome : Type :=
| Reply (r : applyResult)
| FaultWith (message : string)
| Applied (s : MetadataState).

Definition apply_command (index : N) (capabilities : NodeCapabilities) (command : Command)
    (s : MetadataState) : outcome :=
  let reply e := Reply (mkApplyResult (ms_Revision s) (ms_LeaderEpoch s) e) in
  if negb (Supports (nc_Protocol capabilities) (c_ProtocolVersion command))
     || negb (Supports (nc_Command capabilities) (c_CommandVersion command))
  then FaultWith "unsupported command version protocol=%d command=%d"
  else
    let gate := normalizeCapabilityGate (ms_CapabilityGate s) in
    if negb (c_ProtocolVersion command =? cg_ProtocolVersion gate)%N
       || negb (c_CommandVersion command =? cg_CommandVersion gate)%N
    then FaultWith "command version protocol=%d command=%d is not active; active protocol=%d command=%d"
    else match commandDigest command with
    | Err e => reply e
    | Ok digest =>
        match ms_AppliedCommands s !! c_ID command with
        | Some applied =>
            if negb (str_eqb (ac_Digest applied) "") && negb (str_eqb (ac_Digest applied) digest)
            then reply "command_id %q was already applied with a different payload"
            else Reply (mkApplyResult (ac_Revision applied) (ms_LeaderEpoch s) "")
        | None =>
            if match c_ExpectedRevision command with
               | Some expected => negb (expected =? ms_Revision s)%N
               | None => false
               end
            then reply "revision conflict: expected %d, current %d"
            else match apply_type index capabilities gate command s with
            | Reject e => reply e
            | Fault message => FaultWith message
            | Commit s => Applied (commit_command (c_ID command) digest s)
            end
        end
    end.

(** The versions an old leader left at zero. *)
Definition default_versions (command : Command) : Command :=
  mkCommand (or_default (c_ProtocolVersion command) LegacyProtocolVersion)
    (or_default (c_CommandVersion command) LegacyCommandVersion)
    (c_ID command) (c_Type command) (c_ExpectedRevision command) (c_LeaderEpoch command)
    (c_Payload command) (c_CreatedAt command).

Definition Apply (index : N) (data : option json) (f : metadataFSM) (w : disk)
    : (applyResult * metadataFSM) * disk :=
  match Unmarshal dec_Command zero_Command data with
  | None => recordApplyFaultLocked index "decode command: %v" f w
  | Some command =>
      if str_eqb (c_ID command) "" then recordApplyFaultLocked index "command_id is required" f w
      else
        let command := default_versions command in
        let s := fsm_state f in
        if (ApplyFault f).2
        then ((mkApplyResult (ms_Revision s) (ms_LeaderEpoch s)
                 "FSM is halted after apply fault at index %d: %s", f), w)
        else match apply_command index (fsm_capabilities f) command s with
        | Reply r => ((r, f), w)
        | FaultWith message => recordApplyFaultLocked index message f w
        | Applied s => ((mkApplyResult (ms_Revision s) (ms_LeaderEpoch s) "", set_fsm_state s f), w)
        end
  end.

(** ** Snapshots of the state *)

Definition cloneMetadataState (state : MetadataState) : MetadataState :=
  mkMetadataState (ms_ClusterID state) (ms_Revision state) (ms_LeaderEpoch state)
    (ms_LeaderOwner state) (ms_LastLeadershipTerm state) (ms_Values state)
    (cloneManifest <$> ms_Snapshots state) (ms_ActiveSnapshot state) (ms_ActiveSnapshotIndex state)
    (normalizeCapabilityGate (ms_CapabilityGate state)) (cloneFSMApplyFaultPtr (ms_ApplyFault state))
    (ms_AppliedCommands state).

Definition State (f : metadataFSM) : MetadataState := cloneMetadataState (fsm_state f).

Definition Snapshot (f : metadataFSM) : result MetadataState :=
  if (ApplyFault f).2 then Err "FSM apply fault at index %d blocks metadata snapshot: %s"
  else Ok (State f).

(** ** The state as JSON *)

Definition enc_AppliedCommand (a : AppliedCommand) : json :=
  enc_struct [field "revision" (enc_uint (ac_Revision a)); field "digest" (enc_string (ac_Digest a))].

Definition dec_AppliedCommand : json → AppliedCommand → option AppliedCommand :=
  dec_struct [
    ("revision", set_field ac_Revision (λ x a, mkAppliedCommand x (ac_Digest a)) (dec_uint u64_bound));
    ("digest", set_field ac_Digest (λ x a, mkAppliedCommand (ac_Revision a) x) dec_string)].

Definition enc_MetadataState (s : MetadataState) : result json :=
  let? snapshots := enc_gomap enc_Manifest (Some (ms_Snapshots s)) in
  Ok (enc_struct [field "cluster_id" (enc_string (ms_ClusterID s));
    field "revision" (enc_uint (ms_Revision s));
    field "leader_epoch" (enc_uint (ms_LeaderEpoch s));
    field_unless (str_eqb (ms_LeaderOwner s) "") "leader_owner" (enc_string (ms_LeaderOwner s));
    field "last_leadership_term" (enc_uint (ms_LastLeadershipTerm s));
    field_unless (bool_decide (ms_Values s = ∅)) "values" (enc_map enc_raw (ms_Values s));
    field_unless (bool_decide (ms_Snapshots s = ∅)) "snapshots" snapshots;
    field_unless (str_eqb (ms_ActiveSnapshot s) "") "active_snapshot" (enc_string (ms_ActiveSnapshot s));
    field "active_snapshot_index" (enc_uint (ms_ActiveSnapshotIndex s));
    field "capability_gate" (enc_CapabilityGate (ms_CapabilityGate s));
    field_unless (bool_decide (ms_ApplyFault s = None)) "apply_fault"
      (enc_FSMApplyFault (default no_fault (ms_ApplyFault s)));
    field_unless (bool_decide (ms_AppliedCommands s = ∅)) "applied_commands"
      (enc_map enc_AppliedCommand (ms_AppliedCommands s))]).

Definition zero_MetadataState : MetadataState :=
  mkMetadataState "" 0 0 "" 0 ∅ ∅ "" 0 zero_CapabilityGate None ∅.

(** The struct [UnmarshalJSON] decodes into: the fields of the state, with the
    applied commands kept raw. *)
Definition dec_raw_state : json → MetadataState * RawMessage → option (MetadataState * RawMessage) :=
  let get {A} (g : MetadataState → A) (p : MetadataState * RawMessage) := g p.1 in
  let put {A} (u : A → MetadataState → MetadataState) (x : A) (p : MetadataState * RawMessage) :=
    (u x p.1, p.2) in
  dec_struct [
    ("cluster_id", set_field (get ms_ClusterID)
      (put (λ x '(mkMetadataState _ b c d e f g h i j k l), mkMetadataState x b c d e f g h i j k l))
      dec_string);
    ("revision", set_field (get ms_Revision)
      (put (λ x '(mkMetadataState a _ c d e f g h i j k l), mkMetadataState a x c d e f g h i j k l))
      (dec_uint u64_bound));
    ("leader_epoch", set_field (get ms_LeaderEpoch)
      (put (λ x '(mkMetadataState a b _ d e f g h i j k l), mkMetadataState a b x d e f g h i j k l))
      (dec_uint u64_bound));
    ("leader_owner", set_field (get ms_LeaderOwner)
      (put (λ x '(mkMetadataState a b c _ e f g h i j k l), mkMetadataState a b c x e f g h i j k l))
      dec_string);
    ("last_leadership_term", set_field (get ms_LastLeadershipTerm)
      (put (λ x '(mkMetadataState a b c d _ f g h i j k l), mkMetadataState a b c d x f g h i j k l))
      (dec_uint u64_bound));
    ("values", set_field (get ms_Values)
      (put (λ x '(mkMetadataState a b c d e _ g h i j k l), mkMetadataState a b c d e x g h i j k l))
      (dec_map None dec_raw));
    ("snapshots", set_field (get ms_Snapshots)
      (put (λ x '(mkMetadataState a b c d e f _ h i j k l), mkMetadataState a b c d e f x h i j k l))
      (dec_map zero_Manifest dec_Manifest));
    ("active_snapshot", set_field (get ms_ActiveSnapshot)
      (put (λ x '(mkMetadataState a b c d e f g _ i j k l), mkMetadataState a b c d e f g x i j k l))
      dec_string);
    ("active_snapshot_index", set_field (get ms_ActiveSnapshotIndex)
      (put (λ x '(mkMetadataState a b c d e f g h _ j k l), mkMetadataState a b c d e f g h x j k l))
      (dec_uint u64_bound));
    ("capability_gate", set_field (get ms_CapabilityGate)
      (put (λ x '(mkMetadataState a b c d e f g h i _ k l), mkMetadataState a b c d e f g h i x k l))
      dec_CapabilityGate);
    ("apply_fault", set_field (get ms_ApplyFault)
      (put (λ x '(mkMetadataState a b c d e f g h i j _ l), mkMetadataState a b c d e f g h i j x l))
      (dec_ptr no_fault dec_FSMApplyFault));
    ("applied_commands", set_field snd (λ x p, (p.1, x)) dec_raw)].

(** [MetadataState.UnmarshalJSON]: applied commands of the old form are
    revisions without digest. *)
Definition UnmarshalJSON_state (j : json) : option MetadataState :=
  match dec_raw_state j (zero_MetadataState, None) with
  | None => None
  | Some (s, raw) =>
      let finish (applied : gmap string AppliedCommand) : MetadataState :=
        mkMetadataState (ms_ClusterID s) (ms_Revision s) (ms_LeaderEpoch s) (ms_LeaderOwner s)
          (ms_LastLeadershipTerm s) (ms_Values s) (ms_Snapshots s) (ms_ActiveSnapshot s)
          (ms_ActiveSnapshotIndex s) (normalizeCapabilityGate (ms_CapabilityGate s))
          (cloneFSMApplyFaultPtr (ms_ApplyFault s)) applied in
      match raw with
      | None | Some JNull => Some (finish ∅)
      | Some applied =>
          match dec_map (mkAppliedCommand 0 "") dec_AppliedCommand applied ∅ with
          | Some applied => Some (finish applied)
          | None =>
              match dec_map 0%N (dec_uint u64_bound) applied ∅ with
              | Some legacy => Some (finish ((λ revision, mkAppliedCommand revision "") <$> legacy))
              | None => None
              end
          end
      end
  end.

(** [metadataSnapshot.Persist]: [Encode] writes the state to the sink of Raft,
    which is closed, or cancelled when encoding or writing fails. *)
Inductive sink_end : Type := SinkClosed (written : json) | SinkCancelled.
Definition Persist (write_sink close_sink : json → result unit) (s : MetadataState)
    : result unit * sink_end :=
  match enc_MetadataState s with
  | Err e => (Err e, SinkCancelled)
  | Ok data =>
      match write_sink data with
      | Err e => (Err e, SinkCancelled)
      | Ok _ => (close_sink data, SinkClosed data)
      end
  end.

Definition Restore (data : option json) (f : metadataFSM) (w : disk) : (result unit * metadataFSM) * disk :=
  match (match data with Some j => UnmarshalJSON_state j | None => None end) with
  | None => ((Err "decode metadata snapshot", f), w)
  | Some state =>
      if negb (str_eqb (ms_ClusterID state) (ms_ClusterID (fsm_state f)))
      then ((Err "snapshot cluster_id %q does not match configured cluster_id %q", f), w)
      else
        let state := set_gate (normalizeCapabilityGate (ms_CapabilityGate state))
          (set_state_fault (cloneFSMApplyFaultPtr (ms_ApplyFault state)) state) in
        match ms_ApplyFault state with
        | Some fault =>
            let '(r, w) := persistFSMApplyFault (fsm_faultFile f) fault w in
            ((Ok tt, mkMetadataFSM state (fsm_capabilities f) fault (persist_error r)
                       (fsm_faultFile f)), w)
        | None =>
            let '(fault, faulted) := ApplyFault f in
            let state := if faulted then set_state_fault (cloneFSMApplyFaultPtr (Some fault)) state
                         else state in
            ((Ok tt, set_fsm_state state f), w)
        end
  end.

End fsm.
