(* ===== verification/FsmProofs.v ===== *)
(** * FsmProofs: lemmas on the metadata state machine

    The shape of one [Apply] ([Apply_cases]), what the branches of its switch
    may change ([apply_type_Commit]), runs of a log, and the invariant
    [state_ok] of the states a log reaches. *)
From S2P Require Import Prelude Text Io Sha256 Json GoTime Capability Manifest Fsm.
From stdpp Require Import options.

(** Case analysis on an innermost match of the goal. *)
Ltac split_match :=
  match goal with
  | |- context [match ?x with _ => _ end] =>
      lazymatch x with
      | rfold _ _ _ => destruct x eqn:?
      | context [match _ with _ => _ end] => fail
      | _ => destruct x eqn:?
      end;
      try discriminate
  end.

(** ** Faults *)

Definition faulted (f : metadataFSM) : Prop := ff_Error (fsm_applyFault f) ≠ "".

#[export] Instance faulted_dec f : Decision (faulted f).
Proof. unfold faulted. apply _. Defined.

(** The state without the copy of the fault. *)
Definition data_of (f : metadataFSM) : MetadataState := set_state_fault None (fsm_state f).

(** Everything a fault leaves alone. *)
Definition only_fault (f f' : metadataFSM) : Prop :=
  data_of f' = data_of f ∧ fsm_capabilities f' = fsm_capabilities f ∧ fsm_faultFile f' = fsm_faultFile f.

Lemma ApplyFault_faulted f : (ApplyFault f).2 = true ↔ faulted f.
Proof. unfold ApplyFault, faulted. simpl. rewrite negb_true_iff. apply bool_decide_eq_false. Qed.

Lemma ApplyFault_not_faulted f : (ApplyFault f).2 = false ↔ ¬ faulted f.
Proof. rewrite <- ApplyFault_faulted. by destruct (ApplyFault f).2. Qed.

Lemma data_of_Revision f f' : data_of f' = data_of f → ms_Revision (fsm_state f') = ms_Revision (fsm_state f).
Proof. intros H. exact (f_equal ms_Revision H). Qed.

Lemma data_of_LeaderEpoch f f' :
  data_of f' = data_of f → ms_LeaderEpoch (fsm_state f') = ms_LeaderEpoch (fsm_state f).
Proof. intros H. exact (f_equal ms_LeaderEpoch H). Qed.

#[export] Hint Resolve data_of_Revision data_of_LeaderEpoch : clusterha.

Lemma record_fault E index message f w r f' w' :
  recordApplyFaultLocked E index message f w = ((r, f'), w') → message ≠ "" →
  ar_Error r = message ∧ ar_Revision r = ms_Revision (fsm_state f)
  ∧ ar_LeaderEpoch r = ms_LeaderEpoch (fsm_state f)
  ∧ only_fault f f' ∧ faulted f'
  ∧ (faulted f → fsm_applyFault f' = fsm_applyFault f ∧ w' = w)
  ∧ (¬ faulted f → fsm_applyFault f' = mkFSMApplyFault index message).
Proof.
  unfold recordApplyFaultLocked, faulted, only_fault. intros H Hm.
  destruct (str_eqb (ff_Error (fsm_applyFault f)) "") eqn:Hf; bool_simpl.
  - destruct (persistFSMApplyFault _ _ _ _) as [r0 w0]. simplify_eq/=. split_and!; naive_solver.
  - case_bool_decide; simplify_eq/=; split_and!; naive_solver.
Qed.

(** ** One entry *)

(** What [Apply] does with an entry, by the way it returns. *)
Inductive applied (E : env) (index : N) (f : metadataFSM) (w : disk)
    : applyResult → metadataFSM → disk → Prop :=
| applied_fault r f' w' :
    ar_Error r ≠ "" → ar_Revision r = ms_Revision (fsm_state f) →
    ar_LeaderEpoch r = ms_LeaderEpoch (fsm_state f) →
    only_fault f f' → faulted f' →
    (faulted f → fsm_applyFault f' = fsm_applyFault f ∧ w' = w) →
    (¬ faulted f → fsm_applyFault f' = mkFSMApplyFault index (ar_Error r)) →
    applied E index f w r f' w'
| applied_reply command r :
    ¬ faulted f → c_ID command ≠ "" →
    apply_command index (fsm_capabilities f) command (fsm_state f) = Reply r →
    applied E index f w r f w
| applied_commit command s :
    ¬ faulted f → c_ID command ≠ "" →
    apply_command index (fsm_capabilities f) command (fsm_state f) = Applied s →
    applied E index f w (mkApplyResult (ms_Revision s) (ms_LeaderEpoch s) "") (set_fsm_state s f) w.

(** Reasons for a fault are not empty. *)
Lemma validateManifestCapability_message m g e : validateManifestCapability m g = Err e → e ≠ "".
Proof.
  unfold validateManifestCapability. destruct (negb _); [by intros [= <-]|].
  induction (map_to_list (datasets m)) as [|[n d] l IH]; simpl; [done|].
  destruct (negb _); simpl; [by intros [= <-]|done].
Qed.

Lemma apply_type_Fault index caps gate command s message :
  apply_type index caps gate command s = Fault message → message ≠ "".
Proof.
  unfold apply_type, apply_acquire_leadership, apply_put_metadata, apply_put_metadata_batch,
    apply_commit_snapshot, apply_activate_capabilities.
  repeat split_match; intros [= <-]; first [done|by eapply validateManifestCapability_message].
Qed.

Lemma apply_command_FaultWith index caps command s message :
  apply_command index caps command s = FaultWith message → message ≠ "".
Proof.
  unfold apply_command. intros H. revert H.
  destruct (_ || _); [by intros [= <-]|]. destruct (_ || _); [by intros [= <-]|].
  destruct (commandDigest command); [|done]. destruct (ms_AppliedCommands s !! _); [by destruct (_ && _)|].
  destruct (match c_ExpectedRevision command with Some _ => _ | None => _ end); [done|].
  destruct (apply_type _ _ _ _ _) eqn:Ht; [done| |done]. intros [= <-]. by eapply apply_type_Fault.
Qed.

Lemma Apply_cases E index data f w r f' w' :
  Apply E index data f w = ((r, f'), w') → applied E index f w r f' w'.
Proof.
  assert (∀ message, message ≠ "" →
    recordApplyFaultLocked E index message f w = ((r, f'), w') → applied E index f w r f' w') as Hrec.
  { intros m Hm H. apply record_fault in H as (Hr & H1 & H2 & H3 & H4 & H5 & H6); [|done].
    subst m. by apply applied_fault. }
  unfold Apply. destruct (Unmarshal dec_Command zero_Command data) as [command|]; [|by apply Hrec].
  destruct (str_eqb (c_ID command) "") eqn:Hid; [by apply Hrec|]. bool_simpl.
  destruct (ApplyFault f).2 eqn:Hf.
  { intros [= <- <- <-]. apply ApplyFault_faulted in Hf.
    apply applied_fault; unfold only_fault; naive_solver. }
  apply ApplyFault_not_faulted in Hf.
  destruct (apply_command _ _ _ _) as [r0|m|s] eqn:Hc.
  - intros [= <- <- <-]. by apply (applied_reply _ _ _ _ (default_versions command)).
  - apply Hrec. by eapply apply_command_FaultWith.
  - intros [= <- <- <-]. by apply (applied_commit _ _ _ _ (default_versions command)).
Qed.

(** ** What a committed command changes *)

Lemma foldr_insert_union {V} (l : list (string * V)) (m : gmap string V) :
  foldr (λ kv values, <[ kv.1 := kv.2 ]> values) m l = list_to_map l ∪ m.
Proof.
  induction l as [|[k v] l IH]; simpl; [by rewrite map_empty_union|]. by rewrite IH, insert_union_l.
Qed.

Lemma validated_values (m : gmap string RawMessage) r :
  rfold (λ (validated : gmap string RawMessage) '(key, value),
      if str_eqb key "" then Err "metadata key is required" else Ok (<[ key := value ]> validated))
    ∅ (map_to_list m) = r →
  r = if bool_decide (m !! "" = None) then Ok m else Err "metadata key is required".
Proof.
  intros <-. set (step := λ (validated : gmap string RawMessage) '(key, value), _).
  assert (∀ l acc, NoDup l.*1 → (∀ k, k ∈ l.*1 → acc !! k = None) →
    rfold step acc l = if bool_decide ("" ∈ l.*1) then Err "metadata key is required"
                       else Ok (list_to_map l ∪ acc)) as Hgen.
  { induction l as [|[k v] l IH]; intros acc Hnd Hacc.
    - simpl. by rewrite map_empty_union.
    - rewrite fmap_cons in *. apply NoDup_cons in Hnd as [Hk Hnd]. cbn [rfold step fst] in *. destruct (decide (k = "")) as [->|Hne].
      { rewrite str_eqb_refl. cbn [rbind]. rewrite bool_decide_eq_true_2 by (by left). done. }
      rewrite str_eqb_neq by done. cbn [rbind]. rewrite IH; [|done|].
      2:{ intros k' Hk'. rewrite lookup_insert_ne by (intros ->; done). apply Hacc. by right. }
      rewrite (bool_decide_ext ("" ∈ l.*1) ("" ∈ k :: l.*1)) by (rewrite elem_of_cons; naive_solver).
      destruct (bool_decide ("" ∈ k :: l.*1)); [done|]. f_equal.
      rewrite <- insert_union_r, insert_union_l; [done|]. by apply not_elem_of_list_to_map. }
  rewrite Hgen; [|apply NoDup_fst_map_to_list|intros; apply lookup_empty].
  rewrite list_to_map_to_list, map_union_empty.
  destruct (m !! "") as [v|] eqn:Hm.
  - rewrite bool_decide_eq_true_2, bool_decide_eq_false_2; [done|done|].
    apply list_elem_of_fmap. exists ("", v). split; [done|]. by apply elem_of_map_to_list.
  - rewrite bool_decide_eq_false_2, bool_decide_eq_true_2; [done|done|].
    intros ([k v] & Hk & Hkv)%list_elem_of_fmap. apply elem_of_map_to_list in Hkv. simpl in Hk. congruence.
Qed.

(** The sequence a new snapshot must carry when the gate demands it. *)
Definition next_sequence (s : MetadataState) (sequence : N) : Prop :=
  if str_eqb (ms_ActiveSnapshot s) "" then sequence = 1%N
  else ∃ previous, ms_Snapshots s !! ms_ActiveSnapshot s = Some previous
       ∧ g_Sequence (m_Generation previous) ≠ u64_max
       ∧ sequence = u64_succ (g_Sequence (m_Generation previous)).

Definition fresh_epoch (command : Command) (s : MetadataState) : Prop :=
  c_LeaderEpoch command = ms_LeaderEpoch s ∧ ms_LeaderOwner s ≠ "".

Lemma stale_epoch_spec command s : stale_epoch command s = false ↔ fresh_epoch command s.
Proof.
  unfold stale_epoch, fresh_epoch. rewrite orb_false_iff, negb_false_iff, N.eqb_eq.
  unfold str_eqb. by rewrite bool_decide_eq_false.
Qed.

(** What a committed command does, from its decoded payload, field by field. *)
Inductive effect (index : N) (caps : NodeCapabilities) (gate : CapabilityGate) (command : Command)
    (s : MetadataState) : MetadataState → Prop :=
| effect_new_leader p :
    c_Type command = CommandAcquireLeadership →
    Unmarshal dec_acquireLeadershipPayload (mkAcquireLeadershipPayload "" 0) (c_Payload command) = Some p →
    al_NodeID p ≠ "" → (ms_LastLeadershipTerm s < al_Term p < u64_bound)%N →
    effect index caps gate command s
      (mkMetadataState (ms_ClusterID s) (ms_Revision s) (u64_succ (ms_LeaderEpoch s)) (al_NodeID p) (al_Term p)
        (ms_Values s) (ms_Snapshots s) (ms_ActiveSnapshot s) (ms_ActiveSnapshotIndex s) (ms_CapabilityGate s)
        (ms_ApplyFault s) (ms_AppliedCommands s))
| effect_same_leader p :
    c_Type command = CommandAcquireLeadership →
    Unmarshal dec_acquireLeadershipPayload (mkAcquireLeadershipPayload "" 0) (c_Payload command) = Some p →
    al_NodeID p ≠ "" → al_Term p ≠ 0%N → al_Term p = ms_LastLeadershipTerm s →
    effect index caps gate command s s
| effect_put p :
    c_Type command = CommandPutMetadata → fresh_epoch command s →
    Unmarshal dec_putMetadataPayload (mkPutMetadataPayload "" None) (c_Payload command) = Some p →
    pm_Key p ≠ "" →
    effect index caps gate command s
      (mkMetadataState (ms_ClusterID s) (ms_Revision s) (ms_LeaderEpoch s) (ms_LeaderOwner s) (ms_LastLeadershipTerm s)
        (<[ pm_Key p := pm_Value p ]> (ms_Values s)) (ms_Snapshots s) (ms_ActiveSnapshot s) (ms_ActiveSnapshotIndex s)
        (ms_CapabilityGate s) (ms_ApplyFault s) (ms_AppliedCommands s))
| effect_batch p :
    c_Type command = CommandPutMetadataBatch → fresh_epoch command s →
    Unmarshal dec_putMetadataBatchPayload (mkPutMetadataBatchPayload ∅) (c_Payload command) = Some p →
    pb_Values p ≠ ∅ → pb_Values p !! "" = None →
    effect index caps gate command s
      (mkMetadataState (ms_ClusterID s) (ms_Revision s) (ms_LeaderEpoch s) (ms_LeaderOwner s) (ms_LastLeadershipTerm s)
        (pb_Values p ∪ ms_Values s) (ms_Snapshots s) (ms_ActiveSnapshot s) (ms_ActiveSnapshotIndex s)
        (ms_CapabilityGate s) (ms_ApplyFault s) (ms_AppliedCommands s))
| effect_snapshot p manifest hash :
    c_Type command = CommandCommitSnapshot → fresh_epoch command s →
    Unmarshal dec_commitSnapshotPayload (mkCommitSnapshotPayload zero_Manifest) (c_Payload command) = Some p →
    manifest = cs_Manifest p →
    g_ClusterID (m_Generation manifest) = ms_ClusterID s →
    g_LeaderEpoch (m_Generation manifest) = ms_LeaderEpoch s →
    ((CapabilityLevelMonotonicSnapshotSequence ≤ cg_MinimumVoterCapability gate)%N →
     next_sequence s (g_Sequence (m_Generation manifest))) →
    validateManifestCapability manifest gate = Ok tt →
    ComputeManifestHash manifest = Ok hash → g_ManifestHash (m_Generation manifest) = hash →
    effect index caps gate command s
      (mkMetadataState (ms_ClusterID s) (ms_Revision s) (ms_LeaderEpoch s) (ms_LeaderOwner s) (ms_LastLeadershipTerm s)
        (ms_Values s) (<[ hash := manifest ]> (ms_Snapshots s)) hash index
        (ms_CapabilityGate s) (ms_ApplyFault s) (ms_AppliedCommands s))
| effect_gate p gate' :
    c_Type command = CommandActivateCapabilities → fresh_epoch command s →
    Unmarshal dec_activateCapabilitiesPayload (mkActivateCapabilitiesPayload zero_CapabilityGate) (c_Payload command) = Some p →
    gate' = normalizeCapabilityGate (ap_Gate p) → validateCapabilityGate gate' = Ok tt →
    SupportsGate caps gate' false = true →
    effect index caps gate command s
      (mkMetadataState (ms_ClusterID s) (ms_Revision s) (ms_LeaderEpoch s) (ms_LeaderOwner s) (ms_LastLeadershipTerm s)
        (ms_Values s) (ms_Snapshots s) (ms_ActiveSnapshot s) (ms_ActiveSnapshotIndex s) gate'
        (ms_ApplyFault s) (ms_AppliedCommands s)).

Lemma acquire_term_bound payload p :
  Unmarshal dec_acquireLeadershipPayload (mkAcquireLeadershipPayload "" 0) payload = Some p →
  (al_Term p < u64_bound)%N.
Proof.
  unfold Unmarshal. destruct payload as [j|]; [|done].
  apply (dec_struct_inv (λ p, (al_Term p < u64_bound)%N)); [|done].
  repeat constructor; intros j' s s' Hs; unfold set_field; simpl.
  - destruct (dec_string _ _); simpl; [by intros [= <-]|done].
  - destruct (dec_uint _ _ _) eqn:Hu; simpl; [|done]. intros [= <-]. simpl. by eapply dec_uint_bound.
Qed.

Lemma sequence_test s sequence :
  let hasPrevious := negb (str_eqb (ms_ActiveSnapshot s) "") in
  match (if hasPrevious then ms_Snapshots s !! ms_ActiveSnapshot s else Some zero_Manifest) with
  | None => False
  | Some previous => validateNextSnapshotSequence previous hasPrevious sequence = Ok tt
  end → next_sequence s sequence.
Proof.
  unfold next_sequence. destruct (str_eqb (ms_ActiveSnapshot s) ""); simpl.
  - unfold validateNextSnapshotSequence. simpl. destruct (negb _) eqn:H; [done|]. by bool_simpl.
  - destruct (_ !! _) as [previous|]; [|done]. unfold validateNextSnapshotSequence. simpl.
    intros H. exists previous. split_guards; done.
Qed.

Lemma apply_type_Commit index caps gate command s s' :
  apply_type index caps gate command s = Commit s' → effect index caps gate command s s'.
Proof.
  unfold apply_type.
  repeat match goal with
  | |- context [if str_eqb ?a ?b then _ else _] => destruct (str_eqb a b) eqn:?
  end; bool_simpl; [..|done].
  - unfold apply_acquire_leadership. destruct (Unmarshal _ _ _) as [p|] eqn:Hu; [|done].
    pose proof (acquire_term_bound _ _ Hu). destruct (_ || _) eqn:Hz; [done|]. bool_simpl.
    destruct (_ <? _)%N eqn:Hlt; [done|]. destruct (ms_LastLeadershipTerm s <? _)%N eqn:Hgt; bool_simpl;
      intros [= <-]; [by eapply effect_new_leader|]. eapply effect_same_leader; [done|exact Hu|done|lia|lia].
  - unfold apply_put_metadata. destruct (stale_epoch _ _) eqn:He; [done|]. apply stale_epoch_spec in He.
    destruct (Unmarshal _ _ _) as [p|] eqn:Hu; [|done]. destruct (str_eqb _ _) eqn:Hk; [done|].
    intros [= <-]. bool_simpl. by apply (effect_put _ _ _ _ _ p).
  - unfold apply_put_metadata_batch. destruct (stale_epoch _ _) eqn:He; [done|].
    apply stale_epoch_spec in He. destruct (Unmarshal _ _ _) as [p|] eqn:Hu; [|done].
    case_bool_decide as Hn; [done|]. destruct (rfold _ _ _) as [v|] eqn:Hr; [|done].
    apply validated_values in Hr. intros [= <-]. case_bool_decide as Hk; [|done].
    injection Hr as ->. rewrite foldr_insert_union, list_to_map_to_list. by apply (effect_batch _ _ _ _ _ p).
  - unfold apply_commit_snapshot. destruct (stale_epoch _ _) eqn:He; [done|].
    apply stale_epoch_spec in He. destruct (Unmarshal _ _ _) as [p|] eqn:Hu; [|done].
    destruct (negb _) eqn:Hc; [done|]. destruct (negb (_ =? _)%N) eqn:Hl; [done|]. bool_simpl.
    set (monotonic := if (_ <=? _)%N then _ else None).
    assert (monotonic = None → (CapabilityLevelMonotonicSnapshotSequence ≤ cg_MinimumVoterCapability gate)%N →
      next_sequence s (g_Sequence (m_Generation (cs_Manifest p)))) as Hm.
    { unfold monotonic. intros H Hle. apply N.leb_le in Hle. rewrite Hle in H.
      apply sequence_test. cbv zeta. destruct (if negb _ then _ else _); [|done].
      by destruct (validateNextSnapshotSequence _ _ _) as [[]|]. }
    destruct monotonic as [v|] eqn:Hmono.
    { subst monotonic. revert Hmono. by repeat split_match; intros [= <-]. }
    destruct (validateManifestCapability _ _) as [[]|] eqn:Hv; [|done].
    destruct (ComputeManifestHash _) as [hash|] eqn:Hh; [|done].
    destruct (negb (str_eqb hash _)) eqn:Hhash; [done|]. bool_simpl. intros [= <-]. by apply (effect_snapshot _ _ _ _ _ p); auto.
  - unfold apply_activate_capabilities. destruct (stale_epoch _ _) eqn:He; [done|].
    apply stale_epoch_spec in He. destruct (Unmarshal _ _ _) as [p|] eqn:Hu; [|done].
    destruct (validateCapabilityGate _) as [[]|] eqn:Hv; [|done].
    destruct (negb _) eqn:Hs; [done|]. bool_simpl. intros [= <-].
    by apply (effect_gate _ _ _ _ _ p).
Qed.

Lemma apply_command_Applied index caps command s s' :
  apply_command index caps command s = Applied s' →
  let gate := normalizeCapabilityGate (ms_CapabilityGate s) in
  ∃ digest s0, s' = commit_command (c_ID command) digest s0
  ∧ effect index caps gate command s s0
  ∧ commandDigest command = Ok digest ∧ ms_AppliedCommands s !! c_ID command = None
  ∧ (∀ expected, c_ExpectedRevision command = Some expected → expected = ms_Revision s)
  ∧ c_ProtocolVersion command = cg_ProtocolVersion gate
  ∧ c_CommandVersion command = cg_CommandVersion gate.
Proof.
  unfold apply_command. cbv zeta. intros H. revert H.
  destruct (_ || _); [done|]. destruct (_ || _) eqn:Hg; [done|]. bool_simpl.
  destruct (commandDigest command) as [digest|]; [|done].
  destruct (ms_AppliedCommands s !! _) eqn:Ha; [by destruct (_ && _)|].
  destruct (match c_ExpectedRevision command with Some _ => _ | None => _ end) eqn:He; [done|].
  destruct (apply_type _ _ _ _ _) as [| |s0] eqn:Ht; [done..|]. intros [= <-].
  exists digest, s0. split_and!; try done; [by apply apply_type_Commit|].
  intros expected Hexp. rewrite Hexp in He. by bool_simpl.
Qed.

(** The branch that committed. *)
Lemma apply_command_branch index caps command s s' :
  apply_command index caps command s = Applied s' →
  ∃ digest s0, s' = commit_command (c_ID command) digest s0
  ∧ apply_type index caps (normalizeCapabilityGate (ms_CapabilityGate s)) command s = Commit s0
  ∧ (∀ expected, c_ExpectedRevision command = Some expected → expected = ms_Revision s)
  ∧ ms_AppliedCommands s !! c_ID command = None.
Proof.
  unfold apply_command. cbv zeta. intros H. revert H.
  destruct (_ || _); [done|]. destruct (_ || _) eqn:Hg; [done|]. bool_simpl.
  destruct (commandDigest command) as [digest|]; [|done].
  destruct (ms_AppliedCommands s !! _) eqn:Ha; [by destruct (_ && _)|].
  destruct (match c_ExpectedRevision command with Some _ => _ | None => _ end) eqn:He; [done|].
  destruct (apply_type _ _ _ _ _) as [| |s0] eqn:Ht; [done..|]. intros [= <-].
  exists digest, s0. split_and!; try done. intros expected Hexp. rewrite Hexp in He. by bool_simpl.
Qed.

(** The digest of a stored command is never empty. *)
Lemma commandDigest_nonempty command digest : commandDigest command = Ok digest → digest ≠ "".
Proof.
  unfold commandDigest. destruct (match c_Payload command with Some p => canonical_any p | None => Some JNull end);
    [|done]. intros [= <-] H. discriminate H.
Qed.

Lemma effect_keeps index caps gate command s s' :
  effect index caps gate command s s' →
  ms_ClusterID s' = ms_ClusterID s ∧ ms_Revision s' = ms_Revision s
  ∧ ms_AppliedCommands s' = ms_AppliedCommands s ∧ ms_ApplyFault s' = ms_ApplyFault s.
Proof. by destruct 1. Qed.

(** ** Running a log *)

(** A log entry: its index and its bytes. *)
Definition log_entry : Type := N * option json.

Section run.
Context (E : env).

Fixpoint run (log : list log_entry) (f : metadataFSM) (w : disk) : metadataFSM * disk :=
  match log with
  | [] => (f, w)
  | (index, data) :: log =>
      let '((_, f), w) := Apply E index data f w in run log f w
  end.

Lemma run_app log1 log2 f w :
  run (log1 ++ log2) f w = let '(f, w) := run log1 f w in run log2 f w.
Proof.
  revert f w. induction log1 as [|[i d] log1 IH]; intros f w; [done|]. cbn [app run].
  destruct (Apply E i d f w) as [[r f1] w1]. apply IH.
Qed.

(** A relation between a machine and each later one, from single entries. *)
Lemma run_ind (R : metadataFSM → metadataFSM → Prop) log f w :
  (∀ f, R f f) → (∀ f1 f2 f3, R f1 f2 → R f2 f3 → R f1 f3) →
  (∀ index data f w r f' w', (index, data) ∈ log → Apply E index data f w = ((r, f'), w') → R f f') →
  R f (run log f w).1.
Proof.
  intros Hrefl Htrans. revert f w. induction log as [|[i d] log IH]; intros f w Hstep; [done|].
  cbn [run]. destruct (Apply E i d f w) as [[r f1] w1] eqn:Ha.
  eapply Htrans; [eapply Hstep; [by left|exact Ha]|]. apply IH. intros; eapply Hstep; [by right|done].
Qed.

Lemma Apply_caps index data f w r f' w' :
  Apply E index data f w = ((r, f'), w') →
  fsm_capabilities f' = fsm_capabilities f ∧ fsm_faultFile f' = fsm_faultFile f.
Proof. intros H. apply Apply_cases in H as [??????[_ [??]]|?|?]; auto. Qed.

(** A fault stays, and nothing but the fault of the state changes under it. *)
Lemma Apply_faulted index data f w r f' w' :
  faulted f → Apply E index data f w = ((r, f'), w') →
  ar_Error r ≠ "" ∧ only_fault f f' ∧ fsm_applyFault f' = fsm_applyFault f ∧ w' = w.
Proof. intros Hf H. apply Apply_cases in H as [??????? _ Hs _|?|?]; try done. by destruct (Hs Hf). Qed.

Lemma Apply_not_faulted index data f w r f' w' :
  Apply E index data f w = ((r, f'), w') → ¬ faulted f' → ¬ faulted f.
Proof.
  intros H Hn Hf. destruct (Apply_faulted _ _ _ _ _ _ _ Hf H) as (_ & _ & Hfault & _).
  apply Hn. unfold faulted. by rewrite Hfault.
Qed.

Lemma run_not_faulted log f w : ¬ faulted (run log f w).1 → ¬ faulted f.
Proof.
  apply (run_ind (λ f f', ¬ faulted f' → ¬ faulted f)); [done|auto|].
  intros index data f1 w1 r f2 w2 _. apply Apply_not_faulted.
Qed.

(** No log changes anything under a fault. *)
Lemma run_faulted log f w :
  faulted f → faulted (run log f w).1 ∧ data_of (run log f w).1 = data_of f
    ∧ fsm_applyFault (run log f w).1 = fsm_applyFault f ∧ (run log f w).2 = w.
Proof.
  revert f w. induction log as [|[i d] log IH]; intros f w Hf; [done|]. cbn [run].
  destruct (Apply E i d f w) as [[r f1] w1] eqn:Ha.
  destruct (Apply_faulted i d f w r f1 w1 Hf Ha) as (_ & [Hd _] & Hft & ->).
  destruct (IH f1 w) as (H0 & H1 & H2 & H3); [by unfold faulted; rewrite Hft|]. split_and!; [done|congruence..].
Qed.

(** Applied commands are never forgotten. *)
Definition remembers (f f' : metadataFSM) : Prop :=
  ∀ id a, ms_AppliedCommands (fsm_state f) !! id = Some a →
    ms_AppliedCommands (fsm_state f') !! id = Some a.

Lemma Apply_remembers index data f w r f' w' :
  Apply E index data f w = ((r, f'), w') → remembers f f'.
Proof.
  intros H id a Ha. apply Apply_cases in H as [r0 f0 w0 _ _ _ [Hd _] _ _ _|?|command s _ _ Hc]; [|done|].
  - pose proof (f_equal ms_AppliedCommands Hd) as Heq. simpl in Heq. by rewrite Heq.
  - apply apply_command_Applied in Hc as (digest & s0 & -> & He & _ & Hfresh & _). simpl.
    apply effect_keeps in He as (_ & _ & Hap & _). rewrite Hap, lookup_insert_ne; [done|congruence].
Qed.

Lemma run_remembers log f w : remembers f (run log f w).1.
Proof.
  apply run_ind; [by intros ???|by intros f1 f2 f3 H1 H2 id a ?; apply H2, H1|].
  intros. by eapply Apply_remembers.
Qed.

End run.

(** ** The invariant *)

Record state_ok (caps : NodeCapabilities) (s : MetadataState) : Prop := {
  so_revision : ms_Revision s = N.of_nat (size (ms_AppliedCommands s));
  so_applied : ∀ id a, ms_AppliedCommands s !! id = Some a →
    (1 ≤ ac_Revision a ≤ ms_Revision s)%N ∧ ac_Digest a ≠ "";
  so_distinct : ∀ id1 id2 a1 a2,
    ms_AppliedCommands s !! id1 = Some a1 → ms_AppliedCommands s !! id2 = Some a2 →
    ac_Revision a1 = ac_Revision a2 → id1 = id2;
  so_term : (ms_LeaderEpoch s ≤ ms_LastLeadershipTerm s < u64_bound)%N;
  so_owner : ms_LeaderOwner s = "" ↔ ms_LeaderEpoch s = 0%N;
  so_snapshots : ∀ h m, ms_Snapshots s !! h = Some m →
    ComputeManifestHash m = Ok h ∧ g_ManifestHash (m_Generation m) = h
    ∧ g_ClusterID (m_Generation m) = ms_ClusterID s
    ∧ (g_LeaderEpoch (m_Generation m) ≤ ms_LeaderEpoch s)%N;
  so_active : ms_ActiveSnapshot s ≠ "" → is_Some (ms_Snapshots s !! ms_ActiveSnapshot s);
  so_gate : normalizeCapabilityGate (ms_CapabilityGate s) = ms_CapabilityGate s
    ∧ validateCapabilityGate (ms_CapabilityGate s) = Ok tt
    ∧ SupportsGate caps (ms_CapabilityGate s) false = true;
}.

Lemma new_state_ok clusterID : state_ok SupportedNodeCapabilities (fsm_state (newMetadataFSM clusterID)).
Proof. by constructor. Qed.

Lemma effect_ok index caps gate command s s' :
  state_ok caps s → effect index caps gate command s s' → state_ok caps s'.
Proof.
  intros [H1 H2 H3 H4 H5 H6 H7 H8] He. destruct He; try (by constructor).
  - assert (u64_succ (ms_LeaderEpoch s) = (ms_LeaderEpoch s + 1)%N) as Hs.
    { apply u64_succ_small. unfold u64_max. lia. }
    constructor; simpl; rewrite ?Hs; try done; [lia|split; [done|lia]|].
    intros h m Hm. destruct (H6 h m Hm) as (?&?&?&?). split_and!; [done..|lia].
  - subst hash. constructor; simpl; try done.
    + intros h m. rewrite lookup_insert_Some. intros [[<- <-]|[_ Hm]]; [|by apply H6].
      split_and!; [done..|lia].
    + intros _. rewrite lookup_insert_eq. eauto.
  - subst gate'. constructor; simpl; try done. split_and!; [apply normalize_idemp|done..].
Qed.

Lemma commit_ok caps id digest s :
  state_ok caps s → ms_AppliedCommands s !! id = None → digest ≠ "" → (ms_Revision s < u64_max)%N →
  state_ok caps (commit_command id digest s).
Proof.
  intros [H1 H2 H3 H4 H5 H6 H7 H8] Hid Hd Hr.
  pose proof (u64_succ_small _ Hr) as Hs.
  constructor; simpl; rewrite ?Hs; try done.
  - rewrite map_size_insert_None by done. lia.
  - intros id' a. rewrite lookup_insert_Some. intros [[<- <-]|[_ Ha]]; simpl; [split; [lia|done]|].
    destruct (H2 _ _ Ha). split; [lia|done].
  - intros i1 i2 a1 a2. rewrite !lookup_insert_Some.
    intros [[<- <-]|[? Ha1]] [[<- <-]|[? Ha2]]; simpl; intros Heq; [done| | |by eapply H3].
    + destruct (H2 _ _ Ha2) as [? _]. lia.
    + destruct (H2 _ _ Ha1) as [? _]. lia.
Qed.

Lemma set_values_ok caps values s : state_ok caps s → state_ok caps (set_values values s).
Proof. by intros []. Qed.

Lemma apply_command_ok index caps command s s' :
  state_ok caps s → (ms_Revision s < u64_max)%N → apply_command index caps command s = Applied s' →
  state_ok caps s' ∧ ms_Revision s' = (ms_Revision s + 1)%N.
Proof.
  intros Hok Hr H. apply apply_command_Applied in H as (digest & s0 & -> & He & Hd & Hid & _).
  pose proof (effect_keeps _ _ _ _ _ _ He) as (_ & Hrev & Hap & _). split.
  - apply commit_ok; [by eapply effect_ok|by rewrite Hap|by eapply commandDigest_nonempty|by rewrite Hrev].
  - simpl. rewrite Hrev. by apply u64_succ_small.
Qed.

Lemma data_of_ok caps f f' :
  data_of f' = data_of f → state_ok caps (fsm_state f) → state_ok caps (fsm_state f').
Proof.
  intros Hd [H1 H2 H3 H4 H5 H6 H7 H8]. unfold data_of, set_state_fault in Hd.
  destruct (fsm_state f), (fsm_state f'); simpl in *. injection Hd as -> -> -> -> -> -> -> -> -> -> ->.
  by constructor.
Qed.

Definition fsm_ok (f : metadataFSM) : Prop := state_ok (fsm_capabilities f) (fsm_state f).

Lemma Apply_ok E index data f w r f' w' :
  fsm_ok f → (ms_Revision (fsm_state f) < u64_max)%N → Apply E index data f w = ((r, f'), w') →
  fsm_ok f' ∧ (ms_Revision (fsm_state f') ≤ ms_Revision (fsm_state f) + 1)%N.
Proof.
  unfold fsm_ok. intros Hok Hr H. apply Apply_cases in H as [r0 f0 w0 _ _ _ [Hd [Hc _]] _ _ _|?|command s _ _ Hc].
  - rewrite Hc. split; [by eapply data_of_ok|]. rewrite (data_of_Revision _ _ Hd). lia.
  - split; [done|lia].
  - simpl. eapply apply_command_ok in Hc as [? ->]; [split; [done|lia]|done..].
Qed.

Lemma run_ok E log f w :
  fsm_ok f → (ms_Revision (fsm_state f) + N.of_nat (length log) < u64_max)%N →
  fsm_ok (run E log f w).1
  ∧ (ms_Revision (fsm_state (run E log f w).1) ≤ ms_Revision (fsm_state f) + N.of_nat (length log))%N.
Proof.
  revert f w. induction log as [|[i d] log IH]; intros f w Hok Hr; cbn [run length] in *; [simpl; split; [done|lia]|].
  destruct (Apply E i d f w) as [[r f1] w1] eqn:Ha.
  eapply Apply_ok in Ha as [Hok1 Hr1]; [|done|lia].
  destruct (IH f1 w1) as [H1 H2]; [done|lia|]. split; [done|lia].
Qed.

(** The revision is below its maximum before each entry of the log: fewer than
    2^64 - 1 commands are ever applied. *)
Fixpoint small_run (E : env) (log : list log_entry) (f : metadataFSM) (w : disk) : Prop :=
  match log with
  | [] => True
  | (index, data) :: log =>
      (ms_Revision (fsm_state f) < u64_max)%N
      ∧ let '((_, f), w) := Apply E index data f w in small_run E log f w
  end.

Lemma small_run_app E log1 log2 f w f1 w1 :
  run E log1 f w = (f1, w1) → small_run E (log1 ++ log2) f w ↔ small_run E log1 f w ∧ small_run E log2 f1 w1.
Proof.
  revert f w. induction log1 as [|[i d] log1 IH]; intros f w; cbn [app run small_run]; [intros [= -> ->]; tauto|].
  destruct (Apply E i d f w) as [[r f'] w']. intros Hrun. rewrite (IH _ _ Hrun). tauto.
Qed.

Lemma small_run_ok E log f w : fsm_ok f → small_run E log f w → fsm_ok (run E log f w).1.
Proof.
  revert f w. induction log as [|[i d] log IH]; intros f w Hok; cbn [run small_run]; [done|].
  intros [Hr Hs]. destruct (Apply E i d f w) as [[r f'] w'] eqn:Ha. apply IH; [|done].
  by eapply Apply_ok in Ha as [? _].
Qed.

Lemma run_caps E log f w : fsm_capabilities (run E log f w).1 = fsm_capabilities f.
Proof.
  apply (run_ind E (λ f f', fsm_capabilities f' = fsm_capabilities f)); [done|congruence|].
  intros. by eapply Apply_caps.
Qed.

(** The revision grows by one with each command that changes anything. *)
Lemma Apply_revision E index data f w r f' w' :
  (ms_Revision (fsm_state f) < u64_max)%N → Apply E index data f w = ((r, f'), w') →
  data_of f' = data_of f ∨ ms_Revision (fsm_state f') = (ms_Revision (fsm_state f) + 1)%N.
Proof.
  intros Hr H. apply Apply_cases in H as [???? _ _ [Hd _] _ _ _|?|command s _ _ Hc]; [by left|by left|right].
  apply apply_command_Applied in Hc as (digest & s0 & -> & He & _).
  destruct (effect_keeps _ _ _ _ _ _ He) as (_ & Hrev & _). simpl. by rewrite Hrev, u64_succ_small.
Qed.

(** The revision never falls, and while it stays nothing else changes. *)
Lemma run_revision E log f w :
  small_run E log f w →
  (ms_Revision (fsm_state f) ≤ ms_Revision (fsm_state (run E log f w).1))%N
  ∧ (ms_Revision (fsm_state (run E log f w).1) = ms_Revision (fsm_state f) →
     data_of (run E log f w).1 = data_of f).
Proof.
  revert f w. induction log as [|[i d] log IH]; intros f w; cbn [run small_run]; [done|].
  intros [Hr Hs]. destruct (Apply E i d f w) as [[r f'] w'] eqn:Ha. destruct (IH _ _ Hs) as [H1 H2].
  destruct (Apply_revision _ _ _ _ _ _ _ _ Hr Ha) as [Hd|Hd].
  - rewrite <- (data_of_Revision _ _ Hd), <- Hd. auto.
  - split; lia.
Qed.

Lemma run_revision_bound E log f w :
  small_run E log f w → (ms_Revision (fsm_state f) < u64_bound)%N →
  (ms_Revision (fsm_state (run E log f w).1) < u64_bound)%N.
Proof.
  revert f w. induction log as [|[i d] log IH]; intros f w; cbn [run small_run]; [done|].
  intros [Hr Hs] _. destruct (Apply E i d f w) as [[r f'] w'] eqn:Ha. apply IH; [done|].
  unfold u64_max, u64_bound in *.
  destruct (Apply_revision _ _ _ _ _ _ _ _ Hr Ha) as [Hd|Hd]; [rewrite (data_of_Revision _ _ Hd)|]; lia.
Qed.

(** ** Errors have a text *)

(** The error of a result, when there is one, is not the empty string. *)
Definition says_why {A} (r : result A) : Prop := ∀ e, r = Err e → e ≠ "".

Lemma says_why_bind {A B} (m : result A) (k : A → result B) :
  says_why m → (∀ a, says_why (k a)) → says_why (rbind k m).
Proof.
  unfold says_why. destruct m as [a|e]; simpl; intros Hm Hk; [apply Hk|].
  intros e' [= <-]. by apply Hm.
Qed.

Lemma says_why_rall {B} (f : B → result unit) l : (∀ x, says_why (f x)) → says_why (rall f l).
Proof. intros Hf. induction l; simpl; [done|]. by apply says_why_bind. Qed.

Lemma says_why_time t : says_why (enc_time t).
Proof.
  unfold enc_time, time_text. intros e. destruct (civil_of_days _) as [[y m] d].
  destruct (_ || _); [by intros [= <-]|]. by destruct (_ <? _)%Z; [intros [= <-]|].
Qed.

Lemma says_why_Manifest m : says_why (enc_Manifest m).
Proof.
  unfold enc_Manifest. apply says_why_bind; [apply says_why_time|intros t].
  apply says_why_bind; [|done]. unfold enc_gomap. destruct (m_Datasets m); [|done].
  apply says_why_bind; [|done]. induction (sorted_entries _) as [|[k d] l IH]; simpl; [done|].
  apply says_why_bind; [|intros j; by apply says_why_bind].
  unfold enc_DatasetRef. apply says_why_bind; [apply says_why_time|done].
Qed.

Lemma says_why_hash m : says_why (ComputeManifestHash m).
Proof. apply says_why_bind; [apply says_why_Manifest|done]. Qed.

Lemma says_why_sequence previous hasPrevious sequence :
  says_why (validateNextSnapshotSequence previous hasPrevious sequence).
Proof. unfold validateNextSnapshotSequence. intros e. repeat split_match; by intros [= <-]. Qed.

Lemma says_why_gate gate : says_why (validateCapabilityGate gate).
Proof.
  unfold validateCapabilityGate. destruct (_ || _); [by intros e [= <-]|].
  destruct (_ || _); [by intros e [= <-]|]. apply says_why_rall. intros [name version].
  destruct (_ || _); [by intros e [= <-]|done].
Qed.

Lemma apply_type_Reject index caps gate command s e :
  apply_type index caps gate command s = Reject e → e ≠ "".
Proof.
  unfold apply_type, apply_acquire_leadership, apply_put_metadata, apply_put_metadata_batch,
    apply_commit_snapshot, apply_activate_capabilities.
  repeat split_match; intros [= <-]; try done;
    try (by eapply says_why_hash); try (by eapply says_why_sequence); try (by eapply says_why_gate).
  match goal with Hr : rfold _ _ _ = Err _ |- _ => apply validated_values in Hr; revert Hr end.
  destruct (bool_decide (pb_Values p !! "" = None)); [done|]. by intros [= ->].
Qed.

(** ** Replies without assignments *)

Lemma apply_command_Reply index caps command s r :
  apply_command index caps command s = Reply r →
  ar_LeaderEpoch r = ms_LeaderEpoch s ∧
  ((ar_Error r ≠ "" ∧ ar_Revision r = ms_Revision s)
   ∨ ∃ a digest, ms_AppliedCommands s !! c_ID command = Some a ∧ commandDigest command = Ok digest
       ∧ (ac_Digest a = "" ∨ ac_Digest a = digest) ∧ ar_Revision r = ac_Revision a ∧ ar_Error r = "").
Proof.
  unfold apply_command. intros H. revert H.
  destruct (_ || _); [done|]. destruct (_ || _); [done|].
  destruct (commandDigest command) as [digest|e] eqn:Hd.
  2:{ intros [= <-]. simpl. split; [done|left; split; [|done]]. unfold commandDigest in Hd.
      destruct (match c_Payload command with Some p => canonical_any p | None => Some JNull end); [done|].
      by injection Hd as <-. }
  destruct (ms_AppliedCommands s !! _) as [a|].
  { destruct (_ && _) eqn:Hc; intros [= <-]; simpl; (split; [done|]); [by left|right].
    exists a, digest. split_and!; try done. rewrite andb_false_iff, !negb_false_iff, !str_eqb_eq in Hc. done. }
  destruct (match c_ExpectedRevision command with Some _ => _ | None => _ end); [intros [= <-]; simpl; auto|].
  destruct (apply_type _ _ _ _ _) as [e| |] eqn:Ht; [|done..]. intros [= <-]. simpl.
  split; [done|left; split; [by eapply apply_type_Reject|done]].
Qed.

(** A command with the active versions whose id is applied with its digest. *)
Lemma apply_command_known index caps command s a digest :
  Supports (nc_Protocol caps) (c_ProtocolVersion command) = true →
  Supports (nc_Command caps) (c_CommandVersion command) = true →
  c_ProtocolVersion command = cg_ProtocolVersion (normalizeCapabilityGate (ms_CapabilityGate s)) →
  c_CommandVersion command = cg_CommandVersion (normalizeCapabilityGate (ms_CapabilityGate s)) →
  commandDigest command = Ok digest → ms_AppliedCommands s !! c_ID command = Some a →
  apply_command index caps command s = Reply
    (if bool_decide (ac_Digest a = "" ∨ ac_Digest a = digest)
     then mkApplyResult (ac_Revision a) (ms_LeaderEpoch s) ""
     else mkApplyResult (ms_Revision s) (ms_LeaderEpoch s)
            "command_id %q was already applied with a different payload").
Proof.
  intros Hp Hc Hgp Hgc Hd Ha. unfold apply_command. rewrite Hp, Hc, Hgp, Hgc, !N.eqb_refl. simpl.
  rewrite Hd, Ha. destruct (decide (ac_Digest a = "" ∨ ac_Digest a = digest)) as [Hor|Hor].
  - rewrite bool_decide_eq_true_2 by done. destruct (_ && _) eqn:Heq; [|done]. bool_simpl. naive_solver.
  - rewrite bool_decide_eq_false_2 by done. destruct (_ && _) eqn:Heq; [done|].
    rewrite andb_false_iff, !negb_false_iff, !str_eqb_eq in Heq. naive_solver.
Qed.

(** The versions of an applied or replayed command were supported and active. *)
Lemma apply_command_versions index caps command s :
  (∀ m, apply_command index caps command s ≠ FaultWith m) →
  Supports (nc_Protocol caps) (c_ProtocolVersion command) = true
  ∧ Supports (nc_Command caps) (c_CommandVersion command) = true
  ∧ c_ProtocolVersion command = cg_ProtocolVersion (normalizeCapabilityGate (ms_CapabilityGate s))
  ∧ c_CommandVersion command = cg_CommandVersion (normalizeCapabilityGate (ms_CapabilityGate s)).
Proof.
  unfold apply_command. intros Hno.
  destruct (negb (Supports _ _) || _) eqn:H1; [by destruct (Hno _ eq_refl)|].
  destruct (negb (_ =? _)%N || _) eqn:H2; [by destruct (Hno _ eq_refl)|].
  clear Hno. bool_simpl. by split_and!.
Qed.

Lemma Apply_ok_not_faulted E index data f w r f' w' :
  Apply E index data f w = ((r, f'), w') → ar_Error r = "" → ¬ faulted f'.
Proof. intros H. by apply Apply_cases in H as [|?|?]. Qed.

(** An entry the machine does not halt on is a command with an id. *)
Lemma Apply_decoded E index data f w r f' w' :
  Apply E index data f w = ((r, f'), w') → ¬ faulted f' →
  ∃ command, default_versions <$> Unmarshal dec_Command zero_Command data = Some command
  ∧ c_ID command ≠ "" ∧ w' = w ∧ ¬ faulted f
  ∧ ((apply_command index (fsm_capabilities f) command (fsm_state f) = Reply r ∧ f' = f)
     ∨ ∃ s, apply_command index (fsm_capabilities f) command (fsm_state f) = Applied s
         ∧ f' = set_fsm_state s f ∧ r = mkApplyResult (ms_Revision s) (ms_LeaderEpoch s) "").
Proof.
  intros H Hn. pose proof (Apply_not_faulted _ _ _ _ _ _ _ _ H Hn) as Hf. revert H.
  assert (∀ m, m ≠ "" → recordApplyFaultLocked E index m f w = ((r, f'), w') → False) as Hrec.
  { intros m Hm H. apply record_fault in H as (_ & _ & _ & _ & Hf' & _); done. }
  unfold Apply. destruct (Unmarshal dec_Command zero_Command data) as [command|]; [|intros H; by destruct (Hrec "decode command: %v" ltac:(done) H)].
  destruct (str_eqb (c_ID command) "") eqn:Hid; [intros H; by eapply Hrec in H|]. bool_simpl.
  apply ApplyFault_not_faulted in Hf as Hf0. rewrite Hf0.
  destruct (apply_command _ _ _ _) as [r0|m|s] eqn:Hc.
  - intros [= <- <- <-]. exists (default_versions command). auto 10.
  - intros H. apply Hrec in H; [done|]. by eapply apply_command_FaultWith.
  - intros [= <- <- <-]. exists (default_versions command). split_and!; eauto 10.
Qed.

(** Conversely, what the machine does with a decoded command. *)
Lemma Apply_command E index data f w command :
  default_versions <$> Unmarshal dec_Command zero_Command data = Some command → c_ID command ≠ "" →
  ¬ faulted f →
  Apply E index data f w =
    match apply_command index (fsm_capabilities f) command (fsm_state f) with
    | Reply r => ((r, f), w)
    | FaultWith message => recordApplyFaultLocked E index message f w
    | Applied s => ((mkApplyResult (ms_Revision s) (ms_LeaderEpoch s) "", set_fsm_state s f), w)
    end.
Proof.
  intros Hd Hid Hf. unfold Apply. destruct (Unmarshal dec_Command zero_Command data) as [c|]; [|done].
  injection Hd as <-. rewrite str_eqb_neq by done. apply ApplyFault_not_faulted in Hf. by rewrite Hf.
Qed.

(** ** Replays *)

(** After an answer without error the id is on record with the revision that
    was answered. *)
Lemma Apply_recorded E index data f w r f' w' :
  Apply E index data f w = ((r, f'), w') → ar_Error r = "" →
  ∃ command digest a, default_versions <$> Unmarshal dec_Command zero_Command data = Some command
  ∧ c_ID command ≠ "" ∧ commandDigest command = Ok digest ∧ w' = w
  ∧ ms_AppliedCommands (fsm_state f') !! c_ID command = Some a
  ∧ (ac_Digest a = "" ∨ ac_Digest a = digest) ∧ ac_Revision a = ar_Revision r
  ∧ Supports (nc_Protocol (fsm_capabilities f)) (c_ProtocolVersion command) = true
  ∧ Supports (nc_Command (fsm_capabilities f)) (c_CommandVersion command) = true.
Proof.
  intros H He. pose proof (Apply_ok_not_faulted _ _ _ _ _ _ _ _ H He) as Hn.
  pose proof (Apply_decoded _ _ _ _ _ _ _ _ H Hn) as (command & Hdec & Hid & Hw & _ & Hcase).
  destruct (apply_command_versions index (fsm_capabilities f) command (fsm_state f)) as (Hp & Hc & _).
  { intros m Hm. destruct Hcase as [[Hc _]|(s & Hc & _)]; by rewrite Hm in Hc. }
  exists command. destruct Hcase as [[Hreply ->]|(s & Happ & -> & ->)].
  - apply apply_command_Reply in Hreply as [Hle [[? _]|(a & digest & Ha & Hd & Hor & Hr & _)]]; [done|].
    exists digest, a. by split_and!.
  - apply apply_command_Applied in Happ as (digest & s0 & -> & Heff & Hd & Hfresh & Hexp & _).
    exists digest, (mkAppliedCommand (u64_succ (ms_Revision s0)) digest).
    split_and!; try done; [apply lookup_insert_eq|by right].
Qed.

(** Nodes of this version support one protocol and one command version, so the
    versions of a supported gate are the versions of every supported command. *)
Lemma supported_versions gate p c :
  normalizeCapabilityGate gate = gate → SupportsGate SupportedNodeCapabilities gate false = true →
  Supports (nc_Protocol SupportedNodeCapabilities) p = true →
  Supports (nc_Command SupportedNodeCapabilities) c = true →
  p = cg_ProtocolVersion (normalizeCapabilityGate gate)
  ∧ c = cg_CommandVersion (normalizeCapabilityGate gate).
Proof.
  intros Hn Hs Hp Hc. rewrite Hn. unfold SupportsGate in Hs. rewrite Hn in Hs.
  destruct (_ || _) eqn:Hor in Hs; [done|]. bool_simpl.
  unfold Supports in *. cbn in *. bool_simpl.
  unfold LegacyProtocolVersion, CurrentProtocolVersion, LegacyCommandVersion, CurrentCommandVersion in *.
  lia.
Qed.

Lemma Apply_known E index data f w command digest a :
  fsm_ok f → fsm_capabilities f = SupportedNodeCapabilities → ¬ faulted f →
  default_versions <$> Unmarshal dec_Command zero_Command data = Some command → c_ID command ≠ "" →
  commandDigest command = Ok digest → ms_AppliedCommands (fsm_state f) !! c_ID command = Some a →
  Supports (nc_Protocol SupportedNodeCapabilities) (c_ProtocolVersion command) = true →
  Supports (nc_Command SupportedNodeCapabilities) (c_CommandVersion command) = true →
  Apply E index data f w =
    ((if bool_decide (ac_Digest a = "" ∨ ac_Digest a = digest)
      then mkApplyResult (ac_Revision a) (ms_LeaderEpoch (fsm_state f)) ""
      else mkApplyResult (ms_Revision (fsm_state f)) (ms_LeaderEpoch (fsm_state f))
             "command_id %q was already applied with a different payload", f), w).
Proof.
  intros Hok Hcaps Hn Hdec Hid Hd Ha Hp Hc. rewrite (Apply_command E index data f w command) by done.
  unfold fsm_ok in Hok. rewrite Hcaps in *. destruct (so_gate _ _ Hok) as (Hnorm & _ & Hsup).
  destruct (supported_versions _ _ _ Hnorm Hsup Hp Hc) as [Hgp Hgc].
  by erewrite apply_command_known.
Qed.

(** ** Epochs *)

Lemma effect_epoch index caps gate command s s' :
  state_ok caps s → effect index caps gate command s s' → (ms_LeaderEpoch s ≤ ms_LeaderEpoch s')%N.
Proof.
  intros Hok He. destruct He; simpl; try done. rewrite u64_succ_small; [lia|].
  destruct (so_term _ _ Hok). unfold u64_max. lia.
Qed.

Lemma Apply_epoch E index data f w r f' w' :
  fsm_ok f → Apply E index data f w = ((r, f'), w') →
  (ms_LeaderEpoch (fsm_state f) ≤ ms_LeaderEpoch (fsm_state f'))%N.
Proof.
  intros Hok H. apply Apply_cases in H as [r0 f0 w0 _ _ _ [Hd _] _ _ _|?|command s _ _ Hc]; [|done|].
  - by rewrite (data_of_LeaderEpoch _ _ Hd).
  - apply apply_command_Applied in Hc as (digest & s0 & -> & He & _). simpl. by eapply effect_epoch.
Qed.

Lemma run_epoch E log f w :
  fsm_ok f → (ms_Revision (fsm_state f) + N.of_nat (length log) < u64_max)%N →
  (ms_LeaderEpoch (fsm_state f) ≤ ms_LeaderEpoch (fsm_state (run E log f w).1))%N.
Proof.
  revert f w. induction log as [|[i d] log IH]; intros f w Hok Hr; cbn [run length] in *; [done|].
  destruct (Apply E i d f w) as [[r f1] w1] eqn:Ha.
  pose proof (Apply_epoch _ _ _ _ _ _ _ _ Hok Ha).
  eapply Apply_ok in Ha as [Hok1 Hr1]; [|done|lia].
  etrans; [done|]. apply IH; [done|lia].
Qed.

(** ** Two replicas *)

(** What a command does depends on the node's capabilities only through the
    faults. *)
Lemma apply_command_agree index caps1 caps2 command s :
  (∀ m, apply_command index caps1 command s ≠ FaultWith m) →
  (∀ m, apply_command index caps2 command s ≠ FaultWith m) →
  apply_command index caps1 command s = apply_command index caps2 command s.
Proof.
  unfold apply_command. destruct (negb (Supports (nc_Protocol caps1) _) || _); [intros H; by destruct (H _ eq_refl)|].
  destruct (negb (Supports (nc_Protocol caps2) _) || _); [intros _ H; by destruct (H _ eq_refl)|].
  destruct (_ || _); [done|]. destruct (commandDigest command); [|done].
  destruct (ms_AppliedCommands s !! _); [done|].
  destruct (match c_ExpectedRevision command with Some _ => _ | None => _ end); [done|].
  unfold apply_type. repeat destruct (str_eqb (c_Type command) _); try done.
  unfold apply_activate_capabilities. destruct (stale_epoch _ _); [done|].
  destruct (Unmarshal _ _ _); [|done]. destruct (validateCapabilityGate _); [|done].
  destruct (negb _); [intros H; by destruct (H _ eq_refl)|].
  destruct (negb _); [intros _ H; by destruct (H _ eq_refl)|]. done.
Qed.

Lemma Apply_agree E1 E2 index data f1 f2 w1 w2 r1 r2 f1' f2' w1' w2' :
  fsm_state f1 = fsm_state f2 →
  Apply E1 index data f1 w1 = ((r1, f1'), w1') → Apply E2 index data f2 w2 = ((r2, f2'), w2') →
  ¬ faulted f1' → ¬ faulted f2' → r1 = r2 ∧ fsm_state f1' = fsm_state f2'.
Proof.
  intros Hs H1 H2 Hn1 Hn2.
  apply Apply_decoded in H1 as (c1 & Hd1 & _ & _ & _ & Hc1); [|done].
  apply Apply_decoded in H2 as (c2 & Hd2 & _ & _ & _ & Hc2); [|done].
  rewrite Hd1 in Hd2. injection Hd2 as <-. rewrite <- Hs in Hc2.
  pose proof (apply_command_agree index (fsm_capabilities f1) (fsm_capabilities f2) c1 (fsm_state f1)) as Ha.
  destruct Ha.
  { intros m Hm. destruct Hc1 as [[Hc _]|(? & Hc & _)]; by rewrite Hm in Hc. }
  { intros m Hm. destruct Hc2 as [[Hc _]|(? & Hc & _)]; by rewrite Hm in Hc. }
  destruct Hc1 as [[Hc1 ->]|(s1 & Hc1 & -> & ->)], Hc2 as [[Hc2 ->]|(s2 & Hc2 & -> & ->)];
    rewrite Hc1 in Hc2; simplify_eq/=; done.
Qed.

(** ** The fault file *)

Section fault_file.
Context (E : env).

(** After the rename the file holds the fault; before it, it is unchanged. *)
Lemma wp_write_fault tmp path fault w :
  wp (write_fault E tmp path fault) (λ r w',
    r = Ok tt → w_vol w' !! path = Some (mkFile (Some (enc_FSMApplyFault fault)) true)) w.
Proof.
  unfold write_fault.
  assert (∀ e w1, wp (run! io_try (file_Close E tmp) in io_err e)%io (λ r w',
    r = Ok tt → w_vol w' !! path = Some (mkFile (Some (enc_FSMApplyFault fault)) true)) w1) as Hclose.
  { intros e w1. by apply wp_bind, wp_try, (wp_quiet _ _ _ (quiet_Close E _)). }
  apply wp_bind, wp_try, wp_quiet.
  { apply quiet_sys. done. }
  intros [[]|e] w1 _ _; [|by apply Hclose].
  apply wp_bind, wp_try, wp_sys; [intros; by apply Hclose|]. intros _. unfold wp at 1; simpl.
  apply wp_bind, wp_try, wp_sys; [intros; by apply Hclose|]. intros _. unfold wp at 1; simpl.
  apply wp_bind, (wp_quiet _ _ _ (quiet_Close E _)). intros [[]|e] w2 Hv _; [|done]. simpl in Hv.
  apply wp_Rename; [done|]. intros f w3 Hf H3 _ _. rewrite H3, lookup_insert_eq.
  rewrite Hv, lookup_alter_eq, lookup_insert_eq in Hf. simpl in Hf. by injection Hf as <-.
Qed.

Lemma wp_persist path fault w :
  path ≠ "" → has_prefix (filepath_Join (dir_of path) ".fsm-apply-fault-") path = false →
  wp (persistFSMApplyFault E path fault) (λ r w',
    r = Ok tt → w_vol w' !! path = Some (mkFile (Some (enc_FSMApplyFault fault)) true)) w.
Proof.
  intros Hp Hname. unfold persistFSMApplyFault. rewrite str_eqb_neq by done.
  apply wp_bind, (wp_quiet _ _ _ (quiet_MkdirAll E _)). intros [[]|e] w1 _ _; [|done].
  apply wp_bind, wp_CreateTemp; [done|]. intros t w2 _ _.
  apply wp_bind, wp_try. eapply wp_mono; [apply wp_write_fault|]. intros r w3 H3.
  apply wp_bind, wp_try, wp_Remove. intros r' w4 [H4 _]. apply wp_of. intros ->.
  rewrite H4; [by apply H3|]. intros Heq. rewrite Heq in Hname at 2.
  unfold filepath_Join in Hname.
  replace (dir_of path +:+ "/" +:+ ".fsm-apply-fault-" +:+ t)
    with ((dir_of path +:+ "/" +:+ ".fsm-apply-fault-") +:+ t) in Hname by (by rewrite !append_assoc_str).
  by rewrite has_prefix_app in Hname.
Qed.

Definition why {A} (r : result A) (_ : disk) : Prop := says_why r.

(** When failing calls say why, so does the whole. *)
Lemma persist_says_why path fault w :
  (∀ t e, io_fault E t = Some e → e ≠ "") →
  ∀ e, (persistFSMApplyFault E path fault w).1 = Err e → e ≠ "".
Proof.
  intros HE.
  assert (∀ {A} (act : fio A) w, (∀ w, wp act why w) → wp (sys E act) why w) as Hsys.
  { intros A act w0 Ha. apply wp_sys; [|intros; apply Ha]. intros e He e' [= <-]. by eapply HE. }
  change (wp (persistFSMApplyFault E path fault) why w).
  assert (∀ p w, wp (file_Close E p) why w) as Hclose by (intros; by apply Hsys).
  assert (∀ p e w, e ≠ "" → wp (run! io_try (file_Close E p) in io_err (A:=unit) e)%io why w) as Hfail.
  { intros p e w0 He. apply wp_bind, wp_try, (wp_quiet _ _ _ (quiet_Close E _)). intros r w1 _ _.
    apply wp_err. by intros e' [= <-]. }
  assert (∀ a b w, wp (os_Rename E a b) why w) as Hrename.
  { intros a b w0. apply Hsys. intros w1. unfold wp. destruct (w_vol w1 !! a); [done|].
    intros e' [= <-]. done. }
  assert (∀ tmp w, wp (write_fault E tmp path fault) why w) as Hwrite.
  { intros tmp w0. unfold write_fault.
    apply wp_bind, wp_try. eapply wp_mono; [apply Hsys; done|]. intros [[]|e] w1 Hq; [|by apply Hfail, Hq].
    apply wp_bind, wp_try. eapply wp_mono; [apply Hsys; done|]. intros [[]|e] w2 Hq2; [|by apply Hfail, Hq2].
    apply wp_bind, wp_try. eapply wp_mono; [apply Hsys; done|]. intros [[]|e] w3 Hq3; [|by apply Hfail, Hq3].
    apply wp_bind. eapply wp_mono; [apply Hclose|]. intros [[]|e] w4 Hq4; [apply Hrename|done]. }
  unfold persistFSMApplyFault. destruct (str_eqb path ""); [by apply wp_ret|].
  apply wp_bind. eapply wp_mono; [apply Hsys; done|]. intros [[]|e] w1 Hq; [|by intros e' [= <-]; apply Hq].
  apply wp_bind. eapply wp_mono; [apply Hsys; done|]. intros [tmp|e] w2 Hq2; [|by intros e' [= <-]; apply Hq2].
  apply wp_bind, wp_try. eapply wp_mono; [apply Hwrite|]. intros r w3 Hq3.
  apply wp_bind, wp_try. unfold wp at 1. destruct (os_Remove E tmp w3). by apply wp_of.
Qed.

End fault_file.

Lemma dec_enc_fault fault cur :
  (ff_Index fault < u64_bound)%N → utf8_fix (ff_Error fault) = ff_Error fault →
  dec_FSMApplyFault (enc_FSMApplyFault fault) cur = Some fault.
Proof.
  destruct fault as [i e]. simpl. intros Hi He.
  unfold dec_FSMApplyFault, enc_FSMApplyFault, enc_uint, enc_string. rewrite He. cbn.
  unfold set_field. cbn. rewrite ParseUint_FormatUint by done. done.
Qed.

(** ** Commits that must succeed *)

Lemma apply_commit_snapshot_ok index gate command s m hash :
  fresh_epoch command s →
  Unmarshal dec_commitSnapshotPayload (mkCommitSnapshotPayload zero_Manifest) (c_Payload command)
    = Some (mkCommitSnapshotPayload m) →
  g_ClusterID (m_Generation m) = ms_ClusterID s → g_LeaderEpoch (m_Generation m) = ms_LeaderEpoch s →
  next_sequence s (g_Sequence (m_Generation m)) →
  validateManifestCapability m gate = Ok tt →
  ComputeManifestHash m = Ok hash → g_ManifestHash (m_Generation m) = hash →
  apply_commit_snapshot index gate command s = Commit (set_snapshot hash m index s).
Proof.
  intros Hf Hu Hc He Hs Hv Hh Hm. unfold apply_commit_snapshot.
  apply stale_epoch_spec in Hf. rewrite Hf, Hu. cbn [cs_Manifest]. rewrite Hc, He, str_eqb_refl, N.eqb_refl.
  cbn [negb]. set (monotonic := if (_ <=? _)%N then _ else None).
  assert (monotonic = None) as ->.
  { unfold monotonic. destruct (_ <=? _)%N; [|done]. unfold next_sequence in Hs.
    destruct (str_eqb (ms_ActiveSnapshot s) ""); cbn [negb].
    - rewrite Hs. done.
    - destruct Hs as (previous & -> & Hmax & Heq). unfold validateNextSnapshotSequence. simpl.
      rewrite (proj2 (N.eqb_neq _ _) Hmax), Heq, N.eqb_refl. done. }
  by rewrite Hv, Hh, Hm, str_eqb_refl.
Qed.

(** A new command with the active versions goes to its branch. *)
Lemma apply_command_fresh index caps command s digest :
  let gate := normalizeCapabilityGate (ms_CapabilityGate s) in
  Supports (nc_Protocol caps) (c_ProtocolVersion command) = true →
  Supports (nc_Command caps) (c_CommandVersion command) = true →
  c_ProtocolVersion command = cg_ProtocolVersion gate →
  c_CommandVersion command = cg_CommandVersion gate →
  commandDigest command = Ok digest → ms_AppliedCommands s !! c_ID command = None →
  (∀ expected, c_ExpectedRevision command = Some expected → expected = ms_Revision s) →
  apply_command index caps command s =
    match apply_type index caps gate command s with
    | Reject e => Reply (mkApplyResult (ms_Revision s) (ms_LeaderEpoch s) e)
    | Fault message => FaultWith message
    | Commit s' => Applied (commit_command (c_ID command) digest s')
    end.
Proof.
  intros gate Hp Hc Hgp Hgc Hd Ha He. unfold apply_command. fold gate. rewrite Hp, Hc, Hgp, Hgc, !N.eqb_refl.
  cbn [negb orb]. rewrite Hd, Ha.
  destruct (c_ExpectedRevision command) as [expected|] eqn:Hexp; [|done].
  by rewrite (He expected), N.eqb_refl by done.
Qed.
