(* ===== verification/FsmSpec.v ===== *)
(** * FsmSpec: what the replicated state machine guarantees

    Properties of [Apply] over single entries and over logs: errors are atomic,
    commands are applied at most once, writes are fenced by the leader epoch
    and the expected revision, a halted node stays halted, replicas agree
    during a rolling upgrade, and the invariant of reachable states. *)
From S2P Require Import Prelude Text Io Sha256 Json GoTime Capability Manifest Fsm FsmProofs.
From stdpp Require Import options.

(** ** Concrete entries for the witnesses *)

Definition no_faults : env := mkEnv (λ _, None) (λ _, 0%N).
Definition empty_disk : disk := mkWorld ∅ ∅ ∅ 0.

Definition entry (id type : string) (epoch : N) (payload : json) : option json :=
  Some (JObj [("command_id", JStr id); ("command_type", JStr type);
              ("leader_epoch", enc_uint epoch); ("payload", payload)]).

Definition acquire (id node : string) (term : N) : option json :=
  entry id CommandAcquireLeadership 0 (JObj [("node_id", JStr node); ("term", enc_uint term)]).
Definition put (id key : string) (epoch : N) (value : json) : option json :=
  entry id CommandPutMetadata epoch (JObj [("key", JStr key); ("value", value)]).

Definition n1 : metadataFSM := newMetadataFSM "c".
(** A machine whose leader is n1, with epoch 1 of term 7. *)
Definition led : metadataFSM := set_fsm_state (set_leadership 1 7 "n1" (fsm_state n1)) n1.

Lemma triple_eta {A B C} (x : A * B * C) : x = ((x.1.1, x.1.2), x.2).
Proof. by destruct x as [[]]. Qed.

Lemma led_ok : fsm_ok led.
Proof. constructor; simpl; done. Qed.

(** The machine [led] with an applied command "p" of digest "other". *)
Definition led_p : metadataFSM := set_fsm_state (commit_command "p" "other" (fsm_state led)) led.

Lemma led_p_ok : fsm_ok led_p.
Proof. apply commit_ok; [apply led_ok|done|done|done]. Qed.

(** ** The invariant *)

(** C2: every state a log of fewer than 2^64 - 1 entries reaches satisfies
    [state_ok]: the revision counts the applied commands, whose revisions are
    distinct and at most the current one; the epoch never exceeds the last
    term and is 0 exactly while nobody led; every snapshot is stored under its
    own hash with the cluster's id; the active snapshot exists; the gate is
    normal, valid and supported by the node. *)
Theorem run_invariant (E : env) (clusterID : string) (log : list log_entry) (w : disk) :
  (N.of_nat (length log) < u64_max)%N →
  let f := (run E log (newMetadataFSM clusterID) w).1 in
  state_ok SupportedNodeCapabilities (fsm_state f)
  ∧ (ms_Revision (fsm_state f) ≤ N.of_nat (length log))%N.
Proof.
  intros Hl f. destruct (run_ok E log (newMetadataFSM clusterID) w) as [H1 H2];
    [apply new_state_ok|exact Hl|].
  split; [|exact H2]. unfold fsm_ok in H1.
  replace SupportedNodeCapabilities with (fsm_capabilities f); [exact H1|].
  unfold f. apply (run_ind E (λ f f', fsm_capabilities f' = fsm_capabilities f)); [done|congruence|].
  intros. by eapply Apply_caps.
Qed.

Lemma run_invariant_witness :
  (ms_Revision (fsm_state (run no_faults [(1%N, acquire "a" "n1" 7)] n1 empty_disk).1) ≤ 1)%N.
Proof.
  refine (proj2 (run_invariant no_faults "c" [(1%N, acquire "a" "n1" 7)] empty_disk _)). reflexivity.
Defined.

(** ** Single entries *)

(** C31: an entry that is answered with an error changes nothing of the
    replicated state but the recorded fault; the reply carries the unchanged
    revision and epoch. *)
Theorem Apply_error_atomic (E : env) (index : N) (data : option json) (f f' : metadataFSM)
    (w w' : disk) (r : applyResult) :
  Apply E index data f w = ((r, f'), w') → ar_Error r ≠ "" →
  data_of f' = data_of f ∧ ar_Revision r = ms_Revision (fsm_state f)
  ∧ ar_LeaderEpoch r = ms_LeaderEpoch (fsm_state f).
Proof.
  intros H. apply Apply_cases in H as [???? Hr Hl [Hd _] _ _ _|command r0 _ _ Hc|]; intros He; [done| |done].
  apply apply_command_Reply in Hc as [Hl [[_ Hr]|(_ & _ & _ & _ & _ & _ & Hno)]]; done.
Qed.

Lemma Apply_error_atomic_witness :
  ∃ r f' w', Apply no_faults 1 (put "p" "k" 1 JNull) n1 empty_disk = ((r, f'), w')
    ∧ ar_Error r = "leader epoch is not current" ∧ data_of f' = data_of n1.
Proof.
  eexists _, _, _. split; [reflexivity|]. split; [reflexivity|].
  refine (proj1 (Apply_error_atomic no_faults 1 (put "p" "k" 1 JNull) n1 _ empty_disk _ _ eq_refl _)).
  discriminate.
Defined.

(** All of the replicated state but the revision and the record of commands. *)
Definition data_but_record (s : MetadataState) :=
  (ms_ClusterID s, ms_LeaderEpoch s, ms_LeaderOwner s, ms_LastLeadershipTerm s, ms_Values s, ms_Snapshots s,
   ms_ActiveSnapshot s, ms_ActiveSnapshotIndex s, ms_CapabilityGate s, ms_ApplyFault s).

(** C1: an entry that is answered without error is a command with an id whose
    digest is now on record, and it either was on record with that digest (and
    nothing changes), or is new, meets its expected revision and the active
    versions, changes the state by exactly the [effect] that its type and its
    decoded payload prescribe, field by field, and takes and records the next
    revision. *)
Theorem Apply_refines (E : env) (index : N) (data : option json) (f f' : metadataFSM)
    (w w' : disk) (r : applyResult) :
  Apply E index data f w = ((r, f'), w') → ar_Error r = "" →
  ∃ command digest,
    default_versions <$> Unmarshal dec_Command zero_Command data = Some command
    ∧ c_ID command ≠ "" ∧ commandDigest command = Ok digest ∧ w' = w
    ∧ let s := fsm_state f in
      let gate := normalizeCapabilityGate (ms_CapabilityGate s) in
      c_ProtocolVersion command = cg_ProtocolVersion gate
      ∧ c_CommandVersion command = cg_CommandVersion gate
      ∧ ((∃ a, ms_AppliedCommands s !! c_ID command = Some a
            ∧ (ac_Digest a = "" ∨ ac_Digest a = digest)
            ∧ f' = f ∧ r = mkApplyResult (ac_Revision a) (ms_LeaderEpoch s) "")
         ∨ (ms_AppliedCommands s !! c_ID command = None
            ∧ (∀ expected, c_ExpectedRevision command = Some expected → expected = ms_Revision s)
            ∧ ∃ s', effect index (fsm_capabilities f) gate command s s'
                ∧ f' = set_fsm_state (commit_command (c_ID command) digest s') f
                ∧ data_but_record (fsm_state f') = data_but_record s'
                ∧ ms_Revision (fsm_state f') = u64_succ (ms_Revision s)
                ∧ ms_AppliedCommands (fsm_state f')
                  = <[ c_ID command := mkAppliedCommand (u64_succ (ms_Revision s)) digest ]> (ms_AppliedCommands s)
                ∧ r = mkApplyResult (u64_succ (ms_Revision s)) (ms_LeaderEpoch s') "")).
Proof.
  intros H He. pose proof (Apply_ok_not_faulted _ _ _ _ _ _ _ _ H He) as Hn.
  pose proof (Apply_decoded _ _ _ _ _ _ _ _ H Hn) as (command & Hdec & Hid & Hw & _ & Hcase).
  destruct (apply_command_versions index (fsm_capabilities f) command (fsm_state f)) as (_ & _ & Hp & Hc).
  { intros m Hm. destruct Hcase as [[Hc _]|(s & Hc & _)]; by rewrite Hm in Hc. }
  destruct Hcase as [[Hreply ->]|(s & Happ & -> & ->)].
  - apply apply_command_Reply in Hreply as [Hle [[? _]|(a & digest & Ha & Hd & Hor & Hr & _)]]; [done|].
    exists command, digest. do 4 (split; [done|]). cbv zeta. do 2 (split; [done|]). left. exists a. split_and!; try done.
    destruct r; simpl in *; congruence.
  - apply apply_command_Applied in Happ as (digest & s0 & -> & Heff & Hd & Hfresh & Hexp & _).
    exists command, digest. do 4 (split; [done|]). cbv zeta. do 2 (split; [done|]). right. do 2 (split; [done|]).
    exists s0. do 2 (split; [done|]). simpl. by destruct (effect_keeps _ _ _ _ _ _ Heff) as (_ & -> & -> & _).
Qed.

Lemma Apply_refines_witness :
  let x := Apply no_faults 2 (put "p" "k" 1 (JBool true)) led empty_disk in
  ar_Error x.1.1 = "" ∧ ∃ command,
    default_versions <$> Unmarshal dec_Command zero_Command (put "p" "k" 1 (JBool true)) = Some command
    ∧ c_ID command ≠ "".
Proof.
  assert (ar_Error (Apply no_faults 2 (put "p" "k" 1 (JBool true)) led empty_disk).1.1 = "") as He
    by exact eq_refl.
  split; [exact He|].
  destruct (Apply_refines no_faults 2 _ led _ empty_disk _ _ (triple_eta _) He) as (command & _ & Hd & Hid & _).
  exists command. split; [exact Hd|exact Hid].
Defined.

(** ** At most once *)

(** C3: a command answered without error is applied at most once: whatever the
    log holds after it, applying the same bytes again changes nothing and
    answers the revision of the first time (for a node of this version, below
    2^64 - 1 entries, as long as it is not halted). *)
Theorem Apply_replay (E : env) (data : option json) (i j : N) (log : list log_entry)
    (f f1 f2 : metadataFSM) (w w1 w2 : disk) (r : applyResult) :
  fsm_ok f → fsm_capabilities f = SupportedNodeCapabilities →
  (ms_Revision (fsm_state f) + N.of_nat (S (length log)) < u64_max)%N →
  Apply E i data f w = ((r, f1), w1) → ar_Error r = "" →
  run E log f1 w1 = (f2, w2) → ¬ faulted f2 →
  Apply E j data f2 w2 = ((mkApplyResult (ar_Revision r) (ms_LeaderEpoch (fsm_state f2)) "", f2), w2).
Proof.
  intros Hok Hcaps Hlen H He Hrun Hn.
  destruct (Apply_ok _ _ _ _ _ _ _ _ Hok ltac:(lia) H) as [Hok1 Hr1].
  destruct (run_ok E log f1 w1 Hok1 ltac:(lia)) as [Hok2 _].
  pose proof (run_remembers E log f1 w1) as Hrem. rewrite Hrun in Hok2, Hrem. simpl in *.
  destruct (Apply_recorded _ _ _ _ _ _ _ _ H He) as (command & digest & a & Hdec & Hid & Hd & _ & Ha & Hor & Hrev & Hp & Hc).
  rewrite Hcaps in Hp, Hc. rewrite <- Hrev.
  erewrite (Apply_known E j data f2 w2); [by rewrite bool_decide_eq_true_2|done| |done|done|done|done|by apply Hrem|done..].
  replace f2 with (run E log f1 w1).1 by (by rewrite Hrun).
  rewrite (run_ind E (λ f f', fsm_capabilities f' = fsm_capabilities f)); [|done|congruence|intros; by eapply Apply_caps].
  rewrite <- Hcaps. by eapply Apply_caps.
Qed.

Lemma Apply_replay_witness :
  let x := Apply no_faults 2 (put "p" "k" 1 (JBool true)) led empty_disk in
  let y := run no_faults [(3%N, put "q" "k" 1 (JBool false))] x.1.2 x.2 in
  Apply no_faults 9 (put "p" "k" 1 (JBool true)) y.1 y.2
    = ((mkApplyResult (ar_Revision x.1.1) (ms_LeaderEpoch (fsm_state y.1)) "", y.1), y.2).
Proof.
  intros x y.
  refine (Apply_replay no_faults (put "p" "k" 1 (JBool true)) 2 9
    [(3%N, put "q" "k" 1 (JBool false))] led x.1.2 y.1 empty_disk x.2 y.2 x.1.1 led_ok eq_refl _
    (triple_eta _) _ (surjective_pairing _) _); [reflexivity|reflexivity|].
  intros H. apply H. reflexivity.
Defined.

(** a command whose id is on record with another digest is rejected and
    changes nothing. *)
Theorem Apply_conflict (E : env) (i : N) (data : option json) (f : metadataFSM) (w : disk)
    (command : Command) (digest : string) (a : AppliedCommand) :
  fsm_ok f → fsm_capabilities f = SupportedNodeCapabilities → ¬ faulted f →
  default_versions <$> Unmarshal dec_Command zero_Command data = Some command → c_ID command ≠ "" →
  c_ProtocolVersion command = 1%N → c_CommandVersion command = 1%N →
  commandDigest command = Ok digest →
  ms_AppliedCommands (fsm_state f) !! c_ID command = Some a → ac_Digest a ≠ digest →
  Apply E i data f w =
    ((mkApplyResult (ms_Revision (fsm_state f)) (ms_LeaderEpoch (fsm_state f))
        "command_id %q was already applied with a different payload", f), w).
Proof.
  intros Hok Hcaps Hn Hdec Hid Hp Hc Hd Ha Hne.
  erewrite (Apply_known E i data f w); try done; [|by rewrite Hp|by rewrite Hc].
  rewrite bool_decide_eq_false_2; [done|]. destruct (so_applied _ _ Hok _ _ Ha) as [_ ?]. naive_solver.
Qed.

Lemma Apply_conflict_witness :
  Apply no_faults 2 (put "p" "k" 1 (JBool true)) led_p empty_disk
    = ((mkApplyResult 1 1 "command_id %q was already applied with a different payload", led_p), empty_disk).
Proof.
  refine (Apply_conflict no_faults 2 (put "p" "k" 1 (JBool true)) led_p empty_disk
    (mkCommand 1 1 "p" CommandPutMetadata None 1 (Some (JObj [("key", JStr "k"); ("value", JBool true)])) zero_time)
    _ (mkAppliedCommand 1 "other") led_p_ok eq_refl _ eq_refl _ eq_refl eq_refl eq_refl eq_refl _).
  - intros H. apply H. reflexivity.
  - discriminate.
  - discriminate.
Defined.

(** ** Fencing *)

(** C4: a write of another epoch never changes the state.  Whatever the log
    holds before it, a put, a batch, a snapshot or a gate change is without
    effect unless its epoch is the one in force when it is applied; so one with
    an epoch below one that was ever in force, as a deposed leader has, is
    without effect for good.  It is answered with an error, or as the replay of
    a command that had been applied before. *)
Theorem stale_leader_fenced (E : env) (log : list log_entry) (f : metadataFSM) (w : disk)
    (index : N) (data : option json) (command : Command) :
  fsm_ok f → (ms_Revision (fsm_state f) + N.of_nat (length log) < u64_max)%N →
  default_versions <$> Unmarshal dec_Command zero_Command data = Some command →
  c_Type command ≠ CommandAcquireLeadership →
  let '(f1, w1) := run E log f w in
  (c_LeaderEpoch command < ms_LeaderEpoch (fsm_state f))%N
    ∨ c_LeaderEpoch command ≠ ms_LeaderEpoch (fsm_state f1) ∨ ms_LeaderOwner (fsm_state f1) = "" →
  data_of (Apply E index data f1 w1).1.2 = data_of f1
  ∧ (ar_Error (Apply E index data f1 w1).1.1 = "" →
     ∃ a, ms_AppliedCommands (fsm_state f1) !! c_ID command = Some a
          ∧ ar_Revision (Apply E index data f1 w1).1.1 = ac_Revision a).
Proof.
  intros Hok Hlen Hdec Hty. pose proof (run_epoch E log f w Hok Hlen) as Hmono.
  destruct (run E log f w) as [f1 w1]. cbn [fst] in Hmono. intros Hep.
  assert (¬ fresh_epoch command (fsm_state f1)) as Hstale by (intros [Heq Hown]; naive_solver lia).
  destruct (Apply E index data f1 w1) as [[r f2] w2] eqn:Ha. cbn [fst snd].
  destruct (decide (faulted f2)) as [Hf|Hf].
  - split; [|intros He; by destruct (Apply_ok_not_faulted _ _ _ _ _ _ _ _ Ha He)].
    revert Hf. apply Apply_cases in Ha as [???? _ _ [Hd _] _ _ _|?|?? Hnf _ _]; [done|done|].
    intros Hf. by destruct Hnf.
  - apply Apply_decoded in Ha as (c & Hc & _ & _ & _ & Hcase); [|done].
    rewrite Hdec in Hc. injection Hc as <-. destruct Hcase as [[Hr ->]|(s & Hs & -> & _)].
    + split; [done|]. intros He. apply apply_command_Reply in Hr as [_ [[? _]|(a & digest & Ha & _ & _ & Hrev & _)]]; [done|].
      by exists a.
    + apply apply_command_Applied in Hs as (digest & s0 & -> & He & _). by destruct He.
Qed.

Lemma stale_leader_fenced_witness :
  let y := run no_faults [(2%N, acquire "b" "n2" 9)] led empty_disk in
  data_of (Apply no_faults 3 (put "p" "k" 0 JNull) y.1 y.2).1.2 = data_of y.1.
Proof.
  pose proof (stale_leader_fenced no_faults [(2%N, acquire "b" "n2" 9)] led empty_disk 3 (put "p" "k" 0 JNull)
    (mkCommand 1 1 "p" CommandPutMetadata None 0 (Some (JObj [("key", JStr "k"); ("value", JNull)])) zero_time)
    led_ok eq_refl eq_refl ltac:(discriminate)) as H.
  rewrite (surjective_pairing (run _ _ _ _)) in H. exact (proj1 (H (or_introl eq_refl))).
Defined.

(** ** Halting *)

(** C30: a halted node stays halted with its first fault: no log changes its
    replicated data, its fault or its disk, every entry is answered with an
    error, and it refuses to give a snapshot of its state. *)
Theorem halted_forever (E : env) (log : list log_entry) (f : metadataFSM) (w : disk) :
  faulted f →
  let '(f', w') := run E log f w in
  data_of f' = data_of f ∧ fsm_applyFault f' = fsm_applyFault f ∧ w' = w
  ∧ is_ok (Snapshot f') = false
  ∧ ∀ index data, ar_Error (Apply E index data f' w').1.1 ≠ "".
Proof.
  intros Hf. destruct (run E log f w) as [f' w'] eqn:Hrun.
  pose proof (run_faulted E log f w Hf) as (Hf' & Hd & Hft & Hw). rewrite Hrun in Hf', Hd, Hft, Hw. cbn [fst snd] in *.
  split_and!; try done.
  - unfold Snapshot. apply ApplyFault_faulted in Hf'. by rewrite Hf'.
  - intros index data. destruct (Apply E index data f' w') as [[r f2] w2] eqn:Ha.
    by destruct (Apply_faulted E index data f' w' r f2 w2 Hf' Ha).
Qed.

Lemma halted_forever_witness :
  let x := Apply no_faults 1 None n1 empty_disk in
  let y := run no_faults [(2%N, acquire "a" "n1" 7)] x.1.2 x.2 in
  data_of y.1 = data_of x.1.2 ∧ fsm_applyFault y.1 = mkFSMApplyFault 1 "decode command: %v".
Proof.
  intros x y. pose proof (halted_forever no_faults [(2%N, acquire "a" "n1" 7)] x.1.2 x.2) as H.
  rewrite (surjective_pairing (run _ _ _ _)) in H.
  destruct H as (H1 & H2 & _); [discriminate|]. split; [exact H1|].
  etrans; [exact H2|]. reflexivity.
Defined.

(** ** Rolling upgrades *)

(** The answers to the entries of a log. *)
Fixpoint answers (E : env) (log : list log_entry) (f : metadataFSM) (w : disk) : list applyResult :=
  match log with
  | [] => []
  | (index, data) :: log =>
      let '((r, f), w) := Apply E index data f w in r :: answers E log f w
  end.

(** C5: two replicas that start from the same state and apply the same log,
    with any capabilities and any disks, never diverge: if the first never
    halts, then up to the entry at which the second halts both give the same
    answers, and the second holds the data they then have for good; and over
    the whole log if the second does not halt. *)
Theorem replicas_agree (E1 E2 : env) (log : list log_entry) (f1 f2 : metadataFSM) (w1 w2 : disk) :
  fsm_state f1 = fsm_state f2 → ¬ faulted (run E1 log f1 w1).1 →
  (∃ log1, log1 `prefix_of` log
     ∧ (log1 = log ∨ ∃ e, (log1 ++ [e]) `prefix_of` log ∧ faulted (run E2 (log1 ++ [e]) f2 w2).1)
     ∧ answers E2 log1 f2 w2 = answers E1 log1 f1 w1
     ∧ data_of (run E2 log f2 w2).1 = data_of (run E1 log1 f1 w1).1)
  ∧ (¬ faulted (run E2 log f2 w2).1 →
     answers E2 log f2 w2 = answers E1 log f1 w1
     ∧ fsm_state (run E2 log f2 w2).1 = fsm_state (run E1 log f1 w1).1).
Proof.
  revert f1 f2 w1 w2. induction log as [|[i d] log IH]; intros f1 f2 w1 w2 Hs Hn.
  { split; [|done]. exists []. split_and!; [done|by left|done|]. unfold data_of. simpl. by rewrite Hs. }
  cbn [run answers] in Hn |- *.
  destruct (Apply E1 i d f1 w1) as [[r1 f1'] w1'] eqn:H1.
  destruct (Apply E2 i d f2 w2) as [[r2 f2'] w2'] eqn:H2.
  pose proof (run_not_faulted E1 log f1' w1' Hn) as Hn1.
  destruct (decide (faulted f2')) as [Hf2|Hn2].
  - pose proof (run_faulted E2 log f2' w2' Hf2) as (Hf3 & Hd3 & _).
    split; [|done]. exists []. split_and!; [apply prefix_nil| |done|].
    { right. exists (i, d). simpl. rewrite H2. split; [by apply prefix_cons, prefix_nil|done]. }
    simpl. rewrite Hd3.
    revert Hf2. apply Apply_cases in H2 as [???? _ _ [Hd _] _ _ _|?|?? Hnf _ _]; [|done|].
    + intros _. unfold data_of in *. by rewrite Hd, Hs.
    + intros Hf2. by destruct Hnf.
  - destruct (Apply_agree _ _ _ _ _ _ _ _ _ _ _ _ _ _ Hs H1 H2 Hn1 Hn2) as [-> Hs'].
    destruct (IH f1' f2' w1' w2' Hs' Hn) as [(log1 & Hp & Hend & Ha & Hd) Hall]. split.
    + exists ((i, d) :: log1). cbn [run answers app]. rewrite H1, H2. split_and!; [by apply prefix_cons| |by rewrite Ha|done].
      destruct Hend as [->|(e & He & Hfe)]; [by left|right]. exists e. split; [by apply prefix_cons|done].
    + intros Hn2'. destruct (Hall Hn2') as [Ha' Hs2]. by rewrite Ha'.
Qed.

(** A node of the previous version: it supports the legacy schemas only. *)
Definition old_node : metadataFSM :=
  mkMetadataFSM (fsm_state led)
    (mkNodeCapabilities 1 (mkVersionRange 1 1) (mkVersionRange 1 1) (mkVersionRange 1 1) (mkVersionRange 1 1))
    no_fault "" "".
Definition activate (id : string) (epoch : N) (gate : CapabilityGate) : option json :=
  entry id CommandActivateCapabilities epoch (JObj [("gate", enc_CapabilityGate gate)]).
Definition gate3 : CapabilityGate := mkCapabilityGate 1 1 2 {[ "*" := 2%N ]} 3 3.

Lemma replicas_agree_witness :
  let log := [(2%N, put "p" "k" 1 JNull); (3%N, activate "g" 1 gate3); (4%N, put "q" "k" 1 JNull)] in
  ∃ log1, log1 `prefix_of` log ∧ answers no_faults log1 old_node empty_disk = answers no_faults log1 led empty_disk ∧
     data_of (run no_faults log old_node empty_disk).1 = data_of (run no_faults log1 led empty_disk).1.
Proof.
  intros log.
  destruct (proj1 (replicas_agree no_faults no_faults log led old_node empty_disk empty_disk eq_refl
    (λ H, H ltac:(reflexivity)))) as (log1 & Hp & _ & Ha & Hd).
  exists log1. split; [exact Hp|]. split; [exact Ha|exact Hd].
Defined.

(** ** Snapshots of the cluster *)

(** under a gate that demands monotone sequences, an entry that moves the
    active snapshot installs a manifest of the current leader epoch whose
    sequence is 1, or one more than that of the snapshot that was active;
    together with its epoch it is greater than every earlier one. *)
Theorem snapshot_sequence_step (E : env) (index : N) (data : option json) (f f' : metadataFSM)
    (w w' : disk) (r : applyResult) :
  fsm_ok f → Apply E index data f w = ((r, f'), w') →
  (CapabilityLevelMonotonicSnapshotSequence ≤ cg_MinimumVoterCapability (ms_CapabilityGate (fsm_state f)))%N →
  (ms_ActiveSnapshot (fsm_state f'), ms_ActiveSnapshotIndex (fsm_state f'))
    ≠ (ms_ActiveSnapshot (fsm_state f), ms_ActiveSnapshotIndex (fsm_state f)) →
  ∃ m', ms_Snapshots (fsm_state f') !! ms_ActiveSnapshot (fsm_state f') = Some m'
    ∧ ms_ActiveSnapshotIndex (fsm_state f') = index
    ∧ g_LeaderEpoch (m_Generation m') = ms_LeaderEpoch (fsm_state f)
    ∧ ((ms_ActiveSnapshot (fsm_state f) = "" ∧ g_Sequence (m_Generation m') = 1%N)
       ∨ ∃ m, ms_Snapshots (fsm_state f) !! ms_ActiveSnapshot (fsm_state f) = Some m
           ∧ g_Sequence (m_Generation m') = u64_succ (g_Sequence (m_Generation m))
           ∧ g_Sequence (m_Generation m) ≠ u64_max
           ∧ (g_LeaderEpoch (m_Generation m) ≤ g_LeaderEpoch (m_Generation m'))%N).
Proof.
  intros Hok H Hgate. apply Apply_cases in H as [r0 f0 w0 _ _ _ [Hd _] _ _ _|?|command s _ _ Hc]; [|done|].
  { pose proof (f_equal ms_ActiveSnapshot Hd) as H1. pose proof (f_equal ms_ActiveSnapshotIndex Hd) as H2.
    simpl in *. congruence. }
  apply apply_command_Applied in Hc as (digest & s0 & -> & He & _).
  rewrite (proj1 (so_gate _ _ Hok)) in He. simpl.
  destruct He as [| | | |p manifest hash _ _ _ _ _ Hep Hseq _ _ _|]; try done. intros _. simpl.
  exists manifest. split_and!; [apply lookup_insert_eq|done|done|].
  specialize (Hseq Hgate). unfold next_sequence in Hseq.
  destruct (str_eqb (ms_ActiveSnapshot (fsm_state f)) "") eqn:Ha; bool_simpl; [by left|right].
  destruct Hseq as (m & Hm & Hmax & Hnext). exists m. split_and!; try done.
  rewrite Hep. by apply (so_snapshots _ _ Hok _ _ Hm).
Qed.

(** The machine [led] under [gate3], and a first snapshot for it. *)
Definition led3 : metadataFSM := set_fsm_state (set_gate gate3 (fsm_state led)) led.
Definition first_hash : string :=
  HashPrefixSHA256 +:+ sha256_hex (json_text (enc_struct [
    field "schema_version" (enc_uint 2); field "generation" (enc_Generation (mkGeneration "c" 1 1 ""));
    field "voter_configuration_index" (enc_uint 0); field "created_at" (JStr "0001-01-01T00:00:00Z");
    field "datasets" JNull])).
Definition first_manifest : Manifest :=
  mkManifest 2 (mkGeneration "c" 1 1 first_hash) 0 zero_time None.
Definition commit_first_payload : json :=
  JObj [("manifest", JObj [("schema_version", enc_uint 2);
    ("generation", JObj [("cluster_id", JStr "c"); ("leader_epoch", enc_uint 1);
       ("sequence", enc_uint 1); ("manifest_hash", JStr first_hash)])])].
Definition commit_first : option json := entry "s" CommandCommitSnapshot 1 commit_first_payload.

Lemma led3_ok : fsm_ok led3.
Proof. constructor; simpl; done. Qed.

Lemma commit_first_applies : ∃ digest,
  Apply no_faults 5 commit_first led3 empty_disk =
    ((mkApplyResult 1 1 "",
      set_fsm_state (commit_command "s" digest (set_snapshot first_hash first_manifest 5 (fsm_state led3))) led3),
     empty_disk).
Proof.
  set (command := mkCommand 1 1 "s" CommandCommitSnapshot None 1 (Some commit_first_payload) zero_time).
  assert (∃ digest, commandDigest command = Ok digest) as [digest Hd] by (eexists; reflexivity).
  assert (apply_type 5 SupportedNodeCapabilities (normalizeCapabilityGate gate3) command (fsm_state led3)
    = Commit (set_snapshot first_hash first_manifest 5 (fsm_state led3))) as Ht.
  { apply (apply_commit_snapshot_ok 5 (normalizeCapabilityGate gate3) command (fsm_state led3)
      first_manifest first_hash); try reflexivity.
    split; [reflexivity|discriminate]. }
  pose proof (apply_command_fresh 5 SupportedNodeCapabilities command (fsm_state led3) digest
    eq_refl eq_refl eq_refl eq_refl Hd eq_refl ltac:(discriminate)) as Hc.
  change (ms_CapabilityGate (fsm_state led3)) with gate3 in Hc. rewrite Ht in Hc.
  exists digest. rewrite (Apply_command no_faults 5 commit_first led3 empty_disk command);
    [|reflexivity|discriminate|intros H; apply H; reflexivity].
  change (fsm_capabilities led3) with SupportedNodeCapabilities. rewrite Hc. reflexivity.
Qed.

Lemma snapshot_sequence_step_witness :
  let x := Apply no_faults 5 commit_first led3 empty_disk in
  ∃ m', ms_Snapshots (fsm_state x.1.2) !! ms_ActiveSnapshot (fsm_state x.1.2) = Some m'
    ∧ ms_ActiveSnapshotIndex (fsm_state x.1.2) = 5%N.
Proof.
  intros x. destruct commit_first_applies as [digest Hx].
  destruct (snapshot_sequence_step no_faults 5 commit_first led3 x.1.2 empty_disk x.2 x.1.1 led3_ok
    (triple_eta _)) as (m' & Hm & Hi & _).
  - vm_compute. discriminate.
  - unfold x. rewrite Hx. discriminate.
  - exists m'. split; [exact Hm|exact Hi].
Defined.

(** ** Batches *)

(** a batch under the current epoch stores all its values, as the single
    puts would in any order, or, when a key is empty or there is none, is
    rejected as a whole. *)
Theorem batch_all_or_nothing (command : Command) (s : MetadataState) (payload : putMetadataBatchPayload)
    (puts : list (string * RawMessage)) :
  fresh_epoch command s →
  Unmarshal dec_putMetadataBatchPayload (mkPutMetadataBatchPayload ∅) (c_Payload command) = Some payload →
  puts ≡ₚ map_to_list (pb_Values payload) →
  let one kv s := set_values (<[ kv.1 := kv.2 ]> (ms_Values s)) s in
  apply_put_metadata_batch command s =
    if bool_decide (pb_Values payload = ∅) then Reject "metadata batch values are required"
    else if bool_decide (pb_Values payload !! "" = None) then Commit (foldr one s puts)
    else Reject "metadata key is required".
Proof.
  intros Hf Hu Hp one. unfold apply_put_metadata_batch. apply stale_epoch_spec in Hf. rewrite Hf, Hu.
  destruct (bool_decide (pb_Values payload = ∅)); [done|].
  destruct (rfold _ _ _) as [v|e] eqn:Hr; apply validated_values in Hr;
    destruct (bool_decide (pb_Values payload !! "" = None)); try done; [|by injection Hr as ->].
  injection Hr as ->. f_equal.
  assert (∀ l, foldr one s l =
    set_values (foldr (λ kv values, <[ kv.1 := kv.2 ]> values) (ms_Values s) l) s) as Hone.
  { induction l as [|kv l IH]; [by destruct s|]. cbn [foldr]. by rewrite IH. }
  rewrite Hone. f_equal. rewrite !foldr_insert_union. f_equal.
  assert (NoDup puts.*1) as Hnd.
  { rewrite Hp. apply NoDup_fst_map_to_list. }
  apply list_to_map_proper; [apply NoDup_fst_map_to_list|by symmetry].
Qed.

Lemma batch_all_or_nothing_witness :
  let payload := JObj [("values", JObj [("a", JNull); ("b", JBool true)])] in
  apply_put_metadata_batch (mkCommand 1 1 "b" CommandPutMetadataBatch None 1 (Some payload) zero_time)
      (fsm_state led)
    = Commit (foldr (λ kv s, set_values (<[ kv.1 := kv.2 ]> (ms_Values s)) s) (fsm_state led)
        [("b", Some (JBool true)); ("a", Some JNull)]).
Proof.
  intros payload.
  refine (batch_all_or_nothing _ (fsm_state led)
    (mkPutMetadataBatchPayload {[ "a" := Some JNull; "b" := Some (JBool true) ]}) _ _ _ _).
  - split; [reflexivity|discriminate].
  - reflexivity.
  - vm_compute. constructor.
Defined.

(** ** The digest *)

(** the digest reads the payload through float64 numbers.  Two puts of one
    id whose values differ only beyond 2^53 have one digest: the second is
    answered as a replay of the first, with success, and its value is lost. *)
Theorem different_payload_accepted (E : env) (i j : N) (w : disk) :
  let first := put "p" "k" 1 (JNum "9007199254740992") in
  let second := put "p" "k" 1 (JNum "9007199254740993") in
  let '((r1, f1), w1) := Apply E i first led w in
  let '((r2, f2), w2) := Apply E j second f1 w1 in
  ar_Error r1 = "" ∧ ar_Error r2 = "" ∧ f2 = f1
  ∧ ms_Values (fsm_state f2) !! "k" = Some (Some (JNum "9007199254740992")).
Proof.
  intros first second.
  set (command n := mkCommand 1 1 "p" CommandPutMetadata None 1
    (Some (JObj [("key", JStr "k"); ("value", JNum n)])) zero_time).
  set (payload n := JObj [("key", JStr "k"); ("value", JNum n)]).
  assert (canonical_any (payload "9007199254740992") = Some (payload "9007199254740992")) as H1
    by (vm_compute; reflexivity).
  assert (canonical_any (payload "9007199254740993") = Some (payload "9007199254740992")) as H2
    by (vm_compute; reflexivity).
  assert (∃ digest, commandDigest (command "9007199254740992") = Ok digest
    ∧ commandDigest (command "9007199254740993") = Ok digest) as (digest & Hd & Hd2).
  { unfold commandDigest, command. cbn [c_Payload]. fold (payload "9007199254740992").
    fold (payload "9007199254740993"). rewrite H1, H2. eexists. split; reflexivity. }
  assert (¬ faulted led) as Hn by (intros H; apply H; reflexivity).
  assert (Apply E i first led w = ((mkApplyResult 1 1 "",
    set_fsm_state (commit_command "p" digest (set_values {[ "k" := Some (JNum "9007199254740992") ]}
      (fsm_state led))) led), w)) as ->.
  { rewrite (Apply_command E i first led w (command "9007199254740992")) by first [exact Hn|reflexivity|discriminate].
    pose proof (apply_command_fresh i SupportedNodeCapabilities (command "9007199254740992")
      (fsm_state led) digest eq_refl eq_refl eq_refl eq_refl Hd eq_refl ltac:(discriminate)) as Hc.
    change (fsm_capabilities led) with SupportedNodeCapabilities. rewrite Hc. reflexivity. }
  set (f1 := set_fsm_state _ led).
  assert (fsm_ok f1) as Hok.
  { exact (commit_ok SupportedNodeCapabilities "p" digest _ (set_values_ok _ _ _ led_ok) eq_refl
      (commandDigest_nonempty _ _ Hd) eq_refl). }
  pose proof (Apply_known E j second f1 w (command "9007199254740993") digest (mkAppliedCommand 1 digest)
    Hok eq_refl Hn eq_refl ltac:(discriminate) Hd2 eq_refl eq_refl eq_refl) as ->.
  rewrite bool_decide_eq_true_2 by (by right).
  exact (conj eq_refl (conj eq_refl (conj eq_refl eq_refl))).
Qed.

(** ** Restart *)

(** a fault that was persisted without error halts the next process that
    opens the same file, with the same index and message. *)
Theorem fault_survives_restart (E E' : env) (clusterID : string) (index : N) (message : string)
    (f f' : metadataFSM) (r : applyResult) (w w' : disk) :
  (∀ t e, io_fault E t = Some e → e ≠ "") →
  fsm_faultFile f ≠ "" →
  has_prefix (filepath_Join (dir_of (fsm_faultFile f)) ".fsm-apply-fault-") (fsm_faultFile f) = false →
  (index < u64_bound)%N → message ≠ "" → utf8_fix message = message → ¬ faulted f →
  recordApplyFaultLocked E index message f w = ((r, f'), w') → fsm_faultPersistError f' = "" →
  io_fault E' (w_ticks w') = None →
  ∃ f'' w'', configureApplyFaultFile E' (fsm_faultFile f) (newMetadataFSM clusterID) w' = (Ok f'', w'')
    ∧ faulted f'' ∧ fsm_applyFault f'' = mkFSMApplyFault index message
    ∧ ms_ApplyFault (fsm_state f'') = Some (mkFSMApplyFault index message).
Proof.
  intros HE Hfile Hname Hi Hm Hutf Hn H Hpe Hread.
  unfold recordApplyFaultLocked in H.
  assert (ff_Error (fsm_applyFault f) = "") as Hf0 by (destruct (decide (ff_Error (fsm_applyFault f) = "")); done).
  rewrite Hf0, str_eqb_refl in H.
  pose proof (wp_persist E (fsm_faultFile f) (mkFSMApplyFault index message) w Hfile Hname) as Hw.
  unfold wp in Hw.
  pose proof (persist_says_why E (fsm_faultFile f) (mkFSMApplyFault index message) w HE) as Hwhy.
  destruct (persistFSMApplyFault E _ _ w) as [res w1]. injection H as _ <- <-. simpl in *.
  destruct res as [[]|e]; [|by destruct (Hwhy e eq_refl Hpe)]. specialize (Hw eq_refl).
  unfold configureApplyFaultFile, read_file, sys. rewrite Hread. cbn [w_vol]. rewrite Hw. cbn [f_data].
  unfold Unmarshal. rewrite dec_enc_fault by done. unfold cloneFSMApplyFaultPtr. cbn [ff_Error].
  rewrite str_eqb_neq by done. eexists _, _. split; [done|]. by split_and!.
Qed.

Lemma fault_survives_restart_witness :
  let f := mkMetadataFSM (fsm_state n1) SupportedNodeCapabilities no_fault "" "raft/fsm-apply-fault.json" in
  let x := recordApplyFaultLocked no_faults 4 "decode command: %v" f empty_disk in
  ∃ f'' w'', configureApplyFaultFile no_faults "raft/fsm-apply-fault.json" (newMetadataFSM "c") x.2 = (Ok f'', w'')
    ∧ faulted f''.
Proof.
  intros f x.
  refine (match fault_survives_restart no_faults no_faults "c" 4 "decode command: %v" f x.1.2 x.1.1 empty_disk x.2
    _ _ _ _ _ _ _ (triple_eta _) _ eq_refl with
    | ex_intro _ f'' (ex_intro _ w'' (conj H1 (conj H2 _))) => ex_intro _ f'' (ex_intro _ w'' (conj H1 H2)) end);
    try discriminate; try (vm_compute; reflexivity).
  intros H. apply H. reflexivity.
Defined.
