(* ===== verification/FsmCodec.v ===== *)
(** * FsmCodec: snapshots of the replicated state

    The state [Persist] writes is the state [Restore] installs. *)
From S2P Require Import Prelude Text Io Json GoTime GoTimeProofs Capability Config Manifest Codec.
From S2P Require Import Fsm FsmProofs FsmSpec.
From stdpp Require Import options.

(** A state that is written without loss. *)
Record state_wire (s : MetadataState) : Prop := {
  tw_cluster : valid_utf8 (ms_ClusterID s);
  tw_revision : (ms_Revision s < u64_bound)%N;
  tw_epoch : (ms_LeaderEpoch s < u64_bound)%N;
  tw_owner : valid_utf8 (ms_LeaderOwner s);
  tw_term : (ms_LastLeadershipTerm s < u64_bound)%N;
  tw_values : ∀ k v, ms_Values s !! k = Some v → valid_utf8 k ∧ is_Some v;
  tw_snapshots : ∀ k m, ms_Snapshots s !! k = Some m → valid_utf8 k ∧ manifest_wire m;
  tw_active : valid_utf8 (ms_ActiveSnapshot s);
  tw_index : (ms_ActiveSnapshotIndex s < u64_bound)%N;
  tw_gate : gate_wire (ms_CapabilityGate s);
  tw_applied : ∀ k a, ms_AppliedCommands s !! k = Some a →
    valid_utf8 k ∧ (ac_Revision a < u64_bound)%N ∧ valid_utf8 (ac_Digest a);
}.

Lemma dec_enc_AppliedCommand a cur :
  (ac_Revision a < u64_bound)%N → valid_utf8 (ac_Digest a) → dec_AppliedCommand (enc_AppliedCommand a) cur = Some a.
Proof.
  destruct a, cur. intros Hr Hd. cbn in Hr, Hd. unfold dec_AppliedCommand, enc_AppliedCommand. do 2 dec_member. done.
Qed.

Lemma dec_enc_raw r cur : is_Some r → dec_raw (enc_raw r) cur = Some r.
Proof. by intros [j ->]. Qed.

(** The applied commands are kept raw by the first decoding. *)
Definition raw_applied (s : MetadataState) : RawMessage :=
  if bool_decide (ms_AppliedCommands s = ∅) then None else Some (enc_map enc_AppliedCommand (ms_AppliedCommands s)).

Lemma dec_enc_raw_state s j :
  state_wire s → ms_ApplyFault s = None → enc_MetadataState s = Ok j →
  dec_raw_state j (zero_MetadataState, None) =
    Some (mkMetadataState (ms_ClusterID s) (ms_Revision s) (ms_LeaderEpoch s) (ms_LeaderOwner s)
            (ms_LastLeadershipTerm s) (ms_Values s) (ms_Snapshots s) (ms_ActiveSnapshot s)
            (ms_ActiveSnapshotIndex s) (ms_CapabilityGate s) None ∅, raw_applied s).
Proof.
  unfold raw_applied. destruct s as [ci re ep ow te va sn ac ai ga fa ap].
  intros [Hci Hre Hep How Hte Hva Hsn Hac Hai Hga Hap] Hfa. cbn in Hci, Hre, Hep, How, Hte, Hva, Hsn, Hac, Hai, Hga, Hap, Hfa.
  subst fa. unfold enc_MetadataState. rewrite rbind_Ok. intros (snj & Hsnj & [= <-]).
  cbn [ms_ClusterID ms_Revision ms_LeaderEpoch ms_LeaderOwner ms_LastLeadershipTerm ms_Values ms_Snapshots
    ms_ActiveSnapshot ms_ActiveSnapshotIndex ms_CapabilityGate ms_ApplyFault ms_AppliedCommands] in *.
  unfold dec_raw_state, zero_MetadataState. do 3 dec_member.
  dec_optional. dec_member.
  assert (dec_map None dec_raw (enc_map enc_raw va) ∅ = Some va) as Hdva.
  { apply dec_enc_map. intros k v Hk. destruct (Hva k v Hk). split; [done|by apply dec_enc_raw]. }
  assert (dec_map zero_Manifest dec_Manifest snj ∅ = Some sn) as Hdsn.
  { unfold dec_map. erewrite (dec_enc_gomap enc_Manifest dec_Manifest zero_Manifest sn); [reflexivity|done| |exact Hsnj].
    intros k m Hk. destruct (Hsn k m Hk). split; [done|]. intros. by apply dec_enc_Manifest. }
  dec_optional_by ltac:(exact Hdva). dec_optional_by ltac:(exact Hdsn).
  dec_optional. dec_member. dec_member; [by apply dec_enc_CapabilityGate|].
  apply dec_fields_unless; intros Hap0; rewrite Hap0; [done|]. dec_member; [reflexivity|]. done.
Qed.


Lemma UnmarshalJSON_enc s j :
  state_wire s → ms_ApplyFault s = None → normalizeCapabilityGate (ms_CapabilityGate s) = ms_CapabilityGate s →
  enc_MetadataState s = Ok j → UnmarshalJSON_state j = Some s.
Proof.
  intros Hw Hf Hg Hj. unfold UnmarshalJSON_state. rewrite (dec_enc_raw_state s j Hw Hf Hj).
  cbn [ms_ClusterID ms_Revision ms_LeaderEpoch ms_LeaderOwner ms_LastLeadershipTerm ms_Values ms_Snapshots
    ms_ActiveSnapshot ms_ActiveSnapshotIndex ms_CapabilityGate ms_ApplyFault ms_AppliedCommands].
  rewrite Hg. unfold raw_applied. destruct (bool_decide (ms_AppliedCommands s = ∅)) eqn:He; bool_simpl.
  - destruct s. cbn in *. by subst.
  - unfold enc_map at 1. rewrite dec_enc_map.
    + destruct s. cbn in *. by subst.
    + intros k a Hk. destruct (tw_applied _ Hw k a Hk) as (Hkey & Hr & Hd). split; [done|by apply dec_enc_AppliedCommand].
Qed.

(** What [Restore] makes of what [Persist] wrote. *)
Lemma Restore_written (E : env) (f g : metadataFSM) (s : MetadataState) (w : disk) (data : json)
    (write_sink close_sink : json → result unit) :
  Snapshot f = Ok s → state_wire s → ms_ApplyFault s = None →
  Persist write_sink close_sink s = (Ok tt, SinkClosed data) →
  Restore E (Some data) g w =
    if negb (str_eqb (ms_ClusterID s) (ms_ClusterID (fsm_state g)))
    then ((Err "snapshot cluster_id %q does not match configured cluster_id %q", g), w)
    else ((Ok tt, set_fsm_state (if bool_decide (faulted g)
                                 then set_state_fault (Some (fsm_applyFault g)) s else s) g), w).
Proof.
  intros Hs Hw Hf Hp. assert (normalizeCapabilityGate (ms_CapabilityGate s) = ms_CapabilityGate s) as Hg.
  { unfold Snapshot in Hs. destruct (ApplyFault f).2; [done|]. injection Hs as <-. apply normalize_idemp. }
  unfold Persist in Hp. destruct (enc_MetadataState s) as [j|e] eqn:Hj; [|done].
  destruct (write_sink j) as [[]|e]; [|done]. injection Hp as _ <-.
  unfold Restore. rewrite (UnmarshalJSON_enc s j Hw Hf Hg Hj). destruct (negb _); [done|].
  assert (set_gate (normalizeCapabilityGate (ms_CapabilityGate s))
    (set_state_fault (cloneFSMApplyFaultPtr (ms_ApplyFault s)) s) = s) as ->
    by (rewrite Hg, Hf; destruct s; cbn in *; by subst).
  rewrite Hf. assert (ApplyFault g = (fsm_applyFault g, (ApplyFault g).2)) as -> by done.
  case_bool_decide as Hfault.
  - rewrite (proj2 (ApplyFault_faulted g) Hfault). unfold cloneFSMApplyFaultPtr. by rewrite str_eqb_neq.
  - by rewrite (proj2 (ApplyFault_not_faulted g) Hfault).
Qed.

(** C36: snapshots transfer the whole state.  What a healthy machine snapshots and
    [Persist] writes is installed by [Restore] on any machine of the same
    cluster, as it was, whatever that machine held; a machine that was halted
    stays halted by its own fault; a machine of another cluster refuses it and
    changes nothing. *)
Theorem Persist_Restore (E : env) (f g : metadataFSM) (s : MetadataState) (w : disk) (data : json)
    (write_sink close_sink : json → result unit) :
  Snapshot f = Ok s → state_wire s → ms_ApplyFault s = None →
  Persist write_sink close_sink s = (Ok tt, SinkClosed data) →
  Restore E (Some data) g w =
    if negb (str_eqb (ms_ClusterID s) (ms_ClusterID (fsm_state g)))
    then ((Err "snapshot cluster_id %q does not match configured cluster_id %q", g), w)
    else ((Ok tt, set_fsm_state (if bool_decide (faulted g)
                                 then set_state_fault (Some (fsm_applyFault g)) s else s) g), w).
Proof. apply Restore_written. Qed.

(** The machine [led_p], with a value, moved to a fresh machine. *)
Definition led_v : metadataFSM :=
  set_fsm_state (set_values {[ "k" := Some (JNum "1.50") ]} (fsm_state led_p)) led_p.

Lemma led_v_wire : state_wire (State led_v).
Proof.
  constructor; try done.
  - intros k v Hk. change (({[ "k" := Some (JNum "1.50") ]} : gmap string RawMessage) !! k = Some v) in Hk.
    apply lookup_singleton_Some in Hk as [<- <-]. split; [reflexivity|by eexists].
  - constructor; try done. intros k v Hk.
    change (({[ "*" := 1%N ]} : gmap string N) !! k = Some v) in Hk. by apply lookup_singleton_Some in Hk as [<- <-].
  - intros k a Hk. change (({[ "p" := mkAppliedCommand 1 "other" ]} : gmap string AppliedCommand) !! k = Some a) in Hk.
    apply lookup_singleton_Some in Hk as [<- <-]. by split.
Qed.

Lemma Persist_Restore_witness :
  ∃ data, Persist (λ _, Ok tt) (λ _, Ok tt) (State led_v) = (Ok tt, SinkClosed data)
  ∧ Restore no_faults (Some data) n1 empty_disk = ((Ok tt, set_fsm_state (State led_v) n1), empty_disk).
Proof.
  eexists. split; [vm_compute; reflexivity|].
  apply (Persist_Restore no_faults led_v n1 (State led_v) empty_disk _ (λ _, Ok tt) (λ _, Ok tt));
    [reflexivity|apply led_v_wire|reflexivity|vm_compute; reflexivity].
Defined.

(** A manifest with the null map of datasets, which [PublishSnapshot] and [Apply]
    accept, is recorded under the hash of its JSON with null.  Every clone of the
    state, so every snapshot of it, has the empty map instead, whose JSON has
    another hash: a machine restored from the snapshot keeps the manifest under a
    hash that is not its own, unlike a machine that replayed the log. *)
Theorem null_datasets_rehash :
  let m := mkManifest 1 (mkGeneration "c" 1 1 "") 0 (Time_ 0 0) None in
  ∃ h h', ComputeManifestHash m = Ok h ∧ ComputeManifestHash (cloneManifest (with_manifest_hash h m)) = Ok h' ∧ h ≠ h'.
Proof.
  intros m. eexists _, _. split; [vm_compute; reflexivity|]. split; [vm_compute; reflexivity|]. discriminate.
Qed.
