(* ===== verification/Node.v ===== *)
(** * Node: the state of a running node and its business leadership (node.go)

    A [Node] holds the configuration, the cached [Status], the handles of the
    state machine and of the blob store, and the bookkeeping of subscribers,
    staging blobs and pending members.  Its operations are run one after the
    other, in the state-and-error monad [st Node].

    hashicorp/raft is not under src/: what a node reads of its local instance
    is [raft_view], and its calls are the class [Raft].  A call may let other
    entries be applied, elections happen and time pass: it yields any node
    that [moves] allows ([RaftLaws] states this and what [Apply] answers).
    Peers are reached through [Peers], the answers of their internal API. *)
From S2P Require Import Prelude Text Io Sha256 Json GoTime Duration Config Peers Capability Manifest.
From S2P Require Import BlobStore Fsm FsmProofs.
From stdpp Require Import options.
From Stdlib Require Import Ascii.
#[local] Open Scope io_scope.

Definition RoleDisabled : string := "disabled".
Definition RoleStandalone : string := "standalone".
Definition RoleFollower : string := "follower".
Definition RoleLeaderWarming : string := "leader_warming".
Definition RoleLeader : string := "leader".
Definition ReadinessReady : string := "ready".
Definition ReadinessNotReady : string := "not_ready".
Definition ErrNotBusinessLeader : error := "node does not hold valid business leadership".
Definition ErrNodeNotStarted : error := "cluster node is not started".
Definition ErrProxyUnavailable : error := "verified leader proxy is unavailable".
Definition ErrNotExist : error := "file does not exist".

Record Status := mkStatus {
  st_Enabled : bool;
  st_Ready : bool;
  st_Readiness : string;
  st_Reason : string;
  st_ClusterID : string;
  st_NodeID : string;
  st_Role : string;
  st_LeaderID : string;
  st_LeaderAddress : string;
  st_LeaderEpoch : N;
  st_Term : N;
  st_CommitIndex : N;
  st_AppliedIndex : N;
  st_HasQuorum : bool;
  st_QuorumVerifiedAt : time;
  st_LastLeaderContactAt : time;
  st_ReadConsistency : string;
  st_EmergencyStaleRead : bool;
  st_MaxLeaderContactAge : string;
  st_MaxQuorumVerificationAge : string;
  st_CommittedGeneration : Generation;
  st_CommittedGenerationIndex : N;
  st_AvailableGenerations : list Generation;
  st_ProtocolVersion : N;
  st_CommandVersion : N;
  st_Capabilities : NodeCapabilities;
  st_ActiveCapabilityGate : CapabilityGate;
  st_LeaderEligible : bool;
  st_FSMHealthy : bool;
  st_FSMRevision : N;
  st_FSMApplyError : string;
  st_FSMApplyErrorIndex : N;
  st_FSMApplyPersistError : string;
}.

(** A status whose other fields are zero. *)
Definition start_status (enabled ready : bool) (readiness reason cluster node role consistency : string)
    (stale : bool) (contact quorum : string) : Status := {|
  st_Enabled := enabled; st_Ready := ready; st_Readiness := readiness; st_Reason := reason;
  st_ClusterID := cluster; st_NodeID := node; st_Role := role; st_LeaderID := ""; st_LeaderAddress := "";
  st_LeaderEpoch := 0; st_Term := 0; st_CommitIndex := 0; st_AppliedIndex := 0; st_HasQuorum := false;
  st_QuorumVerifiedAt := zero_time; st_LastLeaderContactAt := zero_time;
  st_ReadConsistency := consistency; st_EmergencyStaleRead := stale;
  st_MaxLeaderContactAge := contact; st_MaxQuorumVerificationAge := quorum;
  st_CommittedGeneration := zero_Generation; st_CommittedGenerationIndex := 0;
  st_AvailableGenerations := []; st_ProtocolVersion := 0; st_CommandVersion := 0;
  st_Capabilities := zero_NodeCapabilities; st_ActiveCapabilityGate := zero_CapabilityGate;
  st_LeaderEligible := false; st_FSMHealthy := false; st_FSMRevision := 0; st_FSMApplyError := "";
  st_FSMApplyErrorIndex := 0; st_FSMApplyPersistError := "" |}.
Definition zero_Status : Status := start_status false false "" "" "" "" "" "" false "" "".

Record LeadershipEvent := mkLeadershipEvent { le_Active : bool; le_Epoch : N; le_Reason : string }.

(** ** The local Raft instance *)

Inductive Suffrage : Type := Voter | Nonvoter | Staging.
Record Server := mkServer { sv_Suffrage : Suffrage; sv_ID : string; sv_Address : string }.

#[export] Instance Suffrage_eq_dec : EqDecision Suffrage.
Proof. solve_decision. Defined.

(** What [State], [Stats], [LeaderWithID] and [GetConfiguration] answer. *)
Record raft_view := mkRaftView {
  rv_IsLeader : bool;
  rv_Stats : gmap string string;
  rv_LeaderAddr : string;
  rv_LeaderID : string;
  rv_Configuration : result (N * list Server);
}.

(** [parseUint(stats[key])]. *)
Definition parseUint (value : string) : N := default 0%N (ParseUint u64_bound value).
Definition stat (r : raft_view) (key : string) : N := parseUint (default "" (rv_Stats r !! key)).

(** ** What a node exchanges with Raft and with its peers *)

Inductive configuration_change : Type :=
| AddNonvoter (id addr : string)
| AddVoter (id addr : string)
| RemoveServer_ (id : string).

(** A request to the internal API of a peer. *)
Record request := mkRequest {
  rq_Method : string;
  rq_URL : string;
  rq_Header : list (string * string);
  rq_Body : string;
}.

(** The answer to [join/prepare]. *)
Record join_prepared := mkJoinPrepared {
  jp_ClusterID : string;
  jp_NodeID : string;
  jp_RaftAdvertiseAddr : string;
  jp_InternalAPIURL : string;
  jp_JoinExisting : bool;
  jp_InitialMemberCount : Z;
  jp_BootstrapExpect : Z;
  jp_Capabilities : NodeCapabilities;
}.

(** A response: its body, and what the body decodes to as JSON of the two types
    the callers ask for ([None] when decoding fails). *)
Record response := mkResponse {
  rs_StatusCode : N;
  rs_Header : list (string * string);
  rs_Body : reader;
  rs_Status : option Status;
  rs_Prepared : option join_prepared;
}.

(** The history of the calls out of the node, kept to state what was done when:
    each with the replicated state and the time at which it started. *)
Inductive event : Type :=
| CallVerifyLeader (answer : result unit)
| CallBarrier (answer : result unit)
| CallApply (command : Command) (answer : result applyResult)
| CallChange (change : configuration_change) (answer : result unit)
| CallTransfer (to : option (string * string)) (answer : result unit)
| CallHTTP (rq : request) (answer : result response).

Record call := mkCall { call_state : MetadataState; call_time : time; call_event : event }.

Record Node := mkNode {
  n_cfg : Config;
  n_status : Status;
  n_raft : option raft_view;
  n_fsm : option metadataFSM;
  n_blobStore : option string;  (** its root *)
  n_unjoined : bool;
  n_subs : gmap N (option LeadershipEvent);  (** the one-place buffers *)
  n_leadership : LeadershipEvent;
  n_servingReady : option (bool * string);
  n_stagingBlobs : gmap string Z;
  n_peers : peerRegistry;
  n_pendingMembers : gmap string Member;
  n_blobPutSem : N;  (** uploads in progress *)
  n_capabilities : NodeCapabilities;
  n_now : time;
  n_disk : disk;
  n_files : world;
  n_calls : list call;  (** newest first *)
}.

Definition set_status (s : Status) (n : Node) : Node :=
  mkNode (n_cfg n) s (n_raft n) (n_fsm n) (n_blobStore n) (n_unjoined n) (n_subs n) (n_leadership n)
    (n_servingReady n) (n_stagingBlobs n) (n_peers n) (n_pendingMembers n) (n_blobPutSem n)
    (n_capabilities n) (n_now n) (n_disk n) (n_files n) (n_calls n).
Definition set_subs (subs : gmap N (option LeadershipEvent)) (e : LeadershipEvent) (n : Node) : Node :=
  mkNode (n_cfg n) (n_status n) (n_raft n) (n_fsm n) (n_blobStore n) (n_unjoined n) subs e
    (n_servingReady n) (n_stagingBlobs n) (n_peers n) (n_pendingMembers n) (n_blobPutSem n)
    (n_capabilities n) (n_now n) (n_disk n) (n_files n) (n_calls n).
Definition set_staging (m : gmap string Z) (n : Node) : Node :=
  mkNode (n_cfg n) (n_status n) (n_raft n) (n_fsm n) (n_blobStore n) (n_unjoined n) (n_subs n)
    (n_leadership n) (n_servingReady n) m (n_peers n) (n_pendingMembers n) (n_blobPutSem n)
    (n_capabilities n) (n_now n) (n_disk n) (n_files n) (n_calls n).
Definition set_members (peers : peerRegistry) (pending : gmap string Member) (n : Node) : Node :=
  mkNode (n_cfg n) (n_status n) (n_raft n) (n_fsm n) (n_blobStore n) (n_unjoined n) (n_subs n)
    (n_leadership n) (n_servingReady n) (n_stagingBlobs n) peers pending (n_blobPutSem n)
    (n_capabilities n) (n_now n) (n_disk n) (n_files n) (n_calls n).
Definition set_unjoined (b : bool) (n : Node) : Node :=
  mkNode (n_cfg n) (n_status n) (n_raft n) (n_fsm n) (n_blobStore n) b (n_subs n) (n_leadership n)
    (n_servingReady n) (n_stagingBlobs n) (n_peers n) (n_pendingMembers n) (n_blobPutSem n)
    (n_capabilities n) (n_now n) (n_disk n) (n_files n) (n_calls n).
Definition set_files (w : world) (n : Node) : Node :=
  mkNode (n_cfg n) (n_status n) (n_raft n) (n_fsm n) (n_blobStore n) (n_unjoined n) (n_subs n)
    (n_leadership n) (n_servingReady n) (n_stagingBlobs n) (n_peers n) (n_pendingMembers n)
    (n_blobPutSem n) (n_capabilities n) (n_now n) (n_disk n) w (n_calls n).
Definition set_serving (check : option (bool * string)) (n : Node) : Node :=
  mkNode (n_cfg n) (n_status n) (n_raft n) (n_fsm n) (n_blobStore n) (n_unjoined n) (n_subs n)
    (n_leadership n) check (n_stagingBlobs n) (n_peers n) (n_pendingMembers n)
    (n_blobPutSem n) (n_capabilities n) (n_now n) (n_disk n) (n_files n) (n_calls n).
Definition set_sem (puts : N) (n : Node) : Node :=
  mkNode (n_cfg n) (n_status n) (n_raft n) (n_fsm n) (n_blobStore n) (n_unjoined n) (n_subs n)
    (n_leadership n) (n_servingReady n) (n_stagingBlobs n) (n_peers n) (n_pendingMembers n)
    puts (n_capabilities n) (n_now n) (n_disk n) (n_files n) (n_calls n).
(** What a call into Raft or to a peer may change. *)
Definition set_raft (r : option raft_view) (f : option metadataFSM) (now : time) (d : disk) (n : Node) : Node :=
  mkNode (n_cfg n) (n_status n) r f (n_blobStore n) (n_unjoined n) (n_subs n) (n_leadership n)
    (n_servingReady n) (n_stagingBlobs n) (n_peers n) (n_pendingMembers n) (n_blobPutSem n)
    (n_capabilities n) now d (n_files n) (n_calls n).
Definition set_now (now : time) (n : Node) : Node := set_raft (n_raft n) (n_fsm n) now (n_disk n) n.
Definition set_calls (calls : list call) (n : Node) : Node :=
  mkNode (n_cfg n) (n_status n) (n_raft n) (n_fsm n) (n_blobStore n) (n_unjoined n) (n_subs n)
    (n_leadership n) (n_servingReady n) (n_stagingBlobs n) (n_peers n) (n_pendingMembers n)
    (n_blobPutSem n) (n_capabilities n) (n_now n) (n_disk n) (n_files n) calls.

Abbreviation nio := (st Node) (only parsing).

(** A statement that only changes the node, and a reading of it. *)
Definition modify (f : Node → Node) : nio unit := λ n, (Ok tt, f n).
Definition get {A} (f : Node → A) : nio A := λ n, (Ok (f n), n).

(** [fmt.Errorf("…: %w", err)]. *)
Definition io_wrap {S A} (message : error) (m : st S A) : st S A := λ s,
  match m s with (Err _, s') => (Err message, s') | r => r end.

(** The error of a context at a time, once it is done. *)
Abbreviation context := (time → option error) (only parsing).

(** A call runs in a goroutine and the caller waits for its end or for the end
    of the context.  If both have ended the caller takes the context's error. *)
Definition wait_call {A} (ctx : context) (m : nio A) : nio A := λ n,
  match m n with (r, n') => (match ctx (n_now n') with Some e => Err e | None => r end, n') end.

(** [Node.Metadata]: a copy of the replicated state. *)
Definition Metadata (n : Node) : MetadataState :=
  match n_fsm n with
  | None => mkMetadataState (ClusterID (n_cfg n)) 0 0 "" 0 ∅ ∅ "" 0 zero_CapabilityGate None ∅
  | Some f => State f
  end.

Definition record_call {A} (what : result A → event) (m : nio A) : nio A := λ n,
  match m n with
  | (r, n') => (r, set_calls (mkCall (Metadata n) (n_now n) (what r) :: n_calls n') n')
  end.

(** The calls of hashicorp/raft ([Apply] with the [Response] of its future). *)
Class Raft := {
  raft_VerifyLeader : nio unit;
  raft_Barrier : nio unit;
  raft_Apply : option json → nio applyResult;
  raft_Change : configuration_change → nio unit;
  raft_LeadershipTransfer : option (string * string) → nio unit;
}.

(** net/http, and what crypto/tls and crypto/x509 say of the TLS files. *)
Class Peers := {
  client_Do : request → nio response;
  http_NewRequest : string → string → result unit;
  tls_LoadX509KeyPair : string → string → result unit;
  os_ReadFile : string → result string;
  AppendCertsFromPEM : string → bool;
}.

(** The index of a configuration is 64 bits wide. *)
Definition small_view (r : option raft_view) : Prop :=
  ∀ v index servers, r = Some v → rv_Configuration v = Ok (index, servers) → (index < u64_bound)%N.

(** While such a call runs, log entries are applied to the state machine, what
    Raft reports changes, and time passes; the rest of the node stays.  Raft
    indexes are 64 bits wide, so the revision never overflows ([small_run]).  That
    Raft calls [Restore] on a running node is a step of a run between its
    operations ([Runs.installs]); it does not happen within a call. *)
Definition moves (E : env) (n n' : Node) : Prop :=
  ∃ r f now d, n' = set_raft r f now d n ∧ (t_ns (n_now n) ≤ t_ns now)%Z
  ∧ ((n_raft n = None ↔ r = None) ∧ (small_view (n_raft n) → small_view r))
  ∧ match n_fsm n with
    | None => f = None
    | Some f0 => ∃ log f1, f = Some f1 ∧ run E log f0 (n_disk n) = (f1, d) ∧ small_run E log f0 (n_disk n)
    end.

(** What the documentation of the library promises. *)
Class RaftLaws (R : Raft) (E : env) := {
  VerifyLeader_moves n : moves E n (raft_VerifyLeader n).2;
  Barrier_moves n : moves E n (raft_Barrier n).2;
  Apply_moves data n : moves E n (raft_Apply data n).2;
  Change_moves c n : moves E n (raft_Change c n).2;
  Transfer_moves to n : moves E n (raft_LeadershipTransfer to n).2;
  (** The response is the state machine's, for the entry at some index. *)
  Apply_response data n r n' f0 :
    raft_Apply data n = (Ok r, n') → n_fsm n = Some f0 →
    ∃ log1 log2 index f1 d1 f2 d2 f3, run E log1 f0 (n_disk n) = (f1, d1)
      ∧ Apply E index data f1 d1 = ((r, f2), d2)
      ∧ run E log2 f2 d2 = (f3, n_disk n') ∧ n_fsm n' = Some f3
      ∧ small_run E (log1 ++ (index, data) :: log2) f0 (n_disk n);
}.
Class PeersLaws (P : Peers) (E : env) := {
  Do_moves rq n : moves E n (client_Do rq n).2;
}.

(** ** Members in the replicated metadata *)

Definition enc_Member (m : Member) : json :=
  enc_struct [field "node_id" (enc_string (mb_NodeID m)); field "addr" (enc_string (mb_Addr m));
    field_unless (str_eqb (mb_InternalAPIURL m) "") "internal_api_url" (enc_string (mb_InternalAPIURL m))].

Definition dec_Member : json → Member → option Member :=
  dec_struct [
    ("node_id", set_field mb_NodeID (λ x m, mkMember x (mb_Addr m) (mb_InternalAPIURL m)) dec_string);
    ("addr", set_field mb_Addr (λ x m, mkMember (mb_NodeID m) x (mb_InternalAPIURL m)) dec_string);
    ("internal_api_url", set_field mb_InternalAPIURL (λ x m, mkMember (mb_NodeID m) (mb_Addr m) x) dec_string)].

Definition membershipOperationMetadataKey : string := "cluster/membership_operation".
Definition membersMetadataKey : string := "cluster/members".
Definition MembershipOperationJoin : string := "join".
Definition MembershipOperationRemove : string := "remove".
Definition MembershipPhasePrepared : string := "prepared".
Definition MembershipPhaseNonVoter : string := "non_voter".
Definition MembershipPhaseCaughtUp : string := "caught_up".
Definition MembershipPhaseVoter : string := "voter".
Definition MembershipPhaseRemoved : string := "removed".
Definition MembershipPhaseCompleted : string := "completed".

Record MembershipOperation := mkMembershipOperation {
  op_ID : string;
  op_Type : string;
  op_Phase : string;
  op_Member : Member;
  op_Capabilities : NodeCapabilities;
  op_CreatedAt : time;
  op_UpdatedAt : time;
}.

Definition zero_MembershipOperation : MembershipOperation :=
  mkMembershipOperation "" "" "" zero_Member zero_NodeCapabilities zero_time zero_time.

Definition enc_MembershipOperation (o : MembershipOperation) : result json :=
  match enc_time (op_CreatedAt o), enc_time (op_UpdatedAt o) with
  | Ok created, Ok updated =>
      Ok (enc_struct [field "id" (enc_string (op_ID o)); field "type" (enc_string (op_Type o));
        field "phase" (enc_string (op_Phase o)); field "member" (enc_Member (op_Member o));
        field "capabilities" (enc_NodeCapabilities (op_Capabilities o));
        field "created_at" created; field "updated_at" updated])
  | Err e, _ | _, Err e => Err e
  end.

Definition dec_MembershipOperation : json → MembershipOperation → option MembershipOperation :=
  dec_struct [
    ("id", set_field op_ID
      (λ x '(mkMembershipOperation _ b c d e f g), mkMembershipOperation x b c d e f g) dec_string);
    ("type", set_field op_Type
      (λ x '(mkMembershipOperation a _ c d e f g), mkMembershipOperation a x c d e f g) dec_string);
    ("phase", set_field op_Phase
      (λ x '(mkMembershipOperation a b _ d e f g), mkMembershipOperation a b x d e f g) dec_string);
    ("member", set_field op_Member
      (λ x '(mkMembershipOperation a b c _ e f g), mkMembershipOperation a b c x e f g) dec_Member);
    ("capabilities", set_field op_Capabilities
      (λ x '(mkMembershipOperation a b c d _ f g), mkMembershipOperation a b c d x f g) dec_NodeCapabilities);
    ("created_at", set_field op_CreatedAt
      (λ x '(mkMembershipOperation a b c d e _ g), mkMembershipOperation a b c d e x g) dec_time);
    ("updated_at", set_field op_UpdatedAt
      (λ x '(mkMembershipOperation a b c d e f _), mkMembershipOperation a b c d e f x) dec_time)].

Definition initial_members (cfg : Config) : list Member :=
  match ParseInitialMembers (InitialMembers cfg) with Ok l => l | Err _ => [] end.

Definition members_map (l : list Member) : gmap string Member :=
  foldl (λ m member, <[ mb_NodeID member := member ]> m) ∅ l.

Definition committedMembers (n : Node) : gmap string Member :=
  match ms_Values (Metadata n) !! membersMetadataKey with
  | Some raw =>
      match Unmarshal (dec_map zero_Member dec_Member) ∅ raw with
      | Some members => members
      | None => members_map (initial_members (n_cfg n))
      end
  | None => members_map (initial_members (n_cfg n))
  end.

(** The operation on record in a state, if any, or a decoding error. *)
Definition recorded_operation (s : MetadataState) : result (option MembershipOperation) :=
  match ms_Values s !! membershipOperationMetadataKey with
  | None | Some None | Some (Some JNull) => Ok None
  | Some (Some raw) =>
      match dec_MembershipOperation raw zero_MembershipOperation with
      | Some operation => Ok (Some operation)
      | None => Err "decode membership operation: %w"
      end
  end.
Definition membershipOperation (n : Node) : result (option MembershipOperation) := recorded_operation (Metadata n).

Definition activeMembershipOperation (n : Node) : result (option MembershipOperation) :=
  match membershipOperation n with
  | Ok (Some operation) =>
      if str_eqb (op_Phase operation) MembershipPhaseCompleted then Ok None else Ok (Some operation)
  | r => r
  end.

Definition addPendingMember (member : Member) (n : Node) : Node :=
  set_members (n_peers n) (<[ mb_NodeID member := member ]> (n_pendingMembers n)) n.
Definition removePendingMember (nodeID : string) (n : Node) : Node :=
  set_members (n_peers n) (delete nodeID (n_pendingMembers n)) n.

(** The members a node talks to: the committed ones, corrected by the operation
    in progress and by the members being prepared. *)
Definition peer_members (n : Node) : gmap string Member :=
  let '(members, removedNodeID) :=
    match membershipOperation n with
    | Ok (Some operation) =>
        let member := op_Member operation in
        if str_eqb (op_Phase operation) MembershipPhaseCompleted then (committedMembers n, "")
        else if str_eqb (op_Type operation) MembershipOperationRemove
                && str_eqb (op_Phase operation) MembershipPhaseRemoved
        then (delete (mb_NodeID member) (committedMembers n), mb_NodeID member)
        else (<[ mb_NodeID member := member ]> (committedMembers n), "")
    | _ => (committedMembers n, "")
    end in
  foldr (λ kv members, if str_eqb kv.1 removedNodeID then members else <[ kv.1 := kv.2 ]> members)
    members (map_to_list (n_pendingMembers n)).

Definition refreshPeerRegistry (n : Node) : Node :=
  set_members (Replace (map snd (map_to_list (peer_members n))) (n_peers n)) (n_pendingMembers n) n.

Definition internalAPIURLForNode (nodeID : string) (n : Node) : option string :=
  if str_eqb nodeID (NodeID (n_cfg n)) then Some (TrimRightChar "/"%char (InternalAPIAdvertiseAddr (n_cfg n)))
  else match registry_Member (n_peers n) nodeID with
       | Some member => if str_eqb (mb_InternalAPIURL member) "" then None
                        else Some (TrimRightChar "/"%char (mb_InternalAPIURL member))
       | None => None
       end.

(** ** A new node *)

(** [config] is the configuration the caller passes. *)
Definition NewNode (url_Parse : string → option parsed_url) (config : Config) (now : time) (w : world)
    (d : disk) : result Node :=
  let cfg := NormalizeConfig config in
  match ValidateConfig url_Parse cfg with
  | Err e => Err e
  | Ok _ =>
      let node status peers :=
        mkNode cfg status None None None false ∅ (mkLeadershipEvent false 0 "") None ∅ peers ∅ 0
          SupportedNodeCapabilities now d w [] in
      if negb (Enabled cfg)
      then Ok (node (start_status false true ReadinessReady
                       "cluster disabled; running existing single-instance mode" "" "" RoleDisabled
                       "" false "" "") ∅)
      else Ok (node (start_status true false ReadinessNotReady "cluster runtime is starting"
                       (ClusterID cfg) (NodeID cfg) RoleFollower (ReadConsistency cfg)
                       (EmergencyStaleRead cfg) (duration_text (MaxLeaderContactAge cfg))
                       (duration_text (MaxQuorumVerificationAge cfg)))
        (newPeerRegistry (initial_members cfg)))
  end.

(** The voters of a first cluster. *)
Definition bootstrapConfiguration (cfg : Config) : result (list Server) :=
  match ParseInitialMembers (InitialMembers cfg) with
  | Err e => Err e
  | Ok members => Ok ((λ m, mkServer Voter (mb_NodeID m) (mb_Addr m)) <$> members)
  end.

(** ** The Raft configuration as a node reads it *)

Definition voterConfiguration (n : Node) : result (N * list Server) :=
  match n_raft n with
  | None => Err ErrNodeNotStarted
  | Some r =>
      match rv_Configuration r with
      | Err e => Err e
      | Ok (index, servers) =>
          match filter (λ server, sv_Suffrage server = Voter) servers with
          | [] => Err "raft configuration has no voters"
          | voters => Ok (index, voters)
          end
      end
  end.

Definition voterServers (n : Node) : result (list Server) :=
  match voterConfiguration n with Ok (_, voters) => Ok voters | Err e => Err e end.

(** The suffrage of a server of the configuration, if it is in it. *)
Definition raftServerSuffrage (nodeID : string) (n : Node) : result (option Suffrage) :=
  match n_raft n with
  | None => Err ErrNodeNotStarted
  | Some r =>
      match rv_Configuration r with
      | Err e => Err e
      | Ok (_, servers) => Ok (sv_Suffrage <$> find (λ server, str_eqb (sv_ID server) nodeID) servers)
      end
  end.

Definition raftConfigurationContainsSelf (r : raft_view) (n : Node) : bool :=
  match rv_Configuration r with
  | Err _ => false
  | Ok (_, servers) => existsb (λ server, str_eqb (sv_ID server) (NodeID (n_cfg n))) servers
  end.

Record MemberStatus := mkMemberStatus { me_NodeID : string; me_Address : string; me_Suffrage : string }.

(** [ServerSuffrage.String]. *)
Definition suffrage_text (s : Suffrage) : string :=
  match s with Voter => "Voter" | Nonvoter => "Nonvoter" | Staging => "Staging" end.

Definition Members (n : Node) : result (list MemberStatus) :=
  if n_unjoined n
  then Ok [mkMemberStatus (NodeID (n_cfg n)) (RaftAdvertiseAddr (n_cfg n)) "unjoined"]
  else match n_raft n with
  | None => Err ErrNodeNotStarted
  | Some r =>
      match rv_Configuration r with
      | Err e => Err e
      | Ok (_, servers) =>
          Ok ((λ server, mkMemberStatus (sv_ID server) (sv_Address server)
                           (suffrage_text (sv_Suffrage server))) <$> servers)
      end
  end.

(** ** Calls *)

Section calls.
Context (E : env) {R : Raft} {P : Peers}.

Definition r_VerifyLeader : nio unit := record_call CallVerifyLeader raft_VerifyLeader.
Definition r_Barrier : nio unit := record_call CallBarrier raft_Barrier.
Definition r_Apply (command : Command) (data : json) : nio applyResult :=
  record_call (CallApply command) (raft_Apply (Some data)).
Definition r_Change (change : configuration_change) : nio unit :=
  record_call (CallChange change) (raft_Change change).
Definition r_Transfer (to : option (string * string)) : nio unit :=
  record_call (CallTransfer to) (raft_LeadershipTransfer to).

Definition loadTLSIdentity (cfg : TLSConfig) : result unit :=
  match tls_LoadX509KeyPair (tls_CertFile cfg) (tls_KeyFile cfg) with
  | Err _ => Err "load internal TLS certificate: %w"
  | Ok _ =>
      match os_ReadFile (tls_CAFile cfg) with
      | Err _ => Err "read internal TLS CA: %w"
      | Ok ca => if AppendCertsFromPEM ca then Ok tt
                 else Err "internal TLS CA file %s contains no certificates"
      end
  end.

Definition internalHTTPClient (n : Node) : result unit := loadTLSIdentity (InternalTLS (n_cfg n)).

(** A request of [internalHTTPClient]: the client, the request, the call. *)
Definition send (rq : request) : nio response :=
  do! client := (λ n, (internalHTTPClient n, n)) in
  run! io_of (http_NewRequest (rq_Method rq) (rq_URL rq)) in
  record_call (CallHTTP rq) (client_Do rq).

Definition with_store {A} (call : string → io A) : nio A := λ n,
  match n_blobStore n with
  | None => (Err ErrNodeNotStarted, n)
  | Some root => match call root (n_files n) with (r, w) => (r, set_files w n) end
  end.

(** The loop over the blobs of a manifest, ended by the first error. *)
Fixpoint verify_blobs (root : string) (hashes : list string) : io unit :=
  match hashes with
  | [] => io_ret tt
  | hash :: hashes =>
      run! io_wrap "verify local blob %s: %w" (Verify E root hash) in
      verify_blobs root hashes
  end.

Definition verifyManifestBlobs (manifest : Manifest) : nio unit :=
  with_store (λ root, verify_blobs root (manifestBlobHashes manifest)).
End calls.
