(* ===== verification/Leadership.v ===== *)
(** * Leadership: business leadership and the status of a node (node.go)

    The cached [Status] and how [refreshStatus] computes it, the test of
    business leadership, the events sent to subscribers, and the commands a
    leader submits. *)
From S2P Require Import Prelude Text Io Sha256 Json GoTime Duration Config Peers Capability Manifest.
From S2P Require Import BlobStore Fsm FsmProofs Node.
From stdpp Require Import options.
#[local] Open Scope io_scope.

Section leadership.
Context (E : env) {R : Raft}.

(** ** The cached status *)

Definition checkLocalBusinessLeadership (now : time) (n : Node) : result unit :=
  match n_raft n, n_fsm n with
  | Some r, Some fsm =>
      if negb (rv_IsLeader r) then Err ErrNotBusinessLeader
      else
        let state := State fsm in
        if (ApplyFault fsm).2 then Err ErrNotBusinessLeader
        else if negb (SupportsGate (n_capabilities n) (ms_CapabilityGate state) true)
        then Err ErrNotBusinessLeader
        else if negb (str_eqb (ms_LeaderOwner state) (NodeID (n_cfg n))) || (ms_LeaderEpoch state =? 0)%N
                || negb (ms_LastLeadershipTerm state =? stat r "term")%N
        then Err ErrNotBusinessLeader
        else
          let status := n_status n in
          if negb (str_eqb (st_Role status) RoleLeader) || negb (st_HasQuorum status)
             || negb (st_LeaderEpoch status =? ms_LeaderEpoch state)%N
             || time_IsZero (st_QuorumVerifiedAt status)
             || (MaxQuorumVerificationAge (n_cfg n) <? time_Sub now (st_QuorumVerifiedAt status))%Z
          then Err ErrNotBusinessLeader
          else Ok tt
  | _, _ => Err ErrNodeNotStarted
  end.

Definition HasBusinessLeadership (n : Node) : bool := is_ok (checkLocalBusinessLeadership (n_now n) n).

Definition cached_leadership (active : bool) (epoch : N) (reason : string) (now : time) (s : Status) : Status :=
  mkStatus (st_Enabled s)
    (if active then st_Ready s else false)
    (if active then st_Readiness s else ReadinessNotReady)
    (if active then st_Reason s else if str_eqb reason "" then st_Reason s else reason)
    (st_ClusterID s) (st_NodeID s)
    (if active then RoleLeader else RoleFollower)
    (st_LeaderID s) (st_LeaderAddress s)
    (if active then epoch else st_LeaderEpoch s)
    (st_Term s) (st_CommitIndex s) (st_AppliedIndex s)
    active
    (if active then now else st_QuorumVerifiedAt s)
    (st_LastLeaderContactAt s) (st_ReadConsistency s) (st_EmergencyStaleRead s)
    (st_MaxLeaderContactAge s) (st_MaxQuorumVerificationAge s) (st_CommittedGeneration s)
    (st_CommittedGenerationIndex s) (st_AvailableGenerations s) (st_ProtocolVersion s)
    (st_CommandVersion s) (st_Capabilities s) (st_ActiveCapabilityGate s) (st_LeaderEligible s)
    (st_FSMHealthy s) (st_FSMRevision s) (st_FSMApplyError s) (st_FSMApplyErrorIndex s)
    (st_FSMApplyPersistError s).

Definition updateCachedLeadership (active : bool) (epoch : N) (reason : string) (n : Node) : Node :=
  set_status (cached_leadership active epoch reason (n_now n) (n_status n)) n.

Definition updateUnjoinedStatus (n : Node) : Node :=
  let s := n_status n in
  set_status {|
    st_Enabled := st_Enabled s; st_Ready := false; st_Readiness := ReadinessNotReady;
    st_Reason := "node is waiting for cluster join"; st_ClusterID := st_ClusterID s;
    st_NodeID := st_NodeID s; st_Role := RoleFollower; st_LeaderID := ""; st_LeaderAddress := "";
    st_LeaderEpoch := st_LeaderEpoch s; st_Term := st_Term s; st_CommitIndex := st_CommitIndex s;
    st_AppliedIndex := st_AppliedIndex s; st_HasQuorum := false;
    st_QuorumVerifiedAt := st_QuorumVerifiedAt s; st_LastLeaderContactAt := st_LastLeaderContactAt s;
    st_ReadConsistency := st_ReadConsistency s; st_EmergencyStaleRead := st_EmergencyStaleRead s;
    st_MaxLeaderContactAge := st_MaxLeaderContactAge s;
    st_MaxQuorumVerificationAge := st_MaxQuorumVerificationAge s;
    st_CommittedGeneration := st_CommittedGeneration s;
    st_CommittedGenerationIndex := st_CommittedGenerationIndex s;
    st_AvailableGenerations := st_AvailableGenerations s; st_ProtocolVersion := CurrentProtocolVersion;
    st_CommandVersion := CurrentCommandVersion; st_Capabilities := n_capabilities n;
    st_ActiveCapabilityGate := LegacyCapabilityGate; st_LeaderEligible := false; st_FSMHealthy := true;
    st_FSMRevision := st_FSMRevision s; st_FSMApplyError := st_FSMApplyError s;
    st_FSMApplyErrorIndex := st_FSMApplyErrorIndex s;
    st_FSMApplyPersistError := st_FSMApplyPersistError s |} n.

(** The generations whose blobs are all here and that readers may still pin. *)
Fixpoint available_generations (state : MetadataState) (now : time) (snapshots : list (string * Manifest))
    : nio (list Generation) :=
  match snapshots with
  | [] => io_ret []
  | (hash, snapshot) :: snapshots =>
      do! n := get id in
      do! available :=
        (if str_eqb hash (ms_ActiveSnapshot state)
            || time_Before now (time_Add (m_CreatedAt snapshot) (GenerationPinTTL (n_cfg n)))
         then do! v := io_try (verifyManifestBlobs E snapshot) in io_ret (is_ok v)
         else io_ret false) in
      do! rest := available_generations state now snapshots in
      io_ret (if available then m_Generation snapshot :: rest else rest)
  end.

Definition transport_ready (cfg : Config) (role leaderID : string) (hasQuorum : bool) (verifiedAt now : time)
    (contact : duration) : bool :=
  if str_eqb role RoleLeader
  then hasQuorum && negb (time_IsZero verifiedAt)
       && (time_Sub now verifiedAt <=? MaxQuorumVerificationAge cfg)%Z
  else if str_eqb role RoleFollower
  then negb (str_eqb leaderID "") && (0 <=? contact)%Z && (contact <=? MaxLeaderContactAge cfg)%Z
  else false.

(** The status [updateStatus] stores under the lock. *)
Definition next_status (n : Node) (role leaderID leaderAddr : string) (state : MetadataState)
    (stats : gmap string string) (hasQuorum : bool) (verifiedAt : time) (reason : string) (now : time)
    (applicationReady : bool) (applicationReason : string) (available : list Generation) : Status :=
  let s := n_status n in
  let number key := parseUint (default "" (stats !! key)) in
  let fault := match n_fsm n with Some fsm => ApplyFault fsm | None => (no_fault, false) end in
  let contact := parseDuration (default "" (stats !! "last_contact")) in
  let transportReady := transport_ready (n_cfg n) role leaderID hasQuorum verifiedAt now contact in
  let eligible := SupportsGate (n_capabilities n) (ms_CapabilityGate state) true in
  let healthy := negb fault.2 in
  let ready := transportReady && applicationReady && eligible && healthy in
  {| st_Enabled := st_Enabled s;
     st_Ready := ready;
     st_Readiness := if ready then ReadinessReady else ReadinessNotReady;
     st_Reason := if ready then ""
                  else if negb (str_eqb reason "") then reason
                  else if negb transportReady then "node cannot currently prove a safe cluster path"
                  else applicationReason;
     st_ClusterID := st_ClusterID s;
     st_NodeID := st_NodeID s;
     st_Role := role;
     st_LeaderID := leaderID;
     st_LeaderAddress := leaderAddr;
     st_LeaderEpoch := ms_LeaderEpoch state;
     st_Term := number "term";
     st_CommitIndex := number "commit_index";
     st_AppliedIndex := number "applied_index";
     st_HasQuorum := hasQuorum;
     st_QuorumVerifiedAt := if time_IsZero verifiedAt then st_QuorumVerifiedAt s else verifiedAt;
     st_LastLeaderContactAt :=
       if str_eqb role RoleFollower && (0 <=? contact)%Z then time_Add now (- contact)
       else st_LastLeaderContactAt s;
     st_ReadConsistency := st_ReadConsistency s;
     st_EmergencyStaleRead := st_EmergencyStaleRead s;
     st_MaxLeaderContactAge := st_MaxLeaderContactAge s;
     st_MaxQuorumVerificationAge := st_MaxQuorumVerificationAge s;
     st_CommittedGeneration := match ms_Snapshots state !! ms_ActiveSnapshot state with
                               | Some manifest => m_Generation manifest
                               | None => zero_Generation
                               end;
     st_CommittedGenerationIndex := ms_ActiveSnapshotIndex state;
     st_AvailableGenerations := available;
     st_ProtocolVersion := CurrentProtocolVersion;
     st_CommandVersion := CurrentCommandVersion;
     st_Capabilities := n_capabilities n;
     st_ActiveCapabilityGate := normalizeCapabilityGate (ms_CapabilityGate state);
     st_LeaderEligible := eligible;
     st_FSMHealthy := healthy;
     st_FSMRevision := ms_Revision state;
     st_FSMApplyError := if fault.2 then ff_Error fault.1 else "";
     st_FSMApplyErrorIndex := if fault.2 then ff_Index fault.1 else 0;
     st_FSMApplyPersistError := match n_fsm n with
                                | Some fsm => ApplyFaultPersistError fsm
                                | None => ""
                                end |}.

Definition updateStatus (role leaderID leaderAddr : string) (state : MetadataState)
    (stats : gmap string string) (hasQuorum : bool) (verifiedAt : time) (reason : string) (now : time)
    : nio unit :=
  do! n := get id in
  let '(applicationReady, applicationReason) :=
    default (false, "application serving readiness is not configured") (n_servingReady n) in
  do! available := available_generations state now (map_to_list (ms_Snapshots state)) in
  modify (λ n, set_status (next_status n role leaderID leaderAddr state stats hasQuorum verifiedAt
                             reason now applicationReady applicationReason available) n).

Definition SetServingReadiness (check : option (bool * string)) (n : Node) : Node := set_serving check n.

(** ** Subscribers *)

(** Delivering to a one-place buffer: an old event is taken out first. *)
Definition deliver (event : LeadershipEvent) (buffer : option LeadershipEvent) : option LeadershipEvent :=
  match buffer with
  | None => Some event
  | Some _ => (* drained *) Some event
  end.

Definition setLeadership (active : bool) (epoch : N) (reason : string) (n : Node) : Node :=
  let current := n_leadership n in
  if Bool.eqb (le_Active current) active && (le_Epoch current =? epoch)%N
  then set_subs (n_subs n) (mkLeadershipEvent (le_Active current) (le_Epoch current) reason) n
  else
    let event := mkLeadershipEvent active epoch reason in
    set_subs (deliver event <$> n_subs n) event n.

(** [SubscribeLeadership] has two halves, with the lock released in between:
    the new channel is registered, then the status read under the lock is sent
    to it, which blocks ([None]) while the buffer is full. *)
Definition subscribe_register (ch : N) (n : Node) : LeadershipEvent * Node :=
  let status := n_status n in
  (mkLeadershipEvent (str_eqb (st_Role status) RoleLeader && st_HasQuorum status)
     (st_LeaderEpoch status) (st_Reason status),
   set_subs (<[ ch := None ]> (n_subs n)) (n_leadership n) n).
Definition subscribe_send (ch : N) (event : LeadershipEvent) (n : Node) : option Node :=
  match n_subs n !! ch with
  | Some (Some _) => None
  | _ => Some (set_subs (<[ ch := Some event ]> (n_subs n)) (n_leadership n) n)
  end.
Definition SubscribeLeadership (ch : N) (n : Node) : option Node :=
  let '(event, n) := subscribe_register ch n in subscribe_send ch event n.
(** Its goroutine, once the context is done. *)
Definition UnsubscribeLeadership (ch : N) (n : Node) : Node :=
  set_subs (delete ch (n_subs n)) (n_leadership n) n.
(** The subscriber receives the buffered event. *)
Definition receive (ch : N) (n : Node) : option (LeadershipEvent * Node) :=
  match n_subs n !! ch with
  | Some (Some event) => Some (event, set_subs (<[ ch := None ]> (n_subs n)) (n_leadership n) n)
  | _ => None
  end.

(** What [watchRaftLeadership] does when Raft reports the loss, and [monitor]
    when the node stops. *)
Definition raft_leadership_lost (n : Node) : Node :=
  setLeadership false 0 "raft leadership lost"
    (updateCachedLeadership false 0 "raft leadership lost" n).
Definition monitor_stopped (n : Node) : Node := setLeadership false 0 "cluster node stopped" n.

(** ** Commands *)

Definition VerifyBusinessLeadership (ctx : context) : nio unit := λ n,
  match checkLocalBusinessLeadership (n_now n) n with
  | Err e => (Err e, n)
  | Ok _ =>
      let '(verified, n) :=
        (run! io_wrap "verify raft leadership: %w" r_VerifyLeader in
         io_wrap "apply read barrier: %w" r_Barrier) n in
      match ctx (n_now n) with
      | Some e => (Err e, n)
      | None =>
          match verified with
          | Err e => (Err e, updateCachedLeadership false (st_LeaderEpoch (n_status n)) e n)
          | Ok _ => (Ok tt, updateCachedLeadership true (ms_LeaderEpoch (Metadata n)) "" n)
          end
      end
  end.

Definition enc_Command (c : Command) : result json :=
  match enc_time (c_CreatedAt c) with
  | Err e => Err e
  | Ok created =>
      Ok (enc_struct [field "protocol_version" (enc_uint (c_ProtocolVersion c));
        field "command_version" (enc_uint (c_CommandVersion c));
        field "command_id" (enc_string (c_ID c)); field "command_type" (enc_string (c_Type c));
        field_unless (bool_decide (c_ExpectedRevision c = None)) "expected_revision"
          (enc_uint (default 0%N (c_ExpectedRevision c)));
        field "leader_epoch" (enc_uint (c_LeaderEpoch c));
        field_unless (bool_decide (c_Payload c = None)) "payload" (enc_raw (c_Payload c));
        field "created_at" created])
  end.

(** The revision that comes with an error is not represented. *)
Definition apply (command : Command) : nio applyResult := λ n,
  match enc_Command command with
  | Err e => (Err e, n)
  | Ok data =>
      match n_raft n with
      | None => (Err ErrNodeNotStarted, n)
      | Some _ =>
          match r_Apply command data n with
          | (Err e, n) => (Err e, n)
          | (Ok r, n) => (if str_eqb (ar_Error r) "" then Ok r else Err (ar_Error r), n)
          end
      end
  end.

Definition activeCommandVersions (n : Node) : N * N :=
  let gate := normalizeCapabilityGate (ms_CapabilityGate (Metadata n)) in
  (cg_ProtocolVersion gate, cg_CommandVersion gate).

(** [time.Unix(0, 0).UTC()]. *)
Definition unix_zero : time := Time_ 0 0.

Definition versioned_command (id type : string) (expected : option N) (epoch : N) (payload : json)
    (created : time) (n : Node) : Command :=
  mkCommand (activeCommandVersions n).1 (activeCommandVersions n).2 id type expected epoch (Some payload) created.

Definition put_payload (key : string) (value : json) : json :=
  enc_struct [field "key" (enc_string key); field "value" value].

(** [value]: the outcome of [json.Marshal]. *)
Definition PutMetadata (ctx : context) (commandID key : string) (value : result json) (expectedRevision : N)
    : nio N :=
  run! VerifyBusinessLeadership ctx in
  do! rawValue := io_of value in
  do! n := get id in
  do! r := apply (versioned_command commandID CommandPutMetadata (Some expectedRevision)
                    (ms_LeaderEpoch (Metadata n)) (put_payload key rawValue) unix_zero n) in
  io_ret (ar_Revision r).

Definition raw_values (values : gmap string (result json)) : result (gmap string json) :=
  rfold (λ raw '(key, value), match value with Ok v => Ok (<[ key := v ]> raw) | Err e => Err e end)
    ∅ (map_to_list values).

Definition PutMetadataBatch (ctx : context) (commandID : string) (values : gmap string (result json))
    (expectedRevision : N) : nio N :=
  run! VerifyBusinessLeadership ctx in
  do! rawValues := io_of (raw_values values) in
  do! n := get id in
  do! r := apply (versioned_command commandID CommandPutMetadataBatch (Some expectedRevision)
                    (ms_LeaderEpoch (Metadata n)) (enc_struct [field "values" (enc_map id rawValues)])
                    unix_zero n) in
  io_ret (ar_Revision r).

Definition acquire_payload (nodeID : string) (term : N) : json :=
  enc_struct [field "node_id" (enc_string nodeID); field "term" (enc_uint term)].

Definition acquireLeadership (term : N) : nio unit :=
  if (term =? 0)%N then io_err "raft term is unavailable"
  else
    do! n := get id in
    let nodeID := NodeID (n_cfg n) in
    run! apply (versioned_command ("acquire/" +:+ FormatUint term +:+ "/" +:+ nodeID)
                  CommandAcquireLeadership None 0 (acquire_payload nodeID term) unix_zero n) in
    do! n' := get id in
    let state := Metadata n' in
    match ms_Values state !! membersMetadataKey with
    | Some _ => io_ret tt
    | None =>
        let value := enc_map enc_Member (members_map (initial_members (n_cfg n'))) in
        (* the versions are those read before the first command *)
        run! apply (versioned_command "initialize/cluster-members/v1" CommandPutMetadata
                      (Some (ms_Revision state)) (ms_LeaderEpoch state)
                      (put_payload membersMetadataKey value) unix_zero n) in
        io_ret tt
    end.

(** ** Refreshing the status *)

(** The part of [refreshStatus] for a node that Raft calls leader: the state,
    the role, the quorum and the time of its verification, or nothing when it
    has already returned. *)
Definition refresh_leader (verify : bool) (r : raft_view) (state : MetadataState) (now : time)
    : nio (option (MetadataState * string * bool * time)) :=
  do! n := get id in
  let update := updateStatus RoleLeaderWarming (rv_LeaderID r) (rv_LeaderAddr r) in
  let cfg := n_cfg n in
  if negb (SupportsGate (n_capabilities n) (ms_CapabilityGate state) true)
  then
    let reason := "node does not satisfy the active minimum leader capability" in
    run! update state (rv_Stats r) false zero_time reason now in
    run! modify (setLeadership false (ms_LeaderEpoch state) reason) in
    run! io_try (r_Transfer None) in
    io_ret None
  else
    do! acquired :=
      (if negb (str_eqb (ms_LeaderOwner state) (NodeID cfg))
          || negb (ms_LastLeadershipTerm state =? stat r "term")%N
       then
         do! a := io_try (acquireLeadership (stat r "term")) in
         do! n := get id in
         io_ret (match a with Ok _ => Ok (Metadata n) | Err e => Err e end)
       else io_ret (Ok state)) in
    match acquired with
    | Err e =>
        run! update state (rv_Stats r) false zero_time e now in
        run! modify (setLeadership false 0 e) in
        io_ret None
    | Ok state =>
        do! quorum :=
          (if verify
           then
             do! v := io_try (run! r_VerifyLeader in r_Barrier) in
             io_ret (match v with Ok _ => Ok (true, now) | Err e => Err e end)
           else
             do! n := get id in
             let verifiedAt := st_QuorumVerifiedAt (n_status n) in
             io_ret (Ok (negb (time_IsZero verifiedAt)
                         && (time_Sub now verifiedAt <=? MaxQuorumVerificationAge cfg)%Z, verifiedAt))) in
        match quorum with
        | Err e =>
            run! update state (rv_Stats r) false zero_time e now in
            run! modify (setLeadership false (ms_LeaderEpoch state) e) in
            io_ret None
        | Ok (hasQuorum, verifiedAt) =>
            io_ret (Some (state,
                          if hasQuorum && str_eqb (ms_LeaderOwner state) (NodeID cfg)
                          then RoleLeader else RoleLeaderWarming,
                          hasQuorum, verifiedAt))
        end
    end.

Definition refreshStatus (verify : bool) : nio unit :=
  run! modify refreshPeerRegistry in
  do! n := get id in
  match n_raft n, n_fsm n with
  | Some r, Some fsm =>
      run! modify (λ n, if n_unjoined n && raftConfigurationContainsSelf r n then set_unjoined false n else n) in
      let state := State fsm in
      let now := n_now n in
      do! roled := (if rv_IsLeader r then refresh_leader verify r state now
                    else io_ret (Some (state, RoleFollower, false, zero_time))) in
      match roled with
      | None => io_ret tt
      | Some (state, role, hasQuorum, verifiedAt) =>
          let reason := if str_eqb (rv_LeaderID r) "" then "raft leader is unknown" else "" in
          run! updateStatus role (rv_LeaderID r) (rv_LeaderAddr r) state (rv_Stats r) hasQuorum
                 verifiedAt reason now in
          modify (setLeadership (str_eqb role RoleLeader && hasQuorum) (ms_LeaderEpoch state) reason)
      end
  | _, _ => modify (λ n, if n_unjoined n then updateUnjoinedStatus n else n)
  end.

(** ** Transfer *)

Definition TransferLeadership (ctx : context) (nodeID : string) : nio unit :=
  do! n := get id in
  if str_eqb nodeID "" || str_eqb nodeID (NodeID (n_cfg n)) then io_ret tt
  else match n_raft n with
  | None => io_err ErrNodeNotStarted
  | Some _ =>
      match registry_Member (n_peers n) nodeID with
      | None => io_err "node %q is not in committed membership"
      | Some member => wait_call ctx (r_Transfer (Some (nodeID, mb_Addr member)))
      end
  end.
End leadership.
