(* ===== verification/NodeProofs.v ===== *)
(** * NodeProofs: reasoning about the operations of a node

    What no operation changes ([same_node]), rules for the calls into Raft and
    to peers, and what the passing of time may do to the replicated state. *)
From S2P Require Import Prelude Text Io Sha256 Json GoTime Duration Config Peers Capability Manifest.
From S2P Require Import BlobStore Fsm FsmProofs Node Leadership.
From stdpp Require Import options.

(** ** What stays *)

Record same_node (n n' : Node) : Prop := {
  sn_cfg : n_cfg n' = n_cfg n;
  sn_capabilities : n_capabilities n' = n_capabilities n;
  sn_servingReady : n_servingReady n' = n_servingReady n;
  sn_blobStore : n_blobStore n' = n_blobStore n;
  sn_blobPutSem : n_blobPutSem n' = n_blobPutSem n;
}.

#[export] Instance same_node_preorder : PreOrder same_node.
Proof. split; [by constructor|]. intros n1 n2 n3 [] []. constructor; congruence. Qed.

Lemma same_set_status s n : same_node n (set_status s n). Proof. done. Qed.
Lemma same_set_subs s e n : same_node n (set_subs s e n). Proof. done. Qed.
Lemma same_set_staging m n : same_node n (set_staging m n). Proof. done. Qed.
Lemma same_set_members p q n : same_node n (set_members p q n). Proof. done. Qed.
Lemma same_set_unjoined b n : same_node n (set_unjoined b n). Proof. done. Qed.
Lemma same_set_files w n : same_node n (set_files w n). Proof. done. Qed.
Lemma same_set_raft r f now d n : same_node n (set_raft r f now d n). Proof. done. Qed.
Lemma same_set_calls l n : same_node n (set_calls l n). Proof. done. Qed.

(** An operation that only reads and writes what is local to the node: no call
    leaves it, and what Raft governs is not touched. *)
Record local (n n' : Node) : Prop := {
  lo_same : same_node n n';
  lo_raft : n_raft n' = n_raft n;
  lo_fsm : n_fsm n' = n_fsm n;
  lo_now : n_now n' = n_now n;
  lo_disk : n_disk n' = n_disk n;
  lo_calls : n_calls n' = n_calls n;
}.

#[export] Instance local_preorder : PreOrder local.
Proof.
  split; [by constructor|]. intros n1 n2 n3 [] []. constructor; [by etrans|congruence..].
Qed.

Lemma local_Metadata n n' : local n n' → Metadata n' = Metadata n.
Proof. intros [[] ? Hf ???]. unfold Metadata. rewrite Hf. by destruct (n_fsm n); [|congruence]. Qed.

(** ** Rules for the monad *)

Lemma wp_modify (f : Node → Node) (Q : result unit → Node → Prop) n :
  Q (Ok tt) (f n) → wp (modify f) Q n.
Proof. done. Qed.

Lemma wp_get {A} (f : Node → A) (Q : result A → Node → Prop) n : Q (Ok (f n)) n → wp (get f) Q n.
Proof. done. Qed.

Lemma wp_wrap {S A} message (m : st S A) (Q : result A → S → Prop) s :
  wp m (λ r s', match r with Ok a => Q (Ok a) s' | Err _ => Q (Err message) s' end) s →
  wp (io_wrap message m) Q s.
Proof. unfold wp, io_wrap. by destruct (m s) as [[a|e] s']. Qed.

Lemma wp_eq {S A} (m : st S A) (Q : result A → S → Prop) s r s' : m s = (r, s') → wp m Q s → Q r s'.
Proof. unfold wp. by intros ->. Qed.

Lemma wp_and {S A} (m : st S A) (Q1 Q2 : result A → S → Prop) s :
  wp m Q1 s → wp m Q2 s → wp m (λ r s', Q1 r s' ∧ Q2 r s') s.
Proof. done. Qed.

(** ** Calls *)

Lemma moves_same E n n' : moves E n n' → same_node n n'.
Proof. by intros (r & f & now & d & -> & _). Qed.

Lemma moves_calls E n n' : moves E n n' → n_calls n' = n_calls n.
Proof. by intros (r & f & now & d & -> & _). Qed.

Lemma moves_status E n n' : moves E n n' → n_status n' = n_status n.
Proof. by intros (r & f & now & d & -> & _). Qed.

Lemma moves_refl E n : moves E n n.
Proof.
  exists (n_raft n), (n_fsm n), (n_now n), (n_disk n). split_and!; [by destruct n|done..|].
  destruct (n_fsm n) as [f|]; [|done]. by exists [], f.
Qed.

Lemma moves_trans E n1 n2 n3 : moves E n1 n2 → moves E n2 n3 → moves E n1 n3.
Proof.
  intros (r1 & f1 & t1 & d1 & -> & Ht1 & Hr1 & Hf1) (r2 & f2 & t2 & d2 & -> & Ht2 & Hr2 & Hf2).
  simpl in *. exists r2, f2, t2, d2. split_and!; [done|lia|tauto|tauto|].
  destruct (n_fsm n1) as [f0|].
  - destruct Hf1 as (log1 & f & -> & Hrun1 & Hs1). destruct Hf2 as (log2 & f' & -> & Hrun2 & Hs2).
    exists (log1 ++ log2), f'. split_and!; [done|by rewrite run_app, Hrun1|]. by eapply small_run_app.
  - by subst f1.
Qed.

Lemma wp_record {A} E (what : result A → event) (m : nio A) (Q : result A → Node → Prop) n :
  moves E n (m n).2 →
  (∀ r n', m n = (r, n') → moves E n n' →
    Q r (set_calls (mkCall (Metadata n) (n_now n) (what r) :: n_calls n) n')) →
  wp (record_call what m) Q n.
Proof.
  intros Hm HQ. unfold wp, record_call. destruct (m n) as [r n'] eqn:Hr. simpl in *.
  rewrite (moves_calls _ _ _ Hm). by apply HQ.
Qed.

Section rules.
Context (E : env) {R : Raft} {P : Peers} `{!RaftLaws R E} `{!PeersLaws P E}.

(** Everything an operation may do to a node: calls are added, the node moves. *)
Record evolves (n n' : Node) : Prop := {
  ev_same : same_node n n';
  ev_time : (t_ns (n_now n) ≤ t_ns (n_now n'))%Z;
  ev_raft : (n_raft n = None ↔ n_raft n' = None) ∧ (small_view (n_raft n) → small_view (n_raft n'));
  ev_fsm : match n_fsm n with
           | None => n_fsm n' = None
           | Some f0 => ∃ log f1, n_fsm n' = Some f1 ∧ run E log f0 (n_disk n) = (f1, n_disk n')
               ∧ small_run E log f0 (n_disk n)
           end;
  ev_calls : ∃ calls, n_calls n' = calls ++ n_calls n;
}.

Global Instance evolves_preorder : PreOrder evolves.
Proof.
  split.
  - intros n. constructor; try done; [|by exists []]. destruct (n_fsm n) as [f|]; [|done]. by exists [], f.
  - intros n1 n2 n3 [S1 T1 R1 F1 [c1 C1]] [S2 T2 R2 F2 [c2 C2]].
    constructor; [by etrans|by etrans|tauto| |].
    + destruct (n_fsm n1) as [f0|]; [|by rewrite F1 in F2].
      destruct F1 as (log1 & f1 & Hf1 & Hrun1 & Hs1). rewrite Hf1 in F2.
      destruct F2 as (log2 & f2 & Hf2 & Hrun2 & Hs2). exists (log1 ++ log2), f2.
      split_and!; [done|by rewrite run_app, Hrun1|by eapply small_run_app].
    + exists (c2 ++ c1). by rewrite C2, C1, app_assoc.
Qed.

Lemma local_evolves n n' : local n n' → evolves n n'.
Proof.
  intros [Hs Hr Hf Ht Hd Hc]. constructor; [done|by rewrite Ht|by rewrite Hr| |by exists []].
  rewrite Hf, Hd. destruct (n_fsm n) as [f|]; [|done]. by exists [], f.
Qed.

Lemma moves_evolves c n n' : moves E n n' → evolves n (set_calls (c ++ n_calls n) n').
Proof.
  intros (r & f & t & d & -> & Ht & Hr & Hf). constructor; simpl; [done|done|done| |by exists c].
  destruct (n_fsm n) as [f0|]; [|done]. destruct Hf as (log & f1 & -> & Hrun & Hs). eauto.
Qed.

(** What calls do by themselves: of the node itself only the history grows. *)
Definition moved (n n' : Node) : Prop :=
  ∃ calls n1, moves E n n1 ∧ n' = set_calls (calls ++ n_calls n) n1.

Global Instance moved_preorder : PreOrder moved.
Proof.
  split.
  - intros n. exists [], n. split; [apply moves_refl|by destruct n].
  - intros n1 n2 n3 (c1 & m1 & H1 & ->) (c2 & m2 & H2 & ->).
    destruct H1 as (r1 & f1 & t1 & d1 & -> & H1). destruct H2 as (r2 & f2 & t2 & d2 & -> & H2).
    exists (c2 ++ c1), (set_raft r2 f2 t2 d2 n1). simpl. split; [|by rewrite app_assoc].
    apply (moves_trans E n1 (set_raft r1 f1 t1 d1 n1)); [by exists r1, f1, t1, d1|].
    by exists r2, f2, t2, d2.
Qed.

Lemma moved_evolves n n' : moved n n' → evolves n n'.
Proof. intros (c & n1 & Hn & ->). by apply moves_evolves. Qed.

Lemma moved_record c n n' : moves E n n' → moved n (set_calls (c :: n_calls n) n').
Proof. intros Hn. by exists [c], n'. Qed.

Lemma moved_rest n n' : moved n n' →
  n_status n' = n_status n ∧ n_leadership n' = n_leadership n ∧ n_subs n' = n_subs n
  ∧ n_stagingBlobs n' = n_stagingBlobs n ∧ n_peers n' = n_peers n ∧ n_pendingMembers n' = n_pendingMembers n
  ∧ n_files n' = n_files n ∧ n_unjoined n' = n_unjoined n.
Proof. intros (c & n1 & (r & f & t & d & -> & _) & ->). by split_and!. Qed.

(** An operation whose effects are all those of calls. *)
Definition calling {A} (m : nio A) : Prop := ∀ n, wp m (λ _ n', moved n n') n.

Lemma calling_bind {A B} (m : nio A) (k : A → nio B) :
  calling m → (∀ a, calling (k a)) → calling (io_bind m k).
Proof.
  intros Hm Hk n. apply wp_bind. eapply wp_mono; [apply Hm|]. intros [a|e] n1 H1; [|done].
  eapply wp_mono; [apply Hk|]. intros r n2 H2. by etrans.
Qed.

Lemma calling_record {A} (what : result A → event) (m : nio A) :
  (∀ n, moves E n (m n).2) → calling (record_call what m).
Proof. intros Hm n. eapply wp_record; [apply Hm|]. intros r n' _ Hn. by apply moved_record. Qed.

Lemma calling_try {A} (m : nio A) : calling m → calling (io_try m).
Proof. intros Hm n. apply wp_try. apply Hm. Qed.
Lemma calling_wrap {A} message (m : nio A) : calling m → calling (io_wrap message m).
Proof. intros Hm n. apply wp_wrap. eapply wp_mono; [apply Hm|]. by intros [] n' ?. Qed.
Lemma calling_ret {A} (a : A) : calling (io_ret a).
Proof. intros n. apply (@reflexivity _ moved _). Qed.
Lemma calling_err {A} e : calling (@io_err Node A e).
Proof. intros n. apply (@reflexivity _ moved _). Qed.
Lemma calling_of {A} (r : result A) : calling (@io_of Node A r).
Proof. intros n. apply (@reflexivity _ moved _). Qed.
Lemma calling_get {A} (f : Node → A) : calling (get f).
Proof. intros n. apply (@reflexivity _ moved _). Qed.
Lemma calling_VerifyLeader : calling r_VerifyLeader.
Proof using RaftLaws0. apply calling_record, VerifyLeader_moves. Qed.
Lemma calling_Barrier : calling r_Barrier.
Proof using RaftLaws0. apply calling_record, Barrier_moves. Qed.
Lemma calling_Apply command data : calling (r_Apply command data).
Proof using RaftLaws0. apply calling_record, Apply_moves. Qed.
Lemma calling_Change c : calling (r_Change c).
Proof using RaftLaws0. apply calling_record, Change_moves. Qed.
Lemma calling_Transfer to : calling (r_Transfer to).
Proof using RaftLaws0. apply calling_record, Transfer_moves. Qed.
Lemma calling_send rq : calling (send rq).
Proof using PeersLaws0.
  apply calling_bind; [intros n; apply (@reflexivity _ moved _)|intros _].
  apply calling_bind; [apply calling_of|intros _]. apply calling_record, Do_moves.
Qed.

(** An operation evolves every node. *)
Definition evolving {A} (m : nio A) : Prop := ∀ n, wp m (λ _ n', evolves n n') n.

Lemma evolving_bind {A B} (m : nio A) (k : A → nio B) :
  evolving m → (∀ a, evolving (k a)) → evolving (io_bind m k).
Proof.
  intros Hm Hk n. apply wp_bind. eapply wp_mono; [apply Hm|]. intros [a|e] n1 H1; [|done].
  eapply wp_mono; [apply Hk|]. intros r n2 H2. by etrans.
Qed.

Lemma evolving_local {A} (m : nio A) : (∀ n, local n (m n).2) → evolving m.
Proof. intros Hm n. apply local_evolves, Hm. Qed.

Lemma evolving_try {A} (m : nio A) : evolving m → evolving (io_try m).
Proof. intros Hm n. apply wp_try. apply Hm. Qed.

Lemma evolving_wrap {A} message (m : nio A) : evolving m → evolving (io_wrap message m).
Proof. intros Hm n. apply wp_wrap. eapply wp_mono; [apply Hm|]. by intros [] n' ?. Qed.

Lemma evolving_ret {A} (a : A) : evolving (io_ret a).
Proof. intros n. apply (@reflexivity _ evolves _). Qed.
Lemma evolving_err {A} e : evolving (@io_err Node A e).
Proof. intros n. apply (@reflexivity _ evolves _). Qed.
Lemma evolving_of {A} (r : result A) : evolving (@io_of Node A r).
Proof. intros n. apply (@reflexivity _ evolves _). Qed.
Lemma evolving_get {A} (f : Node → A) : evolving (get f).
Proof. intros n. apply (@reflexivity _ evolves _). Qed.
Lemma evolving_modify f : (∀ n, local n (f n)) → evolving (modify f).
Proof. intros Hf n. apply local_evolves, Hf. Qed.

Lemma evolving_calling {A} (m : nio A) : calling m → evolving m.
Proof. intros Hm n. eapply wp_mono; [apply Hm|]. intros r n'. apply moved_evolves. Qed.

Lemma local_with_store {A} (call : string → io A) n : local n (with_store call n).2.
Proof. unfold with_store. destruct (n_blobStore n); [|done]. by destruct (call _ _). Qed.

Lemma evolving_with_store {A} (call : string → io A) : evolving (with_store call).
Proof. apply evolving_local, local_with_store. Qed.
End rules.

(** A call that left the node between two moments. *)
Definition called (n n' : Node) (c : call) : Prop := ∃ calls, n_calls n' = calls ++ n_calls n ∧ c ∈ calls.

Lemma called_mono E n0 n n' n1 c : evolves E n0 n → called n n' c → evolves E n' n1 → called n0 n1 c.
Proof.
  intros H0 (calls & Hc & Hin) H1. destruct (ev_calls _ _ _ H0) as [c0 Hc0]. destruct (ev_calls _ _ _ H1) as [c1 Hc1].
  exists (c1 ++ calls ++ c0). rewrite Hc1, Hc, Hc0, !app_assoc. split; [done|]. set_solver.
Qed.

(** ** Histories *)

(** [ok c older]: the call [c] is justified, given the calls before it. *)
Section history.
Context (ok : call → list call → Prop).

Fixpoint justified (calls older : list call) : Prop :=
  match calls with
  | [] => True
  | c :: calls => ok c (calls ++ older) ∧ justified calls older
  end.

Lemma justified_app l1 l2 older : justified (l1 ++ l2) older ↔ justified l1 (l2 ++ older) ∧ justified l2 older.
Proof. induction l1 as [|c l1 IH]; simpl; [tauto|]. rewrite IH, <- app_assoc. tauto. Qed.

Lemma justified_split calls older l1 c l2 :
  justified calls older → calls = l1 ++ c :: l2 → ok c (l2 ++ older).
Proof. intros H ->. apply justified_app in H as [_ [H _]]. done. Qed.

(** The history of [n'] extends that of [n] by justified calls. *)
Definition extends (n n' : Node) : Prop :=
  ∃ calls, n_calls n' = calls ++ n_calls n ∧ justified calls (n_calls n).

Global Instance extends_preorder : PreOrder extends.
Proof.
  split; [by exists []|]. intros n1 n2 n3 (c1 & H1 & J1) (c2 & H2 & J2). exists (c2 ++ c1).
  split; [by rewrite H2, H1, app_assoc|]. apply justified_app. by rewrite <- H1.
Qed.

Lemma extends_calls n n1 n' : n_calls n1 = n_calls n' → extends n n' → extends n n1.
Proof. intros Heq (c & H & J). exists c. by rewrite Heq. Qed.

(** All calls an operation makes are justified. *)
Definition obeys {A} (m : nio A) : Prop := ∀ n, wp m (λ _ n', extends n n') n.

Lemma obeys_bind {A B} (m : nio A) (k : A → nio B) : obeys m → (∀ a, obeys (k a)) → obeys (io_bind m k).
Proof.
  intros Hm Hk n. apply wp_bind. eapply wp_mono; [apply Hm|]. intros [a|e] n1 H1; [|done].
  eapply wp_mono; [apply Hk|]. intros r n2 H2. by etrans.
Qed.
Lemma obeys_record {A} E (what : result A → event) (m : nio A) :
  (∀ n, moves E n (m n).2) → (∀ s t r older, ok (mkCall s t (what r)) older) → obeys (record_call what m).
Proof. intros Hm Hok n. eapply wp_record; [apply Hm|]. intros r n' _ Hn. exists [mkCall (Metadata n) (n_now n) (what r)]. by simpl. Qed.
Lemma obeys_try {A} (m : nio A) : obeys m → obeys (io_try m).
Proof. intros Hm n. apply wp_try. apply Hm. Qed.
Lemma obeys_wrap {A} message (m : nio A) : obeys m → obeys (io_wrap message m).
Proof. intros Hm n. apply wp_wrap. eapply wp_mono; [apply Hm|]. by intros [] n' ?. Qed.
Lemma obeys_ret {A} (a : A) : obeys (io_ret a).
Proof. intros n. apply (@reflexivity _ extends _). Qed.
Lemma obeys_err {A} e : obeys (@io_err Node A e).
Proof. intros n. apply (@reflexivity _ extends _). Qed.
Lemma obeys_of {A} (r : result A) : obeys (@io_of Node A r).
Proof. intros n. apply (@reflexivity _ extends _). Qed.
Lemma obeys_get {A} (f : Node → A) : obeys (get f).
Proof. intros n. apply (@reflexivity _ extends _). Qed.
Lemma obeys_read {A} (f : Node → result A) : obeys (λ n, (f n, n)).
Proof. intros n. apply (@reflexivity _ extends _). Qed.
Lemma obeys_modify f : (∀ n, n_calls (f n) = n_calls n) → obeys (modify f).
Proof. intros Hf n. eapply extends_calls; [apply Hf|]. apply (@reflexivity _ extends _). Qed.
Lemma obeys_with_store {A} (call : string → io A) : obeys (with_store call).
Proof. intros n. eapply extends_calls; [apply (lo_calls _ _ (local_with_store call n))|]. apply (@reflexivity _ extends _). Qed.

(** Only changes of the Raft configuration need a justification. *)
Definition not_change (e : event) : Prop := match e with CallChange _ _ => False | _ => True end.
Context (benign : ∀ s t e older, not_change e → ok (mkCall s t e) older).

Section calls.
Context (E : env) {R : Raft} {P : Peers} `{!RaftLaws R E} `{!PeersLaws P E}.
Set Default Proof Using "Type*".
Lemma obeys_VerifyLeader : obeys r_VerifyLeader.
Proof using RaftLaws0 benign. apply (obeys_record E); [apply VerifyLeader_moves|intros; by apply benign]. Qed.
Lemma obeys_Barrier : obeys r_Barrier.
Proof using RaftLaws0 benign. apply (obeys_record E); [apply Barrier_moves|intros; by apply benign]. Qed.
Lemma obeys_Apply command data : obeys (r_Apply command data).
Proof using RaftLaws0 benign. apply (obeys_record E); [apply Apply_moves|intros; by apply benign]. Qed.
Lemma obeys_send rq : obeys (send rq).
Proof using PeersLaws0 benign.
  apply obeys_bind; [apply obeys_read|intros _]. apply obeys_bind; [apply obeys_of|intros _].
  apply (obeys_record E); [apply Do_moves|intros; by apply benign].
Qed.
End calls.
End history.

(** Follow the structure of an operation; the leaves are for [leaf]. *)
Ltac follow bind_rule leaf :=
  repeat match goal with
  | |- _ (io_bind _ _) => first [solve [leaf] | bind_rule; [|intros ?]]
  | |- _ (if ?b then _ else _) => destruct b
  | |- _ (match ?x with _ => _ end) => destruct x
  | |- _ (let '(_, _) := ?x in _) => destruct x
  | |- _ => leaf
  end.

Create HintDb evolving.
#[export] Hint Resolve calling_bind calling_try calling_wrap calling_ret calling_err calling_of calling_get
  calling_VerifyLeader calling_Barrier calling_Apply calling_Change calling_Transfer calling_send : evolving.
#[export] Hint Resolve evolving_bind evolving_try evolving_wrap evolving_ret evolving_err evolving_of
  evolving_get evolving_with_store evolving_modify evolving_local | 2 : evolving.
#[export] Hint Resolve evolving_calling | 1 : evolving.
