(* ===== verification/LeadershipProofs.v ===== *)
(** * LeadershipProofs: lemmas on leadership and the status of a node

    The operations of [Leadership] only evolve a node, what a passed leadership
    check says of the state, and how epochs tie owners down in a log. *)
From S2P Require Import Prelude Text Io Sha256 Json GoTime Duration Config Peers Capability Manifest.
From S2P Require Import BlobStore Fsm FsmProofs Node Leadership NodeProofs.
From stdpp Require Import options.

(** ** Local steps *)

Lemma local_updateCachedLeadership active epoch reason n :
  local n (updateCachedLeadership active epoch reason n).
Proof. done. Qed.

Lemma local_setLeadership active epoch reason n : local n (setLeadership active epoch reason n).
Proof. unfold setLeadership. by destruct (_ && _). Qed.

Lemma setLeadership_event active epoch reason n :
  n_leadership (setLeadership active epoch reason n) = mkLeadershipEvent active epoch reason.
Proof.
  unfold setLeadership. destruct (_ && _) eqn:H; [|done]. bool_simpl. simpl.
  apply eqb_prop in H. congruence.
Qed.

Lemma setLeadership_status active epoch reason n :
  n_status (setLeadership active epoch reason n) = n_status n.
Proof. unfold setLeadership. by destruct (_ && _). Qed.

Lemma local_refreshPeerRegistry n : local n (refreshPeerRegistry n).
Proof. done. Qed.

#[export] Hint Resolve local_updateCachedLeadership local_setLeadership local_refreshPeerRegistry : evolving.

(** Verifying blobs reads files and changes nothing else. *)
Lemma wp_verifyManifestBlobs E m (Q : result unit → Node → Prop) n :
  (∀ r w, Q r (set_files w n)) → wp (verifyManifestBlobs E m) Q n.
Proof.
  intros HQ. unfold wp, verifyManifestBlobs, with_store. destruct (n_blobStore n) as [root|].
  - destruct (verify_blobs _ _ _ _) as [v w]. apply HQ.
  - specialize (HQ (Err ErrNodeNotStarted) (n_files n)). by destruct n.
Qed.

Lemma available_generations_local E state now l n :
  wp (available_generations E state now l) (λ r n', is_ok r = true ∧ local n n' ∧ n_status n' = n_status n) n.
Proof.
  revert n. induction l as [|[hash m] l IH]; intros n; [done|].
  cbn [available_generations]. apply wp_bind, wp_get, wp_bind.
  assert (∀ b : bool, ∀ n1, local n n1 → n_status n1 = n_status n →
     wp (io_bind (available_generations E state now l)
     (λ rest, io_ret (if b then m_Generation m :: rest else rest)))
     (λ r n', is_ok r = true ∧ local n n' ∧ n_status n' = n_status n) n1) as Hrest.
  { intros b n1 Hl1 Hs1. apply wp_bind. eapply wp_mono; [apply IH|].
    intros [?|?] n' (? & ? & ?); [|done]. apply wp_ret. split_and!; [done|by etrans|congruence]. }
  destruct (_ || _); [|by apply wp_ret, (Hrest false)].
  apply wp_bind, wp_try, wp_verifyManifestBlobs. intros r w. by apply wp_ret, (Hrest (is_ok r)).
Qed.

(** [updateStatus] only stores the computed status, with some list of
    available generations. *)
Lemma wp_updateStatus E role leaderID leaderAddr state stats hasQuorum verifiedAt reason now
    (Q : result unit → Node → Prop) n :
  (∀ n1 n' available, local n n1 → n_status n1 = n_status n → n_servingReady n1 = n_servingReady n →
    n' = set_status (next_status n1 role leaderID leaderAddr state stats hasQuorum verifiedAt reason now
           (default (false, "application serving readiness is not configured") (n_servingReady n)).1
           (default (false, "application serving readiness is not configured") (n_servingReady n)).2 available) n1 →
    local n n' → Q (Ok tt) n') →
  wp (updateStatus E role leaderID leaderAddr state stats hasQuorum verifiedAt reason now) Q n.
Proof.
  intros HQ. apply wp_bind, wp_get. cbn [id].
  destruct (default _ (n_servingReady n)) as [aready areason]. apply wp_bind.
  eapply wp_mono; [apply available_generations_local|].
  intros [available|e] n1 (Hok & Hl & Hs); [|done].
  apply wp_modify. eapply (HQ n1); [done|done|apply Hl|done|by etrans; [exact Hl|]].
Qed.

Section evolving.
Context (E : env) {R : Raft} `{!RaftLaws R E}.
Set Default Proof Using "Type*".

Lemma evolving_updateStatus role leaderID leaderAddr state stats hasQuorum verifiedAt reason now :
  evolving E (updateStatus E role leaderID leaderAddr state stats hasQuorum verifiedAt reason now).
Proof. intros n. apply wp_updateStatus. intros. by apply local_evolves. Qed.

Lemma wp_VerifyBusinessLeadership ctx (Q : result unit → Node → Prop) n :
  (∀ e, checkLocalBusinessLeadership (n_now n) n = Err e → Q (Err e) n) →
  (checkLocalBusinessLeadership (n_now n) n = Ok tt →
   ∀ n1 e, evolves E n n1 → (∃ t, ctx t = Some e) → Q (Err e) n1) →
  (checkLocalBusinessLeadership (n_now n) n = Ok tt →
   ∀ n1 e, evolves E n n1 → Q (Err e) (updateCachedLeadership false (st_LeaderEpoch (n_status n1)) e n1)) →
  (checkLocalBusinessLeadership (n_now n) n = Ok tt →
   ∀ n1 c1 c2, evolves E n n1 → ctx (n_now n1) = None →
     n_calls n1 = mkCall c2.1 c2.2 (CallBarrier (Ok tt)) :: mkCall c1.1 c1.2 (CallVerifyLeader (Ok tt)) :: n_calls n →
     c1 = (Metadata n, n_now n) →
     Q (Ok tt) (updateCachedLeadership true (ms_LeaderEpoch (Metadata n1)) "" n1)) →
  wp (VerifyBusinessLeadership ctx) Q n.
Proof.
  intros Hlocal Hctx Hfail Hok. unfold wp, VerifyBusinessLeadership.
  destruct (checkLocalBusinessLeadership (n_now n) n) as [[]|e] eqn:Hc; [|by apply Hlocal].
  specialize (Hctx eq_refl). specialize (Hfail eq_refl). specialize (Hok eq_refl).
  set (m := io_bind _ _).
  assert (wp m (λ v n1, evolves E n n1 ∧ (v = Ok tt → ∃ c2,
     n_calls n1 = mkCall c2.1 c2.2 (CallBarrier (Ok tt))
       :: mkCall (Metadata n) (n_now n) (CallVerifyLeader (Ok tt)) :: n_calls n)) n) as Hm.
  { apply wp_bind, wp_wrap. eapply wp_record; [apply VerifyLeader_moves|].
    intros [[]|e] n1 _ Hn1; [|split; [by apply (moves_evolves _ [_])|done]].
    apply wp_wrap. eapply wp_record; [apply Barrier_moves|]. intros r n2 Hr2 Hn2.
    assert (evolves E n (set_calls (mkCall (Metadata (set_calls (mkCall (Metadata n) (n_now n) (CallVerifyLeader (Ok tt)) :: n_calls n) n1))
      (n_now n1) (CallBarrier r) :: mkCall (Metadata n) (n_now n) (CallVerifyLeader (Ok tt)) :: n_calls n) n2)).
    { etrans; [apply (moves_evolves _ [mkCall (Metadata n) (n_now n) (CallVerifyLeader (Ok tt))]); exact Hn1|].
      by apply (moves_evolves _ [_] _ _ Hn2). }
    destruct r as [[]|e]; (split; [done|]); [|done]. intros _. by eexists (_, _). }
  revert Hm. unfold wp. destruct (m n) as [v n1]. cbn [fst snd]. intros [Hev Hcalls].
  destruct (ctx (n_now n1)) as [e|] eqn:He; [apply Hctx; eauto|].
  destruct v as [[]|e]; [|by apply Hfail].
  destruct (Hcalls eq_refl) as [c2 Hc2]. by eapply (Hok n1 (Metadata n, n_now n) c2).
Qed.

Lemma evolving_VerifyBusinessLeadership ctx : evolving E (VerifyBusinessLeadership ctx).
Proof.
  intros n. apply wp_VerifyBusinessLeadership; [reflexivity|done|..].
  - intros _ n1 e Hn1. etrans; [exact Hn1|]. by apply local_evolves.
  - intros _ n1 c1 c2 Hn1 _ _ _. etrans; [exact Hn1|]. by apply local_evolves.
Qed.

Lemma calling_apply command : calling E (apply command).
Proof.
  intros n. unfold wp, apply. destruct (enc_Command command) as [data|e]; [|simpl; reflexivity].
  destruct (n_raft n); [|simpl; reflexivity].
  pose proof (calling_Apply E command data n) as H. unfold wp in H.
  by destruct (r_Apply command data n) as [[]?].
Qed.

Lemma evolving_PutMetadata ctx commandID key value revision :
  evolving E (PutMetadata ctx commandID key value revision).
Proof.
  apply evolving_bind; [apply evolving_VerifyBusinessLeadership|intros _].
  apply evolving_calling. auto using calling_apply with evolving.
Qed.

Lemma evolving_PutMetadataBatch ctx commandID values revision :
  evolving E (PutMetadataBatch ctx commandID values revision).
Proof.
  apply evolving_bind; [apply evolving_VerifyBusinessLeadership|intros _].
  apply evolving_calling. auto using calling_apply with evolving.
Qed.

Lemma calling_acquireLeadership term : calling E (acquireLeadership term).
Proof.
  unfold acquireLeadership. destruct (_ =? _)%N; [apply calling_err|].
  apply calling_bind; [apply calling_get|intros n0].
  apply calling_bind; [apply calling_apply|intros _]. apply calling_bind; [apply calling_get|intros n1].
  destruct (_ !! _); auto using calling_apply with evolving.
Qed.
End evolving.
#[export] Hint Resolve evolving_updateStatus evolving_VerifyBusinessLeadership calling_apply
  evolving_PutMetadata evolving_PutMetadataBatch calling_acquireLeadership : evolving.

(** ** What the leadership check establishes *)

Record leads (now : time) (n : Node) (r : raft_view) (f : metadataFSM) : Prop := {
  ld_raft : n_raft n = Some r;
  ld_fsm : n_fsm n = Some f;
  ld_isLeader : rv_IsLeader r = true;
  ld_healthy : ¬ faulted f;
  ld_gate : SupportsGate (n_capabilities n) (ms_CapabilityGate (fsm_state f)) true = true;
  ld_owner : ms_LeaderOwner (fsm_state f) = NodeID (n_cfg n);
  ld_epoch : ms_LeaderEpoch (fsm_state f) ≠ 0%N;
  ld_term : ms_LastLeadershipTerm (fsm_state f) = stat r "term";
  ld_role : st_Role (n_status n) = RoleLeader;
  ld_quorum : st_HasQuorum (n_status n) = true;
  ld_status_epoch : st_LeaderEpoch (n_status n) = ms_LeaderEpoch (fsm_state f);
  ld_verified : time_IsZero (st_QuorumVerifiedAt (n_status n)) = false;
  ld_age : (time_Sub now (st_QuorumVerifiedAt (n_status n)) ≤ MaxQuorumVerificationAge (n_cfg n))%Z;
}.

Lemma checkLocal_leads now n :
  checkLocalBusinessLeadership now n = Ok tt ↔ ∃ r f, leads now n r f.
Proof.
  unfold checkLocalBusinessLeadership. split.
  - destruct (n_raft n) as [r|] eqn:Hr; [|done]. destruct (n_fsm n) as [f|] eqn:Hf; [|done].
    destruct (negb (rv_IsLeader r)) eqn:?; [done|]. destruct (ApplyFault f).2 eqn:Hfault; [done|].
    apply ApplyFault_not_faulted in Hfault. cbn [State cloneMetadataState ms_CapabilityGate ms_LeaderOwner
      ms_LeaderEpoch ms_LastLeadershipTerm].
    rewrite normalize_equiv.
    destruct (negb (SupportsGate _ _ _)) eqn:?; [done|].
    destruct (negb (str_eqb (ms_LeaderOwner _) _) || _ || _) eqn:?; [done|].
    destruct (negb (str_eqb (st_Role _) _) || _ || _ || _ || _) eqn:?; [done|].
    intros _. bool_simpl. exists r, f. by constructor.
  - intros (r & f & [-> -> -> Hh Hg Ho He Ht Hrole Hq Hse Hv Ha]).
    apply ApplyFault_not_faulted in Hh. rewrite Hh. cbn [negb State cloneMetadataState ms_CapabilityGate
      ms_LeaderOwner ms_LeaderEpoch ms_LastLeadershipTerm].
    rewrite normalize_equiv, Hg, Ho, Ht, Hrole, Hq, Hse, Hv.
    rewrite !str_eqb_refl, !N.eqb_refl. apply N.eqb_neq in He. rewrite He. cbn [negb orb].
    apply Z.ltb_ge in Ha. by rewrite Ha.
Qed.

(** ** Epochs and owners along a log *)

(** Two machines that ran the same log without halting have the same state. *)
Lemma run_agree E1 E2 log f1 f2 w1 w2 :
  fsm_state f1 = fsm_state f2 → ¬ faulted (run E1 log f1 w1).1 → ¬ faulted (run E2 log f2 w2).1 →
  fsm_state (run E1 log f1 w1).1 = fsm_state (run E2 log f2 w2).1.
Proof.
  revert f1 f2 w1 w2. induction log as [|[i d] log IH]; intros f1 f2 w1 w2 Hs; [done|]. cbn [run].
  destruct (Apply E1 i d f1 w1) as [[r1 f1'] w1'] eqn:H1.
  destruct (Apply E2 i d f2 w2) as [[r2 f2'] w2'] eqn:H2. intros Hn1 Hn2.
  apply IH; [|done..]. eapply Apply_agree; [exact Hs|exact H1|exact H2|by eapply run_not_faulted..].
Qed.

(** Within an epoch the owner does not change. *)
Lemma Apply_owner E index data f w r f' w' :
  fsm_ok f → Apply E index data f w = ((r, f'), w') →
  ms_LeaderEpoch (fsm_state f') = ms_LeaderEpoch (fsm_state f) →
  ms_LeaderOwner (fsm_state f') = ms_LeaderOwner (fsm_state f).
Proof.
  intros Hok H. apply Apply_cases in H as [r0 f0 w0 _ _ _ [Hd _] _ _ _|?|command s _ _ Hc]; [|done|].
  - intros _. exact (f_equal ms_LeaderOwner Hd).
  - apply apply_command_Applied in Hc as (digest & s0 & -> & He & _). simpl.
    destruct He; simpl; try done. destruct (so_term _ _ Hok).
    rewrite u64_succ_small by (unfold u64_max; lia). lia.
Qed.

Lemma run_owner E log f w :
  fsm_ok f → (ms_Revision (fsm_state f) + N.of_nat (length log) < u64_max)%N →
  ms_LeaderEpoch (fsm_state (run E log f w).1) = ms_LeaderEpoch (fsm_state f) →
  ms_LeaderOwner (fsm_state (run E log f w).1) = ms_LeaderOwner (fsm_state f).
Proof.
  revert f w. induction log as [|[i d] log IH]; intros f w Hok Hr; cbn [run length] in *; [done|].
  destruct (Apply E i d f w) as [[r f1] w1] eqn:Ha.
  pose proof (Apply_epoch _ _ _ _ _ _ _ _ Hok Ha) as He1.
  pose proof (Apply_owner _ _ _ _ _ _ _ _ Hok Ha) as Ho1.
  pose proof Ha as Ha'. eapply Apply_ok in Ha' as [Hok1 Hr1]; [|done|lia].
  pose proof (run_epoch E log f1 w1 Hok1 ltac:(lia)) as He2. intros Heq.
  rewrite IH; [|done|lia|lia]. apply Ho1. lia.
Qed.

(** ** Refreshing *)

(** The state of a node whose refresh ended early: Raft calls it leader, but it
    could not prove it. *)
Record warming (n : Node) : Prop := {
  wm_ready : st_Ready (n_status n) = false;
  wm_role : st_Role (n_status n) = RoleLeaderWarming;
  wm_quorum : st_HasQuorum (n_status n) = false;
  wm_event : le_Active (n_leadership n) = false;
}.

(** The two calls that confirm the leader, in the history since [n]. *)
Definition confirmed (n n' : Node) : Prop :=
  ∃ s1 t1 s2 t2 calls, n_calls n' =
    mkCall s2 t2 (CallBarrier (Ok tt)) :: mkCall s1 t1 (CallVerifyLeader (Ok tt)) :: calls ++ n_calls n
    ∧ (t_ns (n_now n) ≤ t_ns t1)%Z.

(** What a refresh knows when it has found the node to be the leader. *)
Record proved (verify : bool) (now : time) (n n' : Node) (state : MetadataState) (verifiedAt : time) : Prop := {
  pv_owner : ms_LeaderOwner state = NodeID (n_cfg n);
  pv_verify : verify = true → verifiedAt = now ∧ confirmed n n';
  pv_cached : verify = false → verifiedAt = st_QuorumVerifiedAt (n_status n)
    ∧ time_IsZero verifiedAt = false ∧ (time_Sub now verifiedAt ≤ MaxQuorumVerificationAge (n_cfg n))%Z;
}.

Section refresh.
Context (E : env) {R : Raft} `{!RaftLaws R E}.
Set Default Proof Using "Type*".

Lemma wp_warm {A} leaderID leaderAddr state stats reason now epoch n n0 (k : nio A)
    (Q : result A → Node → Prop) :
  moved E n n0 → (∀ n', evolves E n n' → warming n' → wp k Q n') →
  wp (io_bind (updateStatus E RoleLeaderWarming leaderID leaderAddr state stats false zero_time reason now)
        (λ _, io_bind (modify (setLeadership false epoch reason)) (λ _, k))) Q n0.
Proof.
  intros Hn HQ. apply wp_bind, wp_updateStatus. intros n1 n' available Hl Hs Hr -> Hl'. apply wp_bind, wp_modify, HQ.
  - etrans; [apply moved_evolves, Hn|]. etrans; [apply local_evolves, Hl'|]. apply local_evolves, local_setLeadership.
  - constructor; rewrite ?setLeadership_status, ?setLeadership_event; done.
Qed.

Lemma warming_moved n n' : moved E n n' → warming n → warming n'.
Proof using Type. intros (Hs & Hl & _)%moved_rest []. constructor; congruence. Qed.

(** The verification of a leader, or the reading of the last one. *)
Lemma wp_quorum verify now n n0 state (Q : result (result (bool * time)) → Node → Prop) :
  moved E n n0 →
  (∀ e n', moved E n n' → Q (Ok (Err e)) n') →
  (∀ hasQuorum verifiedAt n', moved E n n' →
     (hasQuorum && str_eqb (ms_LeaderOwner state) (NodeID (n_cfg n)) = true → proved verify now n n' state verifiedAt) →
     (verify = true → hasQuorum = true) →
     Q (Ok (Ok (hasQuorum, verifiedAt))) n') →
  wp (if verify
      then io_bind (io_try (io_bind r_VerifyLeader (λ _, r_Barrier)))
             (λ v, io_ret (match v with Ok _ => Ok (true, now) | Err e => Err e end))
      else io_bind (get id) (λ m, let verifiedAt := st_QuorumVerifiedAt (n_status m) in
             io_ret (Ok (negb (time_IsZero verifiedAt)
               && (time_Sub now verifiedAt <=? MaxQuorumVerificationAge (n_cfg n))%Z, verifiedAt)))) Q n0.
Proof.
  intros Hn Herr Hok. destruct verify.
  - apply wp_bind, wp_try, wp_bind. eapply wp_record; [apply VerifyLeader_moves|].
    intros v n1 _ Hn1. apply (moved_record _ (mkCall (Metadata n0) (n_now n0) (CallVerifyLeader v))) in Hn1.
    destruct v as [[]|e]; [|apply wp_ret, Herr; by etrans].
    eapply wp_record; [apply Barrier_moves|]. intros b n2 _ Hn2.
    pose proof (λ c, moved_record E c _ _ Hn2) as Hn2'.
    destruct b as [[]|e]; [|apply wp_ret, Herr; etrans; [done|]; etrans; [exact Hn1|apply Hn2']].
    apply wp_ret, Hok; [etrans; [done|]; etrans; [exact Hn1|apply Hn2']|intros Hb; bool_simpl|done].
    constructor; [done|intros _; split; [done|]|done].
    destruct (ev_calls _ _ _ (moved_evolves _ _ _ Hn)) as [c Hc].
    eexists _, _, _, _, c. simpl. rewrite Hc. split; [done|]. apply (moved_evolves _ _ _ Hn).
  - apply wp_bind, wp_get, wp_ret. destruct (moved_rest _ _ _ Hn) as (Hs & _).
    apply Hok; [done| |done]. cbn [id]. intros Hb. bool_simpl. constructor; [done|done|].
    intros _. by rewrite <- Hs.
Qed.
Lemma wp_refresh_leader verify r state now n
    (Q : result (option (MetadataState * string * bool * time)) → Node → Prop) :
  (∀ n', evolves E n n' → warming n' → Q (Ok None) n') →
  (∀ n' state' role hasQuorum verifiedAt, moved E n n' →
     (state' = state ∨ ∃ n1, evolves E n n1 ∧ state' = Metadata n1) →
     role = (if hasQuorum && str_eqb (ms_LeaderOwner state') (NodeID (n_cfg n))
             then RoleLeader else RoleLeaderWarming) →
     (role = RoleLeader → proved verify now n n' state' verifiedAt) →
     Q (Ok (Some (state', role, hasQuorum, verifiedAt))) n') →
  wp (refresh_leader E verify r state now) Q n.
Proof.
  intros Hwarm Hok. apply wp_bind, wp_get. cbn [id]. destruct (negb (SupportsGate _ _ _)).
  { apply (wp_warm _ _ _ _ _ _ _ n); [reflexivity|]. intros n1 Hn1 Hw.
    apply wp_bind, wp_try. eapply wp_mono; [apply (calling_Transfer E None n1)|]. intros v n2 Hn2.
    apply wp_ret, Hwarm; [etrans; [exact Hn1|by apply moved_evolves]|by apply (warming_moved n1)]. }
  apply wp_bind.
  set (acquire := if _ : bool then _ else _).
  assert (wp acquire (λ a n0, moved E n n0 ∧ match a with
    | Ok (Ok state') => state' = state ∨ ∃ n1, evolves E n n1 ∧ state' = Metadata n1
    | Ok (Err _) => True | Err _ => False end) n) as Hacq.
  { unfold acquire. destruct (_ || _); [|apply wp_ret; split; [reflexivity|by left]].
    apply wp_bind, wp_try. eapply wp_mono; [apply (calling_acquireLeadership E (stat r "term") n)|].
    intros v n0 Hn0. apply wp_bind, wp_get, wp_ret. split; [exact Hn0|]. destruct v; [|done].
    right. exists n0. split; [by apply moved_evolves|done]. }
  eapply wp_mono; [exact Hacq|]. clear acquire Hacq. intros [[state'|e]|e] n0 [Hn0 Hst]; [| |done].
  2:{ apply (wp_warm _ _ _ _ _ _ _ n); [exact Hn0|]. intros n1 Hn1 Hw. by apply wp_ret, Hwarm. }
  apply wp_bind. apply (wp_quorum verify now n n0 state'); [done|..].
  - intros e n1 Hn1. apply (wp_warm _ _ _ _ _ _ _ n); [exact Hn1|]. intros n2 Hn2 Hw. by apply wp_ret, Hwarm.
  - intros hasQuorum verifiedAt n1 Hn1 Hp _. apply wp_ret, Hok; [done..|].
    destruct (_ && _); [intros _; by apply Hp|done].
Qed.
End refresh.

(** ** Commands on the wire *)

Record command_ok (c : Command) : Prop := {
  co_protocol : (c_ProtocolVersion c < u32_bound)%N;
  co_command : (c_CommandVersion c < u32_bound)%N;
  co_id : valid_utf8 (c_ID c);
  co_type : valid_utf8 (c_Type c);
  co_expected : ∀ r, c_ExpectedRevision c = Some r → (r < u64_bound)%N;
  co_epoch : (c_LeaderEpoch c < u64_bound)%N;
  co_created : ∀ created, enc_time (c_CreatedAt c) = Ok created →
    dec_time created zero_time = Some (c_CreatedAt c);
}.

(** What a leader submits is what every replica decodes. *)
Lemma dec_enc_Command c data :
  command_ok c → enc_Command c = Ok data → Unmarshal dec_Command zero_Command (Some data) = Some c.
Proof.
  intros [Hp Hc Hid Hty Hx He Ht]. unfold enc_Command.
  destruct (enc_time (c_CreatedAt c)) as [created|] eqn:Hcr; [|done]. intros [= <-].
  specialize (Ht _ eq_refl). destruct c as [p cv id ty expected epoch payload at_].
  cbn [c_ProtocolVersion c_CommandVersion c_ID c_Type c_ExpectedRevision c_LeaderEpoch c_Payload c_CreatedAt] in *.
  unfold Unmarshal, dec_Command.
  dec_member. dec_member. dec_member. dec_member.
  destruct expected as [x|]; (apply dec_fields_unless; intros Hb; try discriminate Hb; clear Hb).
  - eapply dec_fields_field; [reflexivity|apply set_field_Some|].
    { simpl. rewrite ParseUint_FormatUint by eauto. done. }
    dec_member. destruct payload as [pl|]; apply dec_fields_unless; intros Hb; try discriminate Hb; clear Hb.
    + dec_member; [done|]. dec_member; [exact Ht|]. done.
    + dec_member; [exact Ht|]. done.
  - dec_member. destruct payload as [pl|]; apply dec_fields_unless; intros Hb; try discriminate Hb; clear Hb.
    + dec_member; [done|]. dec_member; [exact Ht|]. done.
    + dec_member; [exact Ht|]. done.
Qed.

(** ** Histories of the commands *)

(** A node that passes the local check asks Raft to verify the leader. *)
Lemma wp_verify_called E {R : Raft} `{!RaftLaws R E} ctx n :
  HasBusinessLeadership n = true →
  wp (VerifyBusinessLeadership ctx) (λ _ n', ∃ s t v, called n n' (mkCall s t (CallVerifyLeader v))) n.
Proof.
  unfold HasBusinessLeadership, wp, VerifyBusinessLeadership.
  destruct (checkLocalBusinessLeadership (n_now n) n); [intros _|done]. set (m := io_bind _ _).
  assert (wp m (λ _ n', ∃ s t v, called n n' (mkCall s t (CallVerifyLeader v))) n) as Hm.
  { apply wp_bind, wp_wrap. eapply wp_record; [apply VerifyLeader_moves|]. intros v n1 _ Hn1. set (n2 := set_calls _ n1).
    assert (called n n2 (mkCall (Metadata n) (n_now n) (CallVerifyLeader v))) as Hc by (eexists [_]; split; [reflexivity|left]).
    destruct v as [[]|e]; [|by eexists _, _, _].
    apply wp_wrap. eapply wp_mono; [apply (calling_Barrier E n2)|]. intros r n3 Hn3%moved_evolves.
    destruct r; eexists _, _, _; (eapply (called_mono E); [reflexivity|exact Hc|exact Hn3]). }
  unfold wp in Hm. destruct (m n) as [v n1]. cbn [fst snd] in Hm. destruct (ctx (n_now n1)); [done|]. by destruct v.
Qed.

Section obeys_calls.
Context (ok : call → list call → Prop) (E : env) {R : Raft} `{!RaftLaws R E}.
Set Default Proof Using "Type*".

Lemma obeys_verification ctx :
  (∀ s t r older, ok (mkCall s t (CallVerifyLeader r)) older) → (∀ s t r older, ok (mkCall s t (CallBarrier r)) older) →
  obeys ok (VerifyBusinessLeadership ctx).
Proof.
  intros Hv Hb n. unfold wp, VerifyBusinessLeadership.
  destruct (checkLocalBusinessLeadership _ _); [|apply (@reflexivity _ (extends ok) _)].
  set (m := io_bind _ _).
  assert (obeys ok m) as Hm.
  { apply obeys_bind; [apply obeys_wrap, (obeys_record ok E); [apply VerifyLeader_moves|apply Hv]|intros _].
    apply obeys_wrap, (obeys_record ok E); [apply Barrier_moves|apply Hb]. }
  specialize (Hm n). unfold wp in Hm. destruct (m n) as [v n1]. cbn [fst snd] in Hm.
  destruct (ctx (n_now n1)); [done|]. by destruct v.
Qed.

Lemma obeys_applying command :
  (∀ s t r older, ok (mkCall s t (CallApply command r)) older) → obeys ok (apply command).
Proof.
  intros Ha n. unfold wp, apply. destruct (enc_Command command) as [data|e]; [|apply (@reflexivity _ (extends ok) _)].
  destruct (n_raft n); [|apply (@reflexivity _ (extends ok) _)].
  pose proof (obeys_record ok E (CallApply command) (raft_Apply (Some data)) (Apply_moves (Some data)) Ha n) as H. unfold wp in H.
  unfold r_Apply. by destruct (record_call _ _ n) as [[]?].
Qed.

End obeys_calls.

Section obeys.
Context (ok : call → list call → Prop) (benign : ∀ s t e older, not_change e → ok (mkCall s t e) older).
Context (E : env) {R : Raft} `{!RaftLaws R E}.
Set Default Proof Using "Type*".

Lemma obeys_VerifyBusinessLeadership ctx : obeys ok (VerifyBusinessLeadership ctx).
Proof. apply (obeys_verification ok E); intros; by apply benign. Qed.

Lemma obeys_apply command : obeys ok (apply command).
Proof. apply (obeys_applying ok E). intros. by apply benign. Qed.

Lemma obeys_PutMetadata ctx commandID key value revision :
  obeys ok (PutMetadata ctx commandID key value revision).
Proof.
  apply obeys_bind; [apply obeys_VerifyBusinessLeadership|intros _].
  apply obeys_bind; [apply obeys_of|intros raw]. apply obeys_bind; [apply obeys_get|intros n].
  apply obeys_bind; [apply obeys_apply|intros r; apply obeys_ret].
Qed.

Lemma obeys_PutMetadataBatch ctx commandID values revision :
  obeys ok (PutMetadataBatch ctx commandID values revision).
Proof.
  apply obeys_bind; [apply obeys_VerifyBusinessLeadership|intros _].
  apply obeys_bind; [apply obeys_of|intros raw]. apply obeys_bind; [apply obeys_get|intros n].
  apply obeys_bind; [apply obeys_apply|intros r; apply obeys_ret].
Qed.
End obeys.
