(* ===== verification/Examples.v ===== *)
(** * Examples: a concrete cluster of one voter

    A Raft that answers at once and applies each command to the local state
    machine, with its laws, and a node of it.  The witnesses of the node's
    properties are evaluated on these. *)
From S2P Require Import Prelude Text Io Sha256 Json GoTime Duration Config Peers Capability Manifest.
From S2P Require Import BlobStore Fsm FsmProofs Node Leadership NodeProofs.
From stdpp Require Import options.

(** No system call fails. *)
Definition calm : env := mkEnv (λ _, None) (λ _, 0%N).

(** Every call succeeds; [Apply] appends the entry and applies it. *)
Definition solo : Raft := {|
  raft_VerifyLeader := io_ret tt;
  raft_Barrier := io_ret tt;
  raft_Apply data n :=
    match n_fsm n with
    | None => (Err "raft is already shutdown", n)
    | Some f =>
        if (ms_Revision (fsm_state f) <? u64_max)%N
        then
          let '((r, f'), d) := Apply calm (ms_Revision (fsm_state f) + 1) data f (n_disk n) in
          (Ok r, set_raft (n_raft n) (Some f') (n_now n) d n)
        else (Err "log is full", n)
    end;
  raft_Change change := io_ret tt;
  raft_LeadershipTransfer to := io_err "cannot find peer";
|}.

#[export] Instance solo_laws : RaftLaws solo calm.
Proof.
  split; try (intros; apply moves_refl).
  - intros data n. simpl. destruct (n_fsm n) as [f|] eqn:Hf; [|apply moves_refl].
    destruct (_ <? _)%N eqn:Hrev; [|apply moves_refl]. bool_simpl.
    destruct (Apply _ _ _ _ _) as [[r f'] d] eqn:Ha.
    exists (n_raft n), (Some f'), (n_now n), d. split_and!; [done..|]. rewrite Hf.
    eexists [(_, data)], f'. cbn [run small_run]. by rewrite Ha.
  - intros data n r n' f0 H Hf. simpl in H. rewrite Hf in H.
    destruct (_ <? _)%N eqn:Hrev; [|done]. bool_simpl.
    destruct (Apply _ _ _ _ _) as [[r1 f'] d] eqn:Ha. simplify_eq/=.
    eexists [], [], _, f0, (n_disk n), f', d, f'. cbn [app small_run]. rewrite Ha. split_and!; done.
Qed.

(** The state machine of cluster "c", led by "n1" with epoch 1 of term 7. *)
Definition ex_fsm : metadataFSM :=
  let f := newMetadataFSM "c" in set_fsm_state (set_leadership 1 7 "n1" (fsm_state f)) f.

Lemma ex_fsm_ok : fsm_ok ex_fsm.
Proof. constructor; simpl; done. Qed.

Definition ex_config : Config := NormalizeConfig (mkConfig true "c" "n1" "" "0.0.0.0:7000" "h1:7000"
  "0.0.0.0:7443" "https://h1:7443" "/data" 3 false ["n1=h1:7000"; "n2=h2:7000|https://h2:7443"; "n3=h3:7000"]
  ["admin"] "" 0 0 false 0 0 0 0 0 "" 0 0 0 0 0 (mkTLSConfig true "ca" "crt" "key" "")).

(** What Raft reports as a leader and as a follower of "n2". *)
Definition ex_servers : list Server :=
  [mkServer Voter "n1" "h1:7000"; mkServer Voter "n2" "h2:7000"; mkServer Voter "n3" "h3:7000"].
Definition ex_leader : raft_view :=
  mkRaftView true (<[ "term" := "7" ]> (<[ "last_contact" := "0" ]> (<[ "applied_index" := "9" ]>
    {[ "commit_index" := "9" ]}))) "h1:7000" "n1" (Ok (3%N, ex_servers)).
Definition ex_follower : raft_view :=
  mkRaftView false (<[ "term" := "7" ]> (<[ "last_contact" := "15ms" ]> (<[ "applied_index" := "9" ]>
    {[ "commit_index" := "9" ]}))) "h2:7000" "n2" (Ok (3%N, ex_servers)).

Definition ex_now : time := Time_ (1767225600 * second) 0.

(** A node of the cluster as it starts, its application being ready. *)
Definition ex_node (cfg : Config) (r : raft_view) (f : metadataFSM) : Node :=
  mkNode cfg (start_status true false ReadinessNotReady "cluster runtime is starting" (ClusterID cfg)
                (NodeID cfg) RoleFollower (ReadConsistency cfg) (EmergencyStaleRead cfg)
                (duration_text (MaxLeaderContactAge cfg)) (duration_text (MaxQuorumVerificationAge cfg)))
    (Some r) (Some f) (Some "/data/cas") false ∅ (mkLeadershipEvent false 0 "") (Some (true, "")) ∅
    (newPeerRegistry (initial_members cfg)) ∅ 0 SupportedNodeCapabilities ex_now
    (mkWorld ∅ ∅ ∅ 0) (mkWorld ∅ ∅ ∅ 0) [].

(** The example node as a verified leader, with the state machine of [f]. *)
Definition ex_leading (f : metadataFSM) : Node :=
  updateCachedLeadership true 1 "" (ex_node ex_config ex_leader f).

(** A node that waits to join. *)
Definition ex_joiner : Member := mkMember "n4" "h4:7000" "https://h4:7443".

(** Peers that answer every request with success; as a status, with that of a
    node "n4" that follows the asking node closely. *)
Definition ex_status (s : MetadataState) : Status :=
  let z := start_status true true ReadinessReady "" "c" "n4" RoleFollower "bounded" false "" "" in
  mkStatus (st_Enabled z) (st_Ready z) (st_Readiness z) (st_Reason z) (st_ClusterID z) (st_NodeID z) (st_Role z)
    "n1" "h1:7000" 1 7 9 9 false zero_time zero_time "bounded" false "" "" zero_Generation 0 [] 1 1
    SupportedNodeCapabilities (ms_CapabilityGate s) true true (ms_Revision s) "" 0 "".
Definition ex_prepared : join_prepared :=
  mkJoinPrepared "c" "n4" "h4:7000" "https://h4:7443" true 3 3 SupportedNodeCapabilities.
Definition ex_peers : Peers := {|
  client_Do rq n := (Ok (mkResponse StatusOK [] (mkReader "" None) (Some (ex_status (Metadata n))) (Some ex_prepared)), n);
  http_NewRequest method url := Ok tt;
  tls_LoadX509KeyPair cert key := Ok tt;
  os_ReadFile path := Ok "";
  AppendCertsFromPEM pem := true;
|}.

#[export] Instance ex_peers_laws : PeersLaws ex_peers calm.
Proof. split. intros. apply moves_refl. Qed.
