(* ===== verification/LeadershipSpec.v ===== *)
(** * LeadershipSpec: what leadership and readiness promise

    When a node calls itself ready, what a passed leadership check means across
    the cluster, and which events the subscribers of a node receive. *)
From S2P Require Import Prelude Text Io Sha256 Json GoTime Duration Config Peers Capability Manifest.
From S2P Require Import BlobStore Fsm FsmProofs Node Leadership NodeProofs LeadershipProofs Examples.
From stdpp Require Import options.

(** ** Readiness *)

(** Ready as a follower: Raft knows the leader and heard from it recently. *)
Definition follows (r : raft_view) (n : Node) : Prop :=
  rv_IsLeader r = false ∧ rv_LeaderID r ≠ ""
  ∧ (0 ≤ parseDuration (default "" (rv_Stats r !! "last_contact")) ≤ MaxLeaderContactAge (n_cfg n))%Z.

(** What a node that calls itself ready has checked. *)
Definition ready_means (verify : bool) (r : raft_view) (n n' : Node) : Prop :=
  (∃ text, n_servingReady n = Some (true, text))
  ∧ (∃ f', n_fsm n' = Some f' ∧ ¬ faulted f')
  ∧ SupportsGate (n_capabilities n) (st_ActiveCapabilityGate (n_status n')) true = true
  ∧ (st_Role (n_status n') = RoleFollower ∧ follows r n
     ∨ st_Role (n_status n') = RoleLeader ∧ rv_IsLeader r = true ∧ st_HasQuorum (n_status n') = true
       ∧ ∃ state, st_LeaderEpoch (n_status n') = ms_LeaderEpoch state
         ∧ proved verify (n_now n) n n' state (st_QuorumVerifiedAt (n_status n'))).

(** The event agrees with the status. *)
Definition event_agrees (n : Node) : Prop :=
  le_Active (n_leadership n) = true ↔ st_Role (n_status n) = RoleLeader ∧ st_HasQuorum (n_status n) = true.

Lemma warming_agrees n : warming n → event_agrees n.
Proof. intros [_ _ Hq He]. unfold event_agrees. rewrite Hq, He. naive_solver. Qed.

Lemma proved_calls verify now n n1 n2 state verifiedAt :
  proved verify now n n1 state verifiedAt → n_calls n2 = n_calls n1 → proved verify now n n2 state verifiedAt.
Proof. intros [Ho Hv Hc] Heq. constructor; [done| |done]. unfold confirmed. by rewrite Heq. Qed.

(** The last two statements of a refresh. *)
Lemma wp_conclude E verify (n n0 : Node) r f role state hasQuorum verifiedAt reason
    (Q : result unit → Node → Prop) :
  evolves E n n0 → n_fsm n = Some f → n_status n0 = n_status n →
  (role = RoleLeader → rv_IsLeader r = true ∧ proved verify (n_now n) n n0 state verifiedAt) →
  (role = RoleFollower → rv_IsLeader r = false) →
  role ∈ [RoleLeader; RoleLeaderWarming; RoleFollower] →
  (∀ n', (st_Ready (n_status n') = true → ready_means verify r n n') ∧ event_agrees n' → Q (Ok tt) n') →
  wp (io_bind (updateStatus E role (rv_LeaderID r) (rv_LeaderAddr r) state (rv_Stats r) hasQuorum verifiedAt
                 reason (n_now n))
        (λ _, modify (setLeadership (str_eqb role RoleLeader && hasQuorum) (ms_LeaderEpoch state) reason)))
     Q n0.
Proof.
  intros Hev Hf Hst Hlead Hfol Hrole HQ. destruct (ev_same _ _ _ Hev) as [Hcfg Hcaps Hserv _ _].
  pose proof (ev_fsm _ _ _ Hev) as Hfsm. rewrite Hf in Hfsm. destruct Hfsm as (log & f' & Hf' & _).
  apply wp_bind, wp_updateStatus. intros n1 n' available Hl1 Hs1 Hserv1 -> Hl'. apply wp_modify, HQ. clear HQ.
  unfold ready_means, event_agrees. rewrite setLeadership_status, setLeadership_event.
  cbn [n_status set_status next_status st_Ready st_Role st_HasQuorum le_Active].
  split; [|rewrite andb_true_iff, str_eqb_eq; tauto].
  rewrite (lo_fsm _ _ Hl1), Hf', (sn_cfg _ _ (lo_same _ _ Hl1)), (sn_capabilities _ _ (lo_same _ _ Hl1)), Hcfg, Hcaps, Hserv.
  rewrite (lo_fsm _ _ (local_setLeadership _ _ _ _)). cbn [n_fsm set_status next_status
    st_ActiveCapabilityGate st_LeaderEpoch st_QuorumVerifiedAt].
  rewrite (lo_fsm _ _ Hl1), Hf'.
  destruct (n_servingReady n) as [[sready text]|]; cbn [default id fst snd]; [|by rewrite andb_false_r].
  intros Hready. apply andb_true_iff in Hready as [Hready Hhealth]. apply andb_true_iff in Hready as [Hready Hgate].
  apply andb_true_iff in Hready as [Htransport ->]. split_and!.
  - by exists text.
  - exists f'. split; [done|]. apply ApplyFault_not_faulted. by apply negb_true_iff.
  - by rewrite normalize_equiv.
  - rewrite !elem_of_cons in Hrole. destruct Hrole as [->|[->|[->|H]]]; [| | |by apply not_elem_of_nil in H].
    + right. unfold transport_ready in Htransport. rewrite str_eqb_refl in Htransport. bool_simpl.
      destruct (Hlead eq_refl) as [Hl Hp]. split_and!; [done..|]. exists state. split; [done|].
      destruct (time_IsZero verifiedAt); [done|]. eapply proved_calls; [exact Hp|].
      rewrite (lo_calls _ _ (local_setLeadership _ _ _ _)). exact (lo_calls _ _ Hl1).
    + discriminate Htransport.
    + left. unfold transport_ready in Htransport. simpl in Htransport. bool_simpl.
      split; [done|]. unfold follows. auto.
Qed.

(** C35: after a refresh a node calls itself ready only if its application is
    ready, its state machine has not halted, it supports the active gate as a
    leader, and either it follows a leader heard from within the bound, or it
    is the owner of the current epoch and its quorum was confirmed: by a
    verification and a barrier made during this refresh, or within the bound
    when this refresh makes none.  The event the subscribers of leadership get
    is active exactly when the status says leader with a quorum. *)
Theorem refreshStatus_ready (E : env) `{!RaftLaws R E} (verify : bool) (n n' : Node)
    (r : raft_view) (f : metadataFSM) (res : result unit) :
  n_raft n = Some r → n_fsm n = Some f → refreshStatus E verify n = (res, n') →
  (st_Ready (n_status n') = true → ready_means verify r n n') ∧ event_agrees n'.
Proof.
  intros Hr Hf Hrun. set (Q := λ (_ : result unit) (n' : Node),
    (st_Ready (n_status n') = true → ready_means verify r n n') ∧ event_agrees n').
  cut (wp (refreshStatus E verify) Q n); [intros H; exact (wp_eq _ _ _ _ _ Hrun H)|]. clear Hrun.
  apply wp_bind, wp_modify, wp_bind, wp_get. cbn [id n_raft n_fsm refreshPeerRegistry set_members].
  rewrite Hr, Hf. apply wp_bind, wp_modify.
  match goal with |- wp _ _ ?x => set (nu := x) end.
  assert (local n nu ∧ n_status nu = n_status n) as [Hlu Hsu].
  { unfold nu. by destruct (n_unjoined _ && _). }
  apply wp_bind. destruct (rv_IsLeader r) eqn:Hlead.
  - apply (wp_refresh_leader E verify r).
    + intros n1 Hn1 Hw. apply wp_ret. split; [|by apply warming_agrees]. by rewrite (wm_ready _ Hw).
    + intros n1 state' role hasQuorum verifiedAt Hn1 _ Hrole Hp.
      eapply (wp_conclude E verify n n1 r f); [|done|..|done].
      * etrans; [by apply local_evolves|by apply moved_evolves].
      * by destruct (moved_rest _ _ _ Hn1) as [-> _].
      * intros Hrl. split; [done|]. destruct (Hp Hrl) as [Ho Hv Hc].
        destruct Hlu as [[Hcfg _ _ _ _] _ _ Hnow _ Hcalls]. rewrite Hcfg in *. rewrite Hsu in Hc.
        constructor; [done| |done]. intros Hver. destruct (Hv Hver) as [-> Hconf]. split; [done|].
        unfold confirmed in *. by rewrite <- Hcalls, <- Hnow.
      * intros Hrf. subst role. destruct (hasQuorum && _); discriminate Hrf.
      * subst role. destruct (hasQuorum && _); [by left|right; by left].
  - apply wp_ret. eapply (wp_conclude E verify n nu r f); [by apply local_evolves|done|done|done|done| |done].
    right. right. by left.
Qed.

Lemma refreshStatus_ready_witness :
  let n := ex_node ex_config ex_leader ex_fsm in
  let m := ex_node ex_config ex_follower ex_fsm in
  ready_means true ex_leader n (refreshStatus (R := solo) calm true n).2
  ∧ ready_means true ex_follower m (refreshStatus (R := solo) calm true m).2.
Proof.
  intros n m. split.
  - refine (proj1 (refreshStatus_ready calm true n _ ex_leader ex_fsm _ eq_refl eq_refl
      (surjective_pairing (refreshStatus (R := solo) calm true n))) _). vm_compute. reflexivity.
  - refine (proj1 (refreshStatus_ready calm true m _ ex_follower ex_fsm _ eq_refl eq_refl
      (surjective_pairing (refreshStatus (R := solo) calm true m))) _). vm_compute. reflexivity.
Defined.

(** The event after a refresh: active only if Raft calls the node leader and the
    refresh has found it to be the owner of the epoch it announces. *)
Definition event_proved (verify : bool) (r : raft_view) (n n' : Node) : Prop :=
  le_Active (n_leadership n') = true →
  rv_IsLeader r = true ∧ ∃ state verifiedAt, le_Epoch (n_leadership n') = ms_LeaderEpoch state
    ∧ proved verify (n_now n) n n' state verifiedAt.

Lemma wp_conclude_event E verify (n n0 : Node) r role state hasQuorum verifiedAt reason leaderID leaderAddr stats :
  (role = RoleLeader → rv_IsLeader r = true ∧ proved verify (n_now n) n n0 state verifiedAt) →
  wp (io_bind (updateStatus E role leaderID leaderAddr state stats hasQuorum verifiedAt reason (n_now n))
        (λ _, modify (setLeadership (str_eqb role RoleLeader && hasQuorum) (ms_LeaderEpoch state) reason)))
     (λ _ n', event_agrees n' ∧ event_proved verify r n n') n0.
Proof.
  intros Hlead. apply wp_bind, wp_updateStatus. intros n1 n' available Hl1 Hs1 Hserv1 -> Hl'. apply wp_modify.
  unfold event_agrees, event_proved. rewrite setLeadership_status, setLeadership_event.
  cbn [n_status set_status next_status st_Role st_HasQuorum le_Active le_Epoch].
  split; [by rewrite andb_true_iff, str_eqb_eq|]. intros [Hr _]%andb_true_iff. apply str_eqb_eq in Hr.
  destruct (Hlead Hr) as [Hl Hp]. split; [done|]. exists state, verifiedAt. split; [done|].
  eapply proved_calls; [exact Hp|]. rewrite (lo_calls _ _ (local_setLeadership _ _ _ _)). exact (lo_calls _ _ Hl1).
Qed.

Lemma wp_refresh_event E {R : Raft} `{!RaftLaws R E} verify n r f :
  n_raft n = Some r → n_fsm n = Some f →
  wp (refreshStatus E verify) (λ _ n', event_agrees n' ∧ event_proved verify r n n') n.
Proof.
  intros Hr Hf. apply wp_bind, wp_modify, wp_bind, wp_get. cbn [id n_raft n_fsm refreshPeerRegistry set_members].
  rewrite Hr, Hf. apply wp_bind, wp_modify. match goal with |- wp _ _ ?x => set (nu := x) end.
  assert (local n nu ∧ n_status nu = n_status n) as [Hlu Hsu] by (unfold nu; by destruct (n_unjoined _ && _)).
  assert (∀ n1 state at_, proved verify (n_now n) nu n1 state at_ → proved verify (n_now n) n n1 state at_) as Hfrom.
  { intros n1 state at_ [Ho Hv Hc]. destruct Hlu as [[Hcfg _ _ _ _] _ _ Hnow _ Hcalls]. rewrite Hcfg in *. rewrite Hsu in Hc.
    constructor; [done| |done]. intros Hver. destruct (Hv Hver) as [-> Hconf].
    split; [done|]. unfold confirmed in *. by rewrite <- Hcalls, <- Hnow. }
  apply wp_bind. destruct (rv_IsLeader r) eqn:Hlead.
  - apply (wp_refresh_leader E verify r).
    + intros n1 _ Hw. apply wp_ret. split; [by apply warming_agrees|]. intros He. by rewrite (wm_event _ Hw) in He.
    + intros n1 state' role hasQuorum verifiedAt _ _ _ Hp. apply (wp_conclude_event E verify n n1 r).
      intros Hrl. split; [done|]. by apply Hfrom, Hp.
  - apply wp_ret. by apply (wp_conclude_event E verify n nu r).
Qed.

(** ** One leader per epoch *)

(** C6: two nodes of one cluster, whose machines have applied [log1] and a longer
    log, both pass the leadership check, at whatever times and with whatever
    stale caches: then the one behind does not hold a later epoch, and if they
    hold the same epoch they are the same node.  Two different leaders thus have
    different epochs, the one behind the smaller, and its writes are fenced. *)
Theorem leadership_exclusive (E1 E2 : env) (clusterID : string) (log1 log2 : list log_entry)
    (w1 w2 : disk) (n1 n2 : Node) (t1 t2 : time) :
  (N.of_nat (length (log1 ++ log2)) < u64_max)%N →
  n_fsm n1 = Some (run E1 log1 (newMetadataFSM clusterID) w1).1 →
  n_fsm n2 = Some (run E2 (log1 ++ log2) (newMetadataFSM clusterID) w2).1 →
  checkLocalBusinessLeadership t1 n1 = Ok tt → checkLocalBusinessLeadership t2 n2 = Ok tt →
  (ms_LeaderEpoch (Metadata n1) ≤ ms_LeaderEpoch (Metadata n2))%N
  ∧ (ms_LeaderEpoch (Metadata n1) = ms_LeaderEpoch (Metadata n2) → NodeID (n_cfg n1) = NodeID (n_cfg n2)).
Proof.
  intros Hlen Hf1 Hf2 (r1 & f1 & H1)%checkLocal_leads (r2 & f2 & H2)%checkLocal_leads.
  unfold Metadata. rewrite Hf1, Hf2. cbn [State cloneMetadataState ms_LeaderEpoch].
  pose proof (ld_fsm _ _ _ _ H1) as Heq1. pose proof (ld_fsm _ _ _ _ H2) as Heq2.
  rewrite Hf1 in Heq1. rewrite Hf2 in Heq2. injection Heq1 as <-. injection Heq2 as <-.
  rewrite <- (ld_owner _ _ _ _ H1), <- (ld_owner _ _ _ _ H2).
  pose proof (ld_healthy _ _ _ _ H1) as Hh1. pose proof (ld_healthy _ _ _ _ H2) as Hh2.
  rewrite length_app in Hlen. rewrite run_app in Hh2 |- *.
  destruct (run E2 log1 (newMetadataFSM clusterID) w2) as [g w] eqn:Hg.
  assert (fsm_state (run E1 log1 (newMetadataFSM clusterID) w1).1 = fsm_state g) as ->.
  { change g with (g, w).1. rewrite <- Hg. apply run_agree; [done|done|]. rewrite Hg. by eapply run_not_faulted. }
  destruct (run_ok E2 log1 (newMetadataFSM clusterID) w2 (new_state_ok clusterID)) as [Hok Hrev].
  { simpl. lia. }
  rewrite Hg in Hok, Hrev. cbn [fst newMetadataFSM fsm_state ms_Revision] in Hok, Hrev.
  split; [by apply run_epoch; [|lia]|]. intros He. symmetry. apply run_owner; [done|lia|done].
Qed.

(** "n1" acquires leadership in term 7, then "k" is written. *)
Definition ex_log1 : list log_entry :=
  [(1%N, Some (JObj [("command_id", JStr "acquire/7/n1"); ("command_type", JStr CommandAcquireLeadership);
                     ("payload", acquire_payload "n1" 7)]))].
Definition ex_log2 : list log_entry :=
  [(2%N, Some (JObj [("command_id", JStr "put"); ("command_type", JStr CommandPutMetadata);
                     ("leader_epoch", enc_uint 1); ("payload", put_payload "k" JNull)]))].
Definition ex_machine (log : list log_entry) : metadataFSM := (run calm log (newMetadataFSM "c") (mkWorld ∅ ∅ ∅ 0)).1.
Lemma leadership_exclusive_witness :
  let n1 := ex_leading (ex_machine ex_log1) in
  let n2 := ex_leading (ex_machine (ex_log1 ++ ex_log2)) in
  (ms_LeaderEpoch (Metadata n1) ≤ ms_LeaderEpoch (Metadata n2))%N.
Proof.
  intros n1 n2.
  refine (proj1 (leadership_exclusive calm calm "c" ex_log1 ex_log2 (mkWorld ∅ ∅ ∅ 0) (mkWorld ∅ ∅ ∅ 0) n1 n2
    ex_now ex_now _ eq_refl eq_refl _ _)); reflexivity.
Defined.

(** ** Verification *)

Definition verified (E : env) (ctx : context) (n : Node) (res : result unit) (n' : Node) : Prop :=
  match res with
  | Ok _ => (∃ r f, leads (n_now n) n r f) ∧ confirmed n n' ∧ ctx (n_now n') = None
      ∧ st_Role (n_status n') = RoleLeader ∧ st_HasQuorum (n_status n') = true
      ∧ st_QuorumVerifiedAt (n_status n') = n_now n'
      ∧ st_LeaderEpoch (n_status n') = ms_LeaderEpoch (Metadata n')
  | Err e =>
      n' = n ∧ checkLocalBusinessLeadership (n_now n) n = Err e
      ∨ (∃ t, ctx t = Some e) ∧ evolves E n n'
      ∨ evolves E n n' ∧ HasBusinessLeadership n' = false ∧ st_Ready (n_status n') = false
  end.

(** C7: [VerifyBusinessLeadership] succeeds only for a node that Raft calls
    leader, whose machine runs, supports the gate and names the node the owner
    of an epoch acquired in the current term, after a verification of the
    leader and a barrier that both started after the call, and before the
    context ended; the cache then holds the epoch of the machine after the
    barrier.  When a call fails the node stops acting as leader at once; when
    the local check fails nothing is called and nothing changes. *)
Theorem VerifyBusinessLeadership_spec (E : env) `{!RaftLaws R E} (ctx : context) (n n' : Node)
    (res : result unit) :
  VerifyBusinessLeadership ctx n = (res, n') → verified E ctx n res n'.
Proof.
  intros Hrun. cut (wp (VerifyBusinessLeadership ctx) (verified E ctx n) n);
    [intros H; exact (wp_eq _ _ _ _ _ Hrun H)|]. clear Hrun.
  apply (wp_VerifyBusinessLeadership E); unfold verified.
  - intros e He. by left.
  - intros _ n1 e Hn1 He. right. by left.
  - intros _ n1 e Hn1. right. right. split_and!; [etrans; [exact Hn1|by apply local_evolves]| |done].
    unfold HasBusinessLeadership. destruct (checkLocalBusinessLeadership _ _) as [[]|] eqn:Hc; [|done].
    apply checkLocal_leads in Hc as (r & f & Hl). pose proof (ld_role _ _ _ _ Hl) as Hrole. discriminate Hrole.
  - intros Hc n1 c1 c2 Hn1 Hctx Hcalls ->. split_and!; [by apply checkLocal_leads| |done..].
    eexists _, _, _, _, []. split; [exact Hcalls|done].
Qed.

Lemma VerifyBusinessLeadership_spec_witness :
  let n := ex_leading ex_fsm in
  verified calm (λ _, None) n (Ok tt) (VerifyBusinessLeadership (R := solo) (λ _, None) n).2.
Proof.
  intros n. apply (VerifyBusinessLeadership_spec (R := solo) calm (λ _, None) n). reflexivity.
Defined.

(** ** Subscribers *)

(** What a subscriber knows once it has drained its channel, [last] being the
    event it received before. *)
Definition view (ch : N) (last : LeadershipEvent) (n : Node) : LeadershipEvent :=
  match n_subs n !! ch with Some (Some event) => event | _ => last end.

(** The steps of a node and of a subscriber that stays subscribed: an update of
    the leadership, a receive, and anything else, which leaves the channel and
    the leadership alone. *)
Inductive sub_step (ch : N) : Node * LeadershipEvent → Node * LeadershipEvent → Prop :=
| sub_set active epoch reason n last :
    sub_step ch (n, last) (setLeadership active epoch reason n, last)
| sub_receive n last event n' :
    receive ch n = Some (event, n') → sub_step ch (n, last) (n', event)
| sub_other n n' last :
    n_subs n' !! ch = n_subs n !! ch → n_leadership n' = n_leadership n → sub_step ch (n, last) (n', last).

Definition same_leadership (e1 e2 : LeadershipEvent) : Prop :=
  le_Active e1 = le_Active e2 ∧ le_Epoch e1 = le_Epoch e2.

Lemma sub_step_inv ch x y :
  sub_step ch x y → is_Some (n_subs x.1 !! ch) → same_leadership (view ch x.2 x.1) (n_leadership x.1) →
  is_Some (n_subs y.1 !! ch) ∧ same_leadership (view ch y.2 y.1) (n_leadership y.1).
Proof.
  unfold view, same_leadership. destruct 1 as [active epoch reason n last|n last event n' Hr|n n' last Hs Hl]; cbn [fst snd].
  - intros [buffer Hb] Hv. rewrite setLeadership_event. unfold setLeadership.
    destruct (_ && _) eqn:Hsame; cbn [n_subs set_subs].
    + rewrite Hb in *. split; [done|]. apply andb_true_iff in Hsame as [Ha%eqb_prop He]. bool_simpl.
      simpl. destruct Hv as [-> ->]. by rewrite Ha, He.
    + rewrite lookup_fmap, Hb. split; [done|]. by destruct buffer.
  - unfold receive in Hr. destruct (n_subs n !! ch) as [[e|]|]; [|done..]. injection Hr as <- <-.
    cbn [n_subs n_leadership set_subs]. rewrite lookup_insert_eq. done.
  - by rewrite Hs, Hl.
Qed.

(** a subscriber whose first event agreed with the leadership of the node
    never misses a change: whatever updates and receives follow, once its
    channel is drained it knows the current leadership and its epoch. *)
Theorem subscriber_up_to_date (ch : N) (n n1 n2 : Node) (last0 last : LeadershipEvent) :
  SubscribeLeadership ch n = Some n1 →
  str_eqb (st_Role (n_status n)) RoleLeader && st_HasQuorum (n_status n) = le_Active (n_leadership n) →
  st_LeaderEpoch (n_status n) = le_Epoch (n_leadership n) →
  rtc (sub_step ch) (n1, last0) (n2, last) →
  is_Some (n_subs n2 !! ch) ∧ same_leadership (view ch last n2) (n_leadership n2).
Proof.
  intros Hsub Ha He Hsteps. change n2 with (n2, last).1. change last with (n2, last).2 at 2.
  assert (is_Some (n_subs n1 !! ch) ∧ same_leadership (view ch last0 n1) (n_leadership n1)) as [H1 H2].
  { unfold SubscribeLeadership, subscribe_register, subscribe_send in Hsub. simpl in Hsub.
    rewrite lookup_insert_eq in Hsub. injection Hsub as <-. unfold view. simpl. by rewrite !lookup_insert_eq. }
  change n1 with (n1, last0).1 in H1, H2. change last0 with (n1, last0).2 in H2 at 1.
  revert H1 H2. induction Hsteps as [x|x y z Hxy _ IH]; [done|].
  intros H1 H2. destruct (sub_step_inv ch x y Hxy H1 H2) as [H1' H2']. by apply IH.
Qed.

Lemma subscriber_up_to_date_witness :
  let n := ex_node ex_config ex_follower ex_fsm in
  ∃ n1, SubscribeLeadership 5 n = Some n1
  ∧ le_Epoch (view 5 (mkLeadershipEvent false 0 "") (setLeadership true 1 "" n1)) = 1%N.
Proof.
  intros n. eexists. split; [reflexivity|].
  refine (eq_trans _ (f_equal le_Epoch (setLeadership_event true 1 "" _))).
  exact (proj2 (proj2 (subscriber_up_to_date 5 n _ (setLeadership true 1 "" _) (mkLeadershipEvent false 0 "")
    (mkLeadershipEvent false 0 "") eq_refl eq_refl eq_refl (rtc_once _ _ (sub_set 5 true 1 "" _ _))))).
Defined.

(** a subscription made after a failed verification, before the next
    refresh, starts with an inactive event, since it reads the cached status;
    when the refresh finds the node leading again in the same epoch nothing is
    sent, since the leadership it compares with never became inactive.  The
    subscriber takes the node for inactive although it leads. *)
Theorem subscriber_misses_leadership (n : Node) (ch epoch : N) (failure reason : string) :
  le_Active (n_leadership n) = true → le_Epoch (n_leadership n) = epoch →
  ∃ n1, SubscribeLeadership ch (updateCachedLeadership false epoch failure n) = Some n1
  ∧ le_Active (n_leadership (setLeadership true epoch reason n1)) = true
  ∧ ∀ last, le_Active (view ch last (setLeadership true epoch reason n1)) = false.
Proof.
  intros Ha He. unfold SubscribeLeadership, subscribe_register, subscribe_send. cbn [n_subs set_subs].
  rewrite lookup_insert_eq. eexists. split; [done|]. rewrite setLeadership_event. split; [done|].
  intros last. unfold view, setLeadership. cbn [n_leadership set_subs n_subs updateCachedLeadership set_status].
  rewrite Ha, He, N.eqb_refl. cbn [Bool.eqb andb n_subs set_subs]. by rewrite lookup_insert_eq.
Qed.

Lemma subscriber_misses_leadership_witness :
  let n := (refreshStatus (R := solo) calm true (ex_node ex_config ex_leader ex_fsm)).2 in
  ∃ n1, SubscribeLeadership 5 (updateCachedLeadership false 1 "apply read barrier: %w" n) = Some n1
  ∧ ∀ last, le_Active (view 5 last (refreshStatus (R := solo) calm true n1).2) = false
    ∧ HasBusinessLeadership (refreshStatus (R := solo) calm true n1).2 = true.
Proof.
  intros n. destruct (subscriber_misses_leadership n 5 1 "apply read barrier: %w" "" eq_refl eq_refl)
    as (n1 & Hsub & _ & Hview). exists n1. split; [exact Hsub|]. injection Hsub as <-.
  intros last. split; [|vm_compute; reflexivity]. vm_compute. reflexivity.
Defined.

(** [SubscribeLeadership] registers its channel before it sends to it: a
    change of leadership in between fills the buffer, and the send blocks with
    nobody to receive, for the channel has not been returned yet. *)
Theorem subscribe_blocks (n : Node) (ch epoch : N) (active : bool) (reason : string) :
  (active, epoch) ≠ (le_Active (n_leadership n), le_Epoch (n_leadership n)) →
  let '(event, n1) := subscribe_register ch n in
  subscribe_send ch event n1 ≠ None
  ∧ subscribe_send ch event (setLeadership active epoch reason n1) = None.
Proof.
  intros Hne. unfold subscribe_register, subscribe_send, setLeadership. cbn [n_subs set_subs n_leadership].
  rewrite lookup_insert_eq. split; [done|].
  destruct (_ && _) eqn:H; [|cbn [n_subs set_subs]; by rewrite lookup_fmap, lookup_insert_eq].
  apply andb_true_iff in H as [Ha%eqb_prop He]. bool_simpl. destruct Hne. congruence.
Qed.

Lemma subscribe_blocks_witness :
  let n := ex_node ex_config ex_follower ex_fsm in
  subscribe_send 5 (subscribe_register 5 n).1 (setLeadership true 1 "" (subscribe_register 5 n).2) = None.
Proof.
  intros n. exact (proj2 (subscribe_blocks n 5 1 true "" ltac:(discriminate))).
Defined.
