(* ===== verification/CommandSpec.v ===== *)
(** * CommandSpec: what a command that succeeded has done

    The client side of the replicated state machine: a command accepted through
    [Node.apply] was decoded by every replica as it was written, and applied at
    one point of the log, or found there already. *)
From S2P Require Import Prelude Text Io Sha256 Json GoTime Duration Config Peers Capability Manifest.
From S2P Require Import BlobStore Fsm FsmProofs Node Leadership NodeProofs LeadershipProofs Examples.
From stdpp Require Import options.

(** ** Lemmas *)

(** The command took effect at one entry of the log, between the machines of [n]
    and [n']: with machine [f1] before it and [f2] after it. *)
Definition took_effect (E : env) (command : Command) (r : applyResult) (n n' : Node) (index : N)
    (f1 f2 : metadataFSM) : Prop :=
  ∃ f0 f3 log1 log2 d1, n_fsm n = Some f0 ∧ n_fsm n' = Some f3
  ∧ run E log1 f0 (n_disk n) = (f1, d1) ∧ run E log2 f2 d1 = (f3, n_disk n')
  ∧ small_run E log1 f0 (n_disk n) ∧ (ms_Revision (fsm_state f1) < u64_max)%N
  ∧ ¬ faulted f1 ∧ ar_Error r = ""
  ∧ ((∃ s, apply_command index (fsm_capabilities f1) command (fsm_state f1) = Applied s
          ∧ f2 = set_fsm_state s f1 ∧ r = mkApplyResult (ms_Revision s) (ms_LeaderEpoch s) "")
     ∨ (apply_command index (fsm_capabilities f1) command (fsm_state f1) = Reply r ∧ f2 = f1)).

Section commands.
Context (E : env) {R : Raft} `{!RaftLaws R E}.
Set Default Proof Using "Type*".

Lemma wp_apply command n f0 (Q : result applyResult → Node → Prop) :
  n_fsm n = Some f0 → command_ok command → default_versions command = command →
  (∀ e n', Q (Err e) n') →
  (∀ r n' index f1 f2, took_effect E command r n n' index f1 f2 → Q (Ok r) n') →
  wp (apply command) Q n.
Proof.
  intros Hf Hc Hv Herr Hok. unfold wp, apply. destruct (enc_Command command) as [data|e] eqn:Hdata; [|apply Herr].
  destruct (n_raft n) as [v|]; [|apply Herr]. unfold r_Apply, record_call.
  destruct (raft_Apply (Some data) n) as [[r|e] n1] eqn:Hr; [|apply Herr].
  destruct (str_eqb (ar_Error r) "") eqn:He; [|apply Herr]. bool_simpl.
  destruct (Apply_response _ _ _ _ _ Hr Hf) as (log1 & log2 & index & f1 & d1 & f2 & d2 & f3 & H1 & H2 & H3 & H4 & Hs).
  apply (small_run_app _ _ _ _ _ _ _ H1) in Hs as [Hs1 [Hrev _]].
  pose proof (Apply_decoded _ _ _ _ _ _ _ _ H2 (Apply_ok_not_faulted _ _ _ _ _ _ _ _ H2 He))
    as (c & Hdec & _ & -> & Hnf & Hcase).
  rewrite (dec_enc_Command _ _ Hc Hdata) in Hdec. simpl in Hdec. rewrite Hv in Hdec. injection Hdec as <-.
  eapply (Hok r _ index f1 f2). exists f0, f3, log1, log2, d1. split_and!; try done.
  destruct Hcase as [[? ?]|?]; [by right|by left].
Qed.

(** The machine of a later moment of a healthy history is healthy. *)
Lemma evolves_fsm n n' f : evolves E n n' → n_fsm n = Some f → fsm_ok f →
  ∃ f', n_fsm n' = Some f' ∧ fsm_ok f' ∧ fsm_capabilities f' = fsm_capabilities f.
Proof using Type.
  intros Hev Hf Hok. pose proof (ev_fsm _ _ _ Hev) as H. rewrite Hf in H. destruct H as (log & f1 & Hf1 & Hrun & Hs).
  exists f1. split; [done|]. change f1 with (f1, n_disk n').1. rewrite <- Hrun. split; [by apply small_run_ok|apply run_caps].
Qed.

Lemma evolves_revision n n' f f' : evolves E n n' → n_fsm n = Some f → n_fsm n' = Some f' →
  (ms_Revision (fsm_state f) < u64_bound)%N → (ms_Revision (fsm_state f') < u64_bound)%N.
Proof using Type.
  intros Hev Hf Hf' Hr. pose proof (ev_fsm _ _ _ Hev) as H. rewrite Hf in H.
  destruct H as (log & f1 & Hf1 & Hrun & Hs). rewrite Hf' in Hf1. injection Hf1 as <-.
  change f' with (f', n_disk n').1. rewrite <- Hrun. by apply run_revision_bound.
Qed.

Lemma supported_gate_versions g leader :
  SupportsGate SupportedNodeCapabilities g leader = true →
  cg_ProtocolVersion (normalizeCapabilityGate g) = 1%N ∧ cg_CommandVersion (normalizeCapabilityGate g) = 1%N.
Proof using Type.
  intros [_ Hp Hc _ _ _]%SupportsGate_iff.
  cbn [SupportedNodeCapabilities nc_Protocol nc_Command vr_Min vr_Max] in *.
  unfold LegacyProtocolVersion, CurrentProtocolVersion, LegacyCommandVersion, CurrentCommandVersion in *. lia.
Qed.

Lemma valid_type type :
  type ∈ [CommandPutMetadata; CommandPutMetadataBatch; CommandCommitSnapshot; CommandActivateCapabilities;
          CommandAcquireLeadership] → valid_utf8 type.
Proof using Type.
  rewrite !elem_of_cons, elem_of_nil. unfold valid_utf8.
  intros [->|[->|[->|[->|[->|[]]]]]]; reflexivity.
Qed.

Lemma unix_zero_round_trip created :
  enc_time unix_zero = Ok created → dec_time created zero_time = Some unix_zero.
Proof using Type.
  assert (enc_time unix_zero = Ok (JStr "1970-01-01T00:00:00Z")) as -> by (vm_compute; reflexivity).
  intros [= <-]. vm_compute. reflexivity.
Qed.

(** The commands of a healthy node carry the versions 1 and are encoded without
    loss. *)
Lemma versioned_eq n f id type expected epoch payload created :
  n_fsm n = Some f → fsm_ok f → fsm_capabilities f = SupportedNodeCapabilities →
  versioned_command id type expected epoch payload created n
    = mkCommand 1 1 id type expected epoch (Some payload) created.
Proof using Type.
  intros Hf Hok Hcaps. pose proof (so_gate _ _ Hok) as (_ & _ & Hs). rewrite Hcaps in Hs.
  apply supported_gate_versions in Hs as [Hp Hc]. rewrite <- (normalize_idemp (ms_CapabilityGate _)) in Hp, Hc.
  unfold versioned_command, activeCommandVersions, Metadata. rewrite Hf.
  cbn [State cloneMetadataState ms_CapabilityGate fst snd]. by rewrite Hp, Hc.
Qed.

Lemma plain_command_ok id type expected epoch payload :
  valid_utf8 id → valid_utf8 type → (∀ x, expected = Some x → (x < u64_bound)%N) → (epoch < u64_bound)%N →
  command_ok (mkCommand 1 1 id type expected epoch (Some payload) unix_zero).
Proof using Type.
  intros Hid Hty Hx He. constructor; [done|done|done|done|done|done|apply unix_zero_round_trip].
Qed.

Lemma epoch_bound f : fsm_ok f → (ms_LeaderEpoch (fsm_state f) < u64_bound)%N.
Proof using Type. intros Hok. destruct (so_term _ _ Hok). lia. Qed.

Lemma put_payload_decodes key value :
  valid_utf8 key → Unmarshal dec_putMetadataPayload (mkPutMetadataPayload "" None) (Some (put_payload key value))
    = Some (mkPutMetadataPayload key (Some value)).
Proof using Type.
  intros Hk. unfold Unmarshal, dec_putMetadataPayload, put_payload.
  dec_member. dec_member; [done|]. done.
Qed.
End commands.

(** ** Compare and swap *)

(** [key] is set to [value] by the command [id] on the state of revision
    [expected], in the epoch that was current there. *)
Definition swapped (id key : string) (value : json) (expected r : N) (f1 f2 : metadataFSM) : Prop :=
  ms_Revision (fsm_state f1) = expected ∧ r = (expected + 1)%N
  ∧ ms_AppliedCommands (fsm_state f1) !! id = None
  ∧ ∃ digest, f2 = set_fsm_state
      (commit_command id digest (set_values (<[ key := Some value ]> (ms_Values (fsm_state f1))) (fsm_state f1))) f1.

(** The command [id] was on record before: nothing changes. *)
Definition replayed (id : string) (r : N) (f1 f2 : metadataFSM) : Prop :=
  f2 = f1 ∧ ∃ a, ms_AppliedCommands (fsm_state f1) !! id = Some a ∧ r = ac_Revision a.

(** Between [n] and [n'], at one point of the log. *)
Definition at_one_point (E : env) (n n' : Node) (step : metadataFSM → metadataFSM → Prop) : Prop :=
  ∃ f0 f3 f1 f2 log1 log2 d1, n_fsm n = Some f0 ∧ n_fsm n' = Some f3
  ∧ run E log1 f0 (n_disk n) = (f1, d1) ∧ small_run E log1 f0 (n_disk n)
  ∧ run E log2 f2 d1 = (f3, n_disk n') ∧ step f1 f2.

Lemma took_effect_within E n nv n' f0 command r index f1 f2 :
  evolves E n nv → n_fsm n = Some f0 → fsm_ok f0 → took_effect E command r nv n' index f1 f2 →
  fsm_ok f1 ∧ fsm_capabilities f1 = fsm_capabilities f0 ∧ (ms_Revision (fsm_state f1) < u64_max)%N
  ∧ ∀ step, step f1 f2 → at_one_point E n n' step.
Proof.
  intros Hev Hf Hok (g & f3 & log1 & log2 & d1 & Hg & Hf3 & H1 & H2 & Hs & Hr & _ & _ & _).
  destruct (evolves_fsm E n nv f0 Hev Hf Hok) as (g' & Hg' & Hokg & Hcaps). rewrite Hg in Hg'. injection Hg' as <-.
  pose proof (ev_fsm _ _ _ Hev) as Hlog. rewrite Hf in Hlog. destruct Hlog as (log0 & g' & Hg' & Hrun & Hs0).
  rewrite Hg in Hg'. injection Hg' as <-. split_and!.
  - change f1 with (f1, d1).1. rewrite <- H1. by apply small_run_ok.
  - rewrite <- Hcaps. change f1 with (f1, d1).1. rewrite <- H1. apply run_caps.
  - done.
  - intros step Hstep. exists f0, f3, f1, f2, (log0 ++ log1), log2, d1. split_and!; try done.
    + by rewrite run_app, Hrun.
    + by eapply small_run_app.
Qed.

(** A put that the machine answered without error. *)
Lemma put_step id key raw expected epoch index caps f1 f2 r :
  valid_utf8 key → (ms_Revision (fsm_state f1) < u64_max)%N → ar_Error r = "" → 
  let command := mkCommand 1 1 id CommandPutMetadata (Some expected) epoch (Some (put_payload key raw)) unix_zero in
  (∃ s, apply_command index caps command (fsm_state f1) = Applied s
        ∧ f2 = set_fsm_state s f1 ∧ r = mkApplyResult (ms_Revision s) (ms_LeaderEpoch s) "")
  ∨ (apply_command index caps command (fsm_state f1) = Reply r ∧ f2 = f1) →
  swapped id key raw expected (ar_Revision r) f1 f2 ∨ replayed id (ar_Revision r) f1 f2.
Proof.
  intros Hkey Hmax He command [(s & Happ & -> & ->)|[Hreply ->]].
  - left. apply apply_command_branch in Happ as (digest & s0 & -> & Hbranch & Hexp & Hfresh).
    specialize (Hexp _ eq_refl). cbn [c_ID command] in *.
    change (apply_put_metadata command (fsm_state f1) = Commit s0) in Hbranch.
    unfold apply_put_metadata in Hbranch. destruct (stale_epoch _ _); [done|].
    cbn [c_Payload command] in Hbranch. rewrite put_payload_decodes in Hbranch by done. cbn [pm_Key pm_Value] in Hbranch.
    destruct (str_eqb key ""); [done|]. injection Hbranch as <-. split_and!; [done| |done|by exists digest].
    simpl. rewrite u64_succ_small by done. congruence.
  - right. split; [done|].
    apply apply_command_Reply in Hreply as [_ [[? _]|(a & digest & Ha & _ & _ & Hr & _)]]; [done|]. by exists a.
Qed.

(** What [PutMetadata] has done when it answers [r]. *)
Definition put_done (E : env) (id key : string) (value : result json) (expected r : N) (n n' : Node) : Prop :=
  (∃ rv f, leads (n_now n) n rv f)
  ∧ ∃ raw, value = Ok raw
  ∧ at_one_point E n n' (λ f1 f2, swapped id key raw expected r f1 f2 ∨ replayed id r f1 f2).

Lemma wp_PutMetadata (E : env) `{!RaftLaws R E} ctx id key value expected n f0 :
  n_fsm n = Some f0 → fsm_ok f0 → fsm_capabilities f0 = SupportedNodeCapabilities →
  valid_utf8 id → valid_utf8 key → (expected < u64_bound)%N →
  wp (PutMetadata ctx id key value expected) (λ res n', ∀ r, res = Ok r → put_done E id key value expected r n n') n.
Proof.
  intros Hf Hok Hcaps Hid Hkey Hexp. apply wp_bind, (wp_VerifyBusinessLeadership E); [done..|].
  intros Hc n1 c1 c2 Hev _ _ _. set (nv := updateCachedLeadership _ _ _ _).
  assert (evolves E n nv) as Hev' by (etrans; [exact Hev|by apply local_evolves]). clearbody nv.
  apply wp_bind, wp_of. destruct value as [raw|e]; [|done]. apply wp_bind, wp_get, wp_bind.
  destruct (evolves_fsm E n nv f0 Hev' Hf Hok) as (fv & Hfv & Hokv & Hcapsv). rewrite Hcaps in Hcapsv.
  assert (Metadata nv = State fv) as Hmeta by (unfold Metadata; by rewrite Hfv). unfold Datatypes.id. rewrite Hmeta.
  rewrite (versioned_eq nv fv) by done.
  eapply (wp_apply E); [exact Hfv| |done|done|].
  { apply plain_command_ok; [done|by apply valid_type; left|by intros x [= <-]|by apply epoch_bound]. }
  intros v nf index f1 f2 Htook. apply wp_ret. intros r' [= <-].
  split; [by apply checkLocal_leads|]. exists raw. split; [done|].
  destruct (took_effect_within E n nv nf f0 _ _ _ _ _ Hev' Hf Hok Htook) as (Hok1 & Hcaps1 & Hmax & Hat).
  apply Hat. destruct Htook as (?&?&?&?&?&_&_&_&_&_&_&_& He & Hcase). by eapply put_step.
Qed.

(** C8: [PutMetadata] is a linearizable compare-and-swap.  If it succeeds, the
    node was a verified leader, and at one entry of the log between the call and
    the return the state had exactly the expected revision, the value was stored
    under the key, nothing else changed, and the answer is the next revision;
    or the same command id had been applied before, nothing changes, and the
    answer is the revision of that time. *)
Theorem PutMetadata_cas (E : env) `{!RaftLaws R E} (ctx : context) (id key : string) (value : result json)
    (expected r : N) (n n' : Node) (f0 : metadataFSM) :
  n_fsm n = Some f0 → fsm_ok f0 → fsm_capabilities f0 = SupportedNodeCapabilities →
  valid_utf8 id → valid_utf8 key → (expected < u64_bound)%N →
  PutMetadata ctx id key value expected n = (Ok r, n') →
  put_done E id key value expected r n n'.
Proof.
  intros Hf Hok Hcaps Hid Hkey Hexp Hrun.
  by apply (wp_eq _ _ _ _ _ Hrun (wp_PutMetadata E ctx id key value expected n f0 Hf Hok Hcaps Hid Hkey Hexp)).
Qed.

Lemma pair_eq {A B} (x : A * B) a : x.1 = a → x = (a, x.2).
Proof. by destruct x; simpl; intros ->. Qed.

Lemma PutMetadata_cas_witness :
  let n := ex_leading ex_fsm in
  let n' := (PutMetadata (R := solo) (λ _, None) "cmd" "k" (Ok (JBool true)) 0 n).2 in
  at_one_point calm n n' (λ f1 f2, swapped "cmd" "k" (JBool true) 0 1 f1 f2 ∨ replayed "cmd" 1 f1 f2).
Proof.
  intros n n'.
  destruct (PutMetadata_cas (R := solo) calm (λ _, None) "cmd" "k" (Ok (JBool true)) 0 1 n n' ex_fsm
    eq_refl ex_fsm_ok eq_refl eq_refl eq_refl eq_refl (pair_eq _ _ eq_refl)) as (_ & raw & [= <-] & H).
  exact H.
Defined.
