(* ===== verification/Membership.v ===== *)
(** * Membership: joining, removing and activating capabilities (node.go)

    A membership change is an operation recorded in the replicated metadata.
    [JoinVoter] and [RemoveServer] record it and drive it through its phases;
    the maintenance loop drives a recorded operation again after a crash or a
    change of leader.  Each operation runs under [membershipMu]; the lock itself
    is not represented, and [configurationMu] is in [Changes]. *)
From S2P Require Import Prelude Text Io Sha256 Json GoTime Duration Config Peers Capability Manifest.
From S2P Require Import BlobStore Fsm FsmProofs Node Leadership.
From stdpp Require Import options.
From Stdlib Require Import Ascii.
#[local] Open Scope io_scope.

(** [defer]: [cleanup] runs at every return of [body]. *)
Definition with_defer {S A} (cleanup : S → S) (body : st S A) : st S A := λ s,
  match body s with (r, s') => (r, cleanup s') end.

Definition utc (t : time) : time := Time_ (t_ns t) 0.

Definition set_phase (phase : string) (updated : time) (o : MembershipOperation) : MembershipOperation :=
  mkMembershipOperation (op_ID o) (op_Type o) phase (op_Member o) (op_Capabilities o) (op_CreatedAt o) updated.

Section membership.
Context {R : Raft} {P : Peers}.
(** How often [waitForJoiningNodeCatchUp] polls before the model gives up. *)
Context (polls : nat).

Definition trimmed (base : string) : string := TrimRightChar "/"%char base.
Definition get_request (url : string) : request := mkRequest "GET" url [] "".
Definition post_request (url : string) : request := mkRequest "POST" url [] "".

(** ** The recorded operation *)

Definition beginMembershipOperation (ctx : context) (operation : MembershipOperation) : nio unit :=
  do! existing := (λ n, (membershipOperation n, n)) in
  let start :=
    do! n := get id in
    run! PutMetadata ctx (op_ID operation +:+ "/prepared") membershipOperationMetadataKey
           (enc_MembershipOperation operation) (ms_Revision (Metadata n)) in
    io_ret tt in
  match existing with
  | Some existing =>
      if negb (str_eqb (op_Phase existing) MembershipPhaseCompleted)
      then if str_eqb (op_Type existing) (op_Type operation)
              && bool_decide (op_Member existing = op_Member operation)
           then io_ret tt
           else io_err "membership operation %q for node %q is already active"
      else start
  | None => start
  end.

(** [updateMembershipOperation]: the operation is updated in place, also when
    storing it fails. *)
Definition updateMembershipOperation (ctx : context) (operation : MembershipOperation) (phase : string)
    : nio MembershipOperation :=
  if str_eqb (op_Phase operation) phase then io_ret operation
  else
    do! n := get id in
    let operation := set_phase phase (utc (n_now n)) operation in
    run! PutMetadata ctx (op_ID operation +:+ "/" +:+ phase) membershipOperationMetadataKey
           (enc_MembershipOperation operation) (ms_Revision (Metadata n)) in
    io_ret operation.

Definition completeMembershipOperation (ctx : context) (operation : MembershipOperation)
    (members : gmap string Member) : nio unit :=
  do! n := get id in
  let operation := set_phase MembershipPhaseCompleted (utc (n_now n)) operation in
  run! PutMetadataBatch ctx (op_ID operation +:+ "/completed")
         (<[ membersMetadataKey := Ok (enc_map enc_Member members) ]>
            {[ membershipOperationMetadataKey := enc_MembershipOperation operation ]})
         (ms_Revision (Metadata n)) in
  io_ret tt.

(** ** Changes of the Raft configuration *)

Definition runConfigurationChange (ctx : context) (start : configuration_change) : nio unit :=
  do! n := get id in
  match n_raft n with
  | None => io_err ErrNodeNotStarted
  | Some _ => wait_call ctx (r_Change start)
  end.

Definition raftAddNonvoter (ctx : context) (member : Member) : nio unit :=
  runConfigurationChange ctx (AddNonvoter (mb_NodeID member) (mb_Addr member)).
Definition raftAddVoter (ctx : context) (member : Member) : nio unit :=
  runConfigurationChange ctx (AddVoter (mb_NodeID member) (mb_Addr member)).
Definition raftRemoveServer (ctx : context) (nodeID : string) : nio unit :=
  runConfigurationChange ctx (RemoveServer_ nodeID).

(** ** Waiting for a joining node *)

Definition joiningNodeStatus (member : Member) : nio Status :=
  do! resp := send (get_request (trimmed (mb_InternalAPIURL member) +:+ "/internal/v1/status")) in
  match rs_Status resp with
  | None => io_err "decode status"
  | Some status =>
      if negb (rs_StatusCode resp =? StatusOK)%N then io_err "joining node %q status returned %s"
      else io_ret status
  end.

Definition validateJoiningNodeStatus (member : Member) (status : Status) (gate : CapabilityGate) (n : Node)
    : result bool :=
  if negb (str_eqb (st_ClusterID status) (ClusterID (n_cfg n)))
     || negb (str_eqb (st_NodeID status) (mb_NodeID member))
  then Err "joining node status identity does not match node %q"
  else if negb (st_FSMHealthy status) || negb (str_eqb (st_FSMApplyError status) "")
  then Err "joining node %q FSM is unhealthy at index %d: %s"
  else if (st_AppliedIndex status <? st_CommitIndex status)%N then Ok false
  else if negb (capabilityGatesEqual (st_ActiveCapabilityGate status) gate)
  then Err "joining node %q has a different active capability gate"
  else if negb (SupportsGate (st_Capabilities status) gate false)
  then Err "joining node %q no longer supports the active capability gate"
  else if negb (st_FSMRevision status =? ms_Revision (Metadata n))%N then Ok false
  else if negb (generation_IsZero (st_CommittedGeneration status))
          && negb (containsGeneration (st_AvailableGenerations status) (st_CommittedGeneration status))
  then Ok false
  else Ok true.

(** A ticker of 100 ms drops the ticks nobody waits for: after a receive at
    [now], the next tick is the first one later. *)
Definition tick_interval : Z := (100 * millisecond)%Z.
Definition next_tick (tick now : Z) : Z :=
  if (now <? tick)%Z then (tick + tick_interval)%Z
  else (tick + tick_interval * ((now - tick) / tick_interval + 1))%Z.

(** The select between the context and the ticker, whose next tick is [tick]:
    time passes until the tick, or the context ends by then. *)
Definition wait_tick (ctx : context) (tick : Z) : nio Z := λ n,
  let now := t_ns (n_now n) in
  let n := set_now (Time_ (Z.max now tick) (t_off (n_now n))) n in
  (match ctx (n_now n) with Some e => Err e | None => Ok (next_tick tick now) end, n).

Definition errPollLimit : error := "poll limit of the model reached".

Fixpoint poll_joining (fuel : nat) (ctx : context) (member : Member) (expectedGate : CapabilityGate)
    (target : N) (tick : Z) : nio unit :=
  match fuel with
  | 0 => io_err errPollLimit
  | S fuel =>
      do! n := get id in
      if negb (HasBusinessLeadership n) then io_err ErrNotBusinessLeader
      else
        do! status := io_try (joiningNodeStatus member) in
        do! caughtUp :=
          match status with
          | Ok status =>
              if (target <=? st_AppliedIndex status)%N
              then (λ n, (validateJoiningNodeStatus member status expectedGate n, n))
              else io_ret false
          | Err _ => io_ret false
          end in
        if caughtUp : bool then io_ret tt
        else
          do! tick := wait_tick ctx tick in
          poll_joining fuel ctx member expectedGate target tick
  end.

Definition waitForJoiningNodeCatchUp (ctx : context) (member : Member) (expectedGate : CapabilityGate)
    : nio unit :=
  do! n := get id in
  match n_raft n with
  | None => io_err ErrNodeNotStarted
  | Some _ =>
      run! r_Barrier in
      do! n := get id in
      let target := match n_raft n with Some r => stat r "commit_index" | None => 0%N end in
      poll_joining polls ctx member expectedGate target (t_ns (n_now n) + tick_interval)
  end.

(** ** Driving an operation *)

Definition reconcileJoinOperation (ctx : context) (operation : MembershipOperation) : nio unit :=
  do! n := get id in
  let gate := ms_CapabilityGate (Metadata n) in
  let member := op_Member operation in
  if negb (SupportsGate (op_Capabilities operation) gate false)
  then io_err "joining node %q no longer satisfies the active capability gate"
  else
    do! suffrage := (λ n, (raftServerSuffrage (mb_NodeID member) n, n)) in
    do! added :=
      match suffrage with
      | None =>
          run! raftAddNonvoter ctx member in
          do! operation := updateMembershipOperation ctx operation MembershipPhaseNonVoter in
          io_ret (operation, Nonvoter)
      | Some s => io_ret (operation, s)
      end in
    let operation := added.1 in
    do! operation :=
      (if bool_decide (added.2 = Nonvoter)
       then
         run! waitForJoiningNodeCatchUp ctx member gate in
         do! n := get id in
         let currentGate := ms_CapabilityGate (Metadata n) in
         if negb (capabilityGatesEqual currentGate gate)
         then io_err "active capability gate changed while joining node %q was catching up"
         else
           do! operation := updateMembershipOperation ctx operation MembershipPhaseCaughtUp in
           run! waitForJoiningNodeCatchUp ctx member currentGate in
           do! n := get id in
           if negb (capabilityGatesEqual (ms_CapabilityGate (Metadata n)) currentGate)
           then io_err "active capability gate changed immediately before promoting node %q"
           else
             run! raftAddVoter ctx member in
             io_ret operation
       else io_ret operation) in
    do! operation := updateMembershipOperation ctx operation MembershipPhaseVoter in
    do! n := get id in
    completeMembershipOperation ctx operation (<[ mb_NodeID member := member ]> (committedMembers n)).

Definition reconcileRemoveOperation (ctx : context) (operation : MembershipOperation) : nio unit :=
  let nodeID := mb_NodeID (op_Member operation) in
  do! suffrage := (λ n, (raftServerSuffrage nodeID n, n)) in
  run! (match suffrage with Some _ => raftRemoveServer ctx nodeID | None => io_ret tt end) in
  do! operation := updateMembershipOperation ctx operation MembershipPhaseRemoved in
  run! modify (λ n, refreshPeerRegistry (removePendingMember nodeID n)) in
  do! n := get id in
  completeMembershipOperation ctx operation (delete nodeID (committedMembers n)).

(** The deferred function of [reconcileMembershipOperationLocked]. *)
Definition forget_pending (nodeID : string) (n : Node) : Node :=
  refreshPeerRegistry
    match membershipOperation n with
    | Ok (Some latest) =>
        if str_eqb (op_Phase latest) MembershipPhaseCompleted
           || (str_eqb (op_Type latest) MembershipOperationRemove
               && str_eqb (op_Phase latest) MembershipPhaseRemoved)
        then removePendingMember nodeID n else n
    | _ => n
    end.

Definition reconcileMembershipOperationLocked (ctx : context) : nio unit :=
  run! VerifyBusinessLeadership ctx in
  do! operation := (λ n, (membershipOperation n, n)) in
  match operation with
  | None => io_ret tt
  | Some operation =>
      if str_eqb (op_Phase operation) MembershipPhaseCompleted then io_ret tt
      else
        run! modify (addPendingMember (op_Member operation)) in
        with_defer (forget_pending (mb_NodeID (op_Member operation)))
          (run! modify refreshPeerRegistry in
           if str_eqb (op_Type operation) MembershipOperationJoin then reconcileJoinOperation ctx operation
           else if str_eqb (op_Type operation) MembershipOperationRemove
           then reconcileRemoveOperation ctx operation
           else io_err "unsupported membership operation type %q")
  end.

Definition reconcileMembershipOperation (ctx : context) : nio unit := reconcileMembershipOperationLocked ctx.

(** One tick of [membershipMaintenance]; the error is dropped. *)
Definition membership_tick (ctx : context) : nio unit :=
  do! n := get id in
  if HasBusinessLeadership n
  then run! io_try (reconcileMembershipOperation ctx) in io_ret tt
  else io_ret tt.

(** ** Removing and joining *)

Definition RemoveServer (ctx : context) (nodeID : string) : nio unit :=
  run! VerifyBusinessLeadership ctx in
  do! n := get id in
  if str_eqb nodeID "" then io_err "node_id is required"
  else if str_eqb nodeID (NodeID (n_cfg n))
  then io_err "transfer leadership before removing the current leader"
  else
    do! operation := io_of (membershipOperation n) in
    let start :=
      let members := committedMembers n in
      match members !! nodeID with
      | None => io_ret tt
      | Some member =>
          if (Z.of_nat (size members) <=? BootstrapExpect (n_cfg n))%Z
          then io_err "removal would reduce committed membership below %d voters"
          else
            let now := utc (n_now n) in
            run! beginMembershipOperation ctx
                   (mkMembershipOperation ("remove/" +:+ nodeID +:+ "/" +:+ FormatInt (t_ns now))
                      MembershipOperationRemove MembershipPhasePrepared member zero_NodeCapabilities now now) in
            reconcileMembershipOperationLocked ctx
      end in
    match operation with
    | Some operation =>
        if negb (str_eqb (op_Phase operation) MembershipPhaseCompleted)
        then if negb (str_eqb (op_Type operation) MembershipOperationRemove)
                || negb (str_eqb (mb_NodeID (op_Member operation)) nodeID)
             then io_err "membership operation %q for node %q is already active"
             else reconcileMembershipOperationLocked ctx
        else start
    | None => start
    end.

Definition prepareJoiningMember (member : Member) : nio NodeCapabilities :=
  do! resp := send (post_request (trimmed (mb_InternalAPIURL member) +:+ "/internal/v1/join/prepare")) in
  do! n := get id in
  let cfg := n_cfg n in
  if negb (rs_StatusCode resp =? StatusOK)%N then io_err "join prepare for node %s returned %s: %s"
  else match rs_Prepared resp with
  | None => io_err "decode join prepare response"
  | Some prepared =>
      if negb (str_eqb (jp_ClusterID prepared) (ClusterID cfg))
         || negb (str_eqb (jp_NodeID prepared) (mb_NodeID member))
         || negb (str_eqb (jp_RaftAdvertiseAddr prepared) (mb_Addr member))
         || negb (str_eqb (jp_InternalAPIURL prepared) (mb_InternalAPIURL member))
         || negb (jp_JoinExisting prepared)
         || negb (jp_InitialMemberCount prepared =? BootstrapExpect cfg)%Z
         || negb (jp_BootstrapExpect prepared =? BootstrapExpect cfg)%Z
      then io_err "join prepare response for node %s does not match requested membership"
      else io_ret (jp_Capabilities prepared)
  end.

Definition JoinVoter (ctx : context) (member : Member) : nio unit :=
  let add := modify (λ n, refreshPeerRegistry (addPendingMember member n)) in
  let abandon (e : error) : nio unit :=
    run! modify (λ n, refreshPeerRegistry (removePendingMember (mb_NodeID member) n)) in io_err e in
  run! VerifyBusinessLeadership ctx in
  do! n := get id in
  if str_eqb (mb_NodeID member) "" || str_eqb (mb_Addr member) "" || str_eqb (mb_InternalAPIURL member) ""
  then io_err "node_id, raft address and internal API URL are required"
  else if str_eqb (mb_NodeID member) (NodeID (n_cfg n)) then io_err "cannot join the current leader"
  else
    do! operation := io_of (membershipOperation n) in
    let start :=
      match committedMembers n !! mb_NodeID member with
      | Some existing =>
          if bool_decide (existing = member) then io_ret tt
          else io_err "node %q is already in committed membership with different addresses"
      | None =>
          run! add in
          do! prepared := io_try (prepareJoiningMember member) in
          match prepared with
          | Err e => abandon e
          | Ok capabilities =>
              do! n := get id in
              if negb (SupportsGate capabilities (ms_CapabilityGate (Metadata n)) false)
              then abandon "node %q does not support the active voter capability gate"
              else
                let now := utc (n_now n) in
                do! begun := io_try (beginMembershipOperation ctx
                  (mkMembershipOperation ("join/" +:+ mb_NodeID member +:+ "/" +:+ FormatInt (t_ns now))
                     MembershipOperationJoin MembershipPhasePrepared member capabilities now now)) in
                match begun with
                | Err e => abandon e
                | Ok _ => reconcileMembershipOperationLocked ctx
                end
          end
      end in
    match operation with
    | Some operation =>
        if negb (str_eqb (op_Phase operation) MembershipPhaseCompleted)
        then if negb (str_eqb (op_Type operation) MembershipOperationJoin)
                || negb (bool_decide (op_Member operation = member))
             then io_err "membership operation %q for node %q is already active"
             else run! add in reconcileMembershipOperationLocked ctx
        else start
    | None => start
    end.

Definition AddVoter_ (member : Member) : nio unit :=
  io_err "safe dynamic membership is not implemented; start replacements with join_existing=true and use JoinVoter".

(** ** Activating capabilities *)

Definition validateCapabilityActivationVoters (voters : gmap string NodeCapabilities) (gate : CapabilityGate)
    : result unit :=
  match rfold (λ leaderEligibleVoter '(nodeID, capabilities),
      if negb (SupportsGate capabilities gate false)
      then Err "voter %q does not support requested capability gate"
      else if str_eqb leaderEligibleVoter "" && SupportsGate capabilities gate true
      then Ok nodeID else Ok leaderEligibleVoter) "" (map_to_list voters) with
  | Err e => Err e
  | Ok leaderEligibleVoter =>
      if str_eqb leaderEligibleVoter "" then Err "no healthy voter supports requested leader capability gate"
      else Ok tt
  end.

(** The capabilities of one voter, once it is healthy, caught up and on the
    active gate. *)
Definition voterStatus (activeGate : CapabilityGate) (nodeID : string) : nio NodeCapabilities :=
  do! n := get id in
  if str_eqb nodeID (NodeID (n_cfg n))
  then
    let status := n_status n in
    if negb (st_FSMHealthy status) || negb (str_eqb (st_FSMApplyError status) "")
       || negb (capabilityGatesEqual (st_ActiveCapabilityGate status) activeGate)
    then io_err "local voter is not healthy on the active capability gate"
    else if (st_AppliedIndex status <? st_CommitIndex status)%N
    then io_err "local voter is not caught up: applied=%d commit=%d"
    else io_ret (n_capabilities n)
  else match internalAPIURLForNode nodeID n with
  | None => io_err "internal API URL for voter %q is unavailable"
  | Some base =>
      let url := base +:+ "/internal/v1/status" in
      run! io_of (http_NewRequest "GET" url) in
      do! resp := io_wrap "read voter %q capabilities: %w" (send (get_request url)) in
      match (if (rs_StatusCode resp =? StatusOK)%N then rs_Status resp else None) with
      | None => io_err "read voter %q capabilities returned %s: %v"
      | Some status =>
          if negb (str_eqb (st_ClusterID status) (ClusterID (n_cfg n))) || negb (str_eqb (st_NodeID status) nodeID)
          then io_err "voter %q status identity does not match committed membership"
          else if negb (st_FSMHealthy status) || negb (str_eqb (st_FSMApplyError status) "")
          then io_err "voter %q FSM is unhealthy at index %d: %s"
          else if (st_AppliedIndex status <? st_CommitIndex status)%N
          then io_err "voter %q is not caught up: applied=%d commit=%d"
          else if negb (capabilityGatesEqual (st_ActiveCapabilityGate status) activeGate)
          then io_err "voter %q has not applied the active capability gate"
          else io_ret (st_Capabilities status)
      end
  end.

Fixpoint voterStatuses_loop (activeGate : CapabilityGate) (voters : list Server)
    (acc : gmap string NodeCapabilities) : nio (gmap string NodeCapabilities) :=
  match voters with
  | [] => io_ret acc
  | voter :: voters =>
      do! capabilities := voterStatus activeGate (sv_ID voter) in
      voterStatuses_loop activeGate voters (<[ sv_ID voter := capabilities ]> acc)
  end.

Definition voterStatuses (activeGate : CapabilityGate) : nio (gmap string NodeCapabilities) :=
  do! voters := (λ n, (voterServers n, n)) in
  run! (λ n, (internalHTTPClient n, n)) in
  voterStatuses_loop activeGate voters ∅.

Definition ActivateCapabilities (ctx : context) (commandID : string) (gate : CapabilityGate) : nio N :=
  run! VerifyBusinessLeadership ctx in
  let gate := normalizeCapabilityGate gate in
  run! io_of (validateCapabilityGate gate) in
  do! operation := (λ n, (activeMembershipOperation n, n)) in
  match operation with
  | Some _ => io_err "cannot activate capabilities while membership operation %q for node %q is active"
  | None =>
      do! n := get id in
      do! voters := voterStatuses (ms_CapabilityGate (Metadata n)) in
      run! io_of (validateCapabilityActivationVoters voters gate) in
      do! n := get id in
      let state := Metadata n in
      do! r := apply (versioned_command commandID CommandActivateCapabilities (Some (ms_Revision state))
                        (ms_LeaderEpoch state) (enc_struct [field "gate" (enc_CapabilityGate gate)])
                        (utc (n_now n)) n) in
      io_ret (ar_Revision r)
  end.
End membership.
