(* ===== verification/MembershipProofs.v ===== *)
(** * MembershipProofs: what drives a change of the Raft configuration

    [justified_change] says when the node may ask Raft for a change; every
    operation of [Membership] makes only such calls. *)
From S2P Require Import Prelude Text Io Sha256 Json GoTime Duration Config Peers Capability Manifest.
From S2P Require Import GoTimeProofs Codec BlobStore Fsm FsmProofs Node Leadership NodeProofs LeadershipProofs Membership.
From stdpp Require Import options.
#[local] Open Scope io_scope.

(** ** The operation on record *)

Record member_wire (m : Member) : Prop := {
  bw_id : valid_utf8 (mb_NodeID m);
  bw_addr : valid_utf8 (mb_Addr m);
  bw_url : valid_utf8 (mb_InternalAPIURL m);
}.

Lemma dec_enc_Member m : member_wire m → dec_Member (enc_Member m) zero_Member = Some m.
Proof.
  destruct m. intros [Hi Ha Hu]. cbn in Hi, Ha, Hu. unfold dec_Member, enc_Member, zero_Member.
  do 2 dec_member. dec_optional. done.
Qed.

(** An operation that the metadata keeps without loss. *)
Record operation_wire (o : MembershipOperation) : Prop := {
  ow_id : valid_utf8 (op_ID o);
  ow_type : valid_utf8 (op_Type o);
  ow_phase : valid_utf8 (op_Phase o);
  ow_member : member_wire (op_Member o);
  ow_capabilities : capabilities_wire (op_Capabilities o);
  ow_created : t_off (op_CreatedAt o) = 0%Z;
  ow_updated : t_off (op_UpdatedAt o) = 0%Z;
}.

Lemma dec_enc_MembershipOperation o j :
  operation_wire o → enc_MembershipOperation o = Ok j →
  dec_MembershipOperation j zero_MembershipOperation = Some o.
Proof.
  destruct o as [i t p m c cr up]. intros [Hi Ht Hp Hm Hc Hcr Hup]. cbn in Hi, Ht, Hp, Hm, Hc, Hcr, Hup.
  unfold enc_MembershipOperation.
  cbn [op_ID op_Type op_Phase op_Member op_Capabilities op_CreatedAt op_UpdatedAt].
  destruct (enc_time cr) as [crj|] eqn:Hcrj; [|done]. destruct (enc_time up) as [upj|] eqn:Hupj; [|done].
  intros [= <-]. unfold dec_MembershipOperation, zero_MembershipOperation. do 3 dec_member.
  dec_member; [by apply dec_enc_Member|]. dec_member; [by apply dec_enc_NodeCapabilities|].
  dec_member; [exact (dec_enc_time _ _ _ Hcr Hcrj)|]. dec_member; [exact (dec_enc_time _ _ _ Hup Hupj)|]. done.
Qed.

(** What stands under the key is the operation on record. *)
Lemma recorded_written s o j :
  operation_wire o → enc_MembershipOperation o = Ok j →
  ms_Values s !! membershipOperationMetadataKey = Some (Some j) → recorded_operation s = Ok (Some o).
Proof.
  intros Hw Hj Hv. unfold recorded_operation. rewrite Hv, (dec_enc_MembershipOperation o j Hw Hj).
  unfold enc_MembershipOperation in Hj. destruct (enc_time (op_CreatedAt o)), (enc_time (op_UpdatedAt o)); try done.
  by injection Hj as <-.
Qed.

(** The operation in progress in a state. *)
Definition in_progress (s : MetadataState) (type : string) (member : Member) : Prop :=
  ∃ operation, recorded_operation s = Ok (Some operation) ∧ op_Phase operation ≠ MembershipPhaseCompleted
    ∧ op_Type operation = type ∧ op_Member operation = member.

(** A status of the joining node that allows its promotion in a state. *)
Record caught_up (clusterID : string) (s : MetadataState) (member : Member) (status : Status) : Prop := {
  cu_cluster : st_ClusterID status = clusterID;
  cu_node : st_NodeID status = mb_NodeID member;
  cu_healthy : st_FSMHealthy status = true ∧ st_FSMApplyError status = "";
  cu_applied : (st_CommitIndex status ≤ st_AppliedIndex status)%N;
  cu_gate : gate_equiv (st_ActiveCapabilityGate status) (ms_CapabilityGate s);
  cu_supports : SupportsGate (st_Capabilities status) (ms_CapabilityGate s) false = true;
  cu_revision : st_FSMRevision status = ms_Revision s;
  cu_snapshot : st_CommittedGeneration status = zero_Generation
    ∨ st_CommittedGeneration status ∈ st_AvailableGenerations status;
}.

(** Why a call of the node [clusterID] may change the Raft configuration: a
    server is added or removed only for an operation in progress, and promoted
    only when the call just before was answered by the server itself with a
    status that shows it caught up with the state at the promotion. *)
Definition justified_change (clusterID : string) (c : call) (older : list call) : Prop :=
  match call_event c with
  | CallChange (AddNonvoter id addr) _ =>
      ∃ member, in_progress (call_state c) MembershipOperationJoin member
        ∧ id = mb_NodeID member ∧ addr = mb_Addr member
  | CallChange (RemoveServer_ id) _ =>
      ∃ member, in_progress (call_state c) MembershipOperationRemove member ∧ id = mb_NodeID member
  | CallChange (AddVoter id addr) _ =>
      ∃ member s t resp status rest,
        older = mkCall s t (CallHTTP (get_request (trimmed (mb_InternalAPIURL member) +:+ "/internal/v1/status"))
                              (Ok resp)) :: rest
        ∧ rs_Status resp = Some status ∧ rs_StatusCode resp = StatusOK
        ∧ caught_up clusterID (call_state c) member status
        ∧ id = mb_NodeID member ∧ addr = mb_Addr member
  | _ => True
  end.

Lemma justified_benign clusterID s t e older : not_change e → justified_change clusterID (mkCall s t e) older.
Proof. by destruct e. Qed.

Lemma validateJoiningNodeStatus_caught_up member status gate n :
  validateJoiningNodeStatus member status gate n = Ok true →
  gate_equiv gate (ms_CapabilityGate (Metadata n)) →
  caught_up (ClusterID (n_cfg n)) (Metadata n) member status.
Proof.
  unfold validateJoiningNodeStatus. intros H Hg.
  destruct (negb _ || negb (str_eqb (st_NodeID status) _)) eqn:H1; [done|].
  destruct (negb (st_FSMHealthy status) || _) eqn:H2; [done|].
  destruct (_ <? _)%N eqn:H3; [done|]. destruct (negb (capabilityGatesEqual _ _)) eqn:H4; [done|].
  destruct (negb (SupportsGate _ _ _)) eqn:H5; [done|]. destruct (negb (_ =? _)%N) eqn:H6; [done|].
  destruct (negb (generation_IsZero _) && _) eqn:H7; [done|]. bool_simpl.
  apply gates_equal_iff in H4. rewrite Hg in H4, H5.
  constructor; try done.
  apply andb_false_iff in H7 as [H7|H7]; apply negb_false_iff in H7.
  - left. by apply generation_IsZero_eq.
  - right. by apply containsGeneration_in.
Qed.

(** ** Everything evolves the node *)

Section evolving.
Context (E : env) {R : Raft} `{!RaftLaws R E}.
Set Default Proof Using "Type*".

Ltac evolve := follow ltac:(apply evolving_bind) ltac:(solve [eauto with evolving]).

Lemma evolving_read {A} (f : Node → result A) : evolving E (λ n, (f n, n)).
Proof using Type. apply evolving_local. by intros n. Qed.
Hint Resolve evolving_read : evolving.

Lemma evolving_update ctx operation phase : evolving E (updateMembershipOperation ctx operation phase).
Proof. unfold updateMembershipOperation. evolve. Qed.
Lemma evolving_complete ctx operation members : evolving E (completeMembershipOperation ctx operation members).
Proof. unfold completeMembershipOperation. evolve. Qed.
Lemma evolving_begin ctx operation : evolving E (beginMembershipOperation ctx operation).
Proof. unfold beginMembershipOperation. evolve. Qed.
Hint Resolve evolving_update evolving_complete evolving_begin : evolving.

Lemma evolving_wait_call {A} ctx (m : nio A) : evolving E m → evolving E (wait_call ctx m).
Proof.
  intros Hm n. specialize (Hm n). unfold wp, wait_call in *. by destruct (m n) as [r n'].
Qed.
Lemma evolving_change ctx change : evolving E (runConfigurationChange ctx change).
Proof. unfold runConfigurationChange. apply evolving_bind; [apply evolving_get|intros n]. destruct (n_raft n); [|apply evolving_err]. apply evolving_wait_call, evolving_calling, calling_Change. done. Qed.
Hint Resolve evolving_change : evolving.

Lemma evolving_set_now ctx tick : evolving E (wait_tick ctx tick).
Proof.
  intros n. unfold wp, wait_tick. cbn [snd]. constructor; simpl; [done|lia|done| |by exists []].
  destruct (n_fsm n) as [f|]; [|done]. by exists [], f.
Qed.

Hint Resolve evolving_set_now : evolving.
End evolving.
#[export] Hint Resolve evolving_read evolving_update evolving_complete evolving_begin evolving_change
  evolving_set_now : evolving.

Section evolving_peers.
Context (E : env) {R : Raft} {P : Peers} `{!RaftLaws R E} `{!PeersLaws P E}.
Set Default Proof Using "Type*".

Ltac evolve := follow ltac:(apply evolving_bind) ltac:(solve [eauto with evolving]).

Lemma evolving_joiningNodeStatus member : evolving E (joiningNodeStatus member).
Proof. unfold joiningNodeStatus. evolve. Qed.
Hint Resolve evolving_joiningNodeStatus : evolving.

Lemma evolving_poll fuel ctx member gate target tick :
  evolving E (poll_joining fuel ctx member gate target tick).
Proof.
  revert tick. induction fuel as [|fuel IH]; intros tick; [apply evolving_err|].
  cbn [poll_joining]. evolve.
Qed.
Hint Resolve evolving_poll : evolving.

Lemma evolving_prepare member : evolving E (prepareJoiningMember member).
Proof using PeersLaws0. unfold prepareJoiningMember. evolve. Qed.

Lemma evolving_catchUp polls ctx member gate : evolving E (waitForJoiningNodeCatchUp polls ctx member gate).
Proof. unfold waitForJoiningNodeCatchUp. evolve. Qed.
End evolving_peers.

(** ** Only justified changes *)

(** The last call was answered by the joining node with a status that validates
    now. *)
Definition answered (member : Member) (gate : CapabilityGate) (n : Node) : Prop :=
  ∃ s t resp status rest,
    n_calls n = mkCall s t (CallHTTP (get_request (trimmed (mb_InternalAPIURL member) +:+ "/internal/v1/status"))
                              (Ok resp)) :: rest
    ∧ rs_Status resp = Some status ∧ rs_StatusCode resp = StatusOK
    ∧ validateJoiningNodeStatus member status gate n = Ok true.

Section obeys.
Context (E : env) {R : Raft} {P : Peers} `{!RaftLaws R E} `{!PeersLaws P E}.
Context (clusterID : string).
Notation ok := (justified_change clusterID).
Set Default Proof Using "Type*".

Lemma obeys_Put ctx commandID key value revision : obeys ok (PutMetadata ctx commandID key value revision).
Proof. apply (obeys_PutMetadata ok (justified_benign clusterID) E). Qed.
Lemma obeys_PutBatch ctx commandID values revision : obeys ok (PutMetadataBatch ctx commandID values revision).
Proof. apply (obeys_PutMetadataBatch ok (justified_benign clusterID) E). Qed.
Lemma obeys_Verify ctx : obeys ok (VerifyBusinessLeadership ctx).
Proof. apply (obeys_VerifyBusinessLeadership ok (justified_benign clusterID) E). Qed.
Lemma obeys_HTTP rq : obeys ok (send rq).
Proof. apply (obeys_send ok (justified_benign clusterID) E). Qed.
Lemma obeys_Bar : obeys ok r_Barrier.
Proof. apply (obeys_Barrier ok (justified_benign clusterID) E). Qed.
Hint Resolve obeys_Put obeys_PutBatch obeys_Verify obeys_HTTP obeys_Bar obeys_ret obeys_err obeys_of obeys_get
  obeys_read obeys_try obeys_wrap : obeys.

Ltac obey := follow ltac:(apply obeys_bind) ltac:(solve [eauto with obeys]).

Lemma obeys_update ctx operation phase : obeys ok (updateMembershipOperation ctx operation phase).
Proof. unfold updateMembershipOperation. obey. Qed.
Lemma obeys_complete ctx operation members : obeys ok (completeMembershipOperation ctx operation members).
Proof. unfold completeMembershipOperation. obey. Qed.
Lemma obeys_begin ctx operation : obeys ok (beginMembershipOperation ctx operation).
Proof. unfold beginMembershipOperation. obey. Qed.
Lemma obeys_prepare member : obeys ok (prepareJoiningMember member).
Proof. unfold prepareJoiningMember. obey. Qed.
Lemma obeys_status member : obeys ok (joiningNodeStatus member).
Proof. unfold joiningNodeStatus. obey. Qed.
Hint Resolve obeys_update obeys_complete obeys_begin obeys_prepare obeys_status : obeys.

Lemma wp_change ctx change n :
  (∀ t answer, ok (mkCall (Metadata n) t (CallChange change answer)) (n_calls n)) →
  wp (runConfigurationChange ctx change) (λ _ n', extends ok n n') n.
Proof.
  intros Hok. apply wp_bind, wp_get. cbn [id]. destruct (n_raft n); [|apply wp_err; reflexivity].
  unfold wp, wait_call, r_Change, record_call.
  pose proof (Change_moves change n) as Hm. destruct (raft_Change change n) as [v n1]. cbn [fst snd] in *.
  exists [mkCall (Metadata n) (n_now n) (CallChange change v)]. simpl. rewrite (moves_calls _ _ _ Hm). auto.
Qed.

(** The status of the joining node, with the call that brought it. *)
Lemma wp_joiningNodeStatus member (Q : result Status → Node → Prop) n :
  (∀ e n', extends ok n n' → Q (Err e) n') →
  (∀ status n', extends ok n n' →
     (∃ s t resp rest, n_calls n' =
        mkCall s t (CallHTTP (get_request (trimmed (mb_InternalAPIURL member) +:+ "/internal/v1/status")) (Ok resp)) :: rest
        ∧ rs_Status resp = Some status ∧ rs_StatusCode resp = StatusOK) →
     Q (Ok status) n') →
  wp (joiningNodeStatus member) Q n.
Proof.
  intros Herr Hok. apply wp_bind, wp_bind. unfold wp at 1. cbn [fst snd].
  destruct (internalHTTPClient n); [|apply Herr; reflexivity].
  apply wp_bind, wp_of. destruct (http_NewRequest _ _); [|apply Herr; reflexivity].
  eapply wp_record; [apply Do_moves|]. intros r n1 _ Hn1.
  set (n2 := set_calls _ n1).
  assert (extends ok n n2) as Hext.
  { exists [mkCall (Metadata n) (n_now n) (CallHTTP (get_request (trimmed (mb_InternalAPIURL member) +:+ "/internal/v1/status")) r)].
    by split. }
  destruct r as [resp|e]; [|by apply Herr].
  destruct (rs_Status resp) as [status|] eqn:Hst; [|by apply Herr].
  destruct (negb _) eqn:Hcode; [by apply Herr|]. bool_simpl. apply wp_ret, Hok; [done|].
  eexists _, _, resp, _. split; [reflexivity|done].
Qed.

Lemma wp_poll fuel ctx member gate target tick n :
  wp (poll_joining fuel ctx member gate target tick)
    (λ r n', extends ok n n' ∧ (r = Ok tt → answered member gate n')) n.
Proof.
  revert tick n. induction fuel as [|fuel IH]; intros tick n; [done|].
  cbn [poll_joining]. apply wp_bind, wp_get. cbn [id]. destruct (negb _); [done|].
  apply wp_bind, wp_try. apply wp_joiningNodeStatus.
  - intros e n1 Hn1. apply wp_bind, wp_ret, wp_bind. unfold wp at 1. unfold wait_tick. cbn [fst snd].
    destruct (ctx _) as [e'|]; [split; [|done]; by eapply extends_calls; [|exact Hn1]|].
    eapply wp_mono; [apply IH|]. intros r n2 [Hn2 Ha]. split; [|done].
    etrans; [|exact Hn2]. by eapply extends_calls; [|exact Hn1].
  - intros status n1 Hn1 (s & t & resp & rest & Hcalls & Hst & Hcode). apply wp_bind.
    assert (wp (io_bind (wait_tick ctx tick) (λ tick, poll_joining fuel ctx member gate target tick))
      (λ r n', extends ok n n' ∧ (r = Ok tt → answered member gate n')) n1) as Hagain.
    { apply wp_bind. unfold wp at 1. unfold wait_tick. cbn [fst snd].
      destruct (ctx _) as [e'|]; [split; [|done]; by eapply extends_calls; [|exact Hn1]|].
      eapply wp_mono; [apply IH|]. intros r n2 [Hn2 Ha]. split; [|done].
      etrans; [|exact Hn2]. by eapply extends_calls; [|exact Hn1]. }
    destruct (_ <=? _)%N; [|exact Hagain]. unfold wp at 1. cbn [fst snd].
    destruct (validateJoiningNodeStatus member status gate n1) as [[]|e] eqn:Hv; [| |done].
    + apply wp_ret. split; [done|]. intros _. by exists s, t, resp, status, rest.
    + exact Hagain.
Qed.

Lemma wp_catchUp polls ctx member gate n :
  wp (waitForJoiningNodeCatchUp polls ctx member gate)
    (λ r n', extends ok n n' ∧ (r = Ok tt → answered member gate n')) n.
Proof.
  apply wp_bind, wp_get. cbn [id]. destruct (n_raft n); [|by apply wp_err].
  apply wp_bind. eapply wp_mono; [apply (obeys_Bar n)|]. intros [[]|e] n1 Hn1; [|done].
  apply wp_bind, wp_get. eapply wp_mono; [apply wp_poll|]. intros v n2 [Hn2 Ha]. split; [|done].
  by etrans.
Qed.

(** Promotion after a second wait. *)
Lemma wp_promote polls ctx member gate operation n :
  ClusterID (n_cfg n) = clusterID →
  wp (io_bind (waitForJoiningNodeCatchUp polls ctx member gate) (λ _,
        io_bind (get id) (λ n,
          if negb (capabilityGatesEqual (ms_CapabilityGate (Metadata n)) gate)
          then io_err "active capability gate changed immediately before promoting node %q"
          else io_bind (raftAddVoter ctx member) (λ _, @io_ret Node MembershipOperation operation))))
    (λ _ n', extends ok n n') n.
Proof.
  intros Hid. apply wp_bind.
  eapply wp_mono; [apply wp_and; [apply wp_catchUp|apply (evolving_catchUp E polls ctx member gate n)]|].
  intros [[]|e] n1 [[Hn1 Ha] Hev]; [|done]. apply wp_bind, wp_get. cbn [id].
  destruct (negb _) eqn:Hg; [done|]. apply negb_false_iff, gates_equal_iff in Hg.
  apply wp_bind. eapply wp_mono; [apply wp_change|].
  - intros t answer. destruct (Ha eq_refl) as (s & t' & resp & status & rest & Hc & Hs & Hcode & Hv).
    exists member, s, t', resp, status, rest. split_and!; try done. cbn [call_state].
    rewrite <- Hid, <- (sn_cfg _ _ (ev_same _ _ _ Hev)).
    eapply validateJoiningNodeStatus_caught_up; [done|]. by symmetry.
  - intros [[]|e] n2 Hn2; [apply wp_ret|]; by etrans.
Qed.

Lemma wp_reconcileJoin polls ctx operation n :
  ClusterID (n_cfg n) = clusterID → in_progress (Metadata n) MembershipOperationJoin (op_Member operation) →
  wp (reconcileJoinOperation polls ctx operation) (λ _ n', extends ok n n') n.
Proof.
  intros Hid Hop. apply wp_bind, wp_get. cbn [id]. destruct (negb _); [by apply wp_err|].
  apply wp_bind. unfold wp at 1. cbn [fst snd]. destruct (raftServerSuffrage _ n) as [suffrage|e]; [|done].
  apply wp_bind.
  match goal with |- wp ?m _ _ => set (add := m) end.
  assert (wp add (λ _ n', extends ok n n' ∧ evolves E n n') n) as Hadd.
  { apply wp_and; unfold add; clear add; (destruct suffrage; [apply wp_ret; reflexivity|]).
    - apply wp_bind. eapply wp_mono; [apply wp_change|].
      + intros t answer. by exists (op_Member operation).
      + intros [[]|e] n1 Hn1; [|done]. apply wp_bind. eapply wp_mono; [apply obeys_update|].
        intros [o|e] n2 Hn2; [apply wp_ret|]; by etrans.
    - apply (evolving_bind E); [apply evolving_change; done|intros _].
      apply (evolving_bind E); [apply evolving_update; done|intros o; apply evolving_ret]. }
  eapply wp_mono; [exact Hadd|]. clear add Hadd. intros [[o s]|e] n1 [Hn1 Hev]; [|done]. cbn [fst snd].
  assert (ClusterID (n_cfg n1) = clusterID) as Hid1 by (by rewrite (sn_cfg _ _ (ev_same _ _ _ Hev))).
  apply wp_bind.
  match goal with |- wp ?m _ _ => set (promote := m) end.
  assert (wp promote (λ _ n', extends ok n1 n') n1) as Hpromote.
  { unfold promote. clear promote. case_bool_decide; [|apply wp_ret; reflexivity]. apply wp_bind.
    eapply wp_mono; [apply wp_and; [apply wp_catchUp|apply (evolving_catchUp E polls ctx (op_Member operation)
      (ms_CapabilityGate (Metadata n)) n1)]|].
    intros [[]|e] n2 [[Hn2 _] Hev2]; [|done]. apply wp_bind, wp_get. cbn [id]. destruct (negb _); [done|].
    apply wp_bind. eapply wp_mono; [apply wp_and; [apply obeys_update|apply (evolving_update E ctx o MembershipPhaseCaughtUp n2)]|].
    intros [o'|e] n3 [Hn3 Hev3]; [|by etrans]. eapply wp_mono; [apply wp_promote|].
    - by rewrite (sn_cfg _ _ (ev_same _ _ _ Hev3)), (sn_cfg _ _ (ev_same _ _ _ Hev2)).
    - intros v n4 Hn4. etrans; [exact Hn2|]. by etrans. }
  eapply wp_mono; [exact Hpromote|]. clear promote Hpromote. intros [o'|e] n2 Hn2; [|by etrans].
  apply wp_bind. eapply wp_mono; [apply obeys_update|]. intros [o''|e] n3 Hn3; [|etrans; [exact Hn1|]; by etrans].
  apply wp_bind, wp_get. eapply wp_mono; [apply obeys_complete|]. intros v n4 Hn4.
  etrans; [exact Hn1|]. etrans; [exact Hn2|]. by etrans.
Qed.

Lemma wp_reconcileRemove ctx operation n :
  in_progress (Metadata n) MembershipOperationRemove (op_Member operation) →
  wp (reconcileRemoveOperation ctx operation) (λ _ n', extends ok n n') n.
Proof.
  intros Hop. apply wp_bind. unfold wp at 1. cbn [fst snd].
  destruct (raftServerSuffrage _ n) as [suffrage|e]; [|done].
  apply wp_bind. match goal with |- wp ?m _ _ => set (remove := m) end.
  assert (wp remove (λ _ n', extends ok n n') n) as Hremove.
  { unfold remove. destruct suffrage; [|apply wp_ret; reflexivity]. apply wp_change.
    intros t answer. by exists (op_Member operation). }
  eapply wp_mono; [exact Hremove|]. clear remove Hremove. intros [[]|e] n1 Hn1; [|done].
  apply wp_bind. eapply wp_mono; [apply obeys_update|]. intros [o|e] n2 Hn2; [|by etrans].
  apply wp_bind, wp_modify, wp_bind, wp_get. eapply wp_mono; [apply obeys_complete|].
  intros v n3 Hn3. etrans; [exact Hn1|]. by etrans.
Qed.

Lemma obeys_reconcile polls ctx n :
  ClusterID (n_cfg n) = clusterID →
  wp (reconcileMembershipOperationLocked polls ctx) (λ _ n', extends ok n n') n.
Proof.
  intros Hid. apply wp_bind.
  eapply wp_mono; [apply wp_and; [apply obeys_Verify|apply (evolving_VerifyBusinessLeadership E ctx n)]|].
  intros [[]|e] n1 [Hn1 Hev]; [|done]. apply wp_bind. unfold wp at 1. cbn [fst snd].
  unfold membershipOperation. destruct (recorded_operation (Metadata n1)) as [[operation|]|e] eqn:Hop; [|by apply wp_ret|done].
  destruct (str_eqb (op_Phase operation) _) eqn:Hphase; [by apply wp_ret|]. bool_simpl.
  apply wp_bind, wp_modify. set (n2 := refreshPeerRegistry (addPendingMember (op_Member operation) n1)).
  assert (extends ok n1 n2) as Hn2 by (by exists []).
  assert (ClusterID (n_cfg n2) = clusterID) as Hid2 by (by rewrite <- Hid, <- (sn_cfg _ _ (ev_same _ _ _ Hev))).
  unfold wp, with_defer.
  match goal with |- context [match ?m ?n with _ => _ end] => set (body := m); set (n2' := n) end.
  assert (wp body (λ _ n', extends ok n1 n') n2') as Hbody.
  { unfold body, n2'. apply wp_bind, wp_modify. fold n2.
    destruct (str_eqb (op_Type operation) MembershipOperationJoin) eqn:Hj; bool_simpl.
    { eapply wp_mono; [apply wp_reconcileJoin; [done|by exists operation]|]. intros v n3 Hn3. by etrans. }
    destruct (str_eqb (op_Type operation) MembershipOperationRemove) eqn:Hr; bool_simpl; [|by apply wp_err].
    eapply wp_mono; [apply wp_reconcileRemove; by exists operation|]. intros v n3 Hn3. by etrans. }
  unfold wp in Hbody. destruct (body n2') as [v n3]. cbn [fst snd] in *.
  etrans; [exact Hn1|]. eapply extends_calls; [|exact Hbody].
  unfold forget_pending. by destruct (membershipOperation n3) as [[o|]|]; [destruct (_ || _)|..].
Qed.
End obeys.

(** ** The entry points *)

Section entry.
Context (E : env) {R : Raft} {P : Peers} `{!RaftLaws R E} `{!PeersLaws P E}.
Context (clusterID : string).
Notation ok := (justified_change clusterID).
Set Default Proof Using "Type*".

(** Justified, from a node of the cluster to a node of the cluster. *)
Definition keeps {A} (m : nio A) : Prop :=
  ∀ n, ClusterID (n_cfg n) = clusterID →
    wp m (λ _ n', extends ok n n' ∧ ClusterID (n_cfg n') = clusterID) n.

Lemma keeps_bind {A B} (m : nio A) (k : A → nio B) : keeps m → (∀ a, keeps (k a)) → keeps (io_bind m k).
Proof using Type.
  intros Hm Hk n Hn. apply wp_bind. eapply wp_mono; [by apply Hm|]. intros [a|e] n1 [H1 Hid]; [|done].
  eapply wp_mono; [by apply Hk|]. intros r n2 [H2 Hid2]. split; [by etrans|done].
Qed.
Lemma keeps_obeys {A} (m : nio A) : obeys ok m → evolving E m → keeps m.
Proof using Type.
  intros Ho He n Hn. apply wp_and; [apply Ho|]. eapply wp_mono; [apply He|].
  intros r n' Hev. by rewrite (sn_cfg _ _ (ev_same _ _ _ Hev)).
Qed.
Lemma keeps_try {A} (m : nio A) : keeps m → keeps (io_try m).
Proof using Type. intros Hm n Hn. apply wp_try. by apply Hm. Qed.
Lemma keeps_ret {A} (a : A) : keeps (io_ret a).
Proof using Type. intros n Hn. by apply wp_ret. Qed.
Lemma keeps_err {A} e : keeps (@io_err Node A e).
Proof using Type. intros n Hn. by apply wp_err. Qed.
Lemma keeps_of {A} (r : result A) : keeps (@io_of Node A r).
Proof using Type. intros n Hn. by apply wp_of. Qed.
Lemma keeps_get {A} (f : Node → A) : keeps (get f).
Proof using Type. intros n Hn. by apply wp_get. Qed.
Lemma keeps_modify f : (∀ n, n_calls (f n) = n_calls n ∧ n_cfg (f n) = n_cfg n) → keeps (modify f).
Proof using Type.
  intros Hf n Hn. apply wp_modify. destruct (Hf n) as [H1 H2]. rewrite H2. split; [|done].
  by eapply extends_calls; [exact H1|].
Qed.
Lemma keeps_Verify ctx : keeps (VerifyBusinessLeadership ctx).
Proof. apply keeps_obeys; [apply (obeys_Verify E clusterID)|by apply evolving_VerifyBusinessLeadership]. Qed.
Lemma keeps_begin ctx operation : keeps (beginMembershipOperation ctx operation).
Proof. apply keeps_obeys; [apply (obeys_begin E clusterID)|by apply evolving_begin]. Qed.
Lemma keeps_prepare member : keeps (prepareJoiningMember member).
Proof.
  apply keeps_obeys; [apply (obeys_prepare E clusterID)|by apply evolving_prepare].
Qed.

Lemma with_defer_cfg (f : Node → Node) (body : nio unit) n :
  (∀ n, n_cfg (f n) = n_cfg n) → n_cfg (with_defer f body n).2 = n_cfg (body n).2.
Proof using Type. intros Hf. unfold with_defer. destruct (body n). apply Hf. Qed.

(** Work on the recorded operation begins with the verification of the leader. *)
Lemma reconcile_verifies polls ctx : ∃ rest : unit → nio unit,
  reconcileMembershipOperationLocked polls ctx = io_bind (VerifyBusinessLeadership ctx) rest ∧ ∀ u, evolving E (rest u).
Proof.
  eexists. split; [reflexivity|]. intros u. cbv beta. clear u.
  apply evolving_bind; [apply evolving_read|intros [operation|]; [|apply evolving_ret]].
  destruct (str_eqb _ _); [apply evolving_ret|].
  apply evolving_bind; [by apply evolving_modify|intros _].
  set (body := io_bind (modify refreshPeerRegistry) _).
  assert (evolving E body) as Hbody.
  { unfold body. apply evolving_bind; [by apply evolving_modify|intros _].
    unfold reconcileJoinOperation, reconcileRemoveOperation.
    repeat match goal with
    | |- _ (io_bind (modify _) _) => apply evolving_bind; [by apply evolving_modify|intros ?]
    | |- _ (io_bind _ _) => first [solve [eauto using evolving_catchUp with evolving] | apply evolving_bind; [|intros ?]]
    | |- _ (if ?b then _ else _) => destruct b
    | |- _ (match ?x with _ => _ end) => destruct x
    | |- _ => solve [eauto using evolving_catchUp with evolving]
    end. }
  intros n. unfold wp, with_defer. specialize (Hbody n). unfold wp in Hbody. destruct (body n) as [v n']. cbn [fst snd] in *.
  etrans; [exact Hbody|]. apply local_evolves. unfold forget_pending.
  destruct (membershipOperation n') as [[o|]|]; [destruct (_ || _)|..]; done.
Qed.

Lemma evolving_reconcile polls ctx : evolving E (reconcileMembershipOperationLocked polls ctx).
Proof.
  destruct (reconcile_verifies polls ctx) as (rest & -> & Hrest).
  apply evolving_bind; [by apply evolving_VerifyBusinessLeadership|exact Hrest].
Qed.

Lemma keeps_reconcile polls ctx : keeps (reconcileMembershipOperationLocked polls ctx).
Proof.
  intros n Hn. apply wp_and; [by apply (obeys_reconcile E clusterID)|].
  eapply wp_mono; [apply evolving_reconcile|]. intros r n' Hev. by rewrite (sn_cfg _ _ (ev_same _ _ _ Hev)).
Qed.

Ltac keep := follow ltac:(apply keeps_bind)
  ltac:(solve [eauto using keeps_Verify, keeps_begin, keeps_prepare, keeps_reconcile, keeps_try, keeps_ret, keeps_err,
                 keeps_of, keeps_get | by apply keeps_modify]).

Lemma keeps_RemoveServer polls ctx nodeID : keeps (RemoveServer polls ctx nodeID).
Proof. unfold RemoveServer. keep. Qed.

Lemma keeps_JoinVoter polls ctx member : keeps (JoinVoter polls ctx member).
Proof. unfold JoinVoter. keep. Qed.
End entry.

(** ** How long a joining node is waited for *)

(** With a deadline the number of polls does not matter once it is large
    enough: the loop ends before. *)
Section polls.
Context (E : env) {R : Raft} {P : Peers} `{!RaftLaws R E} `{!PeersLaws P E}.
Context (ctx : context) (deadline start : Z).
Context (Hdeadline : ∀ t, (deadline ≤ t_ns t)%Z → ctx t ≠ None).

(** Two programs do the same from [start] on. *)
Definition same_after {A} (m1 m2 : nio A) : Prop := ∀ n, (start ≤ t_ns (n_now n))%Z → m1 n = m2 n.

Lemma same_after_refl {A} (m : nio A) : same_after m m.
Proof using Type. done. Qed.

Lemma same_after_bind {A B} (m1 m2 : nio A) (k1 k2 : A → nio B) :
  same_after m1 m2 → evolving E m1 → (∀ a, same_after (k1 a) (k2 a)) →
  same_after (io_bind m1 k1) (io_bind m2 k2).
Proof using Type.
  intros Hm He Hk n Hn. unfold io_bind. rewrite <- (Hm n Hn). pose proof (ev_time _ _ _ (He n)) as Ht.
  destruct (m1 n) as [[a|e] n1]; [|done]. simpl in Ht. apply Hk. lia.
Qed.

Lemma same_after_same {A B} (m : nio A) (k1 k2 : A → nio B) :
  evolving E m → (∀ a, same_after (k1 a) (k2 a)) → same_after (io_bind m k1) (io_bind m k2).
Proof using Type. apply same_after_bind, same_after_refl. Qed.

Lemma same_after_try {A} (m1 m2 : nio A) : same_after m1 m2 → same_after (io_try m1) (io_try m2).
Proof using Type. intros Hm n Hn. unfold io_try. by rewrite (Hm n Hn). Qed.

Lemma same_after_defer {A} (f : Node → Node) (m1 m2 : nio A) :
  same_after m1 m2 → same_after (with_defer f m1) (with_defer f m2).
Proof using Type. intros Hm n Hn. unfold with_defer. by rewrite (Hm n Hn). Qed.

Definition polls_needed (tick : Z) : nat := S (Z.to_nat ((deadline - tick) / tick_interval + 1)).

Lemma next_tick_later tick now : (tick + tick_interval ≤ next_tick tick now)%Z.
Proof using Type.
  unfold next_tick, tick_interval, millisecond. destruct (now <? tick)%Z eqn:Hlt; [lia|]. bool_simpl.
  pose proof (Z.div_pos (now - tick) (100 * 10 ^ 6) ltac:(lia) ltac:(lia)). nia.
Qed.

Lemma polls_needed_next tick tick' :
  (tick < deadline)%Z → (tick + tick_interval ≤ tick')%Z → S (polls_needed tick') ≤ polls_needed tick.
Proof using Type.
  intros Hlt Htick. unfold polls_needed.
  assert ((deadline - tick') / tick_interval + 1 ≤ (deadline - tick) / tick_interval)%Z as Hle.
  { replace ((deadline - tick) / tick_interval)%Z with ((deadline - tick - tick_interval) / tick_interval + 1)%Z.
    - pose proof (Z.div_le_mono (deadline - tick') (deadline - tick - tick_interval) tick_interval ltac:(done) ltac:(lia)). lia.
    - replace (deadline - tick - tick_interval)%Z with (deadline - tick + (-1) * tick_interval)%Z by lia.
      rewrite Z.div_add by done. lia. }
  pose proof (Z.div_pos (deadline - tick) tick_interval ltac:(lia) ltac:(done)). lia.
Qed.

Lemma poll_fuel fuel1 fuel2 member gate target tick n :
  polls_needed tick ≤ fuel1 → polls_needed tick ≤ fuel2 →
  poll_joining fuel1 ctx member gate target tick n = poll_joining fuel2 ctx member gate target tick n.
Proof using Hdeadline.
  revert fuel2 tick n. induction fuel1 as [|fuel1 IH]; intros fuel2 tick n H1 H2; [unfold polls_needed in H1; lia|].
  destruct fuel2 as [|fuel2]; [unfold polls_needed in H2; lia|]. cbn [poll_joining].
  assert (∀ n, io_bind (wait_tick ctx tick) (λ tick, poll_joining fuel1 ctx member gate target tick) n
    = io_bind (wait_tick ctx tick) (λ tick, poll_joining fuel2 ctx member gate target tick) n) as Hagain.
  { intros n1. unfold io_bind, wait_tick. cbn [fst snd].
    destruct (ctx _) as [e|] eqn:Hctx; [done|].
    assert (tick < deadline)%Z as Hlt.
    { destruct (Z.lt_ge_cases tick deadline) as [?|Hge]; [done|]. exfalso.
      eapply Hdeadline; [|exact Hctx]. simpl. lia. }
    pose proof (polls_needed_next tick _ Hlt (next_tick_later tick (t_ns (n_now n1)))).
    apply IH; lia. }
  unfold io_bind at 1 5, get. destruct (negb _); [done|].
  unfold io_bind at 1 4. destruct (io_try (joiningNodeStatus member) n) as [[status|e] n1]; [|done].
  unfold io_bind at 1 3. match goal with |- match ?m ?s with _ => _ end = _ => destruct (m s) as [[[]|e] n2] end; [done| |done].
  apply Hagain.
Qed.
(** And the limit of the model is not what ends the loop. *)
Lemma poll_ends fuel member gate target tick n :
  polls_needed tick ≤ fuel → (∀ t, ctx t ≠ Some errPollLimit) →
  (poll_joining fuel ctx member gate target tick n).1 ≠ Err errPollLimit.
Proof using Hdeadline.
  intros Hfuel Hctx. revert tick n Hfuel. induction fuel as [|fuel IH]; intros tick n Hfuel; [unfold polls_needed in Hfuel; lia|].
  cbn [poll_joining].
  assert (∀ n, (io_bind (wait_tick ctx tick) (λ tick, poll_joining fuel ctx member gate target tick) n).1
    ≠ Err errPollLimit) as Hagain.
  { intros n1. unfold io_bind, wait_tick. cbn [fst snd].
    destruct (ctx _) as [e|] eqn:He; [intros [= ->]; by apply (Hctx _ He)|].
    assert (tick < deadline)%Z as Hlt.
    { destruct (Z.lt_ge_cases tick deadline) as [?|Hge]; [done|]. exfalso.
      eapply Hdeadline; [|exact He]. simpl. lia. }
    pose proof (polls_needed_next tick _ Hlt (next_tick_later tick (t_ns (n_now n1)))). apply IH; lia. }
  unfold io_bind at 1, get. destruct (negb _); [done|].
  unfold io_bind at 1. unfold io_try at 1. destruct (joiningNodeStatus member n) as [[status|e] n1].
  - unfold io_bind at 1. destruct (target <=? st_AppliedIndex status)%N; [|apply Hagain].
    destruct (validateJoiningNodeStatus member status gate n1) as [[]|e] eqn:Hv; [done|apply Hagain|].
    unfold validateJoiningNodeStatus in Hv. repeat (destruct (_ : bool) in Hv; [by simplify_eq|]).
    by repeat case_match; simplify_eq.
  - apply Hagain.
Qed.

(** Polls that are enough for every wait from [start] on. *)
Definition enough_polls (polls : nat) : Prop := S (Z.to_nat ((deadline - start) / tick_interval)) ≤ polls.
Context (p1 p2 : nat) (Hp1 : enough_polls p1) (Hp2 : enough_polls p2).

Lemma enough_for polls now : enough_polls polls → (start ≤ now)%Z → polls_needed (now + tick_interval) ≤ polls.
Proof using Type.
  unfold enough_polls, polls_needed. intros Hp Hnow.
  assert ((deadline - (now + tick_interval)) / tick_interval + 1 ≤ (deadline - start) / tick_interval)%Z as Hle; [|lia].
  replace (deadline - (now + tick_interval))%Z with (deadline - now + (-1) * tick_interval)%Z by lia.
  rewrite Z.div_add by done. pose proof (Z.div_le_mono (deadline - now) (deadline - start) tick_interval ltac:(done) ltac:(lia)). lia.
Qed.

Lemma catchUp_polls member gate :
  same_after (waitForJoiningNodeCatchUp p1 ctx member gate) (waitForJoiningNodeCatchUp p2 ctx member gate).
Proof using RaftLaws0 Hdeadline Hp1 Hp2.
  apply same_after_same; [apply evolving_get|intros n]. destruct (n_raft n); [|apply same_after_refl].
  apply same_after_same; [apply evolving_calling, calling_Barrier; done|intros _].
  intros n1 Hn1. unfold io_bind, get. cbn [fst snd].
  apply poll_fuel; by apply enough_for.
Qed.

(** Follow two programs that only differ in the number of polls. *)
Ltac evolve := follow ltac:(apply evolving_bind)
  ltac:(solve [eauto using evolving_catchUp, evolving_joiningNodeStatus, evolving_VerifyBusinessLeadership,
                 evolving_reconcile, evolving_prepare with evolving | by apply evolving_modify]).
Ltac same_polls :=
  repeat match goal with
  | |- same_after ?m ?m => apply same_after_refl
  | |- same_after (io_try _) (io_try _) => apply same_after_try
  | |- same_after (with_defer _ _) (with_defer _ _) => apply same_after_defer
  | |- same_after (waitForJoiningNodeCatchUp _ _ _ _) _ => apply catchUp_polls
  | |- same_after (io_bind _ _) _ =>
      first [apply same_after_same; [solve [evolve]|intros ?] | apply same_after_bind; [|solve [evolve]|intros ?]]
  | |- same_after (if ?b then _ else _) _ => destruct b
  | |- same_after (match ?x with _ => _ end) _ => destruct x
  end.

Lemma reconcileJoin_polls operation :
  same_after (reconcileJoinOperation p1 ctx operation) (reconcileJoinOperation p2 ctx operation).
Proof using RaftLaws0 PeersLaws0 Hdeadline Hp1 Hp2. unfold reconcileJoinOperation. same_polls. Qed.

Lemma reconcile_polls :
  same_after (reconcileMembershipOperationLocked p1 ctx) (reconcileMembershipOperationLocked p2 ctx).
Proof using RaftLaws0 PeersLaws0 Hdeadline Hp1 Hp2.
  unfold reconcileMembershipOperationLocked. same_polls. apply reconcileJoin_polls.
Qed.

Lemma RemoveServer_polls nodeID : same_after (RemoveServer p1 ctx nodeID) (RemoveServer p2 ctx nodeID).
Proof using RaftLaws0 PeersLaws0 Hdeadline Hp1 Hp2. unfold RemoveServer. same_polls; apply reconcile_polls. Qed.

Lemma JoinVoter_polls member : same_after (JoinVoter p1 ctx member) (JoinVoter p2 ctx member).
Proof using RaftLaws0 PeersLaws0 Hdeadline Hp1 Hp2. unfold JoinVoter. same_polls; apply reconcile_polls. Qed.

Lemma tick_polls : same_after (membership_tick p1 ctx) (membership_tick p2 ctx).
Proof using RaftLaws0 PeersLaws0 Hdeadline Hp1 Hp2.
  unfold membership_tick, reconcileMembershipOperation. same_polls; apply reconcile_polls.
Qed.
End polls.
