(* ===== verification/MembershipSpec.v ===== *)
(** * MembershipSpec: what membership changes guarantee

    Every change of the Raft configuration is justified, one operation is in
    progress at a time, waiting for a joining node ends with its context, and a
    capability gate is only proposed when the voters can follow it. *)
From S2P Require Import Prelude Text Io Sha256 Json GoTime Duration Config Peers Capability Manifest.
From S2P Require Import BlobStore Fsm FsmProofs Node Leadership NodeProofs LeadershipProofs Examples.
From S2P Require Import GoTimeProofs Codec CommandSpec Membership MembershipProofs.
From stdpp Require Import options.

(** ** Changes of the configuration *)

(** What callers can ask for. *)
Inductive membership_request : Type :=
| MaintainRequest
| JoinRequest (member : Member)
| RemoveRequest (nodeID : string).

Definition serve `{Raft, Peers} (polls : nat) (ctx : context) (rq : membership_request) : nio unit :=
  match rq with
  | MaintainRequest => membership_tick polls ctx
  | JoinRequest member => JoinVoter polls ctx member
  | RemoveRequest nodeID => RemoveServer polls ctx nodeID
  end.

(** whatever Raft and the peers answer, a maintenance tick, a join or a
    removal asks Raft to add a server only for a join in progress in the
    replicated state, to remove one only for a removal in progress, and to make
    a server a voter only right after this server itself answered with a
    healthy status: all committed entries applied, at the revision and the
    capability gate of the promoting node, which it supports, with the blobs of
    the active snapshot. *)
Theorem configuration_changes_justified (E : env) `{!RaftLaws R E, !PeersLaws P E} (polls : nat)
    (ctx : context) (rq : membership_request) (n n' : Node) (res : result unit) :
  serve polls ctx rq n = (res, n') →
  ∃ calls, n_calls n' = calls ++ n_calls n
    ∧ ∀ l1 c l2, calls = l1 ++ c :: l2 → justified_change (ClusterID (n_cfg n)) c (l2 ++ n_calls n).
Proof.
  intros Hrun. set (cid := ClusterID (n_cfg n)).
  assert (keeps cid (serve polls ctx rq)) as Hk.
  { destruct rq; cbn [serve]; [|by apply (keeps_JoinVoter E)|by apply (keeps_RemoveServer E)].
    unfold membership_tick. apply keeps_bind; [apply keeps_get|intros m]. destruct (HasBusinessLeadership m); [|apply keeps_ret].
    apply keeps_bind; [|intros _; apply keeps_ret]. by apply keeps_try, (keeps_reconcile E). }
  destruct (wp_eq _ _ _ _ _ Hrun (Hk n eq_refl)) as [(calls & Hcalls & Hj) _].
  exists calls. split; [done|]. intros l1 c l2 Hsplit. by eapply justified_split.
Qed.

Definition is_promotion (c : call) : bool :=
  match call_event c with CallChange (AddVoter _ _) _ => true | _ => false end.

(** A join that goes through. *)
Lemma configuration_changes_justified_witness :
  let n' := (serve (H := solo) (H0 := ex_peers) 1 (λ _, None) (JoinRequest ex_joiner) (ex_leading ex_fsm)).2 in
  existsb is_promotion (n_calls n') = true
  ∧ ∃ calls, n_calls n' = calls ++ []
    ∧ ∀ l1 c l2, calls = l1 ++ c :: l2 → justified_change "c" c (l2 ++ []).
Proof.
  intros n'. split; [reflexivity|].
  exact (configuration_changes_justified (R := solo) (P := ex_peers) calm 1 (λ _, None) (JoinRequest ex_joiner)
    (ex_leading ex_fsm) n' _ (surjective_pairing _)).
Defined.

(** ** One operation at a time *)

(** No operation is in progress in a state. *)
Definition idle (s : MetadataState) : Prop := ∀ type member, ¬ in_progress s type member.

Lemma idle_recorded s :
  (∀ o, recorded_operation s = Ok (Some o) → op_Phase o = MembershipPhaseCompleted) → idle s.
Proof. intros H type member (o & Ho & Hp & _). by apply Hp, H. Qed.

(** The operation is begun on a state where none is in progress. *)
Definition begun (o : MembershipOperation) (f1 f2 : metadataFSM) : Prop :=
  idle (fsm_state f1) ∧ recorded_operation (fsm_state f2) = Ok (Some o)
  ∧ delete membershipOperationMetadataKey (ms_Values (fsm_state f2))
    = delete membershipOperationMetadataKey (ms_Values (fsm_state f1)).

(** C11: at most one membership operation is in progress.  If
    [beginMembershipOperation] succeeds, then the same change of the same
    member was in progress already and nothing was done; or at one entry of the
    log no operation was in progress in the replicated state and this one was
    recorded, as it is, with all other metadata kept; or the command of this
    very operation had been applied before. *)
Theorem one_membership_operation (E : env) `{!RaftLaws R E} (ctx : context) (o : MembershipOperation)
    (n n' : Node) (f0 : metadataFSM) :
  n_fsm n = Some f0 → fsm_ok f0 → fsm_capabilities f0 = SupportedNodeCapabilities →
  operation_wire o → valid_utf8 (op_ID o +:+ "/prepared") → (ms_Revision (fsm_state f0) < u64_bound)%N →
  beginMembershipOperation ctx o n = (Ok tt, n') →
  (n' = n ∧ in_progress (Metadata n) (op_Type o) (op_Member o))
  ∨ ∃ r, at_one_point E n n' (λ f1 f2, begun o f1 f2 ∨ replayed (op_ID o +:+ "/prepared") r f1 f2).
Proof.
  intros Hf Hok Hcaps Hw Hid Hrev Hrun.
  assert (Metadata n = State f0) as Hmeta by (unfold Metadata; by rewrite Hf).
  unfold beginMembershipOperation in Hrun. unfold io_bind at 1 in Hrun.
  destruct (membershipOperation n) as [existing|e] eqn:Hex; [|done].
  set (start := io_bind (get id) _) in Hrun.
  assert ((∀ x, existing = Some x → op_Phase x = MembershipPhaseCompleted) → start n = (Ok tt, n') →
    ∃ r, at_one_point E n n' (λ f1 f2, begun o f1 f2 ∨ replayed (op_ID o +:+ "/prepared") r f1 f2)) as Hstart.
  { clear Hrun. intros Hidle Hrun. unfold start, io_bind at 1, get in Hrun. cbn [fst snd] in Hrun.
    unfold io_bind in Hrun. cbn [id] in Hrun. rewrite Hmeta in Hrun.
    destruct (PutMetadata _ _ _ _ _ n) as [[r|e] n1] eqn:Hput; [|done]. injection Hrun as <-. exists r.
    destruct (wp_eq _ _ _ _ _ Hput (wp_PutMetadata E _ _ _ _ _ n f0 Hf Hok Hcaps Hid eq_refl Hrev) r eq_refl)
      as (_ & raw & Hraw & g0 & f3 & f1 & f2 & log1 & log2 & d1 & Hg0 & Hf3 & Hrun1 & Hs1 & Hrun2 & Hstep).
    exists g0, f3, f1, f2, log1, log2, d1. split_and!; try done.
    destruct Hstep as [(Hr1 & _ & _ & digest & ->)|Hrep]; [left|by right].
    rewrite Hf in Hg0. injection Hg0 as <-.
    destruct (run_revision E log1 f0 (n_disk n) Hs1) as [_ Hsame]. rewrite Hrun1 in Hsame. cbn [fst] in Hsame.
    specialize (Hsame Hr1). split_and!.
    - apply idle_recorded. intros x Hx. apply Hidle. unfold membershipOperation in Hex. rewrite Hmeta in Hex.
      assert (recorded_operation (fsm_state f1) = recorded_operation (State f0)) as Heq; [|congruence].
      unfold recorded_operation. by rewrite (f_equal ms_Values Hsame : ms_Values (fsm_state f1) = ms_Values (fsm_state f0)).
    - eapply recorded_written; [done|exact Hraw|]. apply lookup_insert_eq.
    - apply delete_insert_eq. }
  destruct existing as [x|]; [|right; by apply Hstart].
  destruct (negb _) eqn:Hphase; bool_simpl; [|right; apply Hstart; [by intros ? [= <-]|done]].
  destruct (str_eqb _ _ && _) eqn:Hsame; bool_simpl; [|done]. left. injection Hrun as <-. split; [done|].
  by exists x.
Qed.

Definition ex_operation : MembershipOperation :=
  mkMembershipOperation "join/n4/1" MembershipOperationJoin MembershipPhasePrepared ex_joiner
    SupportedNodeCapabilities ex_now ex_now.

Lemma one_membership_operation_witness :
  let n := ex_leading ex_fsm in
  let n' := (beginMembershipOperation (R := solo) (λ _, None) ex_operation n).2 in
  (n' = n ∧ in_progress (Metadata n) "join" ex_joiner)
  ∨ ∃ r, at_one_point calm n n' (λ f1 f2, begun ex_operation f1 f2 ∨ replayed "join/n4/1/prepared" r f1 f2).
Proof.
  intros n n'.
  apply (one_membership_operation (R := solo) calm (λ _, None) ex_operation n n' ex_fsm eq_refl ex_fsm_ok eq_refl);
    [by constructor|reflexivity|reflexivity|exact (pair_eq _ _ eq_refl)].
Defined.

(** ** Waiting ends *)

(** under a context with a deadline the wait for a joining node ends.  A
    number of polls, computed from the time that is left and the interval of
    the ticker, is enough: no wait of a join, a removal or a maintenance tick
    reaches it, so every larger number gives the same result and node, and the
    loop itself never ends for lack of polls. *)
Theorem joining_wait_ends (E : env) `{!RaftLaws R E, !PeersLaws P E} (ctx : context) (deadline : Z)
    (rq : membership_request) (n : Node) (p1 p2 : nat) :
  (∀ t, (deadline ≤ t_ns t)%Z → ctx t ≠ None) →
  enough_polls deadline (t_ns (n_now n)) p1 → enough_polls deadline (t_ns (n_now n)) p2 →
  serve p1 ctx rq n = serve p2 ctx rq n
  ∧ ∀ member gate target m, (t_ns (n_now n) ≤ t_ns (n_now m))%Z → (∀ t, ctx t ≠ Some errPollLimit) →
      (poll_joining p1 ctx member gate target (t_ns (n_now m) + tick_interval) m).1 ≠ Err errPollLimit.
Proof.
  intros Hctx Hp1 Hp2. split.
  - destruct rq as [|member|nodeID]; cbn [serve].
    + by apply (tick_polls E ctx deadline (t_ns (n_now n))).
    + by apply (JoinVoter_polls E ctx deadline (t_ns (n_now n))).
    + by apply (RemoveServer_polls E ctx deadline (t_ns (n_now n))).
  - intros member gate target m Hm Hl. apply (poll_ends ctx deadline); [done| |done].
    by apply (enough_for deadline (t_ns (n_now n))).
Qed.

(** The 30 seconds of the HTTP handlers: 301 polls. *)
Definition thirty_seconds (t : time) : option error :=
  if (t_ns ex_now + 30 * second <=? t_ns t)%Z then Some "context deadline exceeded" else None.

Lemma joining_wait_ends_witness :
  serve (H := solo) (H0 := ex_peers) 301 thirty_seconds (JoinRequest ex_joiner) (ex_leading ex_fsm)
  = serve (H := solo) (H0 := ex_peers) 1000 thirty_seconds (JoinRequest ex_joiner) (ex_leading ex_fsm).
Proof.
  refine (proj1 (joining_wait_ends (R := solo) (P := ex_peers) calm thirty_seconds (t_ns ex_now + 30 * second)
    (JoinRequest ex_joiner) (ex_leading ex_fsm) 301 1000 _ _ _)).
  - intros t Ht. unfold thirty_seconds. by rewrite (proj2 (Z.leb_le _ _) Ht).
  - apply Nat.leb_le. vm_compute. reflexivity.
  - apply Nat.leb_le. vm_compute. reflexivity.
Defined.
