(* ===== verification/ActivationSpec.v ===== *)
(** * ActivationSpec: capability gates and the voters

    A gate is proposed only after every voter of the Raft configuration was
    found healthy, caught up and able to follow it, and it then takes effect at
    one entry of the log. *)
From S2P Require Import Prelude Text Io Sha256 Json GoTime GoTimeProofs Duration Config Peers Capability Manifest.
From S2P Require Import Codec BlobStore Fsm FsmProofs Node Leadership NodeProofs LeadershipProofs Examples.
From S2P Require Import CommandSpec Membership MembershipProofs.
From stdpp Require Import options.
#[local] Open Scope io_scope.

(** What a status must say of a machine: it is healthy, has applied all it knows to
    be committed and follows the active gate. *)
Record status_ready (activeGate : CapabilityGate) (status : Status) : Prop := {
  sr_healthy : st_FSMHealthy status = true ∧ st_FSMApplyError status = "";
  sr_applied : (st_CommitIndex status ≤ st_AppliedIndex status)%N;
  sr_gate : gate_equiv (st_ActiveCapabilityGate status) activeGate;
}.

(** A voter was checked between two moments: the node itself by the status it had
    then, every other voter by the status with which it answered to its name and
    cluster; [c] are the capabilities of the one, or those the other reported. *)
Inductive voter_checked (E : env) (activeGate : CapabilityGate) (nodeID : string) (c : NodeCapabilities) (n n' : Node) : Prop :=
| checked_self nv :
    nodeID = NodeID (n_cfg n) → evolves E n nv → evolves E nv n' →
    status_ready activeGate (n_status nv) → c = n_capabilities n → voter_checked E activeGate nodeID c n n'
| checked_peer s t rq resp status :
    nodeID ≠ NodeID (n_cfg n) →
    called n n' (mkCall s t (CallHTTP rq (Ok resp))) → rs_StatusCode resp = StatusOK → rs_Status resp = Some status →
    st_ClusterID status = ClusterID (n_cfg n) → st_NodeID status = nodeID →
    status_ready activeGate status → c = st_Capabilities status →
    voter_checked E activeGate nodeID c n n'.

Lemma voter_checked_mono E g id c n0 n n' n1 :
  evolves E n0 n → voter_checked E g id c n n' → evolves E n' n1 → voter_checked E g id c n0 n1.
Proof.
  intros H0 Hc H1. pose proof (ev_same _ _ _ H0) as [Hcfg Hcaps _ _ _].
  destruct Hc as [nv -> ? ? ? ->|s t rq resp status Hid Hcall ? ? Hcluster ? ? ->].
  - apply (checked_self _ _ _ _ _ _ nv); [by rewrite Hcfg|by etrans..|done|done].
  - eapply checked_peer; [by rewrite <- Hcfg|by eapply called_mono|done|done|by rewrite <- Hcfg|done..].
Qed.

Section statuses.
Context (E : env) {R : Raft} {P : Peers} `{!RaftLaws R E} `{!PeersLaws P E}.
Set Default Proof Using "Type*".

Lemma wp_voterStatus activeGate nodeID n :
  wp (voterStatus activeGate nodeID)
    (λ r n', evolves E n n' ∧ ∀ c, r = Ok c → voter_checked E activeGate nodeID c n n') n.
Proof using PeersLaws0.
  apply wp_bind, wp_get. cbn [id]. destruct (str_eqb nodeID _) eqn:Hself; bool_simpl.
  { destruct (_ || _ || _) eqn:Hhealth; [by apply wp_err|]. destruct (_ <? _)%N eqn:Happ; [by apply wp_err|].
    bool_simpl. apply wp_ret. split; [done|]. intros c [= <-].
    apply (checked_self _ _ _ _ _ _ n); [done..| |done]. constructor; [done|done|by apply gates_equal_iff]. }
  destruct (internalAPIURLForNode nodeID n) as [base|]; [|by apply wp_err].
  apply wp_bind, wp_of. destruct (http_NewRequest _ _); [|done]. apply wp_bind, wp_wrap, wp_bind.
  unfold wp at 1. cbn [fst snd]. destruct (internalHTTPClient n); [|done].
  apply wp_bind, wp_of. destruct (http_NewRequest _ _); [|done].
  eapply wp_record; [apply Do_moves|]. intros r n1 _ Hn1. set (rq := get_request _).
  set (n2 := set_calls _ n1).
  assert (evolves E n n2) as Hev by exact (moves_evolves E [_] n n1 Hn1).
  destruct r as [resp|e]; [|done]. destruct (rs_StatusCode resp =? StatusOK)%N eqn:Hcode; [|by apply wp_err].
  destruct (rs_Status resp) as [status|] eqn:Hst; [|by apply wp_err].
  destruct (negb _ || negb _) eqn:Hident; [by apply wp_err|].
  destruct (negb (st_FSMHealthy status) || _) eqn:Hhealth; [by apply wp_err|].
  destruct (_ <? _)%N eqn:Happ; [by apply wp_err|]. destruct (negb (capabilityGatesEqual _ _)) eqn:Hgate; [by apply wp_err|].
  bool_simpl. apply gates_equal_iff in Hgate. apply wp_ret. split; [done|]. intros c [= <-].
  eapply checked_peer; [done|by eexists [_]; split; [reflexivity|left]|done..| |done]. by constructor.
Qed.

Lemma wp_voterStatuses_loop activeGate voters acc n :
  wp (voterStatuses_loop activeGate voters acc)
    (λ r n', evolves E n n' ∧ ∀ m, r = Ok m →
       (∀ id, is_Some (acc !! id) ∨ (∃ v, v ∈ voters ∧ sv_ID v = id) → is_Some (m !! id))
       ∧ ∀ id c, m !! id = Some c →
           acc !! id = Some c ∨ (∃ v, v ∈ voters ∧ sv_ID v = id) ∧ voter_checked E activeGate id c n n') n.
Proof using PeersLaws0.
  revert acc n. induction voters as [|v voters IH]; intros acc n; cbn [voterStatuses_loop].
  { apply wp_ret. split; [done|]. intros m [= <-].
    split; [intros id [?|(v & Hv & _)]; [done|by apply elem_of_nil in Hv]|by left]. }
  apply wp_bind. eapply wp_mono; [apply wp_voterStatus|]. intros [c|e] n1 [Hn1 Hc]; [|done].
  specialize (Hc c eq_refl). eapply wp_mono; [apply (IH _ n1)|].
  intros r n2 [Hn2 Hm]. split; [by etrans|]. intros m ->. destruct (Hm m eq_refl) as [Hall Hof]. split.
  - intros id Hid. apply Hall. destruct (decide (sv_ID v = id)) as [<-|Hne].
    { left. rewrite lookup_insert_eq. by eexists. }
    destruct Hid as [Hid|(v' & [->|Hv']%elem_of_cons & <-)]; [|done|right; by exists v'].
    left. by rewrite lookup_insert_ne.
  - intros id c' Hid. destruct (Hof id c' Hid) as [Hacc|((v' & Hv' & <-) & Hck)].
    + destruct (decide (sv_ID v = id)) as [<-|Hne]; [|rewrite lookup_insert_ne in Hacc by done; by left].
      rewrite lookup_insert_eq in Hacc. injection Hacc as <-. right. split; [exists v; split; [by left|done]|].
      by eapply (voter_checked_mono E); [reflexivity|exact Hc|].
    + right. split; [exists v'; split; [by right|done]|]. by eapply (voter_checked_mono E).
Qed.

(** The voters are those of the configuration the node reads first. *)
Lemma wp_voterStatuses activeGate n :
  wp (voterStatuses activeGate)
    (λ r n', evolves E n n' ∧ ∀ m, r = Ok m → ∃ index voters, voterConfiguration n = Ok (index, voters)
       ∧ (∀ v, v ∈ voters → is_Some (m !! sv_ID v))
       ∧ ∀ id c, m !! id = Some c → (∃ v, v ∈ voters ∧ sv_ID v = id) ∧ voter_checked E activeGate id c n n') n.
Proof using PeersLaws0.
  apply wp_bind. unfold wp at 1, voterServers. cbn [fst snd].
  destruct (voterConfiguration n) as [[index voters]|] eqn:Hv; [|done].
  apply wp_bind. unfold wp at 1. cbn [fst snd]. destruct (internalHTTPClient n); [|done].
  eapply wp_mono; [apply wp_voterStatuses_loop|]. intros r n' [Hn' Hm]. split; [done|]. intros m Hr.
  destruct (Hm m Hr) as [Hall Hof]. exists index, voters. split_and!; [done| |].
  - intros v Hin. apply Hall. right. by exists v.
  - intros id c Hid. destruct (Hof id c Hid) as [Hc|?]; [by rewrite lookup_empty in Hc|done].
Qed.
End statuses.

(** What [validateCapabilityActivationVoters] accepts. *)
Lemma validateCapabilityActivationVoters_spec voters gate :
  validateCapabilityActivationVoters voters gate = Ok tt →
  (∀ id c, voters !! id = Some c → SupportsGate c gate false = true)
  ∧ ∃ id c, voters !! id = Some c ∧ SupportsGate c gate true = true.
Proof.
  unfold validateCapabilityActivationVoters. set (step := λ _ _, _).
  assert (∀ leader id c, step leader (id, c) = if negb (SupportsGate c gate false)
      then Err "voter %q does not support requested capability gate"
      else if str_eqb leader "" && SupportsGate c gate true then Ok id else Ok leader) as Hstep by done. clearbody step.
  assert (∀ l l0 leader r, rfold step leader l = Ok r →
    (∀ id c, (id, c) ∈ l → SupportsGate c gate false = true)
    ∧ ((leader ≠ "" → ∃ id c, (id, c) ∈ l0 ∧ SupportsGate c gate true = true) →
       r ≠ "" → ∃ id c, (id, c) ∈ l0 ++ l ∧ SupportsGate c gate true = true)) as Hgen.
  { induction l as [|[id c] l IH]; intros l0 leader r; cbn [rfold].
    { intros [= <-]. split; [intros ?? H; by apply elem_of_nil in H|]. rewrite app_nil_r. auto. }
    rewrite Hstep. destruct (negb (SupportsGate c gate false)) eqn:Hs; cbn [rbind]; [done|]. bool_simpl.
    assert ((id, c) ∈ l0 ++ [(id, c)]) as Hin by set_solver.
    destruct (str_eqb leader "" && SupportsGate c gate true) eqn:Hl; cbn [rbind]; intros H.
    - destruct (IH (l0 ++ [(id, c)]) id r H) as [H1 H2]. rewrite <- app_assoc in H2. split.
      + intros id' c' [[= -> ->]|?]%elem_of_cons; [done|by eapply H1].
      + intros _. bool_simpl. apply H2. intros _. by exists id, c.
    - destruct (IH (l0 ++ [(id, c)]) leader r H) as [H1 H2]. rewrite <- app_assoc in H2. split.
      + intros id' c' [[= -> ->]|?]%elem_of_cons; [done|by eapply H1].
      + intros Hlead. apply H2. intros Hne. destruct (Hlead Hne) as (i & k & Hi & Hk). exists i, k. split; [set_solver|done]. }
  destruct (rfold step "" (map_to_list voters)) as [leader|] eqn:Hr; [|done].
  destruct (str_eqb leader "") eqn:Hl; [done|]. bool_simpl. intros _.
  destruct (Hgen _ [] _ _ Hr) as [H1 H2]. split.
  - intros id c Hc. apply (H1 id c). by apply elem_of_map_to_list.
  - destruct H2 as (id & c & Hin & Hs); [done|done|]. exists id, c. split; [|done]. by apply elem_of_map_to_list.
Qed.

(** The gate takes effect by the command [id]. *)
Definition activated (id : string) (gate : CapabilityGate) (r : N) (f1 f2 : metadataFSM) : Prop :=
  r = (ms_Revision (fsm_state f1) + 1)%N ∧ ms_AppliedCommands (fsm_state f1) !! id = None
  ∧ SupportsGate (fsm_capabilities f1) gate false = true
  ∧ ∃ digest, f2 = set_fsm_state (commit_command id digest (set_gate gate (fsm_state f1))) f1.

Lemma activate_step id gate expected epoch index created f1 f2 r :
  gate_wire gate → normalizeCapabilityGate gate = gate → (ms_Revision (fsm_state f1) < u64_max)%N → ar_Error r = "" →
  let payload := enc_struct [field "gate" (enc_CapabilityGate gate)] in
  let command := mkCommand 1 1 id CommandActivateCapabilities (Some expected) epoch (Some payload) created in
  (∃ s, apply_command index (fsm_capabilities f1) command (fsm_state f1) = Applied s
        ∧ f2 = set_fsm_state s f1 ∧ r = mkApplyResult (ms_Revision s) (ms_LeaderEpoch s) "")
  ∨ (apply_command index (fsm_capabilities f1) command (fsm_state f1) = Reply r ∧ f2 = f1) →
  activated id gate (ar_Revision r) f1 f2 ∨ replayed id (ar_Revision r) f1 f2.
Proof.
  intros Hw Hn Hmax He payload command [(s & Happ & -> & ->)|[Hreply ->]].
  - left. apply apply_command_branch in Happ as (digest & s0 & -> & Hbranch & _ & Hfresh).
    change (apply_activate_capabilities (fsm_capabilities f1) command (fsm_state f1) = Commit s0) in Hbranch.
    unfold apply_activate_capabilities in Hbranch. destruct (stale_epoch _ _); [done|].
    assert (Unmarshal dec_activateCapabilitiesPayload (mkActivateCapabilitiesPayload zero_CapabilityGate) (c_Payload command)
      = Some (mkActivateCapabilitiesPayload gate)) as Hdec.
    { cbn [c_Payload command]. unfold Unmarshal, dec_activateCapabilitiesPayload, payload.
      dec_member; [by apply dec_enc_CapabilityGate|]. done. }
    rewrite Hdec in Hbranch. cbn [ap_Gate] in Hbranch. rewrite Hn in Hbranch.
    destruct (validateCapabilityGate gate); [|done]. destruct (negb _) eqn:Hs; [done|]. bool_simpl.
    injection Hbranch as <-. split_and!; [|done|done|by exists digest].
    simpl. by rewrite u64_succ_small.
  - right. split; [done|].
    apply apply_command_Reply in Hreply as [_ [[? _]|(a & digest & Ha & _ & _ & Hr & _)]]; [done|]. by exists a.
Qed.

(** The last command of an activation that is at [n2] after steps from [n]. *)
Lemma wp_activation (E : env) `{!RaftLaws R E} id gate created n n2 f0 :
  n_fsm n = Some f0 → fsm_ok f0 → fsm_capabilities f0 = SupportedNodeCapabilities →
  valid_utf8 id → gate_wire gate → normalizeCapabilityGate gate = gate →
  (ms_Revision (fsm_state f0) < u64_bound)%N → evolves E n n2 →
  wp (apply (versioned_command id CommandActivateCapabilities (Some (ms_Revision (Metadata n2))) (ms_LeaderEpoch (Metadata n2))
       (enc_struct [field "gate" (enc_CapabilityGate gate)]) (utc created) n2))
    (λ res n3, (∀ v, res = Ok v → at_one_point E n n3 (λ f1 f2,
                  activated id gate (ar_Revision v) f1 f2 ∨ replayed id (ar_Revision v) f1 f2)) ∧ evolves E n2 n3) n2.
Proof.
  intros Hf Hok Hcaps Hid Hw Hn Hrev Hev.
  destruct (evolves_fsm E n n2 f0 Hev Hf Hok) as (f2 & Hf2 & Hok2 & Hcaps2). rewrite Hcaps in Hcaps2.
  rewrite (versioned_eq n2 f2) by done.
  apply wp_and; [|apply (evolving_calling E), (calling_apply E)].
  eapply (wp_apply E _ n2 f2); [exact Hf2| |done|done|].
  - constructor; [done|done|done|apply valid_type; set_solver| | |].
    + intros x [= <-]. unfold Metadata. rewrite Hf2. by apply (evolves_revision E n n2 f0 f2).
    + unfold Metadata. rewrite Hf2. by apply epoch_bound.
    + intros t. by apply dec_enc_time.
  - intros v n3 i g1 g2 Ht v' [= <-].
    destruct (took_effect_within E n n2 n3 f0 _ _ _ _ _ Hev Hf Hok Ht) as (Hok1 & Hcaps1 & Hmax & Hat).
    apply Hat. destruct Ht as (?&?&?&?&?&_&_&_&_&_&_&_& He & Hcase).
    eapply activate_step; [exact Hw|exact Hn|done|done|exact Hcase].
Qed.

(** C12: if [ActivateCapabilities] succeeds, the gate is valid, and at a moment
    of the call no membership operation was in progress and every voter of the
    Raft configuration supported the gate, one of them as a leader.  Each of them
    was found healthy, to have applied all it knew to be committed and to follow
    the active gate during the call: this node, if it is a voter, by its own
    status, every other voter by what it answered itself under its name and
    cluster.  The gate then takes effect at one entry of the log, where this
    node's machine supports it too, or the same command had been applied
    before. *)
Theorem ActivateCapabilities_safe (E : env) `{!RaftLaws R E, !PeersLaws P E} (ctx : context) (id : string)
    (requested : CapabilityGate) (n n' : Node) (f0 : metadataFSM) (r : N) :
  let gate := normalizeCapabilityGate requested in
  n_fsm n = Some f0 → fsm_ok f0 → fsm_capabilities f0 = SupportedNodeCapabilities →
  valid_utf8 id → gate_wire gate → (ms_Revision (fsm_state f0) < u64_bound)%N →
  ActivateCapabilities ctx id requested n = (Ok r, n') →
  validateCapabilityGate gate = Ok tt
  ∧ (∃ nv index voters, evolves E n nv ∧ voterConfiguration nv = Ok (index, voters)
      ∧ activeMembershipOperation nv = Ok None
      ∧ (∀ v, v ∈ voters → ∃ c, SupportsGate c gate false = true
           ∧ voter_checked E (ms_CapabilityGate (Metadata nv)) (sv_ID v) c n n')
      ∧ ∃ v c, v ∈ voters ∧ SupportsGate c gate true = true
           ∧ voter_checked E (ms_CapabilityGate (Metadata nv)) (sv_ID v) c n n')
  ∧ at_one_point E n n' (λ f1 f2, activated id gate r f1 f2 ∨ replayed id r f1 f2).
Proof.
  intros gate Hf Hok Hcaps Hid Hw Hrev Hrun.
  revert r Hrun. cut (wp (ActivateCapabilities ctx id requested) (λ res n', ∀ r, res = Ok r →
    validateCapabilityGate gate = Ok tt
    ∧ (∃ nv index voters, evolves E n nv ∧ voterConfiguration nv = Ok (index, voters)
      ∧ activeMembershipOperation nv = Ok None
      ∧ (∀ v, v ∈ voters → ∃ c, SupportsGate c gate false = true
           ∧ voter_checked E (ms_CapabilityGate (Metadata nv)) (sv_ID v) c n n')
      ∧ ∃ v c, v ∈ voters ∧ SupportsGate c gate true = true
           ∧ voter_checked E (ms_CapabilityGate (Metadata nv)) (sv_ID v) c n n')
    ∧ at_one_point E n n' (λ f1 f2, activated id gate r f1 f2 ∨ replayed id r f1 f2)) n).
  { intros H r Hrun. by apply (wp_eq _ _ _ _ _ Hrun H). }
  apply wp_bind. apply (wp_VerifyBusinessLeadership E); [done..|].
  intros _ n1 c1 c2 Hev1 _ _ _. set (nv := updateCachedLeadership _ _ _ _).
  assert (evolves E n nv) as Hevv by (etrans; [exact Hev1|by apply local_evolves]). clearbody nv.
  fold gate. apply wp_bind, wp_of. destruct (validateCapabilityGate gate) as [[]|e] eqn:Hvalid; [|done].
  apply wp_bind. unfold wp at 1. cbn [fst snd].
  destruct (activeMembershipOperation nv) as [[o|]|e] eqn:Hactive; [by apply wp_err| |done].
  apply wp_bind, wp_get, wp_bind. unfold Datatypes.id at 1.
  eapply wp_mono; [apply (wp_voterStatuses E)|]. intros [voters|e] n2 [Hev2 Hvoters]; [|done].
  destruct (Hvoters voters eq_refl) as (index & servers & Hservers & Hall & Hof).
  apply wp_bind, wp_of. destruct (validateCapabilityActivationVoters voters gate) as [[]|e] eqn:Hact; [|done].
  apply validateCapabilityActivationVoters_spec in Hact as [Heach (lid & lc & Hlid & Hlc)].
  apply wp_bind, wp_get, wp_bind. unfold Datatypes.id.
  assert (evolves E n n2) as Hevn2 by (by etrans).
  eapply wp_mono; [by apply (wp_activation E _ gate _ n n2 f0); try done; apply normalize_idemp|].
  intros [v|e] n3 [Htook Hev3]; [|done]. apply wp_ret. intros r [= <-].
  assert (∀ vid c, voters !! vid = Some c → (∃ s, s ∈ servers ∧ sv_ID s = vid)
    ∧ voter_checked E (ms_CapabilityGate (Metadata nv)) vid c n n3) as Hchecked.
  { intros vid c Hc. destruct (Hof vid c Hc) as [Hin Hck]. split; [done|].
    by eapply (voter_checked_mono E); [exact Hevv|exact Hck|]. }
  split_and!; [done| |].
  - exists nv, index, servers. split_and!; [done..| |].
    + intros s Hs. destruct (Hall s Hs) as [c Hc]. exists c. split; [by eapply Heach|by apply Hchecked].
    + destruct (Hchecked lid lc Hlid) as [(s & Hs & <-) Hck]. by exists s, lc.
  - by apply Htook.
Qed.

(** A cluster whose only voter is the node itself. *)
Definition ex_alone (f : metadataFSM) : Node :=
  let r := mkRaftView true (rv_Stats ex_leader) "h1:7000" "n1" (Ok (3%N, [mkServer Voter "n1" "h1:7000"])) in
  set_status (cached_leadership true 1 "" ex_now (ex_status (State f))) (ex_node ex_config r f).

Lemma legacy_gate_wire : gate_wire LegacyCapabilityGate.
Proof.
  constructor; try done. intros k v Hk.
  change (({[ "*" := 1%N ]} : gmap string N) !! k = Some v) in Hk. by apply lookup_singleton_Some in Hk as [<- <-].
Qed.

Lemma ActivateCapabilities_safe_witness :
  let n := ex_alone ex_fsm in
  let n' := (ActivateCapabilities (R := solo) (P := ex_peers) (λ _, None) "act" LegacyCapabilityGate n).2 in
  at_one_point calm n n' (λ f1 f2, activated "act" LegacyCapabilityGate 1 f1 f2 ∨ replayed "act" 1 f1 f2).
Proof.
  intros n n'.
  destruct (ActivateCapabilities_safe (R := solo) (P := ex_peers) calm (λ _, None) "act" LegacyCapabilityGate n n'
    ex_fsm 1 eq_refl ex_fsm_ok eq_refl eq_refl legacy_gate_wire eq_refl (pair_eq _ _ eq_refl)) as (_ & _ & H).
  exact H.
Defined.
