(* ===== verification/Publish.v ===== *)
(** * Publish: snapshots of the data and their blobs (node.go)

    A leader stores the blobs of a new snapshot, copies them to the voters,
    and commits the manifest once a majority holds them.  Every node fetches
    the blobs of the active snapshot it lacks and collects those nobody needs.
    Loops over Go maps run in the order of [map_to_list]; [configurationMu] is
    in [Changes]. *)
From S2P Require Import Prelude Text Io Sha256 Json GoTime Duration Config Peers Capability Manifest.
From S2P Require Import BlobStore Fsm FsmProofs Node Leadership Membership.
From stdpp Require Import options.
From Stdlib Require Import Ascii.
#[local] Open Scope io_scope.

(** ** Addresses of blobs *)

(** [url.PathEscape]: letters, digits and some marks stay, any other byte is
    written as [%] and two upper-case hexadecimal digits. *)
Definition path_safe (c : ascii) : bool :=
  let n := N_of_ascii c in
  ((48 <=? n) && (n <=? 57))%N || ((65 <=? n) && (n <=? 90))%N || ((97 <=? n) && (n <=? 122))%N
  || has_char c "-_.~$&+=:@".
Definition upper_hex (n : N) : ascii := if (n <? 10)%N then ascii_of_N (48 + n) else ascii_of_N (55 + n).
Fixpoint PathEscape (s : string) : string :=
  match s with
  | EmptyString => ""
  | String c s =>
      if path_safe c then String c (PathEscape s)
      else let n := N_of_ascii c in
           String "%" (String (upper_hex (n / 16)) (String (upper_hex (n mod 16)) (PathEscape s)))
  end.

Definition blob_url (base hash : string) : string :=
  TrimRightChar "/"%char base +:+ "/internal/v1/blobs/" +:+ PathEscape hash.

(** ** The snapshots in the replicated state *)

Definition ActiveSnapshot (n : Node) : option Manifest :=
  let state := Metadata n in
  if str_eqb (ms_ActiveSnapshot state) "" then None
  else cloneManifest <$> ms_Snapshots state !! ms_ActiveSnapshot state.

Definition Snapshot_ (generation : Generation) (n : Node) : option Manifest :=
  match ms_Snapshots (Metadata n) !! g_ManifestHash generation with
  | Some manifest => if generation_Equal (m_Generation manifest) generation then Some (cloneManifest manifest) else None
  | None => None
  end.

Definition isCommittedBlob (hash : string) (n : Node) : bool :=
  existsb (λ kv : string * Manifest,
    existsb (λ kd : string * DatasetRef,
        str_eqb (d_PreviousBlobHash kd.2) hash || existsb (str_eqb hash) (datasetBlobHashes kd.2))
      (map_to_list (datasets kv.2)))
    (map_to_list (ms_Snapshots (Metadata n))).

(** ** Blobs being staged *)

Definition stage_blob (m : gmap string Z) (hash : string) : gmap string Z :=
  <[ hash := (default 0 (m !! hash) + 1)%Z ]> m.
Definition unstage_blob (m : gmap string Z) (hash : string) : gmap string Z :=
  if (default 0 (m !! hash) <=? 1)%Z then delete hash m
  else <[ hash := (default 0 (m !! hash) - 1)%Z ]> m.

Definition retainStagingBlobs (manifest : Manifest) (n : Node) : Node :=
  set_staging (foldl stage_blob (n_stagingBlobs n) (manifestBlobHashes manifest)) n.
Definition releaseStagingBlobs (manifest : Manifest) (n : Node) : Node :=
  set_staging (foldl unstage_blob (n_stagingBlobs n) (manifestBlobHashes manifest)) n.

Section publish.
Context (E : env) {R : Raft} {P : Peers}.

(** ** Copies to the voters *)

Definition putBlobToPeer (base hash : string) : nio unit :=
  do! file := with_store (λ root, Open E root hash) in
  let target := blob_url base hash in
  run! io_of (http_NewRequest "PUT" target) in
  let rq := mkRequest "PUT" target [] file in
  do! resp := record_call (CallHTTP rq) (client_Do rq) in
  if (rs_StatusCode resp <? 200)%N || (300 <=? rs_StatusCode resp)%N
  then io_err "replicate blob %s to %s returned %s: %s"
  else io_ret tt.

Fixpoint put_blobs (base : string) (hashes : list string) : nio unit :=
  match hashes with
  | [] => io_ret tt
  | hash :: hashes => run! putBlobToPeer base hash in put_blobs base hashes
  end.

Definition replicateManifestToPeer (nodeID : string) (manifest : Manifest) : nio unit :=
  do! n := get id in
  match internalAPIURLForNode nodeID n with
  | None => io_err "internal API address for node %q is not configured"
  | Some base =>
      run! (λ n, (internalHTTPClient n, n)) in
      put_blobs base (manifestBlobHashes manifest)
  end.

(** The loop over the voters, with the number of acknowledgements. *)
Fixpoint replicate_to (manifest : Manifest) (voters : list Server) (acks : nat) : nio nat :=
  match voters with
  | [] => io_ret acks
  | server :: voters =>
      do! n := get id in
      if str_eqb (sv_ID server) (NodeID (n_cfg n))
      then run! verifyManifestBlobs E manifest in replicate_to manifest voters (S acks)
      else
        do! r := io_try (replicateManifestToPeer (sv_ID server) manifest) in
        replicate_to manifest voters (if is_ok r then S acks else acks)
  end.

Definition replicateSnapshotBlobs (manifest : Manifest) (voters : list Server) : nio unit :=
  let quorum := length voters / 2 + 1 in
  do! acks := replicate_to manifest voters 0 in
  if acks <? quorum then io_err "snapshot durable ACK quorum not reached: got %d want %d voters=%d"
  else io_ret tt.

(** ** Publishing *)

Fixpoint store_blobs (root : string) (blobs : list (string * reader)) : io unit :=
  match blobs with
  | [] => io_ret tt
  | (hash, r) :: blobs =>
      run! io_wrap "store local blob %s: %w" (PutHash E root hash r) in
      store_blobs root blobs
  end.

Definition set_configuration (index : N) (m : Manifest) : Manifest :=
  mkManifest (m_SchemaVersion m) (m_Generation m) index (m_CreatedAt m) (m_Datasets m).

(** [json.Marshal] of the payload; its error is dropped and leaves no bytes. *)
Definition snapshot_payload (manifest : Manifest) : option json :=
  match enc_Manifest manifest with
  | Ok j => Some (enc_struct [field "manifest" j])
  | Err _ => None
  end.

(** From the staging of the blobs on. *)
Definition publish_staged (commandID : string) (manifest : Manifest) (blobs : gmap string reader) : nio N :=
  run! with_store (λ root, store_blobs root (map_to_list blobs)) in
  do! configuration := (λ n, (voterConfiguration n, n)) in
  let configurationIndex := configuration.1 in
  let manifest := set_configuration configurationIndex manifest in
  do! hash := io_of (ComputeManifestHash manifest) in
  let manifest := with_manifest_hash hash manifest in
  run! replicateSnapshotBlobs manifest configuration.2 in
  do! current := (λ n, (voterConfiguration n, n)) in
  if negb (current.1 =? configurationIndex)%N
  then io_err "raft voter configuration changed during snapshot prepare: was %d now %d"
  else
    do! n := get id in
    let state := Metadata n in
    do! r := apply (mkCommand (activeCommandVersions n).1 (activeCommandVersions n).2 commandID
                      CommandCommitSnapshot (Some (ms_Revision state)) (ms_LeaderEpoch state)
                      (snapshot_payload manifest) unix_zero) in
    io_ret (ar_Revision r).

Definition PublishSnapshot (ctx : context) (commandID : string) (manifest : Manifest)
    (blobs : gmap string reader) : nio N :=
  run! VerifyBusinessLeadership ctx in
  do! n := get id in
  match n_blobStore n with
  | None => io_err ErrNodeNotStarted
  | Some _ =>
      let gate := normalizeCapabilityGate (ms_CapabilityGate (Metadata n)) in
      run! io_of (validateManifestCapability manifest gate) in
      run! io_of (ValidateManifest manifest) in
      run! io_of (if (CapabilityLevelMonotonicSnapshotSequence <=? cg_MinimumVoterCapability gate)%N
                  then validateNextSnapshotSequence (default zero_Manifest (ActiveSnapshot n))
                         (bool_decide (ActiveSnapshot n ≠ None)) (g_Sequence (m_Generation manifest))
                  else Ok tt) in
      run! modify (retainStagingBlobs manifest) in
      with_defer (releaseStagingBlobs manifest) (publish_staged commandID manifest blobs)
  end.

(** ** Fetching the blobs of the active snapshot *)

Definition pullBlobFromPeer (nodeID hash : string) : nio unit :=
  do! n := get id in
  match internalAPIURLForNode nodeID n with
  | None => io_err "internal API address for node %q is not configured"
  | Some base =>
      do! resp := send (get_request (blob_url base hash)) in
      if negb (rs_StatusCode resp =? StatusOK)%N then io_err "pull blob %s from node %s returned %s"
      else with_store (λ root, PutHash E root hash (rs_Body resp))
  end.

(** The voters are asked in turn until one delivers. *)
Fixpoint pull_from (voters : list Server) (hash : string) : nio unit :=
  match voters with
  | [] => io_ret tt
  | server :: voters =>
      do! n := get id in
      if str_eqb (sv_ID server) (NodeID (n_cfg n)) then pull_from voters hash
      else
        do! r := io_try (pullBlobFromPeer (sv_ID server) hash) in
        if is_ok r then io_ret tt else pull_from voters hash
  end.

Fixpoint sync_blobs (voters : list Server) (hashes : list string) : nio unit :=
  match hashes with
  | [] => io_ret tt
  | hash :: hashes =>
      do! n := get id in
      do! missing :=
        match n_blobStore n with
        | None => io_ret false
        | Some root =>
            do! v := io_try (with_store (λ root, Verify E root hash)) in io_ret (negb (is_ok v))
        end in
      run! (if missing : bool then pull_from voters hash else io_ret tt) in
      sync_blobs voters hashes
  end.

Definition syncActiveSnapshot : nio unit :=
  do! n := get id in
  match ActiveSnapshot n with
  | None => io_ret tt
  | Some manifest =>
      do! v := io_try (verifyManifestBlobs E manifest) in
      if is_ok v then io_ret tt
      else
        do! voters := io_try (λ n, (voterServers n, n)) in
        match voters with
        | Err _ => io_ret tt
        | Ok voters => sync_blobs voters (manifestBlobHashes manifest)
        end
  end.

(** ** Collecting blobs *)

(** The newest snapshots first ([sort.Slice]). *)
Fixpoint insert_newer (m : Manifest) (l : list Manifest) : list Manifest :=
  match l with
  | [] => [m]
  | m' :: l' => if time_After (m_CreatedAt m') (m_CreatedAt m) then m' :: insert_newer m l' else m :: l
  end.
Definition newest_first (l : list Manifest) : list Manifest := foldr insert_newer [] l.

(** The snapshots whose blobs are kept: the newest ones, those that readers may
    still pin, and the active one. *)
Definition kept_snapshots (cfg : Config) (active : string) (cutoff : time) (manifests : list Manifest) : list Manifest :=
  omap (λ im : nat * Manifest,
      let '(index, manifest) := im in
      if (GenerationRetention cfg <=? Z.of_nat index)%Z && time_Before (m_CreatedAt manifest) cutoff
         && negb (str_eqb (g_ManifestHash (m_Generation manifest)) active)
      then None else Some manifest)
    (imap pair manifests).

Definition previous_hashes (m : Manifest) : list string :=
  filter (λ h, h ≠ "") ((λ kv : string * DatasetRef, d_PreviousBlobHash kv.2) <$> map_to_list (datasets m)).

(** The blobs to keep, from the recorded snapshots read before and the staging
    counts and the clock of now. *)
Definition retained_given (state : MetadataState) (n : Node) : gset string :=
  let cutoff := time_Add (n_now n) (- GenerationPinTTL (n_cfg n)) in
  dom (n_stagingBlobs n)
  ∪ list_to_set (concat ((λ m, manifestBlobHashes m ++ previous_hashes m)
      <$> kept_snapshots (n_cfg n) (ms_ActiveSnapshot state) cutoff
            (newest_first (snd <$> map_to_list (ms_Snapshots state))))).
Definition retained_blobs (n : Node) : gset string := retained_given (Metadata n) n.

Definition collect_blobs (retained : gset string) : nio unit :=
  do! n := get id in
  match n_blobStore n with
  | None => io_ret tt
  | Some _ => run! io_try (with_store (λ root, GC E root retained)) in io_ret tt
  end.

Definition gcSnapshotBlobs : nio unit :=
  do! state := get Metadata in
  do! retained := get (retained_given state) in
  collect_blobs retained.

(** One round of [snapshotMaintenance]. *)
Definition snapshot_round : nio unit := run! syncActiveSnapshot in gcSnapshotBlobs.
End publish.

Example PathEscape_hash : PathEscape "sha256:0a/b c%" = "sha256:0a%2Fb%20c%25".
Proof. reflexivity. Qed.
