(* ===== verification/PublishProofs.v ===== *)
(** * PublishProofs: lemmas on publishing and collecting snapshots

    What replication to the voters has established ([acked]), how the staging
    counts are restored, and which blobs the collector is told to keep. *)
From S2P Require Import Prelude Text Io Sha256 Json GoTime GoTimeProofs Duration Config Peers Capability Manifest.
From S2P Require Import Codec BlobStore BlobStoreProofs BlobStoreSpec Fsm FsmProofs Node Leadership NodeProofs LeadershipProofs.
From S2P Require Import Examples CommandSpec Membership Publish.
From stdpp Require Import options.
From Stdlib Require Import Ascii.
#[local] Open Scope io_scope.

(** ** ASCII strings *)

Lemma runes_ascii b : Forall (λ x, x < 128)%N b → runes b = map (λ x, (Some x, [x])) b.
Proof.
  unfold runes. induction 1 as [|x b Hx Hb IH]; [done|]. cbn [length runes_fuel].
  assert (decode_rune (x :: b) = Some (x, 1)) as ->.
  { unfold decode_rune. apply N.ltb_lt in Hx. by rewrite Hx. }
  simpl. by rewrite drop_0, IH.
Qed.

Lemma valid_utf8_ascii s : Forall (λ x, x < 128)%N (bytes_of s) → valid_utf8 s.
Proof.
  intros H. unfold valid_utf8, utf8_fix. rewrite runes_ascii by done. rewrite map_map. simpl.
  transitivity (string_of (bytes_of s)); [|apply string_of_bytes]. f_equal.
  clear H. induction (bytes_of s) as [|x l IH]; [done|]. simpl. by rewrite IH.
Qed.

Lemma is_hex_ascii c : is_hex c = true → (N_of_ascii c < 128)%N.
Proof. unfold is_hex. intros H. rewrite !orb_true_iff, !andb_true_iff, !N.leb_le in H. lia. Qed.

Lemma all_hex_ascii s : all_hex s = true → Forall (λ x, x < 128)%N (bytes_of s).
Proof.
  induction s as [|c s IH]; [constructor|]. cbn [all_hex]. intros [Hc Hs]%andb_true_iff.
  constructor; [by apply is_hex_ascii|by apply IH].
Qed.

Lemma hash_utf8 d : valid_utf8 (HashPrefixSHA256 +:+ sha256_hex d).
Proof.
  apply valid_utf8_ascii. rewrite bytes_of_app. apply Forall_app. split.
  - unfold HashPrefixSHA256. cbn. repeat constructor.
  - apply all_hex_ascii, sha256_hex_all_hex.
Qed.

(** ** Stores *)

(** The store holds a file that verifies as the blob [h]. *)
Definition has_blob (root : string) (w : world) (h : string) : Prop :=
  ∃ d, HashPrefixSHA256 +:+ sha256_hex d = h ∧ stored root w (sha256_hex d) = Some d.

Lemma has_blob_same root w w' h : w_vol w' = w_vol w → has_blob root w h → has_blob root w' h.
Proof. intros Hv (d & Hd & Hs). exists d. split; [done|]. unfold stored in *. by rewrite Hv. Qed.

Lemma wp_with_store {A} (call : string → io A) (Q : result A → Node → Prop) n :
  (n_blobStore n = None → Q (Err ErrNodeNotStarted) n) →
  (∀ root, n_blobStore n = Some root → wp (call root) (λ r w, Q r (set_files w n)) (n_files n)) →
  wp (with_store call) Q n.
Proof.
  intros Hnone Hsome. unfold wp, with_store. destruct (n_blobStore n) as [root|]; [|by apply Hnone].
  specialize (Hsome root eq_refl). unfold wp in Hsome. by destruct (call root (n_files n)).
Qed.

Lemma wp_verify_one E root h w :
  wp (Verify E root h) (λ r w', w_vol w' = w_vol w ∧ (r = Ok tt → has_blob root w h)) w.
Proof.
  apply wp_Verify; [done|]. intros hx f w' Hn Hf Hd Hv _. split; [done|]. intros _.
  exists (f_data f). split; [done|]. assert (sha256_hex (f_data f) = hx) as Hx.
  { rewrite <- Hd in Hn. by apply normalize_prefixed in Hn. }
  rewrite Hx. by apply stored_Some.
Qed.

(** Without faults the test is exact. *)
Lemma Verify_has E root h w :
  (∀ t, io_fault E t = None) → wp (Verify E root h) (λ r _, has_blob root w h → r = Ok tt) w.
Proof.
  intros HE. unfold wp. intros (d & <- & Hs). apply stored_inv in Hs as (f & Hf & <- & _).
  unfold Verify, pathFor, io_of, io_bind, read_file. rewrite normalize_digest, (sys_runs E HE). simpl.
  by rewrite Hf, str_eqb_refl.
Qed.

Lemma wp_verify_blobs E root hashes w :
  wp (verify_blobs E root hashes)
    (λ r w', w_vol w' = w_vol w ∧ (r = Ok tt → ∀ h, h ∈ hashes → has_blob root w h)) w.
Proof.
  revert w. induction hashes as [|h hashes IH]; intros w; cbn [verify_blobs].
  { apply wp_ret. split; [done|]. intros _ h Hh. by apply elem_of_nil in Hh. }
  apply wp_bind, wp_wrap. eapply wp_mono; [apply wp_verify_one|]. intros [[]|e] w1 [Hv Hh]; [|by split].
  eapply wp_mono; [apply IH|]. intros r w2 [Hv2 Hr]. split; [congruence|].
  intros -> h' [->|Hin]%elem_of_cons; [by apply Hh|]. apply (has_blob_same _ w1); [congruence|by apply Hr].
Qed.

Lemma verify_blobs_succeeds E root hashes w :
  (∀ t, io_fault E t = None) → (∀ h, h ∈ hashes → has_blob root w h) → (verify_blobs E root hashes w).1 = Ok tt.
Proof.
  intros HE. revert w. induction hashes as [|h hashes IH]; intros w Hall; [done|].
  cbn [verify_blobs]. unfold io_bind, io_wrap.
  pose proof (wp_and _ _ _ w (wp_verify_one E root h w) (Verify_has E root h w HE)) as H. unfold wp in H.
  destruct (Verify E root h w) as [r w1]. cbn [fst snd] in H. destruct H as [[Hv _] ->]; [|apply Hall; left].
  apply IH. intros h' Hin. apply (has_blob_same _ w); [done|]. apply Hall. by right.
Qed.

Lemma wp_Open E root hash w :
  wp (Open E root hash)
    (λ r w', w_vol w' = w_vol w ∧ ∀ d, r = Ok d → HashPrefixSHA256 +:+ sha256_hex d = hash
       ∧ stored root w (sha256_hex d) = Some d) w.
Proof.
  apply wp_bind, wp_Verify; [done|]. intros hx f w' Hn Hf Hd Hv _.
  unfold pathFor. rewrite Hn. apply wp_bind, wp_of, wp_read; [intros; split; [congruence|done]|].
  intros f' w2 Hf' Hv2 _. split; [congruence|]. intros d [= <-]. rewrite Hv, Hf in Hf'. injection Hf' as <-.
  split; [done|]. assert (sha256_hex (f_data f) = hx) as Hx by (rewrite <- Hd in Hn; by apply normalize_prefixed in Hn).
  rewrite Hx. by apply stored_Some.
Qed.

(** ** What publishing leaves alone *)

(** The node moved on; its peers and its staging counts are the same. *)
Record works (E : env) (n n' : Node) : Prop := {
  wk_evolves : evolves E n n';
  wk_peers : n_peers n' = n_peers n;
  wk_staging : n_stagingBlobs n' = n_stagingBlobs n;
}.

#[export] Instance works_preorder E : PreOrder (works E).
Proof. split; [done|]. intros n1 n2 n3 [] []. constructor; [by etrans|congruence..]. Qed.

Lemma moved_works E n n' : moved E n n' → works E n n'.
Proof. intros H. destruct (moved_rest _ _ _ H) as (_ & _ & _ & ? & ? & _). constructor; [by apply moved_evolves|done..]. Qed.

Lemma files_works E w n : works E n (set_files w n).
Proof. constructor; [by apply local_evolves|done..]. Qed.

Lemma works_url E n n' id : works E n n' → internalAPIURLForNode id n' = internalAPIURLForNode id n.
Proof.
  intros [Hev Hp _]. unfold internalAPIURLForNode. by rewrite (sn_cfg _ _ (ev_same _ _ _ Hev)), Hp.
Qed.

Definition working (E : env) {A} (m : nio A) : Prop := ∀ n, wp m (λ _ n', works E n n') n.

Lemma working_calling E {A} (m : nio A) : calling E m → working E m.
Proof. intros Hm n. eapply wp_mono; [apply Hm|]. intros r n'. apply moved_works. Qed.

(** ** Acknowledgements *)

(** Between two moments, the peer [id] accepted with a 2xx answer a request that
    puts bytes of this digest at the address of the blob. *)
Definition blob_acked (base h : string) (n n' : Node) : Prop :=
  ∃ s t data resp, called n n' (mkCall s t (CallHTTP (mkRequest "PUT" (blob_url base h) [] data) (Ok resp)))
  ∧ (200 ≤ rs_StatusCode resp < 300)%N ∧ HashPrefixSHA256 +:+ sha256_hex data = h.

(** In between the node found every blob of [hashes] valid in its own store. *)
Definition verified_here (E : env) (hashes : list string) (n n' : Node) : Prop :=
  ∃ root nv, n_blobStore n = Some root ∧ works E n nv ∧ works E nv n'
    ∧ ∀ h, h ∈ hashes → has_blob root (n_files nv) h.

(** The voter was counted: the node itself for a verification of its own store, a
    peer for accepting each of the blobs. *)
Inductive acked (E : env) (hashes : list string) (id : string) (n n' : Node) : Prop :=
| acked_self : id = NodeID (n_cfg n) → verified_here E hashes n n' → acked E hashes id n n'
| acked_peer base : id ≠ NodeID (n_cfg n) → internalAPIURLForNode id n = Some base → (∀ h, h ∈ hashes → blob_acked base h n n') →
    acked E hashes id n n'.

Lemma blob_acked_mono E base h n0 n n' n1 :
  evolves E n0 n → blob_acked base h n n' → evolves E n' n1 → blob_acked base h n0 n1.
Proof.
  intros H0 (s & t & d & r & Hc & Hr) H1. exists s, t, d, r. split; [|done]. by eapply called_mono.
Qed.

Lemma verified_here_mono E hashes n0 n n' n1 :
  works E n0 n → verified_here E hashes n n' → works E n' n1 → verified_here E hashes n0 n1.
Proof.
  intros H0 (root & nv & Hroot & Hn & Hn' & Hall) H1. pose proof (ev_same _ _ _ (wk_evolves _ _ _ H0)) as [_ _ _ Hbs _].
  exists root, nv. split_and!; [by rewrite <- Hbs|by etrans..|done].
Qed.

Lemma acked_mono E hashes id n0 n n' n1 :
  works E n0 n → acked E hashes id n n' → works E n' n1 → acked E hashes id n0 n1.
Proof.
  intros H0 Ha H1. pose proof (ev_same _ _ _ (wk_evolves _ _ _ H0)) as [Hcfg _ _ Hbs _].
  destruct Ha as [-> Hv|base Hid Hbase Hall].
  - apply acked_self; [by rewrite Hcfg|by eapply verified_here_mono].
  - eapply (acked_peer _ _ _ _ _ base); [by rewrite <- Hcfg|by rewrite <- (works_url _ _ _ _ H0)|].
    intros h Hh. eapply blob_acked_mono; [exact (wk_evolves _ _ _ H0)|by apply Hall|exact (wk_evolves _ _ _ H1)].
Qed.

Section replicate.
Context (E : env) {R : Raft} {P : Peers} `{!RaftLaws R E} `{!PeersLaws P E}.
Set Default Proof Using "Type*".

Lemma wp_putBlobToPeer base h n :
  wp (putBlobToPeer E base h) (λ r n', works E n n' ∧ (r = Ok tt → blob_acked base h n n')) n.
Proof using PeersLaws0.
  apply wp_bind, wp_with_store; [done|]. intros root _. eapply wp_mono; [apply wp_Open|].
  intros [d|e] w [_ Hd]; [|split; [apply files_works|done]]. destruct (Hd d eq_refl) as [Hdigest _].
  apply wp_bind, wp_of. destruct (http_NewRequest _ _); [|split; [apply files_works|done]].
  apply wp_bind. eapply wp_record; [apply Do_moves|]. intros r n1 _ Hn1. set (rq := mkRequest _ _ _ _).
  set (n2 := set_calls _ n1).
  assert (works E n n2) as Hw.
  { etrans; [apply (files_works E w)|]. apply moved_works. exact (moved_record E _ _ _ Hn1). }
  destruct r as [resp|e]; [|split; [exact Hw|done]].
  destruct ((rs_StatusCode resp <? 200)%N || _) eqn:Hcode; [by apply wp_err|]. bool_simpl.
  apply wp_ret. split; [exact Hw|]. intros _. eexists _, _, d, resp. split; [|split; [lia|done]].
  eexists [_]. split; [reflexivity|]. left.
Qed.

Lemma wp_put_blobs base hashes n :
  wp (put_blobs E base hashes) (λ r n', works E n n' ∧ (r = Ok tt → ∀ h, h ∈ hashes → blob_acked base h n n')) n.
Proof using PeersLaws0.
  revert n. induction hashes as [|h hashes IH]; intros n; cbn [put_blobs].
  { apply wp_ret. split; [reflexivity|]. intros _ h Hh. by apply elem_of_nil in Hh. }
  apply wp_bind. eapply wp_mono; [apply wp_putBlobToPeer|]. intros [[]|e] n1 [H1 Ha]; [|by split].
  eapply wp_mono; [apply IH|]. intros r n2 [H2 Hr]. split; [by etrans|]. intros -> h' [->|Hh]%elem_of_cons.
  - eapply (blob_acked_mono E); [reflexivity|by apply Ha|apply H2].
  - eapply (blob_acked_mono E); [apply H1|by apply Hr|reflexivity].
Qed.

Lemma wp_replicateManifestToPeer id m n :
  id ≠ NodeID (n_cfg n) →
  wp (replicateManifestToPeer E id m)
    (λ r n', works E n n' ∧ (r = Ok tt → acked E (manifestBlobHashes m) id n n')) n.
Proof using PeersLaws0.
  intros Hid. apply wp_bind, wp_get. cbn [Datatypes.id]. destruct (internalAPIURLForNode id n) as [base|] eqn:Hbase; [|by apply wp_err].
  apply wp_bind. unfold wp at 1. cbn [fst snd]. destruct (internalHTTPClient n); [|done].
  eapply wp_mono; [apply wp_put_blobs|]. intros r n' [Hw Hr]. split; [done|].
  intros ->. apply (acked_peer _ _ _ _ _ base); [done|done|by apply Hr].
Qed.

(** [by_] of the voters were counted, among them the node itself if it is one. *)
Record counted (E : env) (hashes : list string) (voters by_ : list Server) (n n' : Node) : Prop := {
  ct_sub : by_ `sublist_of` voters;
  ct_acked s : s ∈ by_ → acked E hashes (sv_ID s) n n';
  ct_self s : s ∈ voters → sv_ID s = NodeID (n_cfg n) → s ∈ by_ ∧ verified_here E hashes n n';
}.

Lemma counted_mono hashes voters by_ n0 n n' n1 :
  works E n0 n → counted E hashes voters by_ n n' → works E n' n1 → counted E hashes voters by_ n0 n1.
Proof using Type.
  intros H0 [Hsub Hall Hself] H1. pose proof (ev_same _ _ _ (wk_evolves _ _ _ H0)) as [Hcfg _ _ _ _]. split; [done|..].
  - intros s Hs. eapply acked_mono; [exact H0|by apply Hall|done].
  - rewrite <- Hcfg. intros s Hs Hid. destruct (Hself s Hs Hid). split; [done|by eapply verified_here_mono].
Qed.

(** One more voter, counted or not; the node itself is always counted. *)
Lemma counted_cons hashes v voters by_ (b : bool) n n' :
  counted E hashes voters by_ n n' → (b = true → acked E hashes (sv_ID v) n n') →
  (sv_ID v = NodeID (n_cfg n) → b = true ∧ verified_here E hashes n n') →
  counted E hashes (v :: voters) (if b then v :: by_ else by_) n n'.
Proof using Type.
  intros [Hsub Hall Hself] Hb Hv. split.
  - destruct b; by constructor.
  - intros s. destruct b; [intros [->|Hs]%elem_of_cons; auto|apply Hall].
  - intros s [->|Hs]%elem_of_cons Hid.
    + destruct (Hv Hid) as [-> ?]. split; [by left|done].
    + destruct (Hself s Hs Hid). split; [destruct b; [by right|done]|done].
Qed.

Lemma wp_replicate_to m voters acks n :
  wp (replicate_to E m voters acks)
    (λ r n', works E n n' ∧ ∀ total, r = Ok total → ∃ by_, total = acks + length by_
       ∧ counted E (manifestBlobHashes m) voters by_ n n') n.
Proof using PeersLaws0.
  revert acks n. induction voters as [|v voters IH]; intros acks n; cbn [replicate_to].
  { apply wp_ret. split; [reflexivity|]. intros total [= <-]. exists []. split; [simpl; lia|].
    split; [done|..]; intros s Hs; by apply elem_of_nil in Hs. }
  set (hashes := manifestBlobHashes m) in *.
  assert (∀ n1 (b : bool), works E n n1 → (b = true → acked E hashes (sv_ID v) n n1) →
    (sv_ID v = NodeID (n_cfg n) → b = true ∧ verified_here E hashes n n1) →
    wp (replicate_to E m voters (if b then S acks else acks))
      (λ r n', works E n n' ∧ ∀ total, r = Ok total → ∃ by_, total = acks + length by_
       ∧ counted E hashes (v :: voters) by_ n n') n1) as Hgo.
  { intros n1 b H1 Hb Hv. eapply wp_mono; [apply IH|]. intros r n2 [H2 Hr]. split; [by etrans|].
    intros total ->. destruct (Hr total eq_refl) as (by_ & -> & Hcount).
    exists (if b then v :: by_ else by_). split; [destruct b; simpl; lia|].
    apply counted_cons; [by apply (counted_mono hashes voters by_ n n1 n2)|intros Hbt; by apply (acked_mono E hashes _ n n n1 n2), H2; [..|apply Hb]|].
    intros Hid. destruct (Hv Hid) as [-> Hhere]. split; [done|].
    by apply (verified_here_mono E hashes n n n1 n2). }
  apply wp_bind, wp_get. cbn [Datatypes.id]. destruct (str_eqb (sv_ID v) _) eqn:Hself; bool_simpl.
  - apply wp_bind, wp_with_store; [done|]. intros root Hroot. eapply wp_mono; [apply wp_verify_blobs|].
    intros [[]|e] w [_ Hall]; [|split; [apply files_works|done]].
    assert (verified_here E hashes n (set_files w n)) as Hhere.
    { exists root, n. split_and!; [done|reflexivity|apply files_works|apply Hall, eq_refl]. }
    apply (Hgo _ true); [apply files_works|by intros _; apply acked_self|done].
  - apply wp_bind, wp_try. eapply wp_mono; [by apply wp_replicateManifestToPeer|]. intros r n1 [H1 Hr].
    apply (Hgo n1 (is_ok r)); [done| |done]. destruct r as [[]|]; [intros _; by apply Hr|done].
Qed.

(** A successful replication counted a majority, and the node itself if it is a
    voter. *)
Definition majority (E : env) (hashes : list string) (voters : list Server) (n n' : Node) : Prop :=
  ∃ by_, length voters < 2 * length by_ ∧ counted E hashes voters by_ n n'.

Lemma majority_mono hashes voters n0 n n' n1 :
  works E n0 n → majority E hashes voters n n' → works E n' n1 → majority E hashes voters n0 n1.
Proof using Type.
  intros H0 (by_ & Hlen & Hc) H1. exists by_. split; [done|]. by eapply counted_mono.
Qed.

Lemma wp_replicateSnapshotBlobs m voters n :
  wp (replicateSnapshotBlobs E m voters)
    (λ r n', works E n n' ∧ (r = Ok tt → majority E (manifestBlobHashes m) voters n n')) n.
Proof using PeersLaws0.
  apply wp_bind. eapply wp_mono; [apply wp_replicate_to|]. intros [acks|e] n' [Hw Hr]; [|by split].
  destruct (Hr acks eq_refl) as (by_ & -> & Hcount). case_match eqn:Hq; [by apply wp_err|].
  apply wp_ret. split; [done|]. intros _. exists by_. split; [|done].
  apply Nat.ltb_ge in Hq. pose proof (Nat.div_mod_eq (length voters) 2).
  pose proof (Nat.mod_upper_bound (length voters) 2 ltac:(done)). lia.
Qed.
End replicate.

(** ** Staging counts *)

Lemma lookup_stage m h k :
  stage_blob m h !! k = if bool_decide (h = k) then Some (default 0 (m !! h) + 1)%Z else m !! k.
Proof. unfold stage_blob. case_bool_decide; [subst; by rewrite lookup_insert_eq|by rewrite lookup_insert_ne]. Qed.

Lemma lookup_unstage m h k :
  unstage_blob m h !! k = if bool_decide (h = k)
    then (if (default 0 (m !! h) <=? 1)%Z then None else Some (default 0 (m !! h) - 1)%Z) else m !! k.
Proof.
  unfold unstage_blob. destruct (_ <=? _)%Z; case_bool_decide; try subst.
  - by rewrite lookup_delete_eq.
  - by rewrite lookup_delete_ne.
  - by rewrite lookup_insert_eq.
  - by rewrite lookup_insert_ne.
Qed.

(** Only counts above zero are kept. *)
Definition counts_positive (m : gmap string Z) : Prop := map_Forall (λ _ c, 0 < c)%Z m.

Lemma unstage_stage m h : counts_positive m → unstage_blob (stage_blob m h) h = m.
Proof.
  intros Hm. apply map_eq. intros k. rewrite lookup_unstage, !lookup_stage, (bool_decide_eq_true_2 (h = h)) by done.
  case_bool_decide as Hk; [subst k|done]. cbn [default from_option]. destruct (m !! h) as [c|] eqn:Hc; simpl.
  - apply Hm in Hc. replace (c + 1 <=? 1)%Z with false by (symmetry; apply Z.leb_gt; lia). f_equal. lia.
  - done.
Qed.

Lemma unstage_stage_comm m h k c :
  m !! h = Some c → (0 < c)%Z → unstage_blob (stage_blob m k) h = stage_blob (unstage_blob m h) k.
Proof.
  intros Hc Hpos. apply map_eq. intros i. rewrite lookup_unstage, !lookup_stage, !lookup_unstage.
  repeat case_bool_decide; subst; rewrite ?Hc; try done.
  simpl. replace (c + 1 <=? 1)%Z with false by (symmetry; apply Z.leb_gt; lia).
  destruct (c <=? 1)%Z eqn:Hc1; simpl; f_equal; [apply Z.leb_le in Hc1|]; lia.
Qed.

Lemma unstage_through m h c l :
  m !! h = Some c → (0 < c)%Z → unstage_blob (foldl stage_blob m l) h = foldl stage_blob (unstage_blob m h) l.
Proof.
  revert m c. induction l as [|k l IH]; intros m c Hc Hpos; [done|]. simpl.
  destruct (stage_blob m k !! h) as [c'|] eqn:Hc'.
  - rewrite (IH _ c'); [by rewrite (unstage_stage_comm _ _ _ c)|done|].
    rewrite lookup_stage in Hc'. case_bool_decide; [subst; rewrite Hc in Hc'; simpl in Hc'; simplify_eq; lia|congruence].
  - rewrite lookup_stage in Hc'. case_bool_decide; congruence.
Qed.

Lemma release_retain m l : counts_positive m → foldl unstage_blob (foldl stage_blob m l) l = m.
Proof.
  revert m. induction l as [|h l IH]; intros m Hm; [done|]. simpl.
  assert (stage_blob m h !! h = Some (default 0 (m !! h) + 1)%Z) as Hh by (rewrite lookup_stage; by rewrite bool_decide_eq_true_2).
  rewrite (unstage_through _ _ _ _ Hh); [by rewrite unstage_stage; [apply IH|]|].
  destruct (m !! h) eqn:Hc; simpl; [apply Hm in Hc|]; lia.
Qed.

Lemma staged_dom m l h : h ∈ l → h ∈ dom (foldl stage_blob m l).
Proof.
  revert m. assert (∀ l m, h ∈ dom m → h ∈ dom (foldl stage_blob m l)) as Hkeep.
  { clear. induction l as [|k l IH]; intros m Hm; [done|]. apply IH. unfold stage_blob. rewrite dom_insert_L. set_solver. }
  induction l as [|k l IH]; intros m Hl; [by apply elem_of_nil in Hl|].
  simpl. apply elem_of_cons in Hl as [->|Hl]; [|by apply IH]. apply Hkeep. unfold stage_blob. rewrite dom_insert_L. set_solver.
Qed.

(** ** Committing a manifest *)

(** The manifest [m] becomes the active snapshot by the command [id] on the state
    of revision [expected], of its cluster and in its epoch. *)
Definition published (id : string) (m : Manifest) (expected r : N) (f1 f2 : metadataFSM) : Prop :=
  let s := fsm_state f1 in
  ms_Revision s = expected ∧ r = (expected + 1)%N ∧ ms_AppliedCommands s !! id = None
  ∧ g_ClusterID (m_Generation m) = ms_ClusterID s ∧ g_LeaderEpoch (m_Generation m) = ms_LeaderEpoch s
  ∧ ∃ index digest, f2 = set_fsm_state
      (commit_command id digest (set_snapshot (g_ManifestHash (m_Generation m)) m index s)) f1.

Lemma published_manifest_wire m index hash :
  manifest_wire m → (index < u64_bound)%N → ComputeManifestHash (set_configuration index m) = Ok hash →
  manifest_wire (with_manifest_hash hash (set_configuration index m)).
Proof.
  intros [Hs [Hc He Hq _] _ Ht Hd] Hi (j & _ & [= <-])%rbind_Ok. constructor; [done| |done|done|exact Hd].
  constructor; [done|done|done|apply hash_utf8].
Qed.

(** The hash covers the time and the data, so a manifest that has one is encoded. *)
Lemma hashed_encodes m hash h : ComputeManifestHash m = Ok hash → ∃ j, enc_Manifest (with_manifest_hash h m) = Ok j.
Proof.
  unfold ComputeManifestHash, enc_Manifest. intros (j & Hj & _)%rbind_Ok.
  apply rbind_Ok in Hj as (c & Hc & Hj). apply rbind_Ok in Hj as (d & Hd & _).
  cbn [with_manifest_hash m_CreatedAt m_Datasets] in *. rewrite Hc, Hd. eexists. reflexivity.
Qed.

Lemma commit_step id m hash j expected epoch index caps f1 f2 r :
  manifest_wire m → enc_Manifest m = Ok j → ComputeManifestHash m = Ok hash → g_ManifestHash (m_Generation m) = hash →
  (ms_Revision (fsm_state f1) < u64_max)%N → ar_Error r = "" →
  let payload := enc_struct [field "manifest" j] in
  let command := mkCommand 1 1 id CommandCommitSnapshot (Some expected) epoch (Some payload) unix_zero in
  (∃ s, apply_command index caps command (fsm_state f1) = Applied s
        ∧ f2 = set_fsm_state s f1 ∧ r = mkApplyResult (ms_Revision s) (ms_LeaderEpoch s) "")
  ∨ (apply_command index caps command (fsm_state f1) = Reply r ∧ f2 = f1) →
  published id m expected (ar_Revision r) f1 f2 ∨ replayed id (ar_Revision r) f1 f2.
Proof.
  intros Hw Hj Hhash Hh Hmax He payload command [(s & Happ & -> & ->)|[Hreply ->]].
  - left. apply apply_command_branch in Happ as (digest & s0 & -> & Hbranch & Hexp & Hfresh).
    specialize (Hexp _ eq_refl). cbn [c_ID command] in *. set (gate := normalizeCapabilityGate _) in Hbranch.
    change (apply_commit_snapshot index gate command (fsm_state f1) = Commit s0) in Hbranch.
    unfold apply_commit_snapshot in Hbranch. destruct (stale_epoch _ _); [done|].
    assert (Unmarshal dec_commitSnapshotPayload (mkCommitSnapshotPayload zero_Manifest) (c_Payload command)
      = Some (mkCommitSnapshotPayload m)) as Hdec.
    { cbn [c_Payload command]. unfold Unmarshal, dec_commitSnapshotPayload, payload.
      dec_member; [by apply dec_enc_Manifest|]. done. }
    rewrite Hdec in Hbranch. cbn [cs_Manifest] in Hbranch.
    destruct (str_eqb (g_ClusterID _) _) eqn:Hcl; [|done]. cbn [negb] in Hbranch.
    destruct (g_LeaderEpoch _ =? _)%N eqn:Hep; [|done]. cbn [negb] in Hbranch. bool_simpl.
    destruct (if (_ <=? _)%N then _ else _) as [v|] eqn:Hmono.
    { destruct (_ <=? _)%N; [|done]. destruct (if _ : bool then _ else _); [destruct (validateNextSnapshotSequence _ _ _)|]; simplify_eq. }
    destruct (validateManifestCapability m gate); [|done]. rewrite Hhash in Hbranch.
    rewrite Hh, str_eqb_refl in Hbranch. cbn [negb] in Hbranch. injection Hbranch as <-.
    unfold published. rewrite Hh. split_and!; [done| |done|done|done|by eexists _, _].
    simpl. rewrite u64_succ_small by done. congruence.
  - right. split; [done|].
    apply apply_command_Reply in Hreply as [_ [[? _]|(a & digest & Ha & _ & _ & Hr & _)]]; [done|]. by exists a.
Qed.

(** ** Publishing *)

(** What a successful [publish_staged] has done with the manifest [m]. *)
Definition publish_done (E : env) (id : string) (m : Manifest) (r : N) (n n' : Node) : Prop :=
  ∃ nc nd index voters voters' hash, evolves E n nc ∧ evolves E nc nd
  ∧ voterConfiguration nc = Ok (index, voters) ∧ voterConfiguration nd = Ok (index, voters')
  ∧ ComputeManifestHash (set_configuration index m) = Ok hash
  ∧ majority E (manifestBlobHashes m) voters nc nd
  ∧ at_one_point E nd n' (λ f1 f2,
      published id (with_manifest_hash hash (set_configuration index m)) (ms_Revision (Metadata nd)) r f1 f2
      ∨ replayed id r f1 f2).

Section publish.
Context (E : env) {R : Raft} {P : Peers} `{!RaftLaws R E} `{!PeersLaws P E}.
Set Default Proof Using "Type*".

Lemma evolves_small n n' index voters :
  evolves E n n' → small_view (n_raft n) → voterConfiguration n' = Ok (index, voters) → (index < u64_bound)%N.
Proof using Type.
  intros Hev Hs. apply (ev_raft _ _ _ Hev) in Hs. unfold voterConfiguration.
  destruct (n_raft n') as [v|] eqn:Hv; [|done]. destruct (rv_Configuration v) as [[i l]|] eqn:Hc; [|done].
  destruct (filter _ l); [done|]. intros [= <- _]. by eapply Hs.
Qed.

Lemma wp_publish_staged id m blobs n f0 :
  n_fsm n = Some f0 → fsm_ok f0 → fsm_capabilities f0 = SupportedNodeCapabilities → small_view (n_raft n) →
  valid_utf8 id → manifest_wire m → (ms_Revision (fsm_state f0) < u64_bound)%N →
  wp (publish_staged E id m blobs) (λ res n', works E n n' ∧ ∀ r, res = Ok r → publish_done E id m r n n') n.
Proof.
  intros Hf Hok Hcaps Hsmall Hid Hw Hrev. apply wp_bind, wp_with_store; [done|]. intros root Hroot.
  unfold wp at 1. destruct (store_blobs E root _ _) as [[[]|e] w]; cbn [fst snd]; [|split; [apply files_works|done]].
  set (nc := set_files w n). assert (works E n nc) as Hnc by apply files_works.
  apply wp_bind. unfold wp at 1. cbn [fst snd]. destruct (voterConfiguration nc) as [[index voters]|e] eqn:Hv; [|done].
  cbn [fst snd]. apply wp_bind, wp_of. destruct (ComputeManifestHash _) as [hash|e] eqn:Hhash; [|done].
  set (m' := with_manifest_hash hash (set_configuration index m)).
  apply wp_bind. eapply wp_mono; [apply (wp_replicateSnapshotBlobs E m' voters nc)|].
  intros [[]|e] nd [Hnd Hmaj]; [|split; [by etrans|done]]. specialize (Hmaj eq_refl).
  assert (works E n nd) as Hn_nd by (by etrans).
  apply wp_bind. unfold wp at 1. cbn [fst snd]. destruct (voterConfiguration nd) as [[index' voters']|e] eqn:Hv'; [|done].
  cbn [fst]. destruct (negb (index' =? index)%N) eqn:Hsame; [by apply wp_err|]. bool_simpl. subst index'.
  apply wp_bind, wp_get, wp_bind. unfold Datatypes.id.
  assert (index < u64_bound)%N as Hindex by (by eapply (evolves_small n nc); [apply Hnc|..]).
  destruct (evolves_fsm E n nd f0 (wk_evolves _ _ _ Hn_nd) Hf Hok) as (fd & Hfd & Hokd & Hcapsd). rewrite Hcaps in Hcapsd.
  destruct (hashed_encodes _ _ hash Hhash) as [j Hj]. fold m' in Hj.
  assert (snapshot_payload m' = Some (enc_struct [field "manifest" j])) as -> by (unfold snapshot_payload; by rewrite Hj).
  change (mkCommand _ _ id CommandCommitSnapshot ?e ?ep (Some ?p) ?t) with (versioned_command id CommandCommitSnapshot e ep p t nd).
  rewrite (versioned_eq nd fd) by done.
  eapply wp_mono; [apply wp_and; [|apply (working_calling E), (calling_apply E)]|].
  { eapply (wp_apply E _ nd fd (λ res n3, ∀ v, res = Ok v → ∃ i f1 f3, took_effect E _ v nd n3 i f1 f3));
      [exact Hfd| |done|done|].
    - apply plain_command_ok; [done|apply valid_type; set_solver| |].
      + intros x [= <-]. unfold Metadata. rewrite Hfd. eapply (evolves_revision E n nd f0 fd); [apply Hn_nd|done..].
      + unfold Metadata. rewrite Hfd. by apply epoch_bound.
    - intros v n3 i g1 g2 Htook v' [= <-]. by exists i, g1, g2. }
  intros [v|e] n3 [Htook Hn3]; [|split; [by etrans|done]]. apply wp_ret. split; [by etrans|]. intros r [= <-].
  destruct (Htook v eq_refl) as (i & g1 & g2 & Ht).
  exists nc, nd, index, voters, voters', hash. split_and!; [apply Hnc|apply Hnd|done..|].
  destruct (took_effect_within E nd nd n3 fd _ _ _ _ _ (reflexivity nd) Hfd Hokd Ht) as (Hok1 & Hcaps1 & Hmax & Hat).
  apply Hat. destruct Ht as (?&?&?&?&?&_&_&_&_&_&_&_& He & Hcase).
  eapply (commit_step id m' hash j); [by apply published_manifest_wire|exact Hj| |done|done|done|exact Hcase].
  exact Hhash.
Qed.
End publish.

Lemma works_VerifyBusinessLeadership (E : env) `{!RaftLaws R E} ctx : working E (VerifyBusinessLeadership ctx).
Proof.
  intros n. unfold wp, VerifyBusinessLeadership. destruct (checkLocalBusinessLeadership _ _); [|apply (@reflexivity _ (works E) _)].
  set (m := io_bind _ _).
  assert (calling E m) as Hm by (unfold m; auto with evolving).
  specialize (Hm n). unfold wp in Hm. destruct (m n) as [v n1]. cbn [fst snd] in Hm. apply moved_works in Hm.
  assert (∀ a e r, works E n (updateCachedLeadership a e r n1)) as Hcached.
  { intros active epoch reason. etrans; [exact Hm|]. constructor; [by apply local_evolves|done..]. }
  destruct (ctx (n_now n1)); [exact Hm|]. destruct v; apply Hcached.
Qed.

(** ** Collecting *)

Lemma insert_newer_perm m l : insert_newer m l ≡ₚ m :: l.
Proof. induction l as [|m' l IH]; [done|]. simpl. destruct (time_After _ _); [|done]. rewrite IH. constructor. Qed.

Lemma newest_first_perm l : newest_first l ≡ₚ l.
Proof. induction l as [|m l IH]; [done|]. simpl. by rewrite insert_newer_perm, IH. Qed.

Definition not_older (m m' : Manifest) : Prop := (t_ns (m_CreatedAt m') ≤ t_ns (m_CreatedAt m))%Z.
#[export] Instance not_older_dec m m' : Decision (not_older m m') := decide (_ ≤ _)%Z.

Lemma newest_first_sorted l : StronglySorted not_older (newest_first l).
Proof.
  induction l as [|m l IH]; [constructor|]. simpl. induction IH as [|m' l' Hs IH Hall]; [by repeat constructor|].
  simpl. destruct (time_After (m_CreatedAt m') (m_CreatedAt m)) eqn:Ha; unfold time_After in Ha; bool_simpl.
  - constructor; [done|]. rewrite Forall_forall. intros x Hx. rewrite insert_newer_perm in Hx.
    apply elem_of_cons in Hx as [->|Hx]; [unfold not_older; lia|by rewrite Forall_forall in Hall; apply Hall].
  - constructor; [by constructor|]. constructor; [unfold not_older; lia|].
    eapply Forall_impl; [exact Hall|]. unfold not_older. intros; lia.
Qed.

(** A snapshot is preceded only by snapshots that are not older. *)
Lemma newest_first_rank l i m :
  newest_first l !! i = Some m → i < length (filter (λ m', not_older m' m) l).
Proof.
  intros Hi. rewrite <- (newest_first_perm l). pose proof (newest_first_sorted l) as Hs.
  revert i Hi. generalize dependent (newest_first l). clear l. induction 1 as [|x l Hs IH Hall]; intros i Hi; [done|].
  destruct i as [|i]; simpl in Hi.
  - injection Hi as ->. rewrite filter_cons_True by (unfold not_older; lia). simpl. lia.
  - rewrite filter_cons_True; [simpl; specialize (IH i Hi); lia|].
    rewrite Forall_forall in Hall. apply Hall. by eapply list_elem_of_lookup_2.
Qed.

(** Why the collector keeps a snapshot: it is active, young enough to be pinned
    by a reader, or no more snapshots than are to be kept are as new. *)
Inductive kept (n : Node) (m : Manifest) : Prop :=
| kept_active : g_ManifestHash (m_Generation m) = ms_ActiveSnapshot (Metadata n) → kept n m
| kept_pinned : (t_ns (n_now n) - GenerationPinTTL (n_cfg n) ≤ t_ns (m_CreatedAt m))%Z → kept n m
| kept_recent :
    (Z.of_nat (length (filter (λ m', not_older m' m) (snd <$> map_to_list (ms_Snapshots (Metadata n)))))
       ≤ GenerationRetention (n_cfg n))%Z → kept n m.

Definition manifest_blob (m : Manifest) (h : string) : Prop := h ∈ manifestBlobHashes m ∨ h ∈ previous_hashes m.

(** A blob somebody needs: it is being published, or a kept snapshot refers to it. *)
Definition needed (n : Node) (h : string) : Prop :=
  is_Some (n_stagingBlobs n !! h) ∨ ∃ k m, ms_Snapshots (Metadata n) !! k = Some m ∧ kept n m ∧ manifest_blob m h.

Lemma needed_retained n h : needed n h → h ∈ retained_blobs n.
Proof.
  unfold retained_blobs, retained_given. set (sorted := newest_first _). intros [Hst|(k & m & Hm & Hkept & Hh)].
  { apply elem_of_union_l, elem_of_dom, Hst. }
  apply elem_of_union_r, elem_of_list_to_set, list_elem_of_In, in_concat.
  exists (manifestBlobHashes m ++ previous_hashes m). split; [|apply list_elem_of_In, elem_of_app; exact Hh].
  apply list_elem_of_In, list_elem_of_fmap. exists m. split; [done|].
  assert (m ∈ sorted) as [i Hi]%list_elem_of_lookup.
  { unfold sorted. rewrite newest_first_perm. apply list_elem_of_fmap. exists (k, m).
    split; [done|]. by apply elem_of_map_to_list. }
  apply list_elem_of_omap. exists (i, m). split.
  { apply list_elem_of_lookup. exists i. by rewrite list_lookup_imap, Hi. }
  destruct (GenerationRetention (n_cfg n) <=? Z.of_nat i)%Z eqn:Hret; [|done].
  destruct (time_Before _ _) eqn:Hbefore; [|done]. destruct (str_eqb _ _) eqn:Hactive; [done|]. bool_simpl. exfalso.
  destruct Hkept as [H|H|H]; [done|..].
  - unfold time_Before, time_Add in Hbefore. bool_simpl. simpl in Hbefore. lia.
  - apply newest_first_rank in Hi. lia.
Qed.

Definition newer (m m' : Manifest) : Prop := (t_ns (m_CreatedAt m') < t_ns (m_CreatedAt m))%Z.
#[export] Instance newer_dec m m' : Decision (newer m m') := decide (_ < _)%Z.

(** All newer snapshots come before. *)
Lemma newest_first_newer l i m : newest_first l !! i = Some m → length (filter (λ m', newer m' m) l) ≤ i.
Proof.
  intros Hi. rewrite <- (newest_first_perm l). pose proof (newest_first_sorted l) as Hs.
  revert i Hi. generalize dependent (newest_first l). clear l. induction 1 as [|x l Hs IH Hall]; intros i Hi; [done|].
  destruct i as [|i]; simpl in Hi.
  - injection Hi as ->. rewrite filter_cons_False by (unfold newer; lia).
    assert (filter (λ m', newer m' m) l = []) as ->; [|simpl; lia].
    destruct (filter (λ m', newer m' m) l) as [|y l'] eqn:Hy; [done|exfalso].
    assert (y ∈ filter (λ m', newer m' m) l) as [Hn Hin]%list_elem_of_filter by (rewrite Hy; left).
    rewrite Forall_forall in Hall. specialize (Hall y Hin). unfold newer, not_older in *. lia.
  - specialize (IH i Hi). rewrite filter_cons. destruct (decide _); simpl; lia.
Qed.

(** A snapshot the collector may keep; it differs from [kept] only when snapshots
    were created at the same instant. *)
Inductive may_keep (n : Node) (m : Manifest) : Prop :=
| may_keep_active : g_ManifestHash (m_Generation m) = ms_ActiveSnapshot (Metadata n) → may_keep n m
| may_keep_pinned : (t_ns (n_now n) - GenerationPinTTL (n_cfg n) ≤ t_ns (m_CreatedAt m))%Z → may_keep n m
| may_keep_recent :
    (Z.of_nat (length (filter (λ m', newer m' m) (snd <$> map_to_list (ms_Snapshots (Metadata n)))))
       < GenerationRetention (n_cfg n))%Z → may_keep n m.

Lemma retained_committed n h :
  h ∈ retained_blobs n →
  is_Some (n_stagingBlobs n !! h)
  ∨ ∃ k m, ms_Snapshots (Metadata n) !! k = Some m ∧ may_keep n m ∧ manifest_blob m h.
Proof.
  unfold retained_blobs, retained_given. rewrite elem_of_union, elem_of_dom, elem_of_list_to_set. intros [?|Hh]; [by left|right].
  apply list_elem_of_In, in_concat in Hh as (l & Hl & Hh). apply list_elem_of_In, list_elem_of_fmap in Hl as (m & -> & Hm).
  apply list_elem_of_In, elem_of_app in Hh. apply list_elem_of_omap in Hm as ([i m'] & Hi & Hsome).
  apply list_elem_of_lookup in Hi as [j Hj]. rewrite list_lookup_imap in Hj.
  destruct (newest_first _ !! j) as [m1|] eqn:Hm1; [|done]. simpl in Hj. injection Hj as -> ->.
  destruct (_ && _) eqn:Hdrop; [done|]. injection Hsome as ->.
  pose proof (list_elem_of_lookup_2 _ _ _ Hm1) as Hin. rewrite newest_first_perm in Hin.
  apply list_elem_of_fmap in Hin as ([k m1] & -> & Hk). exists k, m1. split_and!; [by apply elem_of_map_to_list| |exact Hh].
  apply newest_first_newer in Hm1. destruct (_ <=? _)%Z eqn:Hret; bool_simpl; [|apply may_keep_recent; simpl in *; lia].
  destruct (time_Before _ _) eqn:Hb; [|apply may_keep_pinned; unfold time_Before, time_Add in Hb; bool_simpl; simpl in *; lia].
  apply may_keep_active. destruct (str_eqb _ _) eqn:Ha; [by bool_simpl|done].
Qed.

(** The digest test of the collector for an object path. *)
Lemma object_collectable root retained d :
  collectable root retained (objectPath root (sha256_hex d)) ↔ HashPrefixSHA256 +:+ sha256_hex d ∉ retained.
Proof.
  unfold collectable. rewrite gc_hash_object by (autorewrite with clusterha_rw; done). naive_solver.
Qed.

(** Without faults the collector reports success. *)
Lemma gc_walk_succeeds E root retained paths : (∀ t, io_fault E t = None) → ∀ removed w,
  ∃ k, (gc_walk E root retained paths removed w).1 = Ok (k, Ok tt).
Proof.
  intros HE. induction paths as [|p paths IH]; intros removed w; cbn [gc_walk]; [by exists removed|].
  destruct (gc_hash root p) as [hash|]; [|apply IH]. case_bool_decide; [apply IH|].
  unfold io_bind at 1, io_try, os_Remove. rewrite (sys_runs E HE).
  destruct (w_vol (tick w) !! p); apply IH.
Qed.

Lemma GC_succeeds E root retained w : (∀ t, io_fault E t = None) → ∃ k, (GC E root retained w).1 = Ok (k, Ok tt).
Proof.
  intros HE. unfold GC, io_bind at 1, io_try. rewrite (sys_runs E HE). by apply gc_walk_succeeds.
Qed.

Lemma wp_collect_blobs E retained n :
  wp (collect_blobs E retained) (λ r n', r = Ok tt ∧ ∃ w, n' = set_files w n
    ∧ ∀ root, n_blobStore n = Some root →
      (∀ p, ¬ collectable root retained p → w_vol w !! p = w_vol (n_files n) !! p)
      ∧ w_dur w = w_dur (n_files n)
      ∧ ((∀ t, io_fault E t = None) → ∀ p, collectable root retained p → w_vol w !! p = None)) n.
Proof.
  apply wp_bind, wp_get. cbn [id]. destruct (n_blobStore n) as [root|] eqn:Hroot.
  2:{ apply wp_ret. split; [done|]. exists (n_files n). split; [by destruct n|done]. }
  pose proof (wp_GC E root retained (n_files n)) as Hgc.
  pose proof (GC_succeeds E root retained (n_files n)) as Hok.
  apply wp_bind, wp_try, wp_with_store; [by rewrite Hroot|]. rewrite Hroot. intros root' [= <-]. unfold wp at 1. unfold wp in Hgc.
  destruct (GC E root retained (n_files n)) as [r w]. cbn [fst snd] in *. destruct Hgc as (Hkeep & Hdur & Hgone).
  apply wp_ret. split; [done|]. exists w. split; [done|]. intros root' [= <-]. split_and!; [done..|].
  intros HE p Hp. destruct (Hok HE) as [k ->].
  destruct (Hgone (λ t H, ltac:(by rewrite HE in H)) k eq_refl) as [-> _]. apply map_lookup_filter_None. right.
  intros x _ Hx. by apply Hx.
Qed.

Lemma wp_gcSnapshotBlobs E n :
  wp (gcSnapshotBlobs E) (λ r n', r = Ok tt ∧ ∃ w, n' = set_files w n
    ∧ ∀ root, n_blobStore n = Some root →
      (∀ p, ¬ collectable root (retained_blobs n) p → w_vol w !! p = w_vol (n_files n) !! p)
      ∧ w_dur w = w_dur (n_files n)
      ∧ ((∀ t, io_fault E t = None) → ∀ p, collectable root (retained_blobs n) p → w_vol w !! p = None)) n.
Proof. apply wp_bind, wp_get, wp_bind, wp_get. apply wp_collect_blobs. Qed.

(** ** Fetching *)

(** Blobs of other digests are as they were. *)
Definition others_kept (root h : string) (w w' : world) : Prop :=
  ∀ h', h' ≠ h → has_blob root w h' → has_blob root w' h'.

#[export] Instance others_kept_preorder root h : PreOrder (others_kept root h).
Proof. split; [by intros w h' _|]. intros w1 w2 w3 H1 H2 h' Hne Hh. by apply H2, H1. Qed.

Lemma object_others_kept root d w w' :
  only_object root (sha256_hex d) w w' → others_kept root (HashPrefixSHA256 +:+ sha256_hex d) w w'.
Proof.
  intros H h' Hne (d' & <- & Hs). exists d'. split; [done|].
  rewrite (only_object_stored root (sha256_hex d) w); [done..|by autorewrite with clusterha_rw|congruence].
Qed.

Lemma wp_PutHash_blob E root d r w :
  let h := HashPrefixSHA256 +:+ sha256_hex d in
  wp (PutHash E root h r)
    (λ res w', others_kept root h w w' ∧ (res = Ok tt → has_blob root w' h)) w.
Proof.
  intros h. eapply wp_mono; [apply wp_PutHash, normalize_digest|]. intros res w' (Hdep & Hok & _).
  split; [apply object_others_kept, Hdep|]. intros ->. destruct (Hok eq_refl) as [_ Hx].
  apply deposited_stored in Hdep as [_ [Hs|[Hs [d' Hd']]]]; [..|apply normalize_digest|exact Hx].
  - exists (r_data r). by rewrite Hx.
  - rewrite Hd' in Hs. apply stored_inv in Hd' as (f & _ & _ & Hx'). exists d'. by rewrite Hx'.
Qed.

Section fetch.
Context (E : env) {R : Raft} {P : Peers} `{!RaftLaws R E} `{!PeersLaws P E}.
Set Default Proof Using "Type*".

(** A peer that delivers a blob: it answers the request for it with the bytes. *)
Definition delivers (base h : string) : Prop :=
  http_NewRequest "GET" (blob_url base h) = Ok tt
  ∧ ∀ n, ∃ resp data, (client_Do (get_request (blob_url base h)) n).1 = Ok resp
      ∧ rs_StatusCode resp = StatusOK ∧ rs_Body resp = mkReader data None
      ∧ HashPrefixSHA256 +:+ sha256_hex data = h.

Lemma wp_pullBlobFromPeer id d root n :
  let h := HashPrefixSHA256 +:+ sha256_hex d in
  n_blobStore n = Some root →
  wp (pullBlobFromPeer E id h)
    (λ r n', works E n n' ∧ others_kept root h (n_files n) (n_files n')
       ∧ (r = Ok tt → has_blob root (n_files n') h)
       ∧ ((∀ t, io_fault E t = None) → internalHTTPClient n = Ok tt →
          ∀ base, internalAPIURLForNode id n = Some base → delivers base h → r = Ok tt)) n.
Proof using PeersLaws0.
  intros h Hroot. apply wp_bind, wp_get. cbn [Datatypes.id].
  assert (others_kept root h (n_files n) (n_files n)) as Hsame by reflexivity.
  destruct (internalAPIURLForNode id n) as [base|]; [|apply wp_err; by split_and!].
  apply wp_bind, wp_bind. unfold wp at 1. cbn [fst snd]. destruct (internalHTTPClient n) as [[]|e]; [|done].
  apply wp_bind, wp_of. destruct (http_NewRequest _ _) as [[]|e] eqn:Hreq.
  2:{ split_and!; [done..|]. intros _ _ base' [= <-] [Hd _]. cbn in Hreq. congruence. }
  eapply wp_record; [apply Do_moves|]. intros r n1 Hdo Hn1. set (n2 := set_calls _ n1).
  assert (moved E n n2) as Hmoved by exact (moved_record E _ _ _ Hn1).
  assert (works E n n2) as Hw by by apply moved_works.
  assert (n_files n2 = n_files n) as Hfiles by apply (moved_rest E n n2 Hmoved).
  assert (∀ base', Some base = Some base' → delivers base' h →
    ∃ resp data, r = Ok resp ∧ rs_StatusCode resp = StatusOK ∧ rs_Body resp = mkReader data None
      ∧ HashPrefixSHA256 +:+ sha256_hex data = h) as Hdel.
  { intros base' [= <-] [_ Hd]. destruct (Hd n) as (resp & data & Hr & Hcode & Hbody & Hdata).
    rewrite Hdo in Hr. simpl in Hr. by exists resp, data. }
  destruct r as [resp|e].
  2:{ split_and!; [done|by rewrite Hfiles|done|]. intros _ _ base' Hb Hd. by destruct (Hdel base' Hb Hd) as (?&?&?&_). }
  destruct (negb _) eqn:Hcode.
  { apply wp_err. split_and!; [done|by rewrite Hfiles|done|]. intros _ _ base' Hb Hd.
    destruct (Hdel base' Hb Hd) as (resp' & data & [= <-] & Hc & _). by rewrite Hc in Hcode. }
  apply wp_with_store.
  { intros Hnone. pose proof (sn_blobStore _ _ (ev_same _ _ _ (wk_evolves _ _ _ Hw))). congruence. }
  intros root' Hroot'. assert (root' = root) as ->.
  { pose proof (sn_blobStore _ _ (ev_same _ _ _ (wk_evolves _ _ _ Hw))). congruence. }
  pose proof (wp_PutHash_blob E root d (rs_Body resp) (n_files n2)) as Hput. cbn zeta in Hput. fold h in Hput.
  assert ((∀ t, io_fault E t = None) → ∀ base', Some base = Some base' → delivers base' h →
    (PutHash E root h (rs_Body resp) (n_files n2)).1 = Ok tt) as Hrun.
  { intros HE base' Hb Hd. destruct (Hdel base' Hb Hd) as (resp' & data & [= <-] & _ & -> & Hdata).
    destruct (PutHash_succeeds E root HE h (sha256_hex d) (mkReader data None) (n_files n2)) as [w' ->];
      [apply normalize_digest|done| |done].
    unfold h in Hdata. by apply append_inj_length in Hdata as [_ ?]. }
  unfold wp in *. destruct (PutHash E root h (rs_Body resp) (n_files n2)) as [res w]. cbn [fst snd] in *.
  rewrite Hfiles in Hput. destruct Hput as [Hoth Hok].
  split_and!; [etrans; [exact Hw|apply files_works]|exact Hoth|exact Hok|]. intros HE _. by apply Hrun.
Qed.

(** If one of the voters delivers the blob, it is fetched. *)
Lemma wp_pull_from voters d root n :
  let h := HashPrefixSHA256 +:+ sha256_hex d in
  n_blobStore n = Some root →
  wp (pull_from E voters h)
    (λ r n', r = Ok tt ∧ works E n n' ∧ others_kept root h (n_files n) (n_files n')
       ∧ ((∀ t, io_fault E t = None) → internalHTTPClient n = Ok tt →
          ∀ v base, v ∈ voters → sv_ID v ≠ NodeID (n_cfg n) →
            internalAPIURLForNode (sv_ID v) n = Some base → delivers base h → has_blob root (n_files n') h)) n.
Proof using PeersLaws0.
  intros h. revert n. induction voters as [|v voters IH]; intros n Hroot; cbn [pull_from].
  { apply wp_ret. split_and!; [done|reflexivity..|]. intros _ _ v base Hv. by apply elem_of_nil in Hv. }
  apply wp_bind, wp_get. cbn [Datatypes.id]. destruct (str_eqb (sv_ID v) _) eqn:Hself; bool_simpl.
  { eapply wp_mono; [by apply IH|]. intros r n' (H1 & H2 & H3 & H4). split_and!; [done..|].
    intros HE Hc v' base [->|Hv]%elem_of_cons Hne; [done|by apply H4]. }
  apply wp_bind, wp_try. eapply wp_mono; [by apply wp_pullBlobFromPeer|]. intros r n1 (Hw & Hoth & Hok & Hdel). fold h in Hoth, Hok, Hdel.
  pose proof (ev_same _ _ _ (wk_evolves _ _ _ Hw)) as [Hcfg _ _ Hbs _].
  destruct r as [[]|e]; cbn [is_ok]; [apply wp_ret; split_and!; [done..|]; intros; by apply Hok|].
  eapply wp_mono; [apply IH; by rewrite Hbs|]. intros r n2 (H1 & H2 & H3 & H4).
  split_and!; [done|by etrans|by etrans|].
  intros HE Hc v' base [->|Hv]%elem_of_cons Hne Hbase Hd.
  - by specialize (Hdel HE Hc base Hbase Hd).
  - apply (H4 HE) with v' base; [|done|by rewrite Hcfg|by rewrite (works_url E n)|done].
    unfold internalHTTPClient. by rewrite Hcfg.
Qed.

(** Another voter delivers the blob. *)
Definition available (voters : list Server) (n : Node) (h : string) : Prop :=
  ∃ v base, v ∈ voters ∧ sv_ID v ≠ NodeID (n_cfg n) ∧ internalAPIURLForNode (sv_ID v) n = Some base ∧ delivers base h.

Lemma available_mono voters n n' h : works E n n' → available voters n h → available voters n' h.
Proof using Type.
  intros Hw (v & base & Hv & Hne & Hb & Hd). exists v, base. split_and!; [done| |by rewrite (works_url E n)|done].
  by rewrite (sn_cfg _ _ (ev_same _ _ _ (wk_evolves _ _ _ Hw))).
Qed.

Lemma wp_sync_blobs voters hashes root n :
  (∀ t, io_fault E t = None) → n_blobStore n = Some root → internalHTTPClient n = Ok tt →
  (∀ h, h ∈ hashes → has_blob root (n_files n) h ∨ available voters n h) →
  wp (sync_blobs E voters hashes)
    (λ r n', r = Ok tt ∧ works E n n' ∧ ∀ h, has_blob root (n_files n) h ∨ h ∈ hashes → has_blob root (n_files n') h) n.
Proof using PeersLaws0.
  intros HE. revert n. induction hashes as [|h hashes IH]; intros n Hroot Hclient Hall; cbn [sync_blobs].
  { apply wp_ret. split_and!; [done|reflexivity|]. intros h [?|Hh]; [done|by apply elem_of_nil in Hh]. }
  assert (∀ n1, works E n n1 → (∀ h', has_blob root (n_files n) h' ∨ h' = h → has_blob root (n_files n1) h') →
    wp (sync_blobs E voters hashes) (λ r n', r = Ok tt ∧ works E n n'
      ∧ ∀ h', has_blob root (n_files n) h' ∨ h' ∈ h :: hashes → has_blob root (n_files n') h') n1) as Hrest.
  { intros n1 Hw Hh. pose proof (ev_same _ _ _ (wk_evolves _ _ _ Hw)) as [Hcfg _ _ Hbs _].
    eapply wp_mono; [apply IH|].
    - by rewrite Hbs.
    - unfold internalHTTPClient. by rewrite Hcfg.
    - intros h' Hin. destruct (Hall h' ltac:(by right)) as [?|?]; [left; auto|right]. by eapply available_mono.
    - intros r n2 (Hr & Hw2 & Hh2). split_and!; [done|by etrans|]. intros h' [?|[->|?]%elem_of_cons]; apply Hh2; auto. }
  apply wp_bind, wp_get. cbn [Datatypes.id]. rewrite Hroot. apply wp_bind, wp_bind, wp_try, wp_with_store; [by rewrite Hroot|].
  rewrite Hroot. intros root' [= <-].
  eapply wp_mono; [apply wp_and; [apply (wp_verify_one E root h)|apply (Verify_has E root h _ HE)]|].
  intros r w [[Hvol Hr] Hhas]. apply wp_ret.
  set (n1 := set_files w n). assert (works E n n1) as Hw1 by apply files_works.
  assert (∀ h', has_blob root (n_files n) h' → has_blob root (n_files n1) h') as Hkeep.
  { intros h'. by apply has_blob_same. }
  destruct r as [[]|e]; cbn [is_ok negb].
  { apply wp_bind, wp_ret, Hrest; [done|]. intros h' [? | ->]; apply Hkeep; auto. }
  destruct (Hall h ltac:(left)) as [Hh|(v & base & Hv & Hne & Hbase & Hd)]; [by specialize (Hhas Hh)|].
  destruct (proj2 Hd n) as (resp & data & _ & _ & _ & Hdata).
  pose proof (wp_pull_from voters data root n1 Hroot) as Hpull. cbn zeta in Hpull. rewrite Hdata in Hpull.
  apply wp_bind. eapply wp_mono; [exact Hpull|]. intros r n2 (-> & Hw2 & Hoth & Hgot). apply Hrest; [by etrans|].
  assert (has_blob root (n_files n2) h) as Hh.
  { by eapply (Hgot HE Hclient v base). }
  intros h' [Hh' | ->]; [|done]. destruct (decide (h' = h)) as [->|Hne']; [done|]. by apply Hoth, Hkeep.
Qed.
End fetch.
