(* ===== verification/PublishSpec.v ===== *)
(** * PublishSpec: what publishing, fetching and collecting snapshots promise

    A published manifest was acknowledged by a majority of the voters of the
    configuration it is bound to; staging counts are restored on every path; a
    node fetches what it lacks when some voter delivers it; the collector keeps
    all that is needed, but not what was acknowledged and is not committed yet. *)
From S2P Require Import Prelude Text Io Sha256 Json GoTime GoTimeProofs Duration Config Peers Capability Manifest.
From S2P Require Import Codec BlobStore BlobStoreProofs BlobStoreSpec Fsm FsmProofs Node Leadership NodeProofs.
From S2P Require Import LeadershipProofs Examples CommandSpec Membership Publish PublishProofs.
From stdpp Require Import options.
#[local] Open Scope io_scope.

(** What a successful [PublishSnapshot] has checked and done. *)
Definition publish_promise (E : env) (id : string) (m : Manifest) (r : N) (n n' : Node) : Prop :=
  (∃ rv f, leads (n_now n) n rv f) ∧ ValidateManifest m = Ok tt ∧ publish_done E id m r n n'.

Lemma works_body E (body : nio N) m n : counts_positive (n_stagingBlobs n) → working E body →
  wp (run! modify (retainStagingBlobs m) in with_defer (releaseStagingBlobs m) body)
    (λ _ n', works E n n') n.
Proof.
  intros Hpos Hbody. apply wp_bind, wp_modify. unfold wp, with_defer.
  specialize (Hbody (retainStagingBlobs m n)). unfold wp in Hbody. destruct (body _) as [r n']. cbn [fst snd] in *.
  destruct Hbody as [Hev Hpeers Hst]. constructor; [|exact Hpeers|].
  - etrans; [|etrans; [exact Hev|]]; by apply local_evolves.
  - unfold releaseStagingBlobs. cbn [n_stagingBlobs set_staging]. rewrite Hst. by apply release_retain.
Qed.

Section publish.
Context (E : env) {R : Raft} {P : Peers} `{!RaftLaws R E} `{!PeersLaws P E}.
Set Default Proof Using "Type*".

Lemma working_store {A} (call : string → io A) : working E (with_store call).
Proof using Type.
  intros n. apply wp_with_store; [done|]. intros root _. unfold wp. destruct (call root _). apply files_works.
Qed.

Lemma working_publish_staged id m blobs : working E (publish_staged E id m blobs).
Proof.
  intros n. apply wp_bind. eapply wp_mono; [apply working_store|]. intros [[]|e] n1 H1; [|done].
  apply wp_bind. unfold wp at 1. cbn [fst snd]. destruct (voterConfiguration n1) as [[i vs]|]; [|done].
  apply wp_bind, wp_of. destruct (ComputeManifestHash _); [|done].
  apply wp_bind. eapply wp_mono; [apply (wp_replicateSnapshotBlobs E)|]. intros [[]|e] n2 [H2 _]; [|by etrans].
  apply wp_bind. unfold wp at 1. cbn [fst snd]. destruct (voterConfiguration n2) as [[i' vs']|]; [|by etrans].
  destruct (negb _); [by apply wp_err; etrans|]. apply wp_bind, wp_get, wp_bind.
  eapply wp_mono; [apply (working_calling E), (calling_apply E)|]. intros [r|e] n3 H3; [apply wp_ret|]; by do 2 (etrans; [eassumption|]).
Qed.

Lemma working_PublishSnapshot ctx id m blobs n : counts_positive (n_stagingBlobs n) →
  wp (PublishSnapshot E ctx id m blobs) (λ _ n', works E n n') n.
Proof.
  intros Hpos. apply wp_bind. eapply wp_mono; [apply (works_VerifyBusinessLeadership E)|]. intros [[]|e] n1 H1; [|done].
  apply wp_bind, wp_get. unfold Datatypes.id. destruct (n_blobStore n1); [|by apply wp_err].
  apply wp_bind, wp_of. destruct (validateManifestCapability _ _); [|done].
  apply wp_bind, wp_of. destruct (ValidateManifest m); [|done].
  apply wp_bind, wp_of. destruct (if _ : bool then _ else _); [|done].
  eapply wp_mono; [apply works_body; [by rewrite (wk_staging _ _ _ H1)|apply working_publish_staged]|].
  intros r n2 H2. by etrans.
Qed.

Lemma wp_PublishSnapshot ctx id m blobs n f0 :
  n_fsm n = Some f0 → fsm_ok f0 → fsm_capabilities f0 = SupportedNodeCapabilities → small_view (n_raft n) →
  valid_utf8 id → manifest_wire m → (ms_Revision (fsm_state f0) < u64_bound)%N →
  wp (PublishSnapshot E ctx id m blobs) (λ res n', ∀ r, res = Ok r → publish_promise E id m r n n') n.
Proof.
  intros Hf Hok Hcaps Hsmall Hid Hw Hrev. apply wp_bind, (wp_VerifyBusinessLeadership E); [done..|].
  intros Hc n1 c1 c2 Hev _ _ _. set (nv := updateCachedLeadership _ _ _ _).
  assert (evolves E n nv) as Hev' by (etrans; [exact Hev|by apply local_evolves]). clearbody nv.
  apply wp_bind, wp_get. unfold Datatypes.id. destruct (n_blobStore nv); [|by apply wp_err].
  apply wp_bind, wp_of. destruct (validateManifestCapability _ _); [|done].
  apply wp_bind, wp_of. destruct (ValidateManifest m) as [[]|] eqn:Hval; [|done].
  apply wp_bind, wp_of. destruct (if _ : bool then _ else _); [|done]. apply wp_bind, wp_modify.
  set (ns := retainStagingBlobs m nv). assert (evolves E n ns) as Hns by (etrans; [exact Hev'|by apply local_evolves]).
  destruct (evolves_fsm E n ns f0 Hns Hf Hok) as (fs & Hfs & Hoks & Hcapss). rewrite Hcaps in Hcapss.
  pose proof (wp_publish_staged E id m blobs ns fs Hfs Hoks Hcapss) as Hbody. unfold wp, with_defer in *.
  destruct (publish_staged E id m blobs ns) as [res n2]. cbn [fst snd] in *.
  destruct Hbody as [_ Hdone]; [by apply (ev_raft _ _ _ Hns)|done|done|by eapply (evolves_revision E n ns)|].
  intros r Hr. split_and!; [by apply checkLocal_leads|done|].
  destruct (Hdone r Hr) as (nc & nd & index & vs & vs' & hash & H1 & H2 & H3 & H4 & H5 & H6 & H7).
  exists nc, nd, index, vs, vs', hash. split_and!; [by etrans|done..].
Qed.
End publish.


(** A snapshot of one dataset of one blob. *)
Definition ex_manifest : Manifest :=
  mkManifest 1 (mkGeneration "c" 1 1 "") 0 ex_now
    (Some {[ "d" := mkDatasetRef "d" 1 "" abc_hash "" 1 ex_now true "" "" true false 3 [] ]}).


Lemma ex_manifest_wire : manifest_wire ex_manifest.
Proof.
  constructor; [done|by constructor|done|by apply utc_wire|].
  intros k d Hk. change (({[ "d" := mkDatasetRef "d" 1 "" abc_hash "" 1 ex_now true "" "" true false 3 [] ]} : gmap _ _) !! k = Some d) in Hk.
  apply lookup_singleton_Some in Hk as [<- <-]. split; [done|]. constructor;
    [done..|split; done|by apply utc_wire|done|done|split; done|by constructor].
Qed.

Lemma ex_view_small : small_view (Some ex_leader).
Proof. by intros v index servers [= <-] [= <- _]. Qed.


(** whatever Raft, the peers and the disk do, and wherever [PublishSnapshot]
    returns, the staging counts are afterwards what they were, and the peers of
    the node too; while it stores and replicates, every blob of the manifest is
    staged. *)
Theorem PublishSnapshot_releases (E : env) `{!RaftLaws R E, !PeersLaws P E} (ctx : context) (id : string)
    (m : Manifest) (blobs : gmap string reader) (n n' : Node) (res : result N) :
  counts_positive (n_stagingBlobs n) →
  PublishSnapshot E ctx id m blobs n = (res, n') →
  n_stagingBlobs n' = n_stagingBlobs n ∧ n_peers n' = n_peers n
  ∧ (∀ nv h, h ∈ manifestBlobHashes m → is_Some (n_stagingBlobs (retainStagingBlobs m nv) !! h))
  ∧ (∀ nv, n_stagingBlobs (publish_staged E id m blobs nv).2 = n_stagingBlobs nv).
Proof.
  intros Hpos Hrun. destruct (wp_eq _ _ _ _ _ Hrun (working_PublishSnapshot E ctx id m blobs n Hpos)) as [_ Hp Hs].
  split_and!; [done|done|intros nv h Hh; by apply elem_of_dom, staged_dom|].
  intros nv. apply (working_publish_staged E id m blobs nv).
Qed.

Lemma PublishSnapshot_releases_witness :
  let n := set_staging {[ abc_hash := 2%Z ]} (ex_node ex_config ex_follower ex_fsm) in
  n_stagingBlobs (PublishSnapshot (R := solo) (P := ex_peers) calm (λ _, None) "snap" ex_manifest ∅ n).2 = {[ abc_hash := 2%Z ]}.
Proof.
  intros n. set (run := PublishSnapshot _ _ _ _ _ n).
  apply (PublishSnapshot_releases (R := solo) (P := ex_peers) calm (λ _, None) "snap" ex_manifest ∅ n run.2 run.1);
    [|apply surjective_pairing]. intros h c Hc. change (({[ abc_hash := 2%Z ]} : gmap string Z) !! h = Some c) in Hc.
  by apply lookup_singleton_Some in Hc as [_ <-].
Defined.

(** ** Collecting *)

(** What a collection leaves and removes. *)
Lemma gc_exact (E : env) (root : string) (n n' : Node) (r : result unit) :
  n_blobStore n = Some root → gcSnapshotBlobs E n = (r, n') →
  r = Ok tt
  ∧ (∀ h, needed n h → has_blob root (n_files n) h → has_blob root (n_files n') h)
  ∧ ((∀ t, io_fault E t = None) → ∀ h, has_blob root (n_files n') h →
      is_Some (n_stagingBlobs n !! h)
      ∨ ∃ k m, ms_Snapshots (Metadata n) !! k = Some m ∧ may_keep n m ∧ manifest_blob m h).
Proof.
  intros Hroot Hrun. destruct (wp_eq _ _ _ _ _ Hrun (wp_gcSnapshotBlobs E n)) as (-> & w & -> & Hw).
  destruct (Hw root Hroot) as (Hkeep & _ & Hgone). split_and!; [done|..].
  - intros h Hh (d & <- & Hs). exists d. split; [done|]. cbn [n_files set_files]. unfold stored.
    rewrite Hkeep; [exact Hs|]. rewrite object_collectable. intros Hc. by apply Hc, needed_retained.
  - intros HE h (d & <- & Hs). apply retained_committed. cbn [n_files set_files] in Hs.
    destruct (decide (HashPrefixSHA256 +:+ sha256_hex d ∈ retained_blobs n)) as [|Hc]; [done|exfalso].
    apply object_collectable with (root := root) in Hc. apply (Hgone HE) in Hc.
    apply stored_inv in Hs as (f & Hf & _). congruence.
Qed.

(** C13: the collector leaves every blob that is staged or belongs to a snapshot
    that is active, younger than the pin time, or among the newest ones to be
    retained, previous blobs included, whatever system calls fail; and in a run
    without faults it leaves no blob but those (and those of snapshots created
    at the same instant as one of them). *)
Theorem gcSnapshotBlobs_exact (E : env) (root : string) (n n' : Node) (r : result unit) :
  n_blobStore n = Some root → gcSnapshotBlobs E n = (r, n') →
  r = Ok tt
  ∧ (∀ h, needed n h → has_blob root (n_files n) h → has_blob root (n_files n') h)
  ∧ ((∀ t, io_fault E t = None) → ∀ h, has_blob root (n_files n') h →
      is_Some (n_stagingBlobs n !! h)
      ∨ ∃ k m, ms_Snapshots (Metadata n) !! k = Some m ∧ may_keep n m ∧ manifest_blob m h).
Proof. apply gc_exact. Qed.

(** A follower whose store holds one blob. *)
Definition ex_holding (f : metadataFSM) : Node :=
  set_files (mkWorld {[ objectPath "/data/cas" (sha256_hex "abc") := mkFile "abc" true ]} ∅ ∅ 0)
    (ex_node ex_config ex_follower f).
Definition ex_snapshot_fsm : metadataFSM :=
  set_fsm_state (set_snapshot "m" (with_manifest_hash "m" ex_manifest) 5 (fsm_state ex_fsm)) ex_fsm.

Lemma ex_holding_blob f : has_blob "/data/cas" (n_files (ex_holding f)) abc_hash.
Proof.
  exists "abc". split; [by rewrite sha256_abc|]. unfold stored, ex_holding. cbn [n_files set_files w_vol].
  by rewrite lookup_singleton_eq, str_eqb_refl.
Qed.

Lemma gcSnapshotBlobs_exact_witness :
  has_blob "/data/cas" (n_files (gcSnapshotBlobs calm (ex_holding ex_snapshot_fsm)).2) abc_hash.
Proof.
  set (run := gcSnapshotBlobs _ _).
  apply (gcSnapshotBlobs_exact calm "/data/cas" (ex_holding ex_snapshot_fsm) run.2 run.1 eq_refl (surjective_pairing _));
    [|apply ex_holding_blob].
  right. exists "m", (with_manifest_hash "m" ex_manifest). split_and!; [done|by apply kept_active|left; vm_compute; left].
Defined.

(** ** Fetching *)

(** One round of synchronisation, without faults of the disk. *)
Lemma wp_syncActiveSnapshot (E : env) `{!RaftLaws R E, !PeersLaws P E} (root : string) (m : Manifest)
    (voters : list Server) (n : Node) :
  (∀ t, io_fault E t = None) → n_blobStore n = Some root → internalHTTPClient n = Ok tt →
  ActiveSnapshot n = Some m → voterServers n = Ok voters →
  (∀ h, h ∈ manifestBlobHashes m → has_blob root (n_files n) h ∨ available voters n h) →
  wp (syncActiveSnapshot E) (λ r n', r = Ok tt ∧ works E n n' ∧ ∀ h, has_blob root (n_files n) h
    ∨ h ∈ manifestBlobHashes m → has_blob root (n_files n') h) n.
Proof.
  intros HE Hroot Hclient Hactive Hvoters Hall.
  apply wp_bind, wp_get. unfold Datatypes.id. rewrite Hactive. apply wp_bind, wp_try, wp_with_store; [by rewrite Hroot|].
  rewrite Hroot. intros root' [= <-]. eapply wp_mono; [apply wp_verify_blobs|]. intros v w [Hvol Hv].
  set (n1 := set_files w n). assert (works E n n1) as Hw by apply files_works.
  assert (∀ h, has_blob root (n_files n) h → has_blob root (n_files n1) h) as Hkeep.
  { intros h. by apply has_blob_same. }
  destruct v as [[]|e]; cbn [is_ok].
  { apply wp_ret. split_and!; [done..|]. intros h [?|?]; apply Hkeep; auto. }
  apply wp_bind, wp_try. unfold wp at 1. cbn [fst snd]. change (voterServers n1) with (voterServers n). rewrite Hvoters.
  eapply wp_mono; [apply (wp_sync_blobs E voters _ root n1); [done..|]|].
  { intros h Hh. destruct (Hall h Hh) as [?|?]; [left; auto|right]. by eapply available_mono. }
  intros r2 n2 (-> & Hw2 & Hh). split_and!; [done|by etrans|]. intros h [?|?]; apply Hh; auto.
Qed.

(** C14: when the disk has no faults, the TLS files load, and every blob of the
    active snapshot that is missing is delivered by some other voter, one round
    of [syncActiveSnapshot] makes the snapshot complete, whatever the voters
    asked before answer; no blob the node had is lost. *)
Theorem syncActiveSnapshot_repairs (E : env) `{!RaftLaws R E, !PeersLaws P E} (root : string) (m : Manifest)
    (voters : list Server) (n n' : Node) (r : result unit) :
  (∀ t, io_fault E t = None) → n_blobStore n = Some root → internalHTTPClient n = Ok tt →
  ActiveSnapshot n = Some m → voterServers n = Ok voters →
  (∀ h, h ∈ manifestBlobHashes m → has_blob root (n_files n) h ∨ available voters n h) →
  syncActiveSnapshot E n = (r, n') →
  r = Ok tt ∧ (verifyManifestBlobs E m n').1 = Ok tt ∧ ∀ h, has_blob root (n_files n) h → has_blob root (n_files n') h.
Proof.
  intros HE Hroot Hclient Hactive Hvoters Hall Hrun. revert Hrun.
  cut (wp (syncActiveSnapshot E) (λ r n', r = Ok tt ∧ works E n n' ∧ ∀ h, has_blob root (n_files n) h
    ∨ h ∈ manifestBlobHashes m → has_blob root (n_files n') h) n).
  { intros H Hrun. destruct (wp_eq _ _ _ _ _ Hrun H) as (-> & Hw & Hh). split_and!; [done| |by auto].
    unfold verifyManifestBlobs, with_store.
    rewrite (sn_blobStore _ _ (ev_same _ _ _ (wk_evolves _ _ _ Hw))), Hroot.
    pose proof (verify_blobs_succeeds E root (manifestBlobHashes m) (n_files n') HE) as Hv.
    destruct (verify_blobs E root _ _). apply Hv. auto. }
  by apply (wp_syncActiveSnapshot E root m voters).
Qed.

(** A peer that serves one blob at every address. *)
Definition ex_serving : Peers := {|
  client_Do rq n := (Ok (mkResponse StatusOK [] abc None None), n);
  http_NewRequest method url := Ok tt;
  tls_LoadX509KeyPair cert key := Ok tt;
  os_ReadFile path := Ok "";
  AppendCertsFromPEM pem := true;
|}.
#[export] Instance ex_serving_laws : PeersLaws ex_serving calm.
Proof. split. intros. apply moves_refl. Qed.

Lemma syncActiveSnapshot_repairs_witness :
  let n := ex_node ex_config ex_follower ex_snapshot_fsm in
  (verifyManifestBlobs calm (cloneManifest (with_manifest_hash "m" ex_manifest)) (syncActiveSnapshot (P := ex_serving) calm n).2).1 = Ok tt.
Proof.
  intros n. set (run := syncActiveSnapshot _ n).
  refine (proj1 (proj2 (syncActiveSnapshot_repairs (R := solo) (P := ex_serving) calm "/data/cas" _ ex_servers n run.2 run.1
    (λ _, eq_refl) eq_refl eq_refl eq_refl eq_refl _ (surjective_pairing run)))).
  intros h Hh. right. change (h ∈ [abc_hash]) in Hh. apply list_elem_of_singleton in Hh as ->.
  exists (mkServer Voter "n2" "h2:7000"), "https://h2:7443". split_and!; [right; left|done|reflexivity|].
  split; [done|]. intros n1. exists (mkResponse StatusOK [] abc None None), "abc". by rewrite sha256_abc.
Defined.

(** ** Acknowledged and lost *)

(** C40: a voter that has accepted a blob of a snapshot being published, with
    success and without any fault, loses it at its next collection: the staging
    counts that protect such blobs exist on the publishing node only.  The
    durable majority of the publisher can thus be gone before the commit. *)
Theorem acked_blob_collected (E : env) (root : string) (r : reader) (n : Node) :
  let h := HashPrefixSHA256 +:+ sha256_hex (r_data r) in
  (∀ t, io_fault E t = None) → n_blobStore n = Some root → r_err r = None →
  n_stagingBlobs n !! h = None → (∀ k m, ms_Snapshots (Metadata n) !! k = Some m → ¬ manifest_blob m h) →
  ∃ n1 n2, with_store (λ root, PutHash E root h r) n = (Ok tt, n1)
  ∧ has_blob root (n_files n1) h
  ∧ gcSnapshotBlobs E n1 = (Ok tt, n2)
  ∧ ¬ has_blob root (n_files n2) h.
Proof.
  intros h HE Hroot Hr Hstaged Hcommitted.
  destruct (PutHash_succeeds E root HE h (sha256_hex (r_data r)) r (n_files n)) as [w Hput];
    [apply normalize_digest|done|done|].
  pose proof (wp_PutHash_blob E root (r_data r) r (n_files n)) as Hblob. cbn zeta in Hblob. fold h in Hblob.
  apply (wp_eq _ _ _ _ _ Hput) in Hblob as [_ Hblob].
  exists (set_files w n). destruct (gcSnapshotBlobs E (set_files w n)) as [r2 n2] eqn:Hgc. exists n2.
  destruct (wp_eq _ _ _ _ _ Hgc (wp_gcSnapshotBlobs E _)) as (-> & w2 & -> & Hw).
  destruct (Hw root Hroot) as (_ & _ & Hgone).
  split_and!; [unfold with_store; by rewrite Hroot, Hput|by apply Hblob|done|].
  intros (d & Hd & (f & Hf & _)%stored_inv). apply append_inj_length in Hd as [_ Hd]; [|done]. rewrite Hd in Hf.
  cbn [n_files set_files] in Hf. rewrite (Hgone HE) in Hf; [done|]. apply object_collectable. fold h.
  intros [[c Hc]|(k & m & Hm & _ & Hin)]%retained_committed; [|by eapply Hcommitted].
  cbn [n_stagingBlobs set_files] in Hc. congruence.
Qed.

Lemma acked_blob_collected_witness :
  ∃ n1 n2, with_store (λ root, PutHash calm root (HashPrefixSHA256 +:+ sha256_hex "abc") abc) (ex_node ex_config ex_follower ex_fsm) = (Ok tt, n1)
  ∧ gcSnapshotBlobs calm n1 = (Ok tt, n2) ∧ ¬ has_blob "/data/cas" (n_files n2) (HashPrefixSHA256 +:+ sha256_hex "abc").
Proof.
  set (h := HashPrefixSHA256 +:+ sha256_hex "abc").
  assert (∀ k m, (∅ : gmap string Manifest) !! k = Some m → ¬ manifest_blob m h) as Hnone.
  { intros k m Hm. by rewrite lookup_empty in Hm. }
  destruct (acked_blob_collected calm "/data/cas" abc (ex_node ex_config ex_follower ex_fsm) (λ _, eq_refl) eq_refl eq_refl
    (lookup_empty h) Hnone) as (n1 & n2 & H1 & _ & H2 & H3).
  exists n1, n2. exact (conj H1 (conj H2 H3)).
Defined.
