(* ===== verification/Reads.v ===== *)
(** * Reads: reading snapshots locally, or through the leader (node.go)

    A node opens the blobs of the snapshots in its own replicated state.  Before
    it answers from them it checks that they are consistent with the leader, or
    it hands the request to the leader.  HTTP headers are lists of keys and
    values, in order, with the keys in canonical form as net/http keeps them. *)
From S2P Require Import Prelude Text Io Sha256 Json GoTime Duration Config Peers Capability Manifest.
From S2P Require Import BlobStore Fsm FsmProofs Node Leadership Membership Publish.
From stdpp Require Import options.
From Stdlib Require Import Ascii.
#[local] Open Scope io_scope.

(** ** Headers *)

Definition HeaderRequestID : string := "X-ClusterHA-Request-ID".
Definition HeaderForwardedBy : string := "X-ClusterHA-Forwarded-By".
Definition HeaderForwardHop : string := "X-ClusterHA-Forward-Hop".
Definition HeaderTargetGeneration : string := "X-ClusterHA-Target-Generation".
Definition HeaderLeaderEpoch : string := "X-ClusterHA-Leader-Epoch".

Definition header_byte (c : ascii) : bool :=
  let n := N_of_ascii c in
  ((48 <=? n) && (n <=? 57) || (65 <=? n) && (n <=? 90) || (97 <=? n) && (n <=? 122))%N
  || has_char c "!#$%&'*+-.^_`|~".

Definition to_lower (c : ascii) : ascii :=
  let n := N_of_ascii c in if ((65 <=? n) && (n <=? 90))%N then ascii_of_N (n + 32) else c.
Definition to_upper (c : ascii) : ascii :=
  let n := N_of_ascii c in if ((97 <=? n) && (n <=? 122))%N then ascii_of_N (n - 32) else c.

(** The first letter and those after a hyphen in upper case, the others in
    lower case. *)
Fixpoint capitalize (start : bool) (s : string) : string :=
  match s with
  | EmptyString => ""
  | String c s =>
      let c := if start then to_upper c else to_lower c in
      String c (capitalize (bool_decide (c = "-"%char)) s)
  end.

Fixpoint all_header_bytes (s : string) : bool :=
  match s with EmptyString => true | String c s => header_byte c && all_header_bytes s end.

(** [http.CanonicalHeaderKey]: a key with other bytes is left as it is. *)
Definition CanonicalHeaderKey (key : string) : string :=
  if all_header_bytes key then capitalize true key else key.

Abbreviation Header := (list (string * string)) (only parsing).
Definition header_Get (h : Header) (key : string) : string :=
  match find (λ kv, str_eqb kv.1 (CanonicalHeaderKey key)) h with Some kv => kv.2 | None => "" end.
Definition header_Add (key value : string) (h : Header) : Header := h ++ [(CanonicalHeaderKey key, value)].
Definition header_Del (key : string) (h : Header) : Header :=
  filter (λ kv : string * string, kv.1 ≠ CanonicalHeaderKey key) h.
Definition header_Set (key value : string) (h : Header) : Header :=
  header_Del key h ++ [(CanonicalHeaderKey key, value)].

Definition clusterHeaderPrefix : string := "X-Clusterha-".

(** [strings.EqualFold]. *)
Definition EqualFold (a b : string) : bool := bool_decide (fold_name a = fold_name b).

Definition copyProxyHeaders (dst src : Header) : Header :=
  foldl (λ dst kv,
    if has_prefix clusterHeaderPrefix (CanonicalHeaderKey kv.1) || EqualFold kv.1 "Host" then dst
    else header_Add kv.1 kv.2 dst) dst src.

Section reads.
Context (E : env) {R : Raft} {P : Peers}.

(** ** Opening the blobs of a snapshot

    The result is what reading the returned file to its end gives. *)

Definition open_blob (hash : string) : nio string := with_store (λ root, Open E root hash).

Definition OpenSnapshotDataset (name : string) : nio (string * DatasetRef) :=
  do! n := get id in
  match ActiveSnapshot n with
  | None => io_err ErrNotExist
  | Some manifest =>
      match datasets manifest !! name with
      | None => io_err ErrNotExist
      | Some ref =>
          match n_blobStore n with
          | None => io_err ErrNodeNotStarted
          | Some _ =>
              if bool_decide (0 < length (d_Shards ref)) then io_err "dataset %q is sharded"
              else do! file := open_blob (d_BlobHash ref) in io_ret (file, ref)
          end
      end
  end.

Definition OpenSnapshotDatasetAt (generation : Generation) (name : string) : nio (string * DatasetRef) :=
  do! n := get id in
  match ms_Snapshots (Metadata n) !! g_ManifestHash generation with
  | None => io_err ErrNotExist
  | Some manifest =>
      if negb (generation_Equal (m_Generation manifest) generation) then io_err ErrNotExist
      else
      match datasets manifest !! name with
      | None => io_err ErrNotExist
      | Some ref =>
          match n_blobStore n with
          | None => io_err ErrNodeNotStarted
          | Some _ =>
              if bool_decide (0 < length (d_Shards ref)) then io_err "dataset %q is sharded"
              else do! file := open_blob (d_BlobHash ref) in io_ret (file, ref)
          end
      end
  end.

Fixpoint open_shard (shards : list DatasetShardRef) (shardKey : string) : nio (string * DatasetShardRef) :=
  match shards with
  | [] => io_err ErrNotExist
  | shard :: shards =>
      if negb (str_eqb (s_Key shard) shardKey) then open_shard shards shardKey
      else do! file := open_blob (s_BlobHash shard) in io_ret (file, shard)
  end.

Definition OpenSnapshotDatasetShardAt (generation : Generation) (name shardKey : string)
    : nio (string * DatasetShardRef) :=
  do! n := get id in
  match Snapshot_ generation n with
  | None => io_err ErrNotExist
  | Some manifest =>
      match datasets manifest !! name with
      | None => io_err ErrNotExist
      | Some ref => open_shard (d_Shards ref) shardKey
      end
  end.

(** ** Reading locally *)

Definition ErrPinExpired : error := "%w: generation pin expired".
Definition barrier_url (base : string) : string := TrimRightChar "/"%char base +:+ "/internal/v1/barrier".

(** A follower answers by itself: it heard from the leader recently and has
    applied the active snapshot. *)
Definition bounded_read (generation : Generation) (state : MetadataState) (n : Node) : bool :=
  let status := n_status n in
  str_eqb (ReadConsistency (n_cfg n)) "bounded" && negb (time_IsZero (st_LastLeaderContactAt status))
  && (time_Sub (n_now n) (st_LastLeaderContactAt status) <=? MaxLeaderContactAge (n_cfg n))%Z
  && containsGeneration (st_AvailableGenerations status) generation
  && match n_raft n with
     | Some r => (ms_ActiveSnapshotIndex state <=? stat r "applied_index")%N
     | None => false
     end.

(** The leader's answer to a barrier agrees with what this node knows. *)
Definition leader_confirms (generation : Generation) (state : MetadataState) (leaderID : string)
    (localApplied : N) (authoritative : Status) : bool :=
  negb (negb (str_eqb (st_NodeID authoritative) leaderID)
        || negb (st_LeaderEpoch authoritative =? ms_LeaderEpoch state)%N
        || negb (containsGeneration (st_AvailableGenerations authoritative) generation)
        || (st_AppliedIndex authoritative <? st_CommittedGenerationIndex authoritative)%N
        || (localApplied <? st_CommittedGenerationIndex authoritative)%N).

Definition ask_leader (generation : Generation) (state : MetadataState) (leaderID base : string) : nio unit :=
  do! resp := send (post_request (barrier_url base)) in
  match rs_Status resp with
  | Some authoritative =>
      if negb (rs_StatusCode resp =? StatusOK)%N then io_err ErrProxyUnavailable
      else
        do! n := get id in
        match n_raft n with
        | None => io_err ErrNodeNotStarted
        | Some r =>
            if leader_confirms generation state leaderID (stat r "applied_index") authoritative then io_ret tt
            else io_err "%w: leader=%s/%s epoch=%d/%d generation=%s/%s local_applied=%d leader_applied=%d leader_commit=%d"
        end
  | None => io_err ErrProxyUnavailable
  end.

Definition verifyLocalReadStrict (ctx : context) (generation : Generation) : nio unit :=
  do! n := get id in
  let state := Metadata n in
  match ms_Snapshots state !! g_ManifestHash generation with
  | None => io_err ErrProxyUnavailable
  | Some manifest =>
      if negb (generation_Equal (m_Generation manifest) generation) then io_err ErrProxyUnavailable
      else
      do! v := io_try (verifyManifestBlobs E manifest) in
      if negb (is_ok v) then io_err ErrProxyUnavailable
      else if negb (str_eqb (ms_ActiveSnapshot state) (g_ManifestHash generation))
              && time_After (n_now n) (time_Add (m_CreatedAt manifest) (GenerationPinTTL (n_cfg n)))
      then io_err ErrPinExpired
      else if HasBusinessLeadership n then VerifyBusinessLeadership ctx
      else if bounded_read generation state n then io_ret tt
      else
        let leaderID := st_LeaderID (n_status n) in
        if str_eqb leaderID "" || str_eqb leaderID (NodeID (n_cfg n)) || negb (str_eqb (ms_LeaderOwner state) leaderID)
        then
          if str_eqb leaderID (NodeID (n_cfg n)) && HasBusinessLeadership n
          then VerifyBusinessLeadership ctx else io_err ErrProxyUnavailable
        else
          match internalAPIURLForNode leaderID n with
          | None => io_err ErrProxyUnavailable
          | Some base => ask_leader generation state leaderID base
          end
  end.

(** The result says whether the read is stale. *)
Definition VerifyLocalReadResult (ctx : context) (generation : Generation) : nio bool :=
  do! r := io_try (verifyLocalReadStrict ctx generation) in
  match r with
  | Ok _ => io_ret false
  | Err e =>
      do! n := get id in
      if negb (EmergencyStaleRead (n_cfg n)) then io_err e
      else match Snapshot_ generation n with
      | None => io_err e
      | Some manifest =>
          do! v := io_try (verifyManifestBlobs E manifest) in
          if negb (is_ok v)
             || (EmergencyStaleReadMaxAge (n_cfg n) <? time_Sub (n_now n) (m_CreatedAt manifest))%Z
          then io_err e else io_ret true
      end
  end.

Definition VerifyLocalRead (ctx : context) (generation : Generation) : nio unit :=
  do! stale := VerifyLocalReadResult ctx generation in io_ret tt.

(** ** Handing a request to the leader *)

Definition leaderStatusCanServeGeneration (status : Status) (generation : Generation) : bool :=
  negb (generation_IsZero generation) && containsGeneration (st_AvailableGenerations status) generation.

(** What is written to the client; the error of reading the body is returned
    after what was read has been written. *)
Record proxied := mkProxied { px_Code : N; px_Header : Header; px_Body : reader }.

(** The request forwarded to the leader; [rq_URL] of the incoming request is
    its [RequestURI]. *)
Definition proxy_request (base nodeID : string) (epoch : N) (generation : Generation) (rq : request) : request :=
  let h := copyProxyHeaders [] (rq_Header rq) in
  let h := header_Set HeaderForwardHop "1" h in
  let h := header_Set HeaderForwardedBy nodeID h in
  let h := header_Set HeaderLeaderEpoch (FormatUint epoch) h in
  let h := if negb (generation_IsZero generation)
           then header_Set HeaderTargetGeneration (generation_String generation) h else h in
  mkRequest (rq_Method rq) (TrimRightChar "/"%char base +:+ "/internal/v1/proxy" +:+ rq_URL rq) h (rq_Body rq).

(** [w] holds the headers set by the caller. *)
Definition ProxyToLeader (w : Header) (rq : request) (targetGeneration : Generation) : nio proxied :=
  do! n := get id in
  let status := n_status n in
  let state := Metadata n in
  let leaderID := st_LeaderID status in
  if str_eqb leaderID "" || str_eqb leaderID (NodeID (n_cfg n)) || str_eqb (ms_LeaderOwner state) (NodeID (n_cfg n))
     || str_eqb (ms_LeaderOwner state) "" || negb (str_eqb (ms_LeaderOwner state) leaderID)
     || (ms_LeaderEpoch state =? 0)%N
  then io_err ErrProxyUnavailable
  else
    match internalAPIURLForNode leaderID n with
    | None => io_err ErrProxyUnavailable
    | Some base =>
        do! barrierResp := send (post_request (barrier_url base)) in
        match rs_Status barrierResp with
        | None => io_err ErrProxyUnavailable
        | Some leaderStatus =>
            if negb (rs_StatusCode barrierResp =? StatusOK)%N || negb (str_eqb (st_NodeID leaderStatus) leaderID)
               || negb (st_LeaderEpoch leaderStatus =? ms_LeaderEpoch state)%N
               || (st_AppliedIndex leaderStatus <? st_CommitIndex leaderStatus)%N
            then io_err ErrProxyUnavailable
            else
              let generation := if generation_IsZero targetGeneration
                                then st_CommittedGeneration leaderStatus else targetGeneration in
              if generation_IsZero generation then io_err ErrProxyUnavailable
              else if negb (leaderStatusCanServeGeneration leaderStatus generation) then io_err ErrProxyUnavailable
              else
                let forward := proxy_request base (NodeID (n_cfg n)) (ms_LeaderEpoch state) generation rq in
                run! io_of (http_NewRequest (rq_Method forward) (rq_URL forward)) in
                do! resp := record_call (CallHTTP forward) (client_Do forward) in
                io_ret (mkProxied (rs_StatusCode resp)
                  (header_Set "X-Meraki-Proxied" "true" (foldl (λ h kv, header_Add kv.1 kv.2 h) w (rs_Header resp)))
                  (rs_Body resp))
        end
    end.
End reads.

Example CanonicalHeaderKey_cluster : CanonicalHeaderKey HeaderForwardHop = "X-Clusterha-Forward-Hop".
Proof. reflexivity. Qed.
Example copyProxyHeaders_drops : copyProxyHeaders [] [("x-clusterHA-Forward-Hop", "7"); ("host", "h"); ("accept", "a")]
  = [("Accept", "a")].
Proof. reflexivity. Qed.
