(* ===== verification/ReadsSpec.v ===== *)
(** * ReadsSpec: what a read that is allowed rests on

    A local read is allowed only for a committed snapshot whose blobs are all
    intact here, and only with the backing of the leadership; what is opened is
    what the manifest names; a request goes to the leader only after a barrier,
    and only with the cluster headers of this node. *)
From S2P Require Import Prelude Text Io Sha256 Json GoTime GoTimeProofs Duration Config Peers Capability Manifest.
From S2P Require Import BlobStore BlobStoreProofs BlobStoreSpec Fsm FsmProofs Node Leadership NodeProofs.
From S2P Require Import LeadershipProofs Examples CommandSpec Membership Publish PublishProofs PublishSpec Reads.
From stdpp Require Import options.
From Stdlib Require Import Ascii.
#[local] Open Scope io_scope.

(** ** Local reads *)

(** The snapshot of [generation] is committed in the state of [n], and its blobs
    are all intact in the store. *)
Definition local_copy (generation : Generation) (m : Manifest) (n : Node) : Prop :=
  ms_Snapshots (Metadata n) !! g_ManifestHash generation = Some m ∧ m_Generation m = generation
  ∧ ∃ root, n_blobStore n = Some root ∧ ∀ h, h ∈ manifestBlobHashes m → has_blob root (n_files n) h.

(** The snapshot is active, or young enough to be pinned by its readers. *)
Definition not_expired (m : Manifest) (n : Node) : Prop :=
  ms_ActiveSnapshot (Metadata n) = g_ManifestHash (m_Generation m)
  ∨ (t_ns (n_now n) ≤ t_ns (m_CreatedAt m) + GenerationPinTTL (n_cfg n))%Z.

(** Three reasons to answer without a stale flag: the node led when it was asked
    and its leadership was confirmed since; it follows within the configured
    bounds; or the leader, named by Raft and by the replicated state, answered a
    barrier, and this node has applied what the leader says is committed. *)
Inductive backed (generation : Generation) (n n' : Node) : Prop :=
| backed_leader : (∃ rv f, leads (n_now n) n rv f) →
    (∃ s t, called n n' (mkCall s t (CallVerifyLeader (Ok tt)))) → (∃ s t, called n n' (mkCall s t (CallBarrier (Ok tt)))) →
    backed generation n n'
| backed_bounded rv : ReadConsistency (n_cfg n) = "bounded" → time_IsZero (st_LastLeaderContactAt (n_status n)) = false →
    (time_Sub (n_now n) (st_LastLeaderContactAt (n_status n)) ≤ MaxLeaderContactAge (n_cfg n))%Z →
    generation ∈ st_AvailableGenerations (n_status n) → n_raft n = Some rv →
    (ms_ActiveSnapshotIndex (Metadata n) ≤ stat rv "applied_index")%N → backed generation n n'
| backed_barrier s t base resp status rv :
    called n n' (mkCall s t (CallHTTP (post_request (barrier_url base)) (Ok resp))) →
    internalAPIURLForNode (st_LeaderID (n_status n)) n = Some base →
    st_LeaderID (n_status n) = ms_LeaderOwner (Metadata n) → ms_LeaderOwner (Metadata n) ≠ NodeID (n_cfg n) →
    rs_StatusCode resp = StatusOK → rs_Status resp = Some status → st_NodeID status = ms_LeaderOwner (Metadata n) →
    st_LeaderEpoch status = ms_LeaderEpoch (Metadata n) → generation ∈ st_AvailableGenerations status →
    (st_CommittedGenerationIndex status ≤ st_AppliedIndex status)%N →
    n_raft n' = Some rv → (st_CommittedGenerationIndex status ≤ stat rv "applied_index")%N →
    backed generation n n'.

(** What an answer to [VerifyLocalReadResult] promises; [stale] is the flag. *)
Definition read_promise (generation : Generation) (stale : bool) (n n' : Node) : Prop :=
  if stale then
    EmergencyStaleRead (n_cfg n) = true
    ∧ ∃ m, local_copy generation m n'
      ∧ (time_Sub (n_now n') (m_CreatedAt m) ≤ EmergencyStaleReadMaxAge (n_cfg n))%Z
  else ∃ m, local_copy generation m n ∧ not_expired m n ∧ backed generation n n'.

Lemma wp_verifyManifest E m n :
  wp (verifyManifestBlobs E m)
    (λ r n', ∃ w, n' = set_files w n ∧ w_vol w = w_vol (n_files n) ∧ (r = Ok tt →
       ∃ root, n_blobStore n = Some root ∧ ∀ h, h ∈ manifestBlobHashes m → has_blob root (n_files n) h)) n.
Proof.
  apply wp_with_store.
  { intros _. exists (n_files n). split_and!; [by destruct n|done|done]. }
  intros root Hroot. eapply wp_mono; [apply wp_verify_blobs|]. intros r w [Hv Hr]. exists w.
  split_and!; [done|done|]. intros ->. exists root. split; [done|by apply Hr].
Qed.

Lemma Snapshot_Some generation n m :
  Snapshot_ generation n = Some m →
  ∃ m0, ms_Snapshots (Metadata n) !! g_ManifestHash generation = Some m0 ∧ m = cloneManifest m0 ∧ m_Generation m0 = generation.
Proof.
  unfold Snapshot_. destruct (_ !! _) as [m0|]; [|done]. destruct (generation_Equal _ _) eqn:Hg; [|done].
  intros [= <-]. apply generation_Equal_eq in Hg. by exists m0.
Qed.

Section reads.
Context (E : env) {R : Raft} {P : Peers} `{!RaftLaws R E} `{!PeersLaws P E}.
Set Default Proof Using "Type*".

Lemma wp_verify_leading ctx generation n n1 :
  (∃ rv f, leads (n_now n) n rv f) → evolves E n n1 → n_calls n1 = n_calls n →
  wp (VerifyBusinessLeadership ctx) (λ r n', evolves E n n' ∧ (r = Ok tt → backed generation n n')) n1.
Proof using RaftLaws0.
  intros Hleads Hev Hcalls. apply (wp_VerifyBusinessLeadership E).
  - intros e _. by split.
  - intros _ n2 e Hn2 _. split; [by etrans|done].
  - intros _ n2 e Hn2. split; [|done]. etrans; [exact Hev|]. etrans; [exact Hn2|]. by apply local_evolves.
  - intros _ n2 c1 c2 Hn2 _ Hc _. split.
    { etrans; [exact Hev|]. etrans; [exact Hn2|]. by apply local_evolves. }
    intros _. apply backed_leader; [done|..]; eexists _, _, [_; _];
      (split; [cbn [n_calls set_status updateCachedLeadership]; by rewrite Hc, Hcalls|]); [right; left|left].
Qed.

Lemma wp_ask_leader generation state leaderID base n :
  wp (ask_leader generation state leaderID base)
    (λ r n', evolves E n n' ∧ (r = Ok tt → ∃ s t resp status rv,
       called n n' (mkCall s t (CallHTTP (post_request (barrier_url base)) (Ok resp)))
       ∧ rs_StatusCode resp = StatusOK ∧ rs_Status resp = Some status ∧ n_raft n' = Some rv
       ∧ leader_confirms generation state leaderID (stat rv "applied_index") status = true)) n.
Proof using PeersLaws0.
  apply wp_bind, wp_bind. unfold wp at 1. cbn [fst snd]. destruct (internalHTTPClient n); [|done].
  apply wp_bind, wp_of. destruct (http_NewRequest _ _); [|done].
  eapply wp_record; [apply Do_moves|]. intros r n1 _ Hn1. set (rq := post_request _). set (n2 := set_calls _ n1).
  assert (evolves E n n2) as Hev by exact (moves_evolves E [_] n n1 Hn1).
  destruct r as [resp|e]; [|done]. destruct (rs_Status resp) as [status|] eqn:Hst; [|by apply wp_err].
  destruct (negb _) eqn:Hcode; [by apply wp_err|]. bool_simpl. apply wp_bind, wp_get. cbn [Datatypes.id].
  destruct (n_raft n2) as [rv|] eqn:Hrv; [|by apply wp_err].
  destruct (leader_confirms _ _ _ _ _) eqn:Hconf; [|by apply wp_err]. apply wp_ret. split; [done|]. intros _.
  eexists _, _, resp, status, rv. split_and!; [|done..]. eexists [_]. split; [reflexivity|left].
Qed.

Lemma wp_verifyLocalReadStrict ctx generation n :
  wp (verifyLocalReadStrict E ctx generation)
    (λ r n', evolves E n n' ∧ (r = Ok tt → read_promise generation false n n')) n.
Proof.
  apply wp_bind, wp_get. cbn [Datatypes.id]. destruct (_ !! _) as [m|] eqn:Hm; [|by apply wp_err].
  destruct (generation_Equal _ _) eqn:Hg; [|by apply wp_err]. apply generation_Equal_eq in Hg. cbn [negb].
  apply wp_bind, wp_try. eapply wp_mono; [apply wp_verifyManifest|]. intros v n1 (w & -> & Hvol & Hv).
  set (n1 := set_files w n). assert (evolves E n n1) as Hev by by apply local_evolves.
  destruct v as [[]|e]; cbn [is_ok negb]; [|by apply wp_err].
  assert (local_copy generation m n) as Hcopy by (by split_and!; [..|by apply Hv]).
  destruct (negb (str_eqb _ _) && _) eqn:Hexp; [by apply wp_err|].
  assert (not_expired m n) as Hfresh.
  { unfold not_expired. rewrite Hg. destruct (negb (str_eqb _ _)) eqn:Ha; bool_simpl; [|by left]. right.
    simpl in Hexp. unfold time_After, time_Add in Hexp. bool_simpl. simpl in Hexp. lia. }
  assert (∀ n', (backed generation n n') → read_promise generation false n n') as Hgo.
  { intros n' Hb. exists m. by split_and!. }
  unfold HasBusinessLeadership. destruct (checkLocalBusinessLeadership (n_now n) n) as [[]|e] eqn:Hlead; cbn [is_ok].
  { eapply wp_mono; [apply (wp_verify_leading ctx generation n n1); [by apply checkLocal_leads|done..]|].
    intros r n2 [? Hr]. split; [done|]. intros Hok. by apply Hgo, Hr. }
  destruct (bounded_read generation (Metadata n) n) eqn:Hb.
  { apply wp_ret. split; [done|]. intros _. apply Hgo. unfold bounded_read in Hb. apply andb_true_iff in Hb as [Hb Happ].
    bool_simpl. destruct (n_raft n) as [rv|] eqn:Hrv; [|done]. bool_simpl.
    apply (backed_bounded _ _ _ rv); try done. by apply containsGeneration_in. }
  destruct (_ || negb _) eqn:Hlid.
  { destruct (str_eqb _ _ && _) eqn:Hself; [|by apply wp_err]. bool_simpl. done. }
  bool_simpl. destruct (internalAPIURLForNode _ n) as [base|] eqn:Hbase; [|by apply wp_err].
  eapply wp_mono; [apply wp_ask_leader|]. intros r n2 [Hev2 Hr]. split; [by etrans|]. intros Hok. apply Hgo.
  destruct (Hr Hok) as (s & t & resp & status & rv & Hcall & Hcode & Hstatus & Hrv & Hconf).
  unfold leader_confirms in Hconf. bool_simpl.
  eapply (backed_barrier _ _ _ s t base resp status rv); try done.
  - congruence.
  - congruence.
  - by apply containsGeneration_in.
Qed.

Lemma wp_VerifyLocalReadResult ctx generation n :
  wp (VerifyLocalReadResult E ctx generation)
    (λ r n', evolves E n n' ∧ ∀ stale, r = Ok stale → read_promise generation stale n n') n.
Proof.
  apply wp_bind, wp_try. eapply wp_mono; [apply wp_verifyLocalReadStrict|]. intros [[]|e] n1 [Hev Hr].
  { apply wp_ret. split; [done|]. intros stale [= <-]. by apply Hr. }
  pose proof (sn_cfg _ _ (ev_same _ _ _ Hev)) as Hcfg.
  apply wp_bind, wp_get. cbn [Datatypes.id]. destruct (negb (EmergencyStaleRead _)) eqn:Hstale; [by apply wp_err|].
  destruct (Snapshot_ generation n1) as [m|] eqn:Hm; [|by apply wp_err].
  apply Snapshot_Some in Hm as (m0 & Hm0 & -> & Hgen).
  apply wp_bind, wp_try. eapply wp_mono; [apply wp_verifyManifest|]. intros v n2 (w & -> & Hvol & Hv).
  assert (evolves E n (set_files w n1)) as Hev2 by (etrans; [exact Hev|by apply local_evolves]).
  destruct v as [[]|e']; cbn [is_ok negb orb]; [|by apply wp_err].
  destruct (_ <? _)%Z eqn:Hage; [by apply wp_err|]. apply wp_ret. split; [done|]. intros stale [= <-]. bool_simpl.
  rewrite Hcfg in *. split; [done|]. exists m0. split; [|done]. split_and!; [done|done|].
  destruct (Hv eq_refl) as (root & Hroot & Hall). exists root. split; [done|]. intros h Hh.
  eapply has_blob_same; [exact Hvol|]. by apply Hall.
Qed.
End reads.

(** C15: a local read is allowed only for a snapshot that is committed in the
    replicated state of the node, with all its blobs verified in the local store,
    active or still pinned, and backed by the leadership: by this node as a
    leader confirmed during the call, by recent contact with the leader, or by
    the leader's answer to a barrier during the call.  Without that, it is
    answered as stale only when the configuration allows stale reads and the
    snapshot is intact and not older than their bound. *)
Theorem VerifyLocalReadResult_sound (E : env) `{!RaftLaws R E, !PeersLaws P E} (ctx : context)
    (generation : Generation) (n n' : Node) (stale : bool) :
  VerifyLocalReadResult E ctx generation n = (Ok stale, n') → read_promise generation stale n n'.
Proof.
  intros Hrun. destruct (wp_eq _ _ _ _ _ Hrun (wp_VerifyLocalReadResult E ctx generation n)) as [_ H]. by apply H.
Qed.

(** A follower with the example snapshot that heard from the leader just now, and
    one that did not but allows stale reads. *)
Definition ex_generation : Generation := mkGeneration "c" 1 1 "m".
Definition ex_follow_status (s : Status) : Status :=
  mkStatus true true ReadinessReady "" "c" "n1" RoleFollower "n2" "h2:7000" 1 7 9 9 false zero_time ex_now
    "bounded" false "" "" ex_generation 5 [ex_generation] 1 1 SupportedNodeCapabilities LegacyCapabilityGate
    true true 1 "" 0 "".
Definition ex_reading : Node := set_status (ex_follow_status zero_Status) (ex_holding ex_snapshot_fsm).

Lemma VerifyLocalReadResult_sound_witness :
  let run := VerifyLocalReadResult (R := solo) (P := ex_peers) calm (λ _, None) ex_generation ex_reading in
  read_promise ex_generation false ex_reading run.2.
Proof.
  intros run. assert (run.1 = Ok false) as Hrun by (vm_compute; reflexivity).
  exact (VerifyLocalReadResult_sound (R := solo) (P := ex_peers) calm (λ _, None) ex_generation ex_reading run.2 false (pair_eq run _ Hrun)).
Defined.

(** ** Opening *)

(** The content is the blob [h] names. *)
Definition content_of (h content : string) : Prop := HashPrefixSHA256 +:+ sha256_hex content = h.

Lemma wp_open_blob E h n :
  wp (open_blob E h) (λ r n', local n n' ∧ ∀ d, r = Ok d → content_of h d) n.
Proof.
  apply wp_with_store; [done|]. intros root _. eapply wp_mono; [apply wp_Open|]. intros r w [_ Hr].
  split; [done|]. intros d Hd. by apply Hr.
Qed.

Lemma wp_open_shard E shards key n :
  wp (open_shard E shards key)
    (λ r n', local n n' ∧ ∀ d shard, r = Ok (d, shard) → shard ∈ shards ∧ s_Key shard = key ∧ content_of (s_BlobHash shard) d) n.
Proof.
  induction shards as [|shard shards IH]; [by apply wp_err|]. cbn [open_shard].
  destruct (str_eqb (s_Key shard) key) eqn:Hk; cbn [negb]; bool_simpl.
  - apply wp_bind. eapply wp_mono; [apply wp_open_blob|]. intros [d|e] n1 [Hl Hd]; [|by split].
    apply wp_ret. split; [done|]. intros d' shard' [= <- <-]. split_and!; [left|done|by apply Hd].
  - eapply wp_mono; [apply IH|]. intros r n1 [Hl Hr]. split; [done|]. intros d shard' Hok.
    destruct (Hr d shard' Hok) as (? & ? & ?). split_and!; [by right|done|done].
Qed.

(** The dataset belongs to the committed snapshot under [hash]. *)
Definition dataset_of (n : Node) (hash name : string) (ref : DatasetRef) (g : Generation) : Prop :=
  ∃ m, ms_Snapshots (Metadata n) !! hash = Some m ∧ datasets m !! name = Some ref ∧ m_Generation m = g.

(** what the node opens for a reader is what a committed manifest names.  A
    dataset of the active snapshot, a dataset of a given generation, and a shard
    of one: if opening succeeds, the manifest of that generation is committed in
    the replicated state, it has this dataset (unsharded) or shard, and the bytes
    read have exactly the digest it names; and nothing but the files read is
    touched. *)
Theorem OpenSnapshotDataset_content (E : env) (n n' : Node) (generation : Generation) (name key data : string)
    (ref : DatasetRef) (shard : DatasetShardRef) :
  (OpenSnapshotDataset E name n = (Ok (data, ref), n') →
     local n n' ∧ content_of (d_BlobHash ref) data ∧ d_Shards ref = []
     ∧ ∃ g, dataset_of n (ms_ActiveSnapshot (Metadata n)) name ref g)
  ∧ (OpenSnapshotDatasetAt E generation name n = (Ok (data, ref), n') →
     local n n' ∧ content_of (d_BlobHash ref) data ∧ d_Shards ref = []
     ∧ dataset_of n (g_ManifestHash generation) name ref generation)
  ∧ (OpenSnapshotDatasetShardAt E generation name key n = (Ok (data, shard), n') →
     local n n' ∧ content_of (s_BlobHash shard) data ∧ s_Key shard = key
     ∧ ∃ ref, shard ∈ d_Shards ref ∧ dataset_of n (g_ManifestHash generation) name ref generation).
Proof.
  assert (∀ ref : DatasetRef, bool_decide (0 < length (d_Shards ref)) = false → d_Shards ref = []) as Hempty.
  { intros ref' H. bool_simpl. destruct (d_Shards ref'); simpl in *; [done|lia]. }
  assert (∀ (ref0 : DatasetRef) g hash, dataset_of n hash name ref0 g →
    wp (match n_blobStore n with
        | None => io_err ErrNodeNotStarted
        | Some _ => if bool_decide (0 < length (d_Shards ref0)) then io_err "dataset %q is sharded"
                    else do! file := open_blob E (d_BlobHash ref0) in io_ret (file, ref0)
        end) (λ r n', ∀ d ref, r = Ok (d, ref) → local n n' ∧ content_of (d_BlobHash ref) d ∧ d_Shards ref = []
          ∧ dataset_of n hash name ref g) n) as Hopen.
  { intros ref0 g hash Hds. destruct (n_blobStore n); [|by apply wp_err].
    destruct (bool_decide _) eqn:Hs; [by apply wp_err|]. apply wp_bind. eapply wp_mono; [apply wp_open_blob|].
    intros [d|e] n1 [Hl Hd]; [|done]. apply wp_ret. intros d' ref' [= <- <-]. split_and!; [done|by apply Hd|by apply Hempty|done]. }
  split_and!; intros Hrun.
  - revert Hrun. unfold OpenSnapshotDataset, io_bind at 1, get. cbn [Datatypes.id]. unfold ActiveSnapshot.
    destruct (str_eqb _ _); [done|]. destruct (ms_Snapshots (Metadata n) !! _) as [m|] eqn:Hm; [|done]. cbn [fmap option_fmap option_map].
    change (datasets (cloneManifest m)) with (datasets m). destruct (datasets m !! name) as [ref0|] eqn:Hd; [|done].
    intros Hrun. destruct (wp_eq _ _ _ _ _ Hrun (Hopen ref0 (m_Generation m) _ ltac:(by exists m)) data ref eq_refl) as (? & ? & ? & ?).
    split_and!; [done..|by eexists].
  - revert Hrun. unfold OpenSnapshotDatasetAt, io_bind at 1, get. cbn [Datatypes.id].
    destruct (ms_Snapshots (Metadata n) !! _) as [m|] eqn:Hm; [|done].
    destruct (generation_Equal _ _) eqn:Hg; [|done]. apply generation_Equal_eq in Hg. cbn [negb].
    destruct (datasets m !! name) as [ref0|] eqn:Hd; [|done].
    intros Hrun. by apply (wp_eq _ _ _ _ _ Hrun (Hopen ref0 generation _ ltac:(by exists m)) data ref eq_refl).
  - revert Hrun. unfold OpenSnapshotDatasetShardAt, io_bind at 1, get. cbn [Datatypes.id].
    destruct (Snapshot_ generation n) as [m|] eqn:Hm; [|done]. apply Snapshot_Some in Hm as (m0 & Hm0 & -> & Hg).
    change (datasets (cloneManifest m0)) with (datasets m0). destruct (datasets m0 !! name) as [ref0|] eqn:Hd; [|done].
    intros Hrun. destruct (wp_eq _ _ _ _ _ Hrun (wp_open_shard E _ key n)) as [Hl Hr].
    destruct (Hr data shard eq_refl) as (? & ? & ?). split_and!; [done..|]. exists ref0. split; [done|]. by exists m0.
Qed.

Lemma OpenSnapshotDataset_content_witness :
  ∃ ref n', OpenSnapshotDataset calm "d" ex_reading = (Ok ("abc", ref), n') ∧ content_of (d_BlobHash ref) "abc".
Proof.
  set (run := OpenSnapshotDataset calm "d" ex_reading).
  set (ref := mkDatasetRef "d" 1 "" abc_hash "" 1 ex_now true "" "" true false 3 []).
  assert (run.1 = Ok ("abc", ref)) as Hrun by (vm_compute; reflexivity). exists ref, run.2.
  split; [exact (pair_eq run _ Hrun)|].
  exact (proj1 (proj2 (proj1 (OpenSnapshotDataset_content calm ex_reading run.2 ex_generation "d" "" "abc" ref zero_DatasetShardRef)
    (pair_eq run _ Hrun)))).
Defined.

(** ** The proxy *)

Definition is_cluster (kv : string * string) : Prop := has_prefix clusterHeaderPrefix kv.1 = true.
#[export] Instance is_cluster_dec kv : Decision (is_cluster kv) := decide (_ = true).

(** The headers of a client that are passed on. *)
Definition passed (h : list (string * string)) : list (string * string) :=
  (λ kv : string * string, (CanonicalHeaderKey kv.1, kv.2)) <$>
    filter (λ kv : string * string, ¬ is_cluster (CanonicalHeaderKey kv.1, kv.2) ∧ EqualFold kv.1 "Host" = false) h.

Lemma copyProxyHeaders_passed h : copyProxyHeaders [] h = passed h.
Proof.
  unfold copyProxyHeaders. change (passed h) with ([] ++ passed h). generalize ([] : list (string * string)) as dst.
  induction h as [|[k v] h IH]; intros dst; cbn [foldl]; [by rewrite app_nil_r|]. rewrite IH. unfold passed.
  rewrite filter_cons. cbn [fst snd].
  assert (is_cluster (CanonicalHeaderKey k, v) ↔ has_prefix clusterHeaderPrefix (CanonicalHeaderKey k) = true) as Hc by done.
  destruct (decide _) as [[H1 H2]|Hn]; rewrite Hc in *.
  - apply not_true_is_false in H1. rewrite H1, H2. cbn [orb]. unfold header_Add. rewrite fmap_cons, <- app_assoc. done.
  - destruct (has_prefix _ _); [done|]. destruct (EqualFold k "Host"); [done|]. by destruct Hn.
Qed.

Lemma passed_not_cluster h : filter is_cluster (passed h) = [].
Proof.
  unfold passed. induction h as [|kv h IH]; [done|]. rewrite filter_cons. destruct (decide _) as [[Hn _]|]; [|done].
  rewrite fmap_cons, filter_cons_False by done. exact IH.
Qed.

Lemma header_Del_cluster key l :
  is_cluster (CanonicalHeaderKey key, "") → filter is_cluster l = [] → header_Del key l = l.
Proof.
  intros Hk. unfold header_Del. induction l as [|kv l IH]; [done|]. rewrite !filter_cons.
  destruct (decide (is_cluster kv)) as [|Hn]; [done|]. intros Hl. rewrite decide_True; [by rewrite IH|].
  intros He. apply Hn. unfold is_cluster in *. by rewrite He.
Qed.

Definition cluster_headers (nodeID : string) (epoch : N) (generation : Generation) : list (string * string) :=
  [(CanonicalHeaderKey HeaderForwardHop, "1"); (CanonicalHeaderKey HeaderForwardedBy, nodeID);
   (CanonicalHeaderKey HeaderLeaderEpoch, FormatUint epoch)]
  ++ (if generation_IsZero generation then [] else [(CanonicalHeaderKey HeaderTargetGeneration, generation_String generation)]).

Lemma header_Del_app key l1 l2 : header_Del key (l1 ++ l2) = header_Del key l1 ++ header_Del key l2.
Proof. apply filter_app. Qed.

Lemma header_Get_app key l1 l2 :
  header_Get (l1 ++ l2) key = if decide (CanonicalHeaderKey key ∈ l1.*1) then header_Get l1 key else header_Get l2 key.
Proof.
  unfold header_Get. induction l1 as [|[k v] l1 IH]; [by rewrite decide_False by apply not_elem_of_nil|].
  rewrite fmap_cons. cbn [app find fst]. destruct (str_eqb k _) eqn:Hk; bool_simpl.
  - by rewrite decide_True by (subst; left).
  - rewrite IH. destruct (decide _) as [Hin|Hin]; [by rewrite decide_True by (right; done)|].
    rewrite decide_False; [done|]. intros [?|?]%elem_of_cons; [congruence|done].
Qed.

Lemma passed_keys h key : is_cluster (CanonicalHeaderKey key, "") → CanonicalHeaderKey key ∉ (passed h).*1.
Proof.
  intros Hk Hin. apply list_elem_of_fmap in Hin as (kv & Heq & Hin).
  assert (kv ∈ filter is_cluster (passed h)) as Hf.
  { apply list_elem_of_filter. split; [|done]. unfold is_cluster in *. by rewrite <- Heq. }
  rewrite passed_not_cluster in Hf. by apply elem_of_nil in Hf.
Qed.

Lemma proxy_headers_eq base nodeID epoch generation rq :
  rq_Header (proxy_request base nodeID epoch generation rq) = passed (rq_Header rq) ++ cluster_headers nodeID epoch generation.
Proof.
  unfold proxy_request. cbn [rq_Header]. rewrite copyProxyHeaders_passed. unfold header_Set, cluster_headers.
  assert (∀ key, is_cluster (CanonicalHeaderKey key, "") → header_Del key (passed (rq_Header rq)) = passed (rq_Header rq)) as Hdel.
  { intros key Hk. apply header_Del_cluster; [done|apply passed_not_cluster]. }
  destruct (generation_IsZero generation); cbn [negb];
    rewrite !header_Del_app, !Hdel by reflexivity; rewrite <- !app_assoc; done.
Qed.

Lemma proxy_header_Get base nodeID epoch generation rq key :
  is_cluster (CanonicalHeaderKey key, "") →
  header_Get (rq_Header (proxy_request base nodeID epoch generation rq)) key
    = header_Get (cluster_headers nodeID epoch generation) key.
Proof. intros Hk. rewrite proxy_headers_eq, header_Get_app, decide_False; [done|]. by apply passed_keys. Qed.

(** a client cannot forge the cluster headers of a forwarded request.  The
    headers are the client's own, without any it sent under the cluster's prefix
    in whatever case and without Host, followed by exactly the hop mark, the name
    of this node, the epoch and the generation; the leader reads those. *)
Theorem proxy_request_headers (base nodeID : string) (epoch : N) (generation : Generation) (rq : request) :
  let h := rq_Header (proxy_request base nodeID epoch generation rq) in
  h = passed (rq_Header rq) ++ cluster_headers nodeID epoch generation
  ∧ filter is_cluster h = cluster_headers nodeID epoch generation
  ∧ header_Get h HeaderForwardHop = "1" ∧ header_Get h HeaderForwardedBy = nodeID
  ∧ header_Get h HeaderLeaderEpoch = FormatUint epoch
  ∧ (generation_IsZero generation = false → header_Get h HeaderTargetGeneration = generation_String generation).
Proof.
  intros h. pose proof (proxy_headers_eq base nodeID epoch generation rq) as Hh. fold h in Hh.
  assert (∀ key, is_cluster (CanonicalHeaderKey key, "") →
    header_Get h key = header_Get (cluster_headers nodeID epoch generation) key) as Hget by (intros; by apply proxy_header_Get).
  split_and!; [done| |rewrite Hget by reflexivity; done..|intros Hz; rewrite Hget by reflexivity].
  - rewrite Hh, filter_app, passed_not_cluster. unfold cluster_headers. by destruct (generation_IsZero generation).
  - unfold cluster_headers. by rewrite Hz.
Qed.

Lemma proxy_request_headers_witness :
  let rq := mkRequest "GET" "/q" [("X-Clusterha-Forward-Hop", "0"); ("Host", "h"); ("Accept", "a")] "" in
  rq_Header (proxy_request "https://h2" "n1" 7 ex_generation rq)
    = ("Accept", "a") :: cluster_headers "n1" 7 ex_generation
  ∧ header_Get (rq_Header (proxy_request "https://h2" "n1" 7 ex_generation rq)) HeaderTargetGeneration = "c/1/1/m".
Proof.
  intros rq. destruct (proxy_request_headers "https://h2" "n1" 7 ex_generation rq) as (H & _ & _ & _ & _ & Hg).
  split; [exact H|exact (Hg eq_refl)].
Defined.

(** What a node has checked before it forwards, and what it forwards. *)
Record forward_checked (rq : request) (target : Generation) (n : Node) (base : string) (resp : response)
    (status : Status) (generation : Generation) : Prop := {
  fc_leader : st_LeaderID (n_status n) = ms_LeaderOwner (Metadata n);
  fc_other : ms_LeaderOwner (Metadata n) ≠ NodeID (n_cfg n) ∧ ms_LeaderOwner (Metadata n) ≠ "";
  fc_epoch : ms_LeaderEpoch (Metadata n) ≠ 0%N ∧ st_LeaderEpoch status = ms_LeaderEpoch (Metadata n);
  fc_base : internalAPIURLForNode (ms_LeaderOwner (Metadata n)) n = Some base;
  fc_answer : rs_StatusCode resp = StatusOK ∧ rs_Status resp = Some status ∧ st_NodeID status = ms_LeaderOwner (Metadata n);
  fc_applied : (st_CommitIndex status ≤ st_AppliedIndex status)%N;
  fc_generation : generation ∈ st_AvailableGenerations status ∧ generation ≠ zero_Generation
    ∧ generation = (if generation_IsZero target then st_CommittedGeneration status else target);
}.

(** What is forwarded: the request of the client, whose headers under the cluster's
    prefix are exactly the marks of this node, the hop, its name, the epoch and the
    generation, whatever the client sent under that prefix. *)
Record forward_marked (rq : request) (base nodeID : string) (epoch : N) (generation : Generation) (fwd : request) : Prop := {
  fm_method : rq_Method fwd = rq_Method rq;
  fm_url : rq_URL fwd = TrimRightChar "/"%char base +:+ "/internal/v1/proxy" +:+ rq_URL rq;
  fm_body : rq_Body fwd = rq_Body rq;
  fm_marks : filter is_cluster (rq_Header fwd)
    = [("X-Clusterha-Forward-Hop", "1"); ("X-Clusterha-Forwarded-By", nodeID);
       ("X-Clusterha-Leader-Epoch", FormatUint epoch); ("X-Clusterha-Target-Generation", generation_String generation)];
  fm_client : filter (λ kv, ¬ is_cluster kv) (rq_Header fwd) = passed (rq_Header rq);
}.

Lemma passed_all h : filter (λ kv, ¬ is_cluster kv) (passed h) = passed h.
Proof.
  pose proof (passed_not_cluster h) as H. induction (passed h) as [|kv l IH]; [done|].
  rewrite filter_cons in H |- *. destruct (decide (is_cluster kv)); [done|].
  rewrite decide_True by done. by rewrite IH.
Qed.

Lemma proxy_request_marked base nodeID epoch generation rq :
  generation ≠ zero_Generation → forward_marked rq base nodeID epoch generation (proxy_request base nodeID epoch generation rq).
Proof.
  intros Hz. assert (generation_IsZero generation = false) as Hzero.
  { destruct (generation_IsZero generation) eqn:H; [|done]. by apply generation_IsZero_eq in H. }
  constructor; [done..| |]; rewrite proxy_headers_eq, filter_app; unfold cluster_headers; rewrite Hzero.
  - by rewrite passed_not_cluster.
  - by rewrite passed_all, app_nil_r.
Qed.

Definition barrier_call (s : MetadataState) (t : time) (base : string) (ans : result response) : call :=
  mkCall s t (CallHTTP (post_request (barrier_url base)) ans).

(** The calls made and the result. *)
Inductive proxy_outcome (rq : request) (target : Generation) (n n' : Node) (r : result proxied) : Prop :=
| proxy_refused : n_calls n' = n_calls n → is_ok r = false → proxy_outcome rq target n n' r
| proxy_unconfirmed s t base ans : n_calls n' = barrier_call s t base ans :: n_calls n → is_ok r = false →
    proxy_outcome rq target n n' r
| proxy_forwarded s1 t1 s2 t2 base resp status generation fwd ans :
    forward_checked rq target n base resp status generation →
    forward_marked rq base (NodeID (n_cfg n)) (ms_LeaderEpoch (Metadata n)) generation fwd →
    n_calls n' = mkCall s2 t2 (CallHTTP fwd ans)
      :: barrier_call s1 t1 base (Ok resp) :: n_calls n →
    match ans with
    | Ok resp2 => ∃ px, r = Ok px ∧ px_Code px = rs_StatusCode resp2 ∧ px_Body px = rs_Body resp2
    | Err e => r = Err e
    end → proxy_outcome rq target n n' r.

(** C16: [ProxyToLeader] forwards a request at most once, after one barrier, and
    only to the node that both Raft and the replicated state call leader, that is
    not this node, and that answered the barrier itself, in the same epoch, with
    everything committed applied, and with the generation available.  What is sent
    is the client's request with the mark of the hop, this node's name, the epoch
    and that generation as its only headers under the cluster's prefix.  In every
    other case the request is not sent and an error is returned. *)
Theorem ProxyToLeader_guarded (E : env) `{!PeersLaws P E} (w : list (string * string)) (rq : request)
    (target : Generation) (n n' : Node) (r : result proxied) :
  ProxyToLeader w rq target n = (r, n') → proxy_outcome rq target n n' r.
Proof.
  intros Hrun. revert Hrun. cut (wp (ProxyToLeader w rq target) (λ r n', proxy_outcome rq target n n' r) n);
    [intros H Hrun; exact (wp_eq _ _ _ _ _ Hrun H)|].
  apply wp_bind, wp_get. cbn [Datatypes.id]. destruct (_ || (ms_LeaderEpoch _ =? 0)%N) eqn:Hguard; [by apply wp_err, proxy_refused|].
  destruct (internalAPIURLForNode _ n) as [base|] eqn:Hbase; [|by apply wp_err, proxy_refused].
  apply wp_bind, wp_bind. unfold wp at 1. cbn [fst snd]. destruct (internalHTTPClient n); [|by apply proxy_refused].
  apply wp_bind, wp_of. destruct (http_NewRequest _ _); [|by apply proxy_refused].
  eapply wp_record; [apply Do_moves|]. intros ans n1 _ Hn1. set (bq := post_request _). set (n2 := set_calls _ n1).
  assert (∀ e, proxy_outcome rq target n n2 (Err e)) as Herr.
  { intros e. by eapply proxy_unconfirmed. }
  destruct ans as [resp|e]; [|apply Herr]. destruct (rs_Status resp) as [status|] eqn:Hst; [|apply wp_err, Herr].
  destruct (_ || (st_AppliedIndex _ <? _)%N) eqn:Hans; [apply wp_err, Herr|]. set (generation := if generation_IsZero target then _ else _).
  destruct (generation_IsZero generation) eqn:Hzero; [apply wp_err, Herr|].
  destruct (negb (leaderStatusCanServeGeneration _ _)) eqn:Hserve; [apply wp_err, Herr|].
  unfold leaderStatusCanServeGeneration in Hserve. bool_simpl.
  assert (forward_checked rq target n base resp status generation) as Hchecked.
  { constructor; try split_and!; try done; try congruence; try lia.
    - by apply containsGeneration_in.
    - intros Hz. apply generation_IsZero_eq in Hz. congruence. }
  apply wp_bind, wp_of. destruct (http_NewRequest _ _); [|apply Herr].
  apply wp_bind. eapply wp_record; [apply Do_moves|]. intros ans2 n3 _ Hn3.
  destruct ans2 as [resp2|e]; [apply wp_ret|]; (eapply proxy_forwarded; [exact Hchecked|by apply proxy_request_marked; destruct Hchecked as [_ _ _ _ _ _ (_ & ? & _)]|reflexivity|]); [by eexists|done].
Qed.

(** A follower that handed a request on. *)
Definition ex_leader_peers : Peers := {|
  client_Do rq n :=
    (Ok (mkResponse StatusOK [] (mkReader "{}" None)
       (Some (mkStatus true true ReadinessReady "" "c" "n2" RoleLeader "n2" "h2:7000" 1 7 9 9 true ex_now ex_now
         "bounded" false "" "" ex_generation 5 [ex_generation] 1 1 SupportedNodeCapabilities LegacyCapabilityGate
         true true 1 "" 0 "")) None), n);
  http_NewRequest method url := Ok tt;
  tls_LoadX509KeyPair cert key := Ok tt;
  os_ReadFile path := Ok "";
  AppendCertsFromPEM pem := true;
|}.
#[export] Instance ex_leader_peers_laws : PeersLaws ex_leader_peers calm.
Proof. split. intros. apply moves_refl. Qed.

Definition ex_led_by_other : Node :=
  let f := newMetadataFSM "c" in
  set_status (ex_follow_status zero_Status)
    (ex_node ex_config ex_follower (set_fsm_state (set_leadership 1 7 "n2" (fsm_state f)) f)).

Lemma ProxyToLeader_guarded_witness :
  let rq := mkRequest "GET" "/q" [] "" in
  let run := ProxyToLeader (P := ex_leader_peers) [] rq zero_Generation ex_led_by_other in
  is_ok run.1 = true ∧ proxy_outcome rq zero_Generation ex_led_by_other run.2 run.1.
Proof.
  intros rq run. split; [vm_compute; reflexivity|].
  exact (ProxyToLeader_guarded (P := ex_leader_peers) calm [] rq zero_Generation ex_led_by_other run.2 run.1 (surjective_pairing run)).
Defined.
