(* ===== verification/Http.v ===== *)
(** * Http: the handlers of the internal and of the public API
    (internal_http.go, http.go, Node.internalProxyHandler)

    A request as a handler sees it, and its reply: the value that is written as
    JSON is kept as a value.  [net/http]'s mux is modelled by its table of
    routes; the redirects of unclean paths, the answers to requests without a
    route and TLS are not represented.  [ServeContent] is asked for the whole
    blob: requests with a range or with conditional headers, which no code of
    the program sends, are not represented. *)
From S2P Require Import Prelude Text Io Sha256 Json GoTime Duration Config Peers Capability Manifest.
From S2P Require Import BlobStore Fsm FsmProofs Node Leadership Membership Publish Reads.
From stdpp Require Import options.
From Stdlib Require Import Ascii.
#[local] Open Scope io_scope.

(** ** Requests and replies *)

Record server_request := mkServerRequest {
  sr_Method : string;
  sr_Path : string;  (** escaped, as on the wire *)
  sr_Header : list (string * string);
  sr_TLS : option (list certificate);
  sr_ContentLength : Z;
  sr_Body : reader;
  sr_Member : option Member;  (** what the first MiB of the body decodes to *)
  sr_ctx : context;
}.

Inductive reply_body : Type :=
| NoBody
| PlainText (message : string)
| StatusJSON (status : Status)
| ErrorJSON (e : error)
| PreparedJSON (prepared : join_prepared)
| JoinedJSON (member : Member)
| HashJSON (hash : string)
| BlobBytes (data : string)
| LiveJSON
| MembersJSON (members : list MemberStatus)
| NodeErrorJSON (e : error) (status : Status)
| SnapshotStatusJSON (enabled ready : bool) (reason : string)
| ProxiedBody (body : reader).

Record reply := mkReply { rp_Code : N; rp_Header : list (string * string); rp_Body : reply_body }.

Definition writeJSON (status : N) (value : reply_body) : reply :=
  mkReply status [("Content-Type", "application/json")] value.
Definition http_Error (message : string) (code : N) : reply :=
  mkReply code [("Content-Type", "text/plain; charset=utf-8"); ("X-Content-Type-Options", "nosniff")] (PlainText message).

(** A handler cut where other goroutines may act in between: it has answered, or
    goes on with a step. *)
Inductive thread : Type :=
| Answered (r : result reply)
| Then (step : Node → thread * Node).

Definition atomically (m : nio reply) : thread :=
  Then (λ n, match m n with (r, n') => (Answered r, n') end).

(** [defer f()]: [f] runs when the handler has ended. *)
Fixpoint deferred (f : Node → Node) (t : thread) : thread :=
  match t with
  | Answered r => Then (λ n, (Answered r, f n))
  | Then step => Then (λ n, match step n with (t', n') => (deferred f t', n') end)
  end.

(** The handler alone, without anything in between. *)
Fixpoint run_thread (t : thread) : nio reply := λ n,
  match t with
  | Answered r => (r, n)
  | Then step => match step n with (t', n') => run_thread t' n' end
  end.

(** [context.WithTimeout]. *)
Definition with_timeout (ctx : context) (d : duration) (now : time) : context := λ t,
  match ctx t with
  | Some e => Some e
  | None => if (t_ns now + d <=? t_ns t)%Z then Some "context deadline exceeded" else None
  end.

(** [http.MaxBytesReader]: one byte too many is an error. *)
Definition MaxBytesReader (limit : Z) (r : reader) : reader :=
  if (Z.of_nat (String.length (r_data r)) <=? limit)%Z then r
  else mkReader (take_chars (Z.to_nat limit) (r_data r)) (Some "http: request body too large").

(** ** Paths *)

Definition unhex (c : ascii) : option N :=
  let n := N_of_ascii c in
  if ((48 <=? n) && (n <=? 57))%N then Some (n - 48)%N
  else if ((65 <=? n) && (n <=? 70))%N then Some (n - 55)%N
  else if ((97 <=? n) && (n <=? 102))%N then Some (n - 87)%N else None.

(** [url.PathUnescape]; [None] for a malformed escape. *)
Fixpoint PathUnescape (s : string) : option string :=
  match s with
  | EmptyString => Some ""
  | String c rest =>
      if bool_decide (c = "%"%char) then
        match rest with
        | String a (String b rest) =>
            match unhex a, unhex b with
            | Some x, Some y => String (ascii_of_N (16 * x + y)) <$> PathUnescape rest
            | _, _ => None
            end
        | _ => None
        end
      else String c <$> PathUnescape rest
  end.

(** A path value, which the mux leaves escaped if it is malformed. *)
Definition path_value (s : string) : string := default s (PathUnescape s).

Inductive route : Type :=
| RouteStatus
| RouteBarrier
| RouteJoinPrepare
| RouteAddNode
| RouteRemoveNode (nodeID : string)
| RoutePutBlob (hash : string)
| RouteGetBlob (hash : string)
| RouteProxy.

(** The rest of the path after a prefix. *)
Definition after (prefix path : string) : option string :=
  if has_prefix prefix path then Some (trim_prefix prefix path) else None.
Definition is_get (method : string) : bool := str_eqb method "GET" || str_eqb method "HEAD".

Definition internal_route (method path : string) : option route :=
  if is_get method && str_eqb path "/internal/v1/status" then Some RouteStatus
  else if str_eqb method "POST" && str_eqb path "/internal/v1/barrier" then Some RouteBarrier
  else if str_eqb method "POST" && str_eqb path "/internal/v1/join/prepare" then Some RouteJoinPrepare
  else if str_eqb method "POST" && str_eqb path "/internal/v1/admin/nodes" then Some RouteAddNode
  else match after "/internal/v1/admin/nodes/" path with
  | Some segment =>
      if str_eqb method "DELETE" && negb (str_eqb segment "") && negb (has_char "/" segment)
      then Some (RouteRemoveNode (path_value segment)) else None
  | None =>
  match after "/internal/v1/blobs/" path with
  | Some rest =>
      if str_eqb method "PUT" then Some (RoutePutBlob (path_value rest))
      else if is_get method then Some (RouteGetBlob (path_value rest)) else None
  | None => if has_prefix "/internal/v1/proxy/" path then Some RouteProxy else None
  end end.

(** ** The internal API *)

Section internal.
Context (E : env) {R : Raft} {P : Peers} (polls : nat).
(** The handler that [SetProxyHandler] installed. *)
Context (proxyHandler : option (server_request → nio reply)).

Definition handle_status : nio reply :=
  run! refreshStatus E false in
  do! n := get id in io_ret (writeJSON StatusOK (StatusJSON (n_status n))).

Definition handle_barrier (rq : server_request) : nio reply :=
  do! n := get id in
  let ctx := with_timeout (sr_ctx rq) (MaxQuorumVerificationAge (n_cfg n)) (n_now n) in
  do! r := io_try (VerifyBusinessLeadership ctx) in
  match r with
  | Err e => io_ret (writeJSON StatusServiceUnavailable (ErrorJSON e))
  | Ok _ => handle_status
  end.

Definition handle_join_prepare : nio reply :=
  do! n := get id in
  if negb (n_unjoined n) then io_ret (writeJSON StatusConflict (ErrorJSON "node is not in unjoined state"))
  else
    let cfg := n_cfg n in
    io_ret (writeJSON StatusOK (PreparedJSON (mkJoinPrepared (ClusterID cfg) (NodeID cfg) (RaftAdvertiseAddr cfg)
      (InternalAPIAdvertiseAddr cfg) (JoinExisting cfg) (Z.of_nat (length (InitialMembers cfg)))
      (BootstrapExpect cfg) (n_capabilities n)))).

Definition admin_required : reply := http_Error "membership administrator certificate required" StatusForbidden.
Definition admin_timeout : duration := (30 * second)%Z.

Definition handle_add_node (rq : server_request) : nio reply :=
  do! n := get id in
  if negb (authorizeMembershipAdmin (n_cfg n) (sr_TLS rq)) then io_ret admin_required
  else match sr_Member rq with
  | None => io_ret (writeJSON StatusBadRequest (ErrorJSON "decode member"))
  | Some member =>
      do! r := io_try (JoinVoter polls (with_timeout (sr_ctx rq) admin_timeout (n_now n)) member) in
      match r with
      | Err e => io_ret (writeJSON StatusServiceUnavailable (ErrorJSON e))
      | Ok _ => io_ret (writeJSON StatusAccepted (JoinedJSON member))
      end
  end.

Definition handle_remove_node (nodeID : string) (rq : server_request) : nio reply :=
  do! n := get id in
  if negb (authorizeMembershipAdmin (n_cfg n) (sr_TLS rq)) then io_ret admin_required
  else
    do! r := io_try (RemoveServer polls (with_timeout (sr_ctx rq) admin_timeout (n_now n)) nodeID) in
    match r with
    | Err e => io_ret (writeJSON StatusServiceUnavailable (ErrorJSON e))
    | Ok _ => io_ret (mkReply StatusNoContent [] NoBody)
    end.

(** Why an upload is turned away before it starts, with the semaphore left. *)
Definition refuse_put (hash : string) (rq : server_request) (n : Node) : option reply :=
  if str_eqb hash "" then Some (http_Error "blob hash is required" StatusBadRequest)
  else if (MaxSnapshotBlobBytes (n_cfg n) <? sr_ContentLength rq)%Z
  then Some (http_Error "blob body exceeds configured limit" StatusRequestEntityTooLarge)
  else if (Z.of_N (n_blobPutSem n) <? MaxSnapshotBlobPuts (n_cfg n))%Z then None
  else Some (http_Error "too many concurrent blob uploads" StatusTooManyRequests).

Definition acquire_put (n : Node) : Node := set_sem (n_blobPutSem n + 1) n.
Definition release_put (n : Node) : Node := set_sem (n_blobPutSem n - 1) n.

(** The upload itself. *)
Definition store_put (hash : string) (rq : server_request) : nio reply :=
  do! n := get id in
  match n_blobStore n with
  | None => io_ret (http_Error ErrNodeNotStarted StatusServiceUnavailable)
  | Some _ =>
      do! r := io_try (with_store (λ root,
        PutHash E root hash (MaxBytesReader (MaxSnapshotBlobBytes (n_cfg n)) (sr_Body rq)))) in
      match r with
      | Err e => io_ret (http_Error e StatusBadRequest)
      | Ok _ => io_ret (writeJSON StatusOK (HashJSON hash))
      end
  end.

(** The handler runs in a goroutine of its own: it looks for a slot, stores, and
    its deferred function gives the slot back; between these the other goroutines
    of the node may act. *)
Definition put_blob_thread (value : string) (rq : server_request) : thread :=
  let hash := trim_prefix "/" value in
  Then (λ n,
    match refuse_put hash rq n with
    | Some refusal => (Answered (Ok refusal), n)
    | None => (deferred release_put (atomically (store_put hash rq)), acquire_put n)
    end).

Definition handle_put_blob (value : string) (rq : server_request) : nio reply :=
  run_thread (put_blob_thread value rq).

Definition handle_get_blob (value : string) : nio reply :=
  let hash := trim_prefix "/" value in
  do! n := get id in
  if negb (isCommittedBlob hash n)
  then io_ret (http_Error "blob is not referenced by a committed manifest" StatusNotFound)
  else match n_blobStore n with
  | None => io_ret (http_Error ErrNodeNotStarted StatusServiceUnavailable)
  | Some _ =>
      do! r := io_try (with_store (λ root, Open E root hash)) in
      match r with
      | Err e => io_ret (http_Error e StatusNotFound)
      | Ok file => io_ret (mkReply StatusOK [("Content-Type", "application/octet-stream")] (BlobBytes file))
      end
  end.

Definition set_path (path : string) (rq : server_request) : server_request :=
  mkServerRequest (sr_Method rq) path (sr_Header rq) (sr_TLS rq) (sr_ContentLength rq) (sr_Body rq) (sr_Member rq) (sr_ctx rq).

Definition internalProxyHandler (rq : server_request) : nio reply :=
  if negb (str_eqb (header_Get (sr_Header rq) HeaderForwardHop) "1")
     || str_eqb (header_Get (sr_Header rq) HeaderForwardedBy) ""
  then io_ret (http_Error "invalid cluster proxy hop" StatusBadRequest)
  else
    do! n := get id in
    do! r := io_try (VerifyBusinessLeadership (with_timeout (sr_ctx rq) (MaxQuorumVerificationAge (n_cfg n)) (n_now n))) in
    match r with
    | Err _ => io_ret (writeJSON StatusServiceUnavailable (ErrorJSON "not_leader"))
    | Ok _ =>
        match proxyHandler with
        | None => io_ret (http_Error ErrProxyUnavailable StatusServiceUnavailable)
        | Some handler =>
            let path := trim_prefix "/internal/v1/proxy" (path_value (sr_Path rq)) in
            if has_prefix "/" path then handler (set_path path rq)
            else io_ret (http_Error "invalid proxy path" StatusBadRequest)
        end
    end.

(** The mux of [startInternalServer]. *)
Definition internal_mux (rq : server_request) : nio reply :=
  match internal_route (sr_Method rq) (sr_Path rq) with
  | None => io_ret (http_Error "404 page not found" StatusNotFound)
  | Some RouteStatus => handle_status
  | Some RouteBarrier => handle_barrier rq
  | Some RouteJoinPrepare => handle_join_prepare
  | Some RouteAddNode => handle_add_node rq
  | Some (RouteRemoveNode nodeID) => handle_remove_node nodeID rq
  | Some (RoutePutBlob hash) => handle_put_blob hash rq
  | Some (RouteGetBlob hash) => handle_get_blob hash
  | Some RouteProxy => internalProxyHandler rq
  end.

Definition internal_server (rq : server_request) : nio reply :=
  do! n := get id in
  requireMemberCertificate (n_cfg n) (n_peers n) (sr_TLS rq)
    (λ message code, io_ret (http_Error message code)) (internal_mux rq).
End internal.

(** ** The public API *)

Definition Live (n : Node) : reply := writeJSON StatusOK LiveJSON.
Definition Ready (n : Node) : reply :=
  if negb (st_Ready (n_status n)) then writeJSON StatusServiceUnavailable (StatusJSON (n_status n))
  else writeJSON StatusOK (StatusJSON (n_status n)).
Definition Status_ (n : Node) : reply := writeJSON StatusOK (StatusJSON (n_status n)).
Definition Nodes (n : Node) : reply :=
  let status := n_status n in
  if negb (st_Enabled status) then writeJSON StatusOK (MembersJSON [mkMemberStatus (st_NodeID status) "" RoleStandalone])
  else match Members n with
  | Err e => writeJSON StatusServiceUnavailable (NodeErrorJSON e status)
  | Ok members => writeJSON StatusOK (MembersJSON members)
  end.
Definition SnapshotStatus (n : Node) : reply :=
  let status := n_status n in
  writeJSON StatusOK (SnapshotStatusJSON (st_Enabled status) (st_Ready status) (st_Reason status)).

Definition RegisterRoutes (method path : string) : option (Node → reply) :=
  if negb (is_get method) then None
  else if str_eqb path "/livez" then Some Live
  else if str_eqb path "/readyz" then Some Ready
  else if str_eqb path "/api/v1/cluster/status" then Some Status_
  else if str_eqb path "/api/v1/cluster/nodes" then Some Nodes
  else if str_eqb path "/api/v1/cluster/snapshot/status" then Some SnapshotStatus
  else None.
