(* ===== verification/HttpSpec.v ===== *)
(** * HttpSpec: what the handlers of the API promise

    Who reaches which handler, what a successful upload has stored, what is
    served, how many uploads run at once, and what a barrier or a forwarded
    request has verified. *)
From S2P Require Import Prelude Text Io Sha256 Json GoTime GoTimeProofs Duration Config Peers Capability Manifest.
From S2P Require Import BlobStore BlobStoreProofs BlobStoreSpec Fsm FsmProofs Node Leadership NodeProofs.
From S2P Require Import LeadershipProofs Examples CommandSpec Membership MembershipProofs Publish PublishProofs.
From S2P Require Import PublishSpec Reads ReadsSpec Http.
From stdpp Require Import options.
From Stdlib Require Import Ascii.
#[local] Open Scope io_scope.

(** ** Addresses *)

Lemma unhex_upper n : (n < 16)%N → unhex (upper_hex n) = Some n.
Proof.
  intros Hn.
  assert (n = 0 ∨ n = 1 ∨ n = 2 ∨ n = 3 ∨ n = 4 ∨ n = 5 ∨ n = 6 ∨ n = 7 ∨ n = 8 ∨ n = 9 ∨ n = 10 ∨ n = 11
    ∨ n = 12 ∨ n = 13 ∨ n = 14 ∨ n = 15)%N as Hc by lia.
  by destruct_or! Hc; subst.
Qed.

Lemma PathUnescape_PathEscape s : PathUnescape (PathEscape s) = Some s.
Proof.
  induction s as [|c s IH]; [done|]. cbn [PathEscape]. destruct (path_safe c) eqn:Hs.
  - cbn [PathUnescape]. rewrite bool_decide_eq_false_2, IH by (intros ->; discriminate Hs). done.
  - cbn [PathUnescape]. rewrite bool_decide_eq_true_2 by done.
    assert (N_of_ascii c < 256)%N as Hb by apply N_ascii_bounded.
    rewrite !unhex_upper by first [apply N.mod_upper_bound; lia|apply N.Div0.div_lt_upper_bound; lia].
    rewrite IH. cbn [fmap option_fmap option_map]. do 2 f_equal.
    replace (16 * (N_of_ascii c / 16) + N_of_ascii c mod 16)%N with (N_of_ascii c) by (apply N.Div0.div_mod).
    apply ascii_N_embedding.
Qed.

(** the address a node builds for a blob is routed by its peer to the handler
    of blobs with exactly that hash, whatever bytes the hash has. *)
Theorem blob_route (hash : string) :
  PathUnescape (PathEscape hash) = Some hash
  ∧ ∀ base, ∃ path, blob_url base hash = TrimRightChar "/"%char base +:+ path
  ∧ internal_route "PUT" path = Some (RoutePutBlob hash)
  ∧ internal_route "GET" path = Some (RouteGetBlob hash).
Proof.
  split; [apply PathUnescape_PathEscape|]. intros base. exists ("/internal/v1/blobs/" +:+ PathEscape hash). split; [done|].
  assert (∀ method, internal_route method ("/internal/v1/blobs/" +:+ PathEscape hash)
    = if str_eqb method "PUT" then Some (RoutePutBlob hash) else if is_get method then Some (RouteGetBlob hash) else None) as Hr.
  { intros method. unfold internal_route, after. set (x := PathEscape hash).
    assert (∀ s, has_prefix "/internal/v1/blobs/" s = false → str_eqb ("/internal/v1/blobs/" +:+ x) s = false) as Hne.
    { intros s Hs. apply str_eqb_neq. intros <-. by rewrite has_prefix_app in Hs. }
    rewrite !Hne, !andb_false_r by done. rewrite trim_prefix_app, has_prefix_app.
    change (has_prefix "/internal/v1/admin/nodes/" ("/internal/v1/blobs/" +:+ x)) with false. cbv iota.
    unfold path_value, x. by rewrite PathUnescape_PathEscape. }
  by rewrite !Hr.
Qed.

(** ** Uploads *)

Lemma wp_PutHash_any E root hash hx r w :
  normalizeSHA256Hash hash = Ok hx →
  wp (PutHash E root hash r) (λ res w', others_kept root (HashPrefixSHA256 +:+ hx) w w'
    ∧ (res = Ok tt → r_err r = None ∧ sha256_hex (r_data r) = hx ∧ has_blob root w' (HashPrefixSHA256 +:+ hx))) w.
Proof.
  intros Hn. eapply wp_mono; [by apply wp_PutHash|]. intros res w' (Hdep & Hok & _).
  pose proof (normalize_length _ _ Hn) as Hlen. split.
  - intros h' Hne (d' & <- & Hs). exists d'. split; [done|].
    rewrite (only_object_stored root hx w); [done|apply Hdep|by rewrite Hlen, sha256_hex_length|congruence].
  - intros ->. destruct (Hok eq_refl) as [Herr Hx]. split_and!; [done..|].
    apply deposited_stored in Hdep as [_ [Hs|[Hs [d' Hd']]]]; [..|exact Hn|exact Hx].
    + exists (r_data r). by rewrite Hx.
    + rewrite Hd' in Hs. apply stored_inv in Hd' as (f & _ & _ & Hx'). exists d'. by rewrite Hx'.
Qed.

(** The whole body was read and is not too long. *)
Lemma MaxBytesReader_Ok limit r :
  r_err (MaxBytesReader limit r) = None → MaxBytesReader limit r = r ∧ (Z.of_nat (String.length (r_data r)) ≤ limit)%Z.
Proof. unfold MaxBytesReader. destruct (_ <=? _)%Z eqn:Hl; [bool_simpl; done|done]. Qed.

Definition upload_done (root hash : string) (rq : server_request) (n n' : Node) : Prop :=
  ∃ hx, normalizeSHA256Hash hash = Ok hx ∧ sha256_hex (r_data (sr_Body rq)) = hx
  ∧ r_err (sr_Body rq) = None ∧ (Z.of_nat (String.length (r_data (sr_Body rq))) ≤ MaxSnapshotBlobBytes (n_cfg n))%Z
  ∧ has_blob root (n_files n') (HashPrefixSHA256 +:+ hx)
  ∧ others_kept root (HashPrefixSHA256 +:+ hx) (n_files n) (n_files n').

Lemma wp_store_put E root hash rq n :
  n_blobStore n = Some root →
  wp (store_put E hash rq)
    (λ r n', local n n' ∧ ∃ reply, r = Ok reply ∧ (rp_Code reply = StatusOK → upload_done root hash rq n n')) n.
Proof.
  intros Hroot. apply wp_bind, wp_get. cbn [id]. rewrite Hroot. apply wp_bind, wp_try, wp_with_store; [by rewrite Hroot|].
  rewrite Hroot. intros root' [= <-]. set (body := MaxBytesReader _ _).
  destruct (normalizeSHA256Hash hash) as [hx|e] eqn:Hn.
  - eapply wp_mono; [by apply wp_PutHash_any|]. intros r w [Hoth Hok]. destruct r as [[]|e]; apply wp_ret;
      (split; [done|]; eexists; split; [reflexivity|]); [intros _|done].
    destruct (Hok eq_refl) as (Herr & Hx & Hblob). destruct (MaxBytesReader_Ok _ _ Herr) as [Hbody Hlen].
    fold body in Hbody. rewrite Hbody in Herr, Hx. by exists hx.
  - unfold PutHash, wp at 1, io_bind at 1, io_of. rewrite Hn. cbn [fst snd]. apply wp_ret.
    split; [done|]. eexists. split; [reflexivity|done].
Qed.

(** The handler of an upload, run without anything in between. *)
Lemma handle_put_blob_eq E value rq n :
  handle_put_blob E value rq n
    = match refuse_put (trim_prefix "/" value) rq n with
      | Some refusal => (Ok refusal, n)
      | None => match store_put E (trim_prefix "/" value) rq (acquire_put n) with (r, n') => (r, release_put n') end
      end.
Proof.
  unfold handle_put_blob, put_blob_thread. cbn [run_thread]. destruct (refuse_put _ _ _); [done|].
  cbn [run_thread deferred atomically]. by destruct (store_put _ _ _ _).
Qed.

(** an upload that is answered with success has stored the blob: the whole
    body was read, it is not longer than the configured limit, its digest is the
    one in the address, the store then holds the blob intact, and no other intact
    blob is touched.  On every path the upload slot taken is given back, and a
    refused upload changes nothing. *)
Theorem put_blob_stored (E : env) (root value : string) (rq : server_request) (n n' : Node) (r : result reply) :
  n_blobStore n = Some root → handle_put_blob E value rq n = (r, n') →
  ∃ reply, r = Ok reply ∧ n_blobPutSem n' = n_blobPutSem n
  ∧ (rp_Code reply = StatusOK → upload_done root (trim_prefix "/" value) rq n n')
  ∧ (∀ refusal, refuse_put (trim_prefix "/" value) rq n = Some refusal → reply = refusal ∧ n' = n ∧ rp_Code reply ≠ StatusOK).
Proof.
  intros Hroot. rewrite handle_put_blob_eq. destruct (refuse_put _ rq n) as [refusal|] eqn:Href.
  - intros [= <- <-]. assert (rp_Code refusal ≠ StatusOK) as Hcode.
    { unfold refuse_put in Href. repeat (destruct (_ : bool); [by injection Href as <-|]). destruct (_ <? _)%Z; by simplify_eq. }
    exists refusal. split_and!; [done..|]. by intros refusal' [= <-].
  - pose proof (wp_store_put E root (trim_prefix "/" value) rq (acquire_put n) Hroot) as Hput. unfold wp in Hput.
    destruct (store_put _ _ _ _) as [res n1]. cbn [fst snd] in Hput. intros [= <- <-].
    destruct Hput as [Hl (reply & -> & Hdone)]. exists reply. split_and!; [done| |exact Hdone|done].
    cbn [n_blobPutSem release_put set_sem]. rewrite (sn_blobPutSem _ _ (lo_same _ _ Hl)).
    cbn [n_blobPutSem acquire_put set_sem]. lia.
Qed.

Definition ex_upload (hash data : string) : server_request :=
  mkServerRequest "PUT" ("/internal/v1/blobs/" +:+ hash) [] (Some [mkCertificate "n2" ["c"]])
    (Z.of_nat (String.length data)) (mkReader data None) None (λ _, None).

Lemma put_blob_stored_witness :
  let n := ex_node ex_config ex_follower ex_fsm in
  let n' := (handle_put_blob calm abc_hash (ex_upload abc_hash "abc") n).2 in
  upload_done "/data/cas" abc_hash (ex_upload abc_hash "abc") n n'.
Proof.
  intros n n'. set (run := handle_put_blob calm abc_hash (ex_upload abc_hash "abc") n) in n'.
  assert (run.1 = Ok (writeJSON StatusOK (HashJSON abc_hash))) as Hrun by (vm_compute; reflexivity).
  destruct (put_blob_stored calm "/data/cas" abc_hash (ex_upload abc_hash "abc") n n' run.1 eq_refl (surjective_pairing run))
    as (reply & Hr & _ & Hdone & _).
  rewrite Hrun in Hr. injection Hr as <-. exact (Hdone eq_refl).
Defined.

(** Requests to store a blob, in the order in which they arrived: what is left of
    the handler of each, and whether it has begun. *)
Record upload := mkUpload { up_thread : thread; up_begun : bool }.

Definition answered (t : thread) : bool := match t with Answered _ => true | Then _ => false end.
Definition in_progress (u : upload) : bool := up_begun u && negb (answered (up_thread u)).
Definition running (us : list upload) : nat := length (filter (λ u, in_progress u = true) us).

(** A request arrives; one of the handlers takes its next step; or the other
    goroutines of the node, which leave the slots alone, do something. *)
Inductive uploads_step (E : env) : relation (Node * list upload) :=
| upload_arrives n us value rq : uploads_step E (n, us) (n, us ++ [mkUpload (put_blob_thread E value rq) false])
| upload_runs n us us' step begun :
    uploads_step E (n, us ++ mkUpload (Then step) begun :: us')
      ((step n).2, us ++ mkUpload (step n).1 true :: us')
| upload_other n n' us : same_node n n' → uploads_step E (n, us) (n', us).

Lemma store_put_same E hash rq n : same_node n (store_put E hash rq n).2.
Proof.
  destruct (n_blobStore n) as [root|] eqn:Hroot; [by apply (wp_store_put E root hash rq n Hroot)|].
  unfold store_put, io_bind at 1, get. cbn [id]. by rewrite Hroot.
Qed.

Lemma local_handle_put_blob E hash rq n : local n (handle_put_blob E hash rq n).2.
Proof.
  rewrite handle_put_blob_eq. destruct (refuse_put _ _ _); [done|].
  assert (local (acquire_put n) (store_put E (trim_prefix "/" hash) rq (acquire_put n)).2) as Hl.
  { destruct (n_blobStore n) as [root|] eqn:Hroot; [by apply (wp_store_put E root)|].
    unfold store_put, io_bind at 1, get. cbn [id acquire_put set_sem n_blobStore]. by rewrite Hroot. }
  destruct (store_put _ _ _ _) as [r n1]. cbn [snd] in *.
  destruct Hl as [[] ?????]. cbn in *. constructor; cbn; try done. constructor; cbn; try done. lia.
Qed.

(** What can be left of a handler. *)
Inductive staged (E : env) : upload → Prop :=
| staged_new value rq : staged E (mkUpload (put_blob_thread E value rq) false)
| staged_storing hash rq : staged E (mkUpload (deferred release_put (atomically (store_put E hash rq))) true)
| staged_ending r : staged E (mkUpload (Then (λ n, (Answered r, release_put n))) true)
| staged_done r : staged E (mkUpload (Answered r) true).

(** The slots in use are the uploads in progress, and there are not too many. *)
Record slots_match (E : env) (n0 n : Node) (us : list upload) : Prop := {
  sl_cfg : n_cfg n = n_cfg n0;
  sl_sem : n_blobPutSem n = N.of_nat (running us);
  sl_max : (Z.of_nat (running us) ≤ MaxSnapshotBlobPuts (n_cfg n0))%Z;
  sl_staged : Forall (staged E) us;
}.

Lemma running_middle us u us' : running (us ++ u :: us') = running us + (if in_progress u then 1 else 0) + running us'.
Proof.
  unfold running. rewrite filter_app, filter_cons, length_app. destruct (in_progress u); cbn [length].
  - rewrite decide_True by done. simpl. lia.
  - rewrite decide_False by done. lia.
Qed.

Lemma refuse_put_free hash rq n : refuse_put hash rq n = None → (Z.of_N (n_blobPutSem n) < MaxSnapshotBlobPuts (n_cfg n))%Z.
Proof.
  unfold refuse_put. destruct (str_eqb _ _); [done|]. destruct (_ <? sr_ContentLength _)%Z; [done|].
  destruct (_ <? _)%Z eqn:Hlt; [|done]. bool_simpl. done.
Qed.

Lemma slots_step E n0 n us n' us' : slots_match E n0 n us → uploads_step E (n, us) (n', us') → slots_match E n0 n' us'.
Proof.
  intros [Hcfg Hsem Hmax Hall] Hstep. inversion Hstep as [? ? value rq|? us1 us2 step begun|? ? ? Hs]; subst.
  - assert (running (us ++ [mkUpload (put_blob_thread E value rq) false]) = running us) as Hr.
    { rewrite running_middle. unfold running at 2. simpl. lia. }
    constructor; rewrite ?Hr; [done..|]. apply Forall_app. split; [done|]. repeat constructor.
  - rewrite running_middle in Hsem, Hmax. apply Forall_app in Hall as [H1 [Hu H2]%Forall_cons].
    assert (∀ t m, staged E (mkUpload t true) → n_cfg m = n_cfg n →
      n_blobPutSem m = N.of_nat (running us1 + (if answered t then 0 else 1) + running us2) →
      (Z.of_nat (running us1 + (if answered t then 0 else 1) + running us2) ≤ MaxSnapshotBlobPuts (n_cfg n0))%Z →
      slots_match E n0 m (us1 ++ mkUpload t true :: us2)) as Hgo.
    { intros t m Ht Hm Hsm Hle. assert (in_progress (mkUpload t true) = negb (answered t)) as Hp by done.
      constructor; [by rewrite Hm|rewrite running_middle, Hp; by destruct (answered t)..|].
      apply Forall_app. split; [done|by constructor]. }
    inversion Hu as [value rq|hash rq|r|]; subst; cbn [in_progress up_begun answered up_thread andb negb] in Hsem, Hmax.
    + cbv beta. destruct (refuse_put _ rq n) as [refusal|] eqn:Href; cbn [fst snd].
      * apply Hgo; [constructor|done|done|done].
      * apply refuse_put_free in Href. rewrite Hcfg, Hsem in Href.
        apply Hgo; [constructor|done|..]; cbn [answered deferred atomically n_blobPutSem acquire_put set_sem]; lia.
    + cbv beta. destruct (store_put_same E hash rq n) as [Hc _ _ _ Hp].
      destruct (store_put E hash rq n) as [r m]. cbn [fst snd deferred] in *.
      apply Hgo; [constructor|done|..]; cbn [answered]; [by rewrite Hp|done].
    + cbn [fst snd]. apply Hgo; [constructor|done|..]; cbn [answered n_blobPutSem release_put set_sem]; lia.
  - destruct Hs as [Hc _ _ _ Hp]. constructor; [by rewrite Hc|by rewrite Hp|done..].
Qed.

(** C37: however requests to store a blob arrive and their handlers run next to
    each other, and whatever the node does besides, the slots in use are exactly
    the uploads that have begun and not ended, and there are never more than
    configured.  With all in use the next upload is refused, and with one free it
    is not refused for lack of a slot.  A handler that nothing interrupts leaves
    the slots as they were, however it ends. *)
Theorem uploads_bounded (E : env) (n0 n : Node) (us : list upload) :
  n_blobPutSem n0 = 0%N → (0 ≤ MaxSnapshotBlobPuts (n_cfg n0))%Z → rtc (uploads_step E) (n0, []) (n, us) →
  n_cfg n = n_cfg n0 ∧ n_blobPutSem n = N.of_nat (running us) ∧ (Z.of_nat (running us) ≤ MaxSnapshotBlobPuts (n_cfg n0))%Z
  ∧ (∀ hash rq, hash ≠ "" → (sr_ContentLength rq ≤ MaxSnapshotBlobBytes (n_cfg n0))%Z →
      refuse_put hash rq n = None ↔ (Z.of_nat (running us) < MaxSnapshotBlobPuts (n_cfg n0))%Z)
  ∧ ∀ value rq, n_blobPutSem (handle_put_blob E value rq n).2 = n_blobPutSem n.
Proof.
  intros Hsem Hmax Hsteps.
  assert (slots_match E n0 n us) as [Hcfg Hk Hle _].
  { assert (slots_match E n0 n0 []) as Hinit by by constructor.
    set (inv := λ x : Node * list upload, slots_match E n0 x.1 x.2).
    assert (inv (n0, [])) as H0 by exact Hinit. change (inv (n, us)). clear Hinit. revert H0.
    induction Hsteps as [x|[n1 us1] [n2 us2] z Hstep _ IH]; [done|]. intros H. by apply IH, (slots_step E n0 n1 us1). }
  split_and!; [done..| |].
  - intros hash rq Hne Hlen. unfold refuse_put. rewrite str_eqb_neq by done. rewrite Hcfg, Hk.
    apply Z.ltb_ge in Hlen. rewrite Hlen. clear Hlen. destruct (_ <? _)%Z eqn:Hlt; bool_simpl; split; intros H; first [done|lia].
  - intros value rq. rewrite handle_put_blob_eq. destruct (refuse_put _ _ _); [done|].
    pose proof (sn_blobPutSem _ _ (store_put_same E (trim_prefix "/" value) rq (acquire_put n))) as Hp.
    destruct (store_put _ _ _ _) as [r m]. cbn [fst snd n_blobPutSem release_put acquire_put set_sem] in *. rewrite Hp. lia.
Qed.

Lemma uploads_bounded_witness :
  let n := ex_node ex_config ex_follower ex_fsm in
  let rq := ex_upload abc_hash "abc" in
  refuse_put abc_hash rq (acquire_put (acquire_put n)) ≠ None.
Proof.
  intros n rq. set (t := deferred release_put (atomically (store_put calm abc_hash rq))).
  set (new := mkUpload (put_blob_thread calm abc_hash rq) false). set (begun := mkUpload t true).
  assert (rtc (uploads_step calm) (n, []) (acquire_put (acquire_put n), [begun; begun])) as Hsteps.
  { eapply rtc_l; [exact (upload_arrives calm n [] abc_hash rq)|].
    eapply rtc_l; [exact (upload_arrives calm n [new] abc_hash rq)|].
    eapply rtc_l; [exact (upload_runs calm n [] [new] _ false)|].
    eapply rtc_l; [exact (upload_runs calm (acquire_put n) [begun] [] _ false)|]. apply rtc_refl. }
  destruct (uploads_bounded calm n _ _ eq_refl ltac:(done) Hsteps) as (_ & _ & _ & H & _).
  intros Hnone. apply H in Hnone; [|done|done]. done.
Defined.

(** ** Serving blobs *)

Lemma isCommittedBlob_spec h n :
  h ≠ "" → isCommittedBlob h n = true ↔ ∃ k m, ms_Snapshots (Metadata n) !! k = Some m ∧ manifest_blob m h.
Proof.
  intros Hne. unfold isCommittedBlob. rewrite existsb_exists. split.
  - intros ([k m] & Hm & Hd). apply list_elem_of_In, elem_of_map_to_list in Hm. exists k, m. split; [done|].
    apply existsb_exists in Hd as ([name d] & Hin & Hh). apply list_elem_of_In in Hin. cbn [snd] in *.
    apply orb_true_iff in Hh as [Hh|Hh].
    + bool_simpl. right. unfold previous_hashes. apply list_elem_of_filter. split; [done|].
      apply list_elem_of_fmap. by exists (name, d).
    + left. apply existsb_exists in Hh as (h' & Hh' & Heq). bool_simpl. subst h'. unfold manifestBlobHashes.
      apply list_elem_of_In, in_concat. exists (datasetBlobHashes d). split; [|done].
      apply in_map_iff. exists (name, d). split; [done|by apply list_elem_of_In].
  - intros (k & m & Hm & Hb). exists (k, m). split; [by apply list_elem_of_In, elem_of_map_to_list|]. cbn [snd].
    apply existsb_exists. destruct Hb as [Hb|Hb].
    + unfold manifestBlobHashes in Hb. apply list_elem_of_In, in_concat in Hb as (l & Hl & Hh).
      apply in_map_iff in Hl as (kv & <- & Hin). exists kv. split; [done|]. apply orb_true_iff. right.
      apply existsb_exists. exists h. split; [done|apply str_eqb_refl].
    + unfold previous_hashes in Hb. apply list_elem_of_filter in Hb as [_ Hb].
      apply list_elem_of_fmap in Hb as (kv & -> & Hin). exists kv. split; [by apply list_elem_of_In|].
      by rewrite str_eqb_refl.
Qed.

Lemma Open_runs E root h d w :
  (∀ t, io_fault E t = None) → HashPrefixSHA256 +:+ sha256_hex d = h → stored root w (sha256_hex d) = Some d →
  (Open E root h w).1 = Ok d.
Proof.
  intros HE <- Hs. apply (Read_stored E root HE _ (sha256_hex d)); [apply normalize_digest|done|exact Hs].
Qed.

(** a blob is served only when a committed manifest refers to it, as a blob or
    as a previous one, and the bytes served have the digest asked for; nothing
    but the files read is touched.  Without faults every committed blob that the
    store holds intact is served, so a peer that lacks it can fetch it here. *)
Theorem get_blob_served (E : env) (hash : string) (n n' : Node) (r : result reply) :
  hash ≠ "" → trim_prefix "/" hash = hash → handle_get_blob E hash n = (r, n') →
  ∃ reply, r = Ok reply ∧ local n n'
  ∧ (rp_Code reply = StatusOK → ∃ data, rp_Body reply = BlobBytes data ∧ content_of hash data
      ∧ ∃ k m, ms_Snapshots (Metadata n) !! k = Some m ∧ manifest_blob m hash)
  ∧ ((∀ t, io_fault E t = None) → ∀ root k m, n_blobStore n = Some root → has_blob root (n_files n) hash →
      ms_Snapshots (Metadata n) !! k = Some m → manifest_blob m hash → rp_Code reply = StatusOK).
Proof.
  intros Hne Htrim Hrun. revert Hrun. unfold handle_get_blob, io_bind at 1, get. cbn [id]. rewrite Htrim.
  pose proof (isCommittedBlob_spec hash n Hne) as Hcom.
  destruct (isCommittedBlob hash n); cbn [negb].
  2:{ intros [= <- <-]. eexists. split_and!; [done..|]. intros _ root k m _ _ Hm Hb. by discriminate (proj2 Hcom (ex_intro _ k (ex_intro _ m (conj Hm Hb)))). }
  destruct (n_blobStore n) as [root|] eqn:Hroot; [|intros [= <- <-]; by eexists].
  unfold io_bind at 1, io_try, with_store. rewrite Hroot.
  pose proof (wp_Open E root hash (n_files n)) as Hopen. unfold wp in Hopen.
  assert ((∀ t, io_fault E t = None) → has_blob root (n_files n) hash → is_ok (Open E root hash (n_files n)).1 = true) as Hruns.
  { intros HE (d & Hd & Hs). by rewrite (Open_runs E root hash d). }
  destruct (Open E root hash (n_files n)) as [[d|e] w]; cbn [fst snd is_ok] in *; intros [= <- <-]; eexists; split_and!; try done.
  - intros _. exists d. split_and!; [done|by apply Hopen|by apply Hcom].
  - intros HE root' k m [= <-] Hblob _ _. by specialize (Hruns HE Hblob).
Qed.

Lemma get_blob_served_witness :
  let n := ex_holding ex_snapshot_fsm in
  let run := handle_get_blob calm abc_hash n in
  ∃ reply, run.1 = Ok reply ∧ rp_Code reply = StatusOK ∧ ∃ data, rp_Body reply = BlobBytes data ∧ content_of abc_hash data.
Proof.
  intros n run.
  destruct (get_blob_served calm abc_hash n run.2 run.1 ltac:(discriminate) eq_refl (surjective_pairing run))
    as (reply & Hr & _ & Hserved & Hruns).
  assert (rp_Code reply = StatusOK) as Hcode.
  { apply (Hruns (λ _, eq_refl) "/data/cas" "m" (with_manifest_hash "m" ex_manifest) eq_refl (ex_holding_blob _) eq_refl).
    left. vm_compute. left. }
  destruct (Hserved Hcode) as (data & Hb & Hc & _). exists reply. split; [exact Hr|]. split; [exact Hcode|].
  exists data. exact (conj Hb Hc).
Defined.

(** ** Who reaches what *)

(** [id] was struck from the registry: its removal is on record as done in Raft. *)
Definition struck (n : Node) (id : string) : Prop :=
  ∃ op, membershipOperation n = Ok (Some op) ∧ op_Type op = MembershipOperationRemove
    ∧ op_Phase op = MembershipPhaseRemoved ∧ mb_NodeID (op_Member op) = id.

(** Where the members that a node admits come from. *)
Inductive known_member (n : Node) (m : Member) : Prop :=
| known_committed key : committedMembers n !! key = Some m → ¬ struck n key → known_member n m
| known_operation op : membershipOperation n = Ok (Some op) → op_Phase op ≠ MembershipPhaseCompleted →
    m = op_Member op → ¬ struck n (mb_NodeID m) → known_member n m
| known_pending key : n_pendingMembers n !! key = Some m → ¬ struck n key → known_member n m.

Lemma Replace_from members r id m : Replace members r !! id = Some m → m ∈ members ∧ mb_NodeID m = id.
Proof.
  unfold Replace. induction members as [|x members IH] using rev_ind; [cbn [foldl]; by rewrite lookup_empty|].
  rewrite foldl_snoc. destruct (decide (mb_NodeID x = id)) as [<-|Hne].
  - rewrite lookup_insert_eq. intros [= <-]. split; [set_solver|done].
  - rewrite lookup_insert_ne by done. intros [? ?]%IH. split; [set_solver|done].
Qed.

Lemma with_pending_from removed (l : list (string * Member)) (members : gmap string Member) key m :
  foldr (λ kv members, if str_eqb kv.1 removed then members else <[ kv.1 := kv.2 ]> members) members l !! key = Some m →
  members !! key = Some m ∨ (key, m) ∈ l ∧ key ≠ removed.
Proof.
  induction l as [|[k x] l IH]; cbn [foldr]; [by left|]. cbn [fst snd]. destruct (str_eqb k removed) eqn:Hk; bool_simpl.
  - intros [?|[? ?]]%IH; [by left|right; split; [by right|done]].
  - destruct (decide (k = key)) as [<-|Hne].
    + rewrite lookup_insert_eq. intros [= <-]. right. split; [by left|done].
    + rewrite lookup_insert_ne by done. intros [?|[? ?]]%IH; [by left|right; split; [by right|done]].
Qed.

Lemma peer_members_known n key m : peer_members n !! key = Some m → known_member n m.
Proof.
  unfold peer_members. destruct (membershipOperation n) as [[op|]|e] eqn:Hop.
  2,3: intros [Hm|[Hm _]]%with_pending_from; [apply (known_committed n m key Hm)|apply elem_of_map_to_list in Hm;
    apply (known_pending n m key Hm)]; intros (op' & Hop' & _); congruence.
  destruct (str_eqb (op_Phase op) MembershipPhaseCompleted) eqn:Hphase; bool_simpl.
  { assert (∀ k, ¬ struck n k) as Hno.
    { intros k (op' & Hop' & _ & Hp & _). rewrite Hop in Hop'. injection Hop' as <-. by rewrite Hphase in Hp. }
    intros [Hm|[Hm _]]%with_pending_from; [by apply (known_committed n m key)|].
    apply elem_of_map_to_list in Hm. by apply (known_pending n m key Hm). }
  destruct (str_eqb (op_Type op) _ && str_eqb (op_Phase op) _) eqn:Hrem; bool_simpl.
  - assert (∀ k, struck n k → k = mb_NodeID (op_Member op)) as Hst.
    { intros k (op' & Hop' & _ & _ & <-). rewrite Hop in Hop'. by injection Hop' as <-. }
    intros [Hm|[Hm Hne]]%with_pending_from.
    + apply lookup_delete_Some in Hm as [Hne Hm]. apply (known_committed n m key Hm). by intros ->%Hst.
    + apply elem_of_map_to_list in Hm. apply (known_pending n m key Hm). by intros ->%Hst.
  - assert (∀ k, ¬ struck n k) as Hno.
    { intros k (op' & Hop' & Ht & Hp & _). rewrite Hop in Hop'. injection Hop' as <-.
      rewrite Ht, Hp, !str_eqb_refl in Hrem. done. }
    intros [Hm|[Hm _]]%with_pending_from.
    + apply lookup_insert_Some in Hm as [[_ <-]|[_ Hm]]; [by apply (known_operation n _ op)|by apply (known_committed n m key)].
    + apply elem_of_map_to_list in Hm. by apply (known_pending n m key Hm).
Qed.

Lemma registry_known n id m :
  n_peers (refreshPeerRegistry n) !! id = Some m → mb_NodeID m = id ∧ known_member n m.
Proof.
  cbn [n_peers refreshPeerRegistry set_members]. intros [Hm <-]%Replace_from. split; [done|].
  apply list_elem_of_fmap in Hm as ([key m'] & -> & Hm). apply elem_of_map_to_list in Hm. by eapply peer_members_known.
Qed.

(** What serving a request of a member who is not an administrator asks of Raft: to
    verify or hand over the leadership, and, on a node that Raft has just made
    leader, the two commands by which it takes the leadership on record. *)
Definition housekeeping (c : call) (_ : list call) : Prop :=
  match call_event c with
  | CallVerifyLeader _ | CallBarrier _ | CallTransfer _ _ => True
  | CallApply command _ => c_Type command = CommandAcquireLeadership ∨ c_ID command = "initialize/cluster-members/v1"
  | CallChange _ _ | CallHTTP _ _ => False
  end.

Section housekeeping.
Context (E : env) {R : Raft} `{!RaftLaws R E}.
Notation tidy := (obeys housekeeping).
Set Default Proof Using "Type*".

Lemma tidy_local {A} (m : nio A) : (∀ n, local n (m n).2) → tidy m.
Proof using Type.
  intros Hm n. eapply extends_calls; [exact (lo_calls _ _ (Hm n))|]. apply (@reflexivity _ (extends housekeeping) _).
Qed.
Lemma tidy_confirm ctx : tidy (VerifyBusinessLeadership ctx).
Proof. by apply (obeys_verification housekeeping E). Qed.
Lemma tidy_leader_checks : tidy (run! r_VerifyLeader in r_Barrier).
Proof.
  apply obeys_bind; [|intros _]; apply (obeys_record housekeeping E); [apply VerifyLeader_moves|done|apply Barrier_moves|done].
Qed.
Lemma tidy_Transfer to : tidy (r_Transfer to).
Proof. apply (obeys_record housekeeping E); [apply Transfer_moves|done]. Qed.
Lemma tidy_updateStatus role leaderID leaderAddr state stats hasQuorum verifiedAt reason now :
  tidy (updateStatus E role leaderID leaderAddr state stats hasQuorum verifiedAt reason now).
Proof using Type.
  apply tidy_local. intros n. change (wp (updateStatus E role leaderID leaderAddr state stats hasQuorum verifiedAt reason now) (λ _ n', local n n') n).
  by apply wp_updateStatus.
Qed.
Lemma tidy_setLeadership active epoch reason : tidy (modify (setLeadership active epoch reason)).
Proof using Type. apply tidy_local. intros n. apply local_setLeadership. Qed.
Hint Resolve tidy_confirm tidy_leader_checks tidy_Transfer tidy_updateStatus tidy_setLeadership
  obeys_with_store obeys_ret obeys_err obeys_of obeys_get obeys_try obeys_wrap : tidy.

Lemma tidy_acquireLeadership term : tidy (acquireLeadership term).
Proof.
  unfold acquireLeadership. destruct (_ =? _)%N; [apply obeys_err|]. apply obeys_bind; [apply obeys_get|intros n].
  apply obeys_bind; [apply (obeys_applying housekeeping E); intros; by left|intros _].
  apply obeys_bind; [apply obeys_get|intros n']. destruct (ms_Values _ !! _); [apply obeys_ret|].
  apply obeys_bind; [apply (obeys_applying housekeeping E); intros; by right|intros _; apply obeys_ret].
Qed.
Hint Resolve tidy_acquireLeadership : tidy.

Ltac tidy := follow ltac:(apply obeys_bind)
  ltac:(solve [eauto with tidy | apply obeys_modify; intros ?; repeat case_match; done]).

Lemma tidy_refresh_leader verify r state now : tidy (refresh_leader E verify r state now).
Proof. unfold refresh_leader. tidy. Qed.
Hint Resolve tidy_refresh_leader : tidy.
Lemma tidy_refreshStatus verify : tidy (refreshStatus E verify).
Proof. unfold refreshStatus. tidy. Qed.
Hint Resolve tidy_refreshStatus : tidy.

Lemma tidy_handlers value rq :
  tidy (handle_status E) ∧ tidy (handle_barrier E rq) ∧ tidy handle_join_prepare ∧ tidy (handle_get_blob E value).
Proof.
  split_and!; [unfold handle_status|unfold handle_barrier, handle_status|unfold handle_join_prepare|unfold handle_get_blob]; tidy.
Qed.

(** Every route but those of the administrators and of the application. *)
Lemma mux_housekeeping {P : Peers} polls app rq n :
  ¬ (internal_route (sr_Method rq) (sr_Path rq) = Some RouteAddNode
     ∨ ∃ nodeID, internal_route (sr_Method rq) (sr_Path rq) = Some (RouteRemoveNode nodeID)) →
  internal_route (sr_Method rq) (sr_Path rq) ≠ Some RouteProxy →
  ∃ calls, n_calls (internal_mux E polls app rq n).2 = calls ++ n_calls n ∧ ∀ c, c ∈ calls → housekeeping c [].
Proof.
  intros Hadmin Hproxy. assert (extends housekeeping n (internal_mux E polls app rq n).2) as (calls & Hcalls & Hj).
  { unfold internal_mux. destruct (internal_route _ _) as [[]|]; try done.
    - exact (proj1 (tidy_handlers "" rq) n).
    - exact (proj1 (proj2 (tidy_handlers "" rq)) n).
    - exact (proj1 (proj2 (proj2 (tidy_handlers "" rq))) n).
    - destruct Hadmin. by left.
    - destruct Hadmin. right. by eexists.
    - apply (tidy_local (handle_put_blob E _ rq)). intros m. apply local_handle_put_blob.
    - exact (proj2 (proj2 (proj2 (tidy_handlers _ rq))) n). }
  exists calls. split; [done|]. intros c (l1 & l2 & ->)%list_elem_of_split. exact (justified_split _ _ _ _ _ _ Hj eq_refl).
Qed.
End housekeeping.



(** ** Barriers and forwarded requests *)

Section leader.
Context (E : env) {R : Raft} {P : Peers} `{!RaftLaws R E}.
Set Default Proof Using "Type*".

Lemma wp_refresh verify n :
  wp (refreshStatus E verify) (λ r n', r = Ok tt ∧ evolves E n n') n.
Proof.
  apply wp_bind, wp_modify, wp_bind, wp_get. cbn [id].
  set (n1 := refreshPeerRegistry n). assert (evolves E n n1) as H1 by by apply local_evolves.
  destruct (n_raft n1) as [rv|]; [destruct (n_fsm n1) as [f|]|].
  2,3: apply wp_modify; destruct (n_unjoined n1); (split; [done|]); [|done]; (etrans; [exact H1|by apply local_evolves]).
  apply wp_bind, wp_modify. match goal with |- wp _ _ ?x => set (n2 := x) end.
  assert (evolves E n n2) as H2.
  { etrans; [exact H1|]. apply local_evolves. unfold n2. by destruct (_ && _). }
  assert (∀ n3 role state hasQuorum verifiedAt reason active, evolves E n n3 →
    wp (run! updateStatus E role (rv_LeaderID rv) (rv_LeaderAddr rv) state (rv_Stats rv) hasQuorum verifiedAt reason (n_now n1) in
        modify (setLeadership active (ms_LeaderEpoch state) reason)) (λ r n', r = Ok tt ∧ evolves E n n') n3) as Hend.
  { intros n3 role state hasQuorum verifiedAt reason active H3. apply wp_bind, wp_updateStatus.
    intros n4 n5 available Hl _ _ _ Hl5. apply wp_modify. split; [done|].
    etrans; [exact H3|]. etrans; [apply local_evolves, Hl5|]. apply local_evolves, local_setLeadership. }
  apply wp_bind. destruct (rv_IsLeader rv).
  - apply (wp_refresh_leader E verify rv).
    + intros n3 H3 _. apply wp_ret. split; [done|by etrans].
    + intros n3 state' role hasQuorum verifiedAt H3 _ _ _. apply Hend. etrans; [exact H2|by apply moved_evolves].
  - apply wp_ret. by apply Hend.
Qed.

Lemma wp_handle_status n :
  wp (handle_status E) (λ r n', r = Ok (writeJSON StatusOK (StatusJSON (n_status n'))) ∧ evolves E n n') n.
Proof. apply wp_bind. eapply wp_mono; [apply wp_refresh|]. by intros r n' [-> Hev]. Qed.

(** The node led when it was asked, and its leadership was confirmed since. *)
Definition confirmed_leader (n n' : Node) : Prop :=
  (∃ rv f, leads (n_now n) n rv f) ∧ (∃ s t, called n n' (mkCall s t (CallVerifyLeader (Ok tt))))
  ∧ ∃ s t, called n n' (mkCall s t (CallBarrier (Ok tt))).

Lemma wp_confirm ctx n :
  wp (VerifyBusinessLeadership ctx) (λ r n', evolves E n n' ∧ (r = Ok tt → confirmed_leader n n')) n.
Proof.
  apply (wp_VerifyBusinessLeadership E).
  - intros e _. by split.
  - intros _ n2 e Hn2 _. by split.
  - intros _ n2 e Hn2. split; [|done]. etrans; [exact Hn2|]. by apply local_evolves.
  - intros Hc n2 c1 c2 Hn2 _ Hcalls _. split; [etrans; [exact Hn2|]; by apply local_evolves|]. intros _.
    split; [by apply checkLocal_leads|].
    split; eexists _, _, [_; _]; (split; [exact Hcalls|]); [right; left|left].
Qed.

Lemma confirmed_mono n n1 n' : confirmed_leader n n1 → evolves E n1 n' → confirmed_leader n n'.
Proof using Type.
  intros (Hl & (s1 & t1 & H1) & s2 & t2 & H2) Hev. split; [done|].
  split; eexists _, _; by eapply (called_mono E).
Qed.
End leader.

(** a barrier is answered with success only by a node that owned the current
    epoch when it was asked and confirmed its leadership by a verification and a
    barrier made while answering, within the configured time; the answer is the
    status refreshed after that.  Every other answer is 503, and every request is
    answered. *)
Theorem barrier_confirms (E : env) `{!RaftLaws R E} (rq : server_request) (n n' : Node) (r : result reply) :
  handle_barrier E rq n = (r, n') →
  ∃ reply, r = Ok reply ∧ evolves E n n'
  ∧ ((rp_Code reply = StatusOK ∧ rp_Body reply = StatusJSON (n_status n') ∧ confirmed_leader n n')
     ∨ ∃ e, reply = writeJSON StatusServiceUnavailable (ErrorJSON e)).
Proof.
  intros Hrun. revert Hrun.
  cut (wp (handle_barrier E rq) (λ r n', ∃ reply, r = Ok reply ∧ evolves E n n'
    ∧ ((rp_Code reply = StatusOK ∧ rp_Body reply = StatusJSON (n_status n') ∧ confirmed_leader n n')
       ∨ ∃ e, reply = writeJSON StatusServiceUnavailable (ErrorJSON e))) n);
    [intros H Hrun; exact (wp_eq _ _ _ _ _ Hrun H)|].
  apply wp_bind, wp_get, wp_bind, wp_try. cbn [id]. eapply wp_mono; [apply (wp_confirm E)|].
  intros [[]|e] n1 [H1 Hc]; [|apply wp_ret].
  2:{ exists (writeJSON StatusServiceUnavailable (ErrorJSON e)). split_and!; [done|done|right; by exists e]. }
  eapply wp_mono; [apply (wp_handle_status E)|]. intros r2 n2 [-> H2]. eexists. split_and!; [done|by etrans|left].
  split_and!; [done|done|]. eapply confirmed_mono; [by apply Hc|done].
Qed.

Lemma barrier_confirms_witness :
  let n := ex_leading ex_fsm in
  let rq := mkServerRequest "POST" "/internal/v1/barrier" [] None 0 (mkReader "" None) None (λ _, None) in
  confirmed_leader n (handle_barrier (R := solo) calm rq n).2.
Proof.
  intros n rq. set (run := handle_barrier calm rq n).
  destruct (barrier_confirms (R := solo) calm rq n run.2 run.1 (surjective_pairing run)) as (reply & Hr & _ & [(_ & _ & Hc)|(e & He)]);
    [exact Hc|exfalso].
  assert ((match run.1 with Ok reply => rp_Code reply | Err _ => 0%N end) = StatusOK) as Hcode by (vm_compute; reflexivity).
  rewrite Hr, He in Hcode. discriminate Hcode.
Defined.

(** the application behind the proxy sees a request only when it carries the
    hop mark and the name of the node that forwarded it, only on a node whose
    leadership was confirmed while the request was handled, and with the path of
    the original request; what [ProxyToLeader] sends passes the test of the mark.
    Without that the request is answered 400 or 503 and the application does not
    run. *)
Theorem proxy_handler_guard (E : env) `{!RaftLaws R E} (app : option (server_request → nio reply))
    (rq : server_request) (n n' : Node) (r : result reply) :
  internalProxyHandler app rq n = (r, n') →
  ((∃ reply, r = Ok reply ∧ evolves E n n' ∧ (rp_Code reply = StatusBadRequest ∨ rp_Code reply = StatusServiceUnavailable))
   ∨ ∃ handler n1 path, app = Some handler ∧ handler (set_path path rq) n1 = (r, n') ∧ evolves E n n1
     ∧ confirmed_leader n n1 ∧ has_prefix "/" path = true
     ∧ path = trim_prefix "/internal/v1/proxy" (path_value (sr_Path rq))
     ∧ header_Get (sr_Header rq) HeaderForwardHop = "1" ∧ header_Get (sr_Header rq) HeaderForwardedBy ≠ "")
  ∧ ∀ base nodeID epoch generation forwarded, nodeID ≠ "" →
      let h := rq_Header (proxy_request base nodeID epoch generation forwarded) in
      negb (str_eqb (header_Get h HeaderForwardHop) "1") || str_eqb (header_Get h HeaderForwardedBy) "" = false.
Proof.
  intros Hrun. split.
  - revert Hrun. unfold internalProxyHandler. destruct (_ || _) eqn:Hhop.
    { intros [= <- <-]. left. eexists. split_and!; [done|reflexivity|by left]. }
    bool_simpl. unfold io_bind at 1, get. cbn [id]. unfold io_bind at 1, io_try.
    pose proof (wp_confirm E (with_timeout (sr_ctx rq) (MaxQuorumVerificationAge (n_cfg n)) (n_now n)) n) as Hc. unfold wp in Hc.
    destruct (VerifyBusinessLeadership _ n) as [[[]|e] n1]; cbn [fst snd] in Hc; destruct Hc as [Hev Hc].
    2:{ intros [= <- <-]. left. eexists. split_and!; [done|done|by right]. }
    destruct app as [handler|]; [|intros [= <- <-]; left; eexists; split_and!; [done|done|by right]].
    set (path := trim_prefix _ _). destruct (has_prefix "/" path) eqn:Hp.
    + intros Hrun. right. exists handler, n1, path. split_and!; try done. by apply Hc.
    + intros [= <- <-]. left. eexists. split_and!; [done|done|by left].
  - intros base nodeID epoch generation forwarded Hne h.
    unfold h. rewrite !proxy_header_Get by reflexivity. cbn. by apply str_eqb_neq.
Qed.

Lemma proxy_handler_guard_witness :
  let n := ex_leading ex_fsm in
  let rq := mkServerRequest "POST" "/internal/v1/proxy/api/items" [(CanonicalHeaderKey HeaderForwardHop, "1"); (CanonicalHeaderKey HeaderForwardedBy, "n2")] None 0
              (mkReader "" None) None (λ _, None) in
  let app := Some (λ rq' : server_request, (λ m, (Ok (writeJSON StatusOK (ErrorJSON (sr_Path rq'))), m)) : nio reply) in
  (internalProxyHandler (R := solo) app rq n).1 = Ok (writeJSON StatusOK (ErrorJSON "/api/items"))
  ∧ confirmed_leader n (internalProxyHandler (R := solo) app rq n).2.
Proof.
  intros n rq app. set (run := internalProxyHandler app rq n).
  assert (run.1 = Ok (writeJSON StatusOK (ErrorJSON "/api/items"))) as Hrun by (vm_compute; reflexivity).
  split; [exact Hrun|]. pose proof (surjective_pairing run) as Hpair. revert Hrun Hpair. generalize run.1, run.2. intros r n' Hrun Hpair.
  destruct (proxy_handler_guard (R := solo) calm app rq n n' r Hpair) as [[(reply & Hr & _ & Hcode)|Hok] _].
  - exfalso. rewrite Hrun in Hr. injection Hr as <-. destruct Hcode as [H|H]; discriminate H.
  - destruct Hok as (handler & n1 & path & [= <-] & Hrun' & _ & Hc & _). injection Hrun' as _ <-. exact Hc.
Defined.
