(* ===== verification/Wire.v ===== *)
(** * Wire: a node on the other end (internal_http.go, prepareJoiningMember and
    voterStatus of node.go)

    Elsewhere a response carries what its body decodes to.  Here the peer is a
    node of the model: [exchange] gives a request to its internal server and
    reads the reply as JSON, as [encoding/json] writes and reads the types that
    go over the wire.  Decoding restores a status, and the client and the
    server of a join and of a status request agree on what they mean. *)
From S2P Require Import Prelude Text Io Sha256 Json GoTime GoTimeProofs Duration Config Peers Capability Manifest Codec.
From S2P Require Import BlobStore Fsm FsmProofs Node Leadership NodeProofs LeadershipProofs Examples Membership.
From S2P Require Import Publish Reads Http.
From stdpp Require Import options.
#[local] Open Scope go_scope.

(** ** JSON of a status *)

(** The members of a [Status], in the order of the struct. *)
Definition enc_Status (s : Status) : result json :=
  let? verified := enc_time (st_QuorumVerifiedAt s) in
  let? contact := enc_time (st_LastLeaderContactAt s) in
  Ok (enc_struct [
    field "enabled" (JBool (st_Enabled s));
    field "ready" (JBool (st_Ready s));
    field "readiness" (enc_string (st_Readiness s));
    field_unless (str_eqb (st_Reason s) "") "reason" (enc_string (st_Reason s));
    field_unless (str_eqb (st_ClusterID s) "") "cluster_id" (enc_string (st_ClusterID s));
    field_unless (str_eqb (st_NodeID s) "") "node_id" (enc_string (st_NodeID s));
    field "role" (enc_string (st_Role s));
    field_unless (str_eqb (st_LeaderID s) "") "leader_id" (enc_string (st_LeaderID s));
    field_unless (str_eqb (st_LeaderAddress s) "") "leader_address" (enc_string (st_LeaderAddress s));
    field "leader_epoch" (enc_uint (st_LeaderEpoch s));
    field "term" (enc_uint (st_Term s));
    field "commit_index" (enc_uint (st_CommitIndex s));
    field "applied_index" (enc_uint (st_AppliedIndex s));
    field "has_quorum" (JBool (st_HasQuorum s));
    field "quorum_verified_at" verified;
    field "last_leader_contact_at" contact;
    field_unless (str_eqb (st_ReadConsistency s) "") "read_consistency" (enc_string (st_ReadConsistency s));
    field "emergency_stale_read" (JBool (st_EmergencyStaleRead s));
    field_unless (str_eqb (st_MaxLeaderContactAge s) "") "max_leader_contact_age" (enc_string (st_MaxLeaderContactAge s));
    field_unless (str_eqb (st_MaxQuorumVerificationAge s) "") "max_quorum_verification_age" (enc_string (st_MaxQuorumVerificationAge s));
    field "committed_generation" (enc_Generation (st_CommittedGeneration s));
    field "committed_generation_index" (enc_uint (st_CommittedGenerationIndex s));
    field_unless (bool_decide (st_AvailableGenerations s = [])) "available_generations" (JArr (map enc_Generation (st_AvailableGenerations s)));
    field "protocol_version" (enc_uint (st_ProtocolVersion s));
    field "command_version" (enc_uint (st_CommandVersion s));
    field "capabilities" (enc_NodeCapabilities (st_Capabilities s));
    field "active_capability_gate" (enc_CapabilityGate (st_ActiveCapabilityGate s));
    field "leader_eligible" (JBool (st_LeaderEligible s));
    field "fsm_healthy" (JBool (st_FSMHealthy s));
    field "fsm_revision" (enc_uint (st_FSMRevision s));
    field_unless (str_eqb (st_FSMApplyError s) "") "fsm_apply_error" (enc_string (st_FSMApplyError s));
    field_unless ((st_FSMApplyErrorIndex s =? 0)%N) "fsm_apply_error_index" (enc_uint (st_FSMApplyErrorIndex s));
    field_unless (str_eqb (st_FSMApplyPersistError s) "") "fsm_apply_persist_error" (enc_string (st_FSMApplyPersistError s))]).

Definition dec_Status : json → Status → option Status :=
  dec_struct [
    ("enabled", set_field st_Enabled (λ v0 '(mkStatus _ b c d e f g h i j k l m n o p q r s t u v w x y z aa ab ac ad ae af ag),
      mkStatus v0 b c d e f g h i j k l m n o p q r s t u v w x y z aa ab ac ad ae af ag) dec_bool);
    ("ready", set_field st_Ready (λ v0 '(mkStatus a _ c d e f g h i j k l m n o p q r s t u v w x y z aa ab ac ad ae af ag),
      mkStatus a v0 c d e f g h i j k l m n o p q r s t u v w x y z aa ab ac ad ae af ag) dec_bool);
    ("readiness", set_field st_Readiness (λ v0 '(mkStatus a b _ d e f g h i j k l m n o p q r s t u v w x y z aa ab ac ad ae af ag),
      mkStatus a b v0 d e f g h i j k l m n o p q r s t u v w x y z aa ab ac ad ae af ag) dec_string);
    ("reason", set_field st_Reason (λ v0 '(mkStatus a b c _ e f g h i j k l m n o p q r s t u v w x y z aa ab ac ad ae af ag),
      mkStatus a b c v0 e f g h i j k l m n o p q r s t u v w x y z aa ab ac ad ae af ag) dec_string);
    ("cluster_id", set_field st_ClusterID (λ v0 '(mkStatus a b c d _ f g h i j k l m n o p q r s t u v w x y z aa ab ac ad ae af ag),
      mkStatus a b c d v0 f g h i j k l m n o p q r s t u v w x y z aa ab ac ad ae af ag) dec_string);
    ("node_id", set_field st_NodeID (λ v0 '(mkStatus a b c d e _ g h i j k l m n o p q r s t u v w x y z aa ab ac ad ae af ag),
      mkStatus a b c d e v0 g h i j k l m n o p q r s t u v w x y z aa ab ac ad ae af ag) dec_string);
    ("role", set_field st_Role (λ v0 '(mkStatus a b c d e f _ h i j k l m n o p q r s t u v w x y z aa ab ac ad ae af ag),
      mkStatus a b c d e f v0 h i j k l m n o p q r s t u v w x y z aa ab ac ad ae af ag) dec_string);
    ("leader_id", set_field st_LeaderID (λ v0 '(mkStatus a b c d e f g _ i j k l m n o p q r s t u v w x y z aa ab ac ad ae af ag),
      mkStatus a b c d e f g v0 i j k l m n o p q r s t u v w x y z aa ab ac ad ae af ag) dec_string);
    ("leader_address", set_field st_LeaderAddress (λ v0 '(mkStatus a b c d e f g h _ j k l m n o p q r s t u v w x y z aa ab ac ad ae af ag),
      mkStatus a b c d e f g h v0 j k l m n o p q r s t u v w x y z aa ab ac ad ae af ag) dec_string);
    ("leader_epoch", set_field st_LeaderEpoch (λ v0 '(mkStatus a b c d e f g h i _ k l m n o p q r s t u v w x y z aa ab ac ad ae af ag),
      mkStatus a b c d e f g h i v0 k l m n o p q r s t u v w x y z aa ab ac ad ae af ag) (dec_uint u64_bound));
    ("term", set_field st_Term (λ v0 '(mkStatus a b c d e f g h i j _ l m n o p q r s t u v w x y z aa ab ac ad ae af ag),
      mkStatus a b c d e f g h i j v0 l m n o p q r s t u v w x y z aa ab ac ad ae af ag) (dec_uint u64_bound));
    ("commit_index", set_field st_CommitIndex (λ v0 '(mkStatus a b c d e f g h i j k _ m n o p q r s t u v w x y z aa ab ac ad ae af ag),
      mkStatus a b c d e f g h i j k v0 m n o p q r s t u v w x y z aa ab ac ad ae af ag) (dec_uint u64_bound));
    ("applied_index", set_field st_AppliedIndex (λ v0 '(mkStatus a b c d e f g h i j k l _ n o p q r s t u v w x y z aa ab ac ad ae af ag),
      mkStatus a b c d e f g h i j k l v0 n o p q r s t u v w x y z aa ab ac ad ae af ag) (dec_uint u64_bound));
    ("has_quorum", set_field st_HasQuorum (λ v0 '(mkStatus a b c d e f g h i j k l m _ o p q r s t u v w x y z aa ab ac ad ae af ag),
      mkStatus a b c d e f g h i j k l m v0 o p q r s t u v w x y z aa ab ac ad ae af ag) dec_bool);
    ("quorum_verified_at", set_field st_QuorumVerifiedAt (λ v0 '(mkStatus a b c d e f g h i j k l m n _ p q r s t u v w x y z aa ab ac ad ae af ag),
      mkStatus a b c d e f g h i j k l m n v0 p q r s t u v w x y z aa ab ac ad ae af ag) dec_time);
    ("last_leader_contact_at", set_field st_LastLeaderContactAt (λ v0 '(mkStatus a b c d e f g h i j k l m n o _ q r s t u v w x y z aa ab ac ad ae af ag),
      mkStatus a b c d e f g h i j k l m n o v0 q r s t u v w x y z aa ab ac ad ae af ag) dec_time);
    ("read_consistency", set_field st_ReadConsistency (λ v0 '(mkStatus a b c d e f g h i j k l m n o p _ r s t u v w x y z aa ab ac ad ae af ag),
      mkStatus a b c d e f g h i j k l m n o p v0 r s t u v w x y z aa ab ac ad ae af ag) dec_string);
    ("emergency_stale_read", set_field st_EmergencyStaleRead (λ v0 '(mkStatus a b c d e f g h i j k l m n o p q _ s t u v w x y z aa ab ac ad ae af ag),
      mkStatus a b c d e f g h i j k l m n o p q v0 s t u v w x y z aa ab ac ad ae af ag) dec_bool);
    ("max_leader_contact_age", set_field st_MaxLeaderContactAge (λ v0 '(mkStatus a b c d e f g h i j k l m n o p q r _ t u v w x y z aa ab ac ad ae af ag),
      mkStatus a b c d e f g h i j k l m n o p q r v0 t u v w x y z aa ab ac ad ae af ag) dec_string);
    ("max_quorum_verification_age", set_field st_MaxQuorumVerificationAge (λ v0 '(mkStatus a b c d e f g h i j k l m n o p q r s _ u v w x y z aa ab ac ad ae af ag),
      mkStatus a b c d e f g h i j k l m n o p q r s v0 u v w x y z aa ab ac ad ae af ag) dec_string);
    ("committed_generation", set_field st_CommittedGeneration (λ v0 '(mkStatus a b c d e f g h i j k l m n o p q r s t _ v w x y z aa ab ac ad ae af ag),
      mkStatus a b c d e f g h i j k l m n o p q r s t v0 v w x y z aa ab ac ad ae af ag) dec_Generation);
    ("committed_generation_index", set_field st_CommittedGenerationIndex (λ v0 '(mkStatus a b c d e f g h i j k l m n o p q r s t u _ w x y z aa ab ac ad ae af ag),
      mkStatus a b c d e f g h i j k l m n o p q r s t u v0 w x y z aa ab ac ad ae af ag) (dec_uint u64_bound));
    ("available_generations", set_field st_AvailableGenerations (λ v0 '(mkStatus a b c d e f g h i j k l m n o p q r s t u v _ x y z aa ab ac ad ae af ag),
      mkStatus a b c d e f g h i j k l m n o p q r s t u v v0 x y z aa ab ac ad ae af ag) (dec_list zero_Generation dec_Generation));
    ("protocol_version", set_field st_ProtocolVersion (λ v0 '(mkStatus a b c d e f g h i j k l m n o p q r s t u v w _ y z aa ab ac ad ae af ag),
      mkStatus a b c d e f g h i j k l m n o p q r s t u v w v0 y z aa ab ac ad ae af ag) (dec_uint u32_bound));
    ("command_version", set_field st_CommandVersion (λ v0 '(mkStatus a b c d e f g h i j k l m n o p q r s t u v w x _ z aa ab ac ad ae af ag),
      mkStatus a b c d e f g h i j k l m n o p q r s t u v w x v0 z aa ab ac ad ae af ag) (dec_uint u32_bound));
    ("capabilities", set_field st_Capabilities (λ v0 '(mkStatus a b c d e f g h i j k l m n o p q r s t u v w x y _ aa ab ac ad ae af ag),
      mkStatus a b c d e f g h i j k l m n o p q r s t u v w x y v0 aa ab ac ad ae af ag) dec_NodeCapabilities);
    ("active_capability_gate", set_field st_ActiveCapabilityGate (λ v0 '(mkStatus a b c d e f g h i j k l m n o p q r s t u v w x y z _ ab ac ad ae af ag),
      mkStatus a b c d e f g h i j k l m n o p q r s t u v w x y z v0 ab ac ad ae af ag) dec_CapabilityGate);
    ("leader_eligible", set_field st_LeaderEligible (λ v0 '(mkStatus a b c d e f g h i j k l m n o p q r s t u v w x y z aa _ ac ad ae af ag),
      mkStatus a b c d e f g h i j k l m n o p q r s t u v w x y z aa v0 ac ad ae af ag) dec_bool);
    ("fsm_healthy", set_field st_FSMHealthy (λ v0 '(mkStatus a b c d e f g h i j k l m n o p q r s t u v w x y z aa ab _ ad ae af ag),
      mkStatus a b c d e f g h i j k l m n o p q r s t u v w x y z aa ab v0 ad ae af ag) dec_bool);
    ("fsm_revision", set_field st_FSMRevision (λ v0 '(mkStatus a b c d e f g h i j k l m n o p q r s t u v w x y z aa ab ac _ ae af ag),
      mkStatus a b c d e f g h i j k l m n o p q r s t u v w x y z aa ab ac v0 ae af ag) (dec_uint u64_bound));
    ("fsm_apply_error", set_field st_FSMApplyError (λ v0 '(mkStatus a b c d e f g h i j k l m n o p q r s t u v w x y z aa ab ac ad _ af ag),
      mkStatus a b c d e f g h i j k l m n o p q r s t u v w x y z aa ab ac ad v0 af ag) dec_string);
    ("fsm_apply_error_index", set_field st_FSMApplyErrorIndex (λ v0 '(mkStatus a b c d e f g h i j k l m n o p q r s t u v w x y z aa ab ac ad ae _ ag),
      mkStatus a b c d e f g h i j k l m n o p q r s t u v w x y z aa ab ac ad ae v0 ag) (dec_uint u64_bound));
    ("fsm_apply_persist_error", set_field st_FSMApplyPersistError (λ v0 '(mkStatus a b c d e f g h i j k l m n o p q r s t u v w x y z aa ab ac ad ae af _),
      mkStatus a b c d e f g h i j k l m n o p q r s t u v w x y z aa ab ac ad ae af v0) dec_string)].

(** A status that JSON carries without loss. *)
Record status_wire (s : Status) : Prop := {
  sw_Readiness : valid_utf8 (st_Readiness s);
  sw_Reason : valid_utf8 (st_Reason s);
  sw_ClusterID : valid_utf8 (st_ClusterID s);
  sw_NodeID : valid_utf8 (st_NodeID s);
  sw_Role : valid_utf8 (st_Role s);
  sw_LeaderID : valid_utf8 (st_LeaderID s);
  sw_LeaderAddress : valid_utf8 (st_LeaderAddress s);
  sw_LeaderEpoch : (st_LeaderEpoch s < u64_bound)%N;
  sw_Term : (st_Term s < u64_bound)%N;
  sw_CommitIndex : (st_CommitIndex s < u64_bound)%N;
  sw_AppliedIndex : (st_AppliedIndex s < u64_bound)%N;
  sw_QuorumVerifiedAt : time_wire (st_QuorumVerifiedAt s);
  sw_LastLeaderContactAt : time_wire (st_LastLeaderContactAt s);
  sw_ReadConsistency : valid_utf8 (st_ReadConsistency s);
  sw_MaxLeaderContactAge : valid_utf8 (st_MaxLeaderContactAge s);
  sw_MaxQuorumVerificationAge : valid_utf8 (st_MaxQuorumVerificationAge s);
  sw_CommittedGeneration : generation_wire (st_CommittedGeneration s);
  sw_CommittedGenerationIndex : (st_CommittedGenerationIndex s < u64_bound)%N;
  sw_AvailableGenerations : ∀ g, g ∈ st_AvailableGenerations s → generation_wire g;
  sw_ProtocolVersion : (st_ProtocolVersion s < u32_bound)%N;
  sw_CommandVersion : (st_CommandVersion s < u32_bound)%N;
  sw_Capabilities : capabilities_wire (st_Capabilities s);
  sw_ActiveCapabilityGate : gate_wire (st_ActiveCapabilityGate s);
  sw_FSMRevision : (st_FSMRevision s < u64_bound)%N;
  sw_FSMApplyError : valid_utf8 (st_FSMApplyError s);
  sw_FSMApplyErrorIndex : (st_FSMApplyErrorIndex s < u64_bound)%N;
  sw_FSMApplyPersistError : valid_utf8 (st_FSMApplyPersistError s);
}.

(** ** JSON of the answer to [join/prepare] *)

(** The [map[string]any] of the handler, whose keys are sorted. *)
Definition enc_prepared (p : join_prepared) : json :=
  enc_struct [
    field "bootstrap_expectation" (enc_int (jp_BootstrapExpect p));
    field "capabilities" (enc_NodeCapabilities (jp_Capabilities p));
    field "cluster_id" (enc_string (jp_ClusterID p));
    field "initial_member_count" (enc_int (jp_InitialMemberCount p));
    field "internal_api_url" (enc_string (jp_InternalAPIURL p));
    field "join_existing" (JBool (jp_JoinExisting p));
    field "node_id" (enc_string (jp_NodeID p));
    field "raft_advertise_addr" (enc_string (jp_RaftAdvertiseAddr p))].

(** The struct of the client. *)
Definition dec_prepared : json → join_prepared → option join_prepared :=
  dec_struct [
    ("cluster_id", set_field jp_ClusterID (λ v '(mkJoinPrepared _ b c d e f g h), mkJoinPrepared v b c d e f g h) dec_string);
    ("node_id", set_field jp_NodeID (λ v '(mkJoinPrepared a _ c d e f g h), mkJoinPrepared a v c d e f g h) dec_string);
    ("raft_advertise_addr", set_field jp_RaftAdvertiseAddr
      (λ v '(mkJoinPrepared a b _ d e f g h), mkJoinPrepared a b v d e f g h) dec_string);
    ("internal_api_url", set_field jp_InternalAPIURL
      (λ v '(mkJoinPrepared a b c _ e f g h), mkJoinPrepared a b c v e f g h) dec_string);
    ("join_existing", set_field jp_JoinExisting (λ v '(mkJoinPrepared a b c d _ f g h), mkJoinPrepared a b c d v f g h) dec_bool);
    ("initial_member_count", set_field jp_InitialMemberCount
      (λ v '(mkJoinPrepared a b c d e _ g h), mkJoinPrepared a b c d e v g h) dec_int64);
    ("bootstrap_expectation", set_field jp_BootstrapExpect
      (λ v '(mkJoinPrepared a b c d e f _ h), mkJoinPrepared a b c d e f v h) dec_int64);
    ("capabilities", set_field jp_Capabilities
      (λ v '(mkJoinPrepared a b c d e f g _), mkJoinPrepared a b c d e f g v) dec_NodeCapabilities)].

Definition zero_prepared : join_prepared := mkJoinPrepared "" "" "" "" false 0 0 zero_NodeCapabilities.

Record prepared_wire (p : join_prepared) : Prop := {
  jw_ClusterID : valid_utf8 (jp_ClusterID p);
  jw_NodeID : valid_utf8 (jp_NodeID p);
  jw_RaftAdvertiseAddr : valid_utf8 (jp_RaftAdvertiseAddr p);
  jw_InternalAPIURL : valid_utf8 (jp_InternalAPIURL p);
  jw_InitialMemberCount : i64_in_range (jp_InitialMemberCount p);
  jw_BootstrapExpect : i64_in_range (jp_BootstrapExpect p);
  jw_Capabilities : capabilities_wire (jp_Capabilities p);
}.

Lemma dec_enc_prepared p : prepared_wire p → dec_prepared (enc_prepared p) zero_prepared = Some p.
Proof.
  destruct p. intros [H1 H2 H3 H4 H5 H6 H7]. cbn in H1, H2, H3, H4, H5, H6, H7.
  unfold dec_prepared, enc_prepared, zero_prepared.
  dec_member; [by apply dec_enc_int|]. dec_member; [by apply dec_enc_NodeCapabilities|]. dec_member.
  dec_member; [by apply dec_enc_int|]. dec_member. dec_member; [reflexivity|]. dec_member. dec_member. done.
Qed.

(** Reduce the fields of an explicit status in the hypotheses. *)
Ltac project_status :=
  cbn [st_Enabled st_Ready st_Readiness st_Reason st_ClusterID st_NodeID st_Role st_LeaderID st_LeaderAddress 
    st_LeaderEpoch st_Term st_CommitIndex st_AppliedIndex st_HasQuorum st_QuorumVerifiedAt st_LastLeaderContactAt st_ReadConsistency st_EmergencyStaleRead 
    st_MaxLeaderContactAge st_MaxQuorumVerificationAge st_CommittedGeneration st_CommittedGenerationIndex st_AvailableGenerations st_ProtocolVersion st_CommandVersion st_Capabilities st_ActiveCapabilityGate 
    st_LeaderEligible st_FSMHealthy st_FSMRevision st_FSMApplyError st_FSMApplyErrorIndex st_FSMApplyPersistError] in *.

Lemma dec_enc_Status s j : status_wire s → enc_Status s = Ok j → dec_Status j zero_Status = Some s.
Proof.
  destruct s. intros Hw Hj. destruct Hw. unfold enc_Status in Hj.
  project_status. apply rbind_Ok in Hj as (jv & Hv & Hj). apply rbind_Ok in Hj as (jc & Hc & [= <-]).
  unfold dec_Status, zero_Status, start_status.
  repeat first
    [ eapply dec_fields_field; [reflexivity|apply set_field_Some; first
        [ eapply dec_enc_uint; eassumption | eapply dec_enc_string; eassumption | reflexivity
        | by apply dec_enc_Generation | by apply dec_enc_NodeCapabilities | by apply dec_enc_CapabilityGate | eauto ]|]
    | dec_optional
    | dec_optional_by ltac:(apply dec_enc_list; intros; apply dec_enc_Generation; auto)
    | done ].
Qed.

(** ** Requests between nodes *)

(** The value [writeJSON] encodes, for the replies of the internal server;
    [None] when the body is no JSON or cannot be encoded. *)
Definition body_json (b : reply_body) : option json :=
  match b with
  | StatusJSON s => match enc_Status s with Ok j => Some j | Err _ => None end
  | PreparedJSON p => Some (enc_prepared p)
  | ErrorJSON e => Some (JObj [("error", enc_string e)])
  | HashJSON hash => Some (JObj [("hash", enc_string hash)])
  | JoinedJSON member => Some (JObj [("joined", enc_Member member)])
  | _ => None
  end.

Definition newline : string := String (Ascii.ascii_of_nat 10) "".

Definition body_reader (b : reply_body) : reader :=
  match b with
  | BlobBytes data => mkReader data None
  | PlainText message => mkReader (message +:+ newline) None
  | ProxiedBody body => body
  | _ => mkReader (match body_json b with Some j => json_text j +:+ newline | None => "" end) None
  end.

(** What a client decodes is cut off after 1 MiB; an object cut off is no JSON. *)
Definition response_limit : N := 1048576.
Definition fits (j : json) : bool := (N.of_nat (String.length (json_text j)) <=? response_limit)%N.

(** The reply as the client gets it. *)
Definition on_wire (rp : reply) : response :=
  let decoded {A} (dec : json → A → option A) (zero : A) : option A :=
    match body_json (rp_Body rp) with Some j => if fits j then dec j zero else None | None => None end in
  mkResponse (rp_Code rp) (rp_Header rp) (body_reader (rp_Body rp))
    (decoded dec_Status zero_Status) (decoded dec_prepared zero_prepared).

(** The request as the server at [base] gets it, from the holder of [cert]. *)
Definition received (cert : certificate) (base : string) (rq : request) : server_request :=
  mkServerRequest (rq_Method rq) (trim_prefix base (rq_URL rq)) (rq_Header rq) (Some [cert])
    (Z.of_nat (String.length (rq_Body rq))) (mkReader (rq_Body rq) None) None (λ _, None).

Section exchange.
Context (E : env) {R : Raft} {P : Peers} (polls : nat).

Definition exchange (cert : certificate) (base : string) (peer : Node) (rq : request) : result response * Node :=
  match internal_server E polls None (received cert base rq) peer with
  | (Ok rp, peer') => (Ok (on_wire rp), peer')
  | (Err e, peer') => (Err e, peer')
  end.

(** The network of a node that talks to [peer] at [base]. *)
Definition talk (cert : certificate) (base : string) (peer : Node) : Peers := {|
  client_Do rq n := ((exchange cert base peer rq).1, n);
  http_NewRequest method url := Ok tt;
  tls_LoadX509KeyPair cert key := Ok tt;
  os_ReadFile path := Ok "";
  AppendCertsFromPEM pem := true;
|}.
End exchange.

(** The peer accepts the certificate. *)
Definition admits (peer : Node) (cert : certificate) : Prop :=
  ClusterID (n_cfg peer) ∈ Organization cert ∧ is_Some (n_peers peer !! CommonName cert).

(** What a node answers to [join/prepare]. *)
Definition prepared_of (n : Node) : join_prepared :=
  mkJoinPrepared (ClusterID (n_cfg n)) (NodeID (n_cfg n)) (RaftAdvertiseAddr (n_cfg n))
    (InternalAPIAdvertiseAddr (n_cfg n)) (JoinExisting (n_cfg n)) (Z.of_nat (length (InitialMembers (n_cfg n))))
    (BootstrapExpect (n_cfg n)) (n_capabilities n).

Section replies.
Context (E : env) {R : Raft} {P : Peers} (polls : nat).

(** A server turns a stranger away. *)
Lemma served_admitted cert base peer rq :
  internal_server E polls None (received cert base rq) peer =
  if containsString (Organization cert) (ClusterID (n_cfg peer)) && bool_decide (is_Some (n_peers peer !! CommonName cert))
  then internal_mux E polls None (received cert base rq) peer
  else (Ok (http_Error (if containsString (Organization cert) (ClusterID (n_cfg peer))
                        then "certificate identity is not a committed cluster member"
                        else "certificate cluster identity does not match") StatusForbidden), peer).
Proof.
  unfold internal_server, io_bind at 1, get, Datatypes.id, requireMemberCertificate. cbn [sr_TLS received].
  destruct (containsString _ _); [|done]. unfold registry_Member. cbn [negb andb].
  destruct (n_peers peer !! CommonName cert); [by rewrite bool_decide_true by done|].
  rewrite bool_decide_false; [done|]. by intros [].
Qed.

Lemma admits_spec peer cert :
  containsString (Organization cert) (ClusterID (n_cfg peer)) && bool_decide (is_Some (n_peers peer !! CommonName cert)) = true
  ↔ admits peer cert.
Proof. unfold admits. rewrite andb_true_iff, containsString_spec, bool_decide_eq_true. done. Qed.

Lemma mux_prepare cert base peer :
  internal_mux E polls None (received cert base (post_request (base +:+ "/internal/v1/join/prepare"))) peer
  = (Ok (if n_unjoined peer then writeJSON StatusOK (PreparedJSON (prepared_of peer))
         else writeJSON StatusConflict (ErrorJSON "node is not in unjoined state")), peer).
Proof.
  unfold internal_mux. cbn [sr_Method sr_Path received rq_Method rq_URL post_request]. rewrite trim_prefix_app.
  change (internal_route "POST" "/internal/v1/join/prepare") with (Some RouteJoinPrepare). cbn [handle_join_prepare].
  unfold handle_join_prepare, io_bind, get, Datatypes.id. by destruct (n_unjoined peer).
Qed.

Lemma mux_status cert base peer :
  internal_mux E polls None (received cert base (get_request (base +:+ "/internal/v1/status"))) peer
  = handle_status E peer.
Proof.
  unfold internal_mux. cbn [sr_Method sr_Path received rq_Method rq_URL get_request]. rewrite trim_prefix_app.
  by change (internal_route "GET" "/internal/v1/status") with (Some RouteStatus).
Qed.
End replies.

(** C27: A leader that asks a joining node to prepare, over HTTP and JSON, gets
    its capabilities exactly if that node lets it in, waits to join, and is the
    member the leader was asked to add: same cluster, same identity, same
    addresses, started to join, with as many initial members as the cluster
    expects on both sides, and its answer is not too long to be read. *)
Theorem prepare_handshake (E : env) `{R : Raft} `{P : Peers} (polls : nat) (cert : certificate) (leader peer : Node)
    (member : Member) (capabilities : NodeCapabilities) :
  let base := trimmed (mb_InternalAPIURL member) in
  let mine := n_cfg leader in let theirs := n_cfg peer in
  prepared_wire (prepared_of peer) →
  (prepareJoiningMember (P := talk E polls cert base peer) member leader).1 = Ok capabilities ↔
  admits peer cert ∧ n_unjoined peer = true ∧ fits (enc_prepared (prepared_of peer)) = true
  ∧ capabilities = n_capabilities peer
  ∧ ClusterID theirs = ClusterID mine ∧ NodeID theirs = mb_NodeID member
  ∧ RaftAdvertiseAddr theirs = mb_Addr member ∧ InternalAPIAdvertiseAddr theirs = mb_InternalAPIURL member
  ∧ JoinExisting theirs = true ∧ Z.of_nat (length (InitialMembers theirs)) = BootstrapExpect mine
  ∧ BootstrapExpect theirs = BootstrapExpect mine.
Proof.
  intros base mine theirs Hwire. rewrite <- admits_spec.
  unfold prepareJoiningMember, send, record_call, io_bind, io_of, internalHTTPClient, loadTLSIdentity.
  cbn [talk client_Do http_NewRequest tls_LoadX509KeyPair os_ReadFile AppendCertsFromPEM].
  unfold exchange. fold base. rewrite served_admitted. destruct (_ && _); [|cbn; naive_solver].
  rewrite mux_prepare. destruct (n_unjoined peer); [|cbn; naive_solver].
  cbn [on_wire writeJSON rp_Code rp_Body rp_Header rs_StatusCode rs_Prepared body_json fst snd].
  destruct (fits _); [|cbn; naive_solver]. rewrite (dec_enc_prepared _ Hwire). cbn. fold mine theirs.
  destruct (_ || _) eqn:Hbad; cbn; rewrite ?orb_false_iff, ?orb_true_iff in Hbad.
  - split; [done|]. intros (_ & _ & _ & _ & H1 & H2 & H3 & H4 & H5 & H6 & H7).
    rewrite H1, H2, H3, H4, H5, H6, H7, !str_eqb_refl, !Z.eqb_refl in Hbad. naive_solver.
  - destruct Hbad as ((((((H1 & H2) & H3) & H4) & H5) & H6) & H7). bool_simpl. split; [|naive_solver].
    intros [= <-]. by split_and!.
Qed.

(** The node "n4", which waits to be added by "n1". *)
Definition ex_waiting : Node :=
  set_unjoined true (ex_node (NormalizeConfig (mkConfig true "c" "n4" "" "0.0.0.0:7000" "h4:7000"
    "0.0.0.0:7443" "https://h4:7443" "/data" 3 true ["n1=h1:7000"; "n2=h2:7000|https://h2:7443"; "n3=h3:7000"]
    ["admin"] "" 0 0 false 0 0 0 0 0 "" 0 0 0 0 0 (mkTLSConfig true "ca" "crt" "key" ""))) ex_follower ex_fsm).
Definition ex_certificate : certificate := mkCertificate "n1" ["c"].

Lemma prepare_handshake_witness :
  (prepareJoiningMember (P := talk (R := solo) (P := ex_peers) calm 1 ex_certificate "https://h4:7443" ex_waiting)
    ex_joiner (ex_leading ex_fsm)).1 = Ok SupportedNodeCapabilities.
Proof.
  refine (proj2 (prepare_handshake (R := solo) (P := ex_peers) calm 1 ex_certificate (ex_leading ex_fsm) ex_waiting
    ex_joiner SupportedNodeCapabilities _) _).
  - split; [reflexivity..|split; vm_compute; discriminate|split; vm_compute; discriminate|].
    split; [reflexivity|split; reflexivity..].
  - split; [split; [left|vm_compute; eexists; reflexivity]|]. split_and!; reflexivity.
Defined.

(** C26: A voter that asks another one for its capabilities before a gate is
    activated, over HTTP and JSON, gets them exactly if the other node lets it
    in and its status, refreshed for the request, is that of the expected
    member, healthy, caught up, following the gate, and not too long to be
    read. *)
Theorem status_exchange (E : env) `{R : Raft} `{P : Peers} (polls : nat) (cert : certificate) (asker peer peer' : Node)
    (gate : CapabilityGate) (nodeID base : string) (capabilities : NodeCapabilities) (j : json) :
  nodeID ≠ NodeID (n_cfg asker) → internalAPIURLForNode nodeID asker = Some base →
  refreshStatus E false peer = (Ok tt, peer') →
  let status := n_status peer' in
  status_wire status → enc_Status status = Ok j →
  (voterStatus (P := talk E polls cert base peer) gate nodeID asker).1 = Ok capabilities ↔
  admits peer cert ∧ fits j = true ∧ capabilities = st_Capabilities status
  ∧ st_ClusterID status = ClusterID (n_cfg asker) ∧ st_NodeID status = nodeID
  ∧ st_FSMHealthy status = true ∧ st_FSMApplyError status = ""
  ∧ (st_CommitIndex status ≤ st_AppliedIndex status)%N
  ∧ capabilityGatesEqual (st_ActiveCapabilityGate status) gate = true.
Proof.
  intros Hid Hbase Hrefresh status Hwire Henc. rewrite <- admits_spec.
  unfold voterStatus, send, record_call, io_bind, io_of, io_wrap, internalHTTPClient, loadTLSIdentity, get, Datatypes.id.
  rewrite str_eqb_neq, Hbase by done.
  cbn [talk client_Do http_NewRequest tls_LoadX509KeyPair os_ReadFile AppendCertsFromPEM].
  unfold exchange. rewrite served_admitted. destruct (_ && _); [|cbn; naive_solver].
  rewrite mux_status. unfold handle_status, io_bind, get, io_ret, Datatypes.id. rewrite Hrefresh. fold status.
  cbn [on_wire writeJSON rp_Code rp_Body rp_Header rs_StatusCode rs_Status body_json fst snd].
  rewrite Henc. destruct (fits j); [|cbn; naive_solver]. rewrite (dec_enc_Status _ _ Hwire Henc). cbn.
  destruct (_ || negb (str_eqb (st_NodeID status) nodeID)) eqn:H1; rewrite ?orb_false_iff, ?orb_true_iff in H1; cbn.
  { split; [done|]. intros (_ & _ & _ & Ha & Hb & _). rewrite Ha, Hb, !str_eqb_refl in H1. naive_solver. }
  destruct (_ || negb (str_eqb (st_FSMApplyError status) "")) eqn:H2; rewrite ?orb_false_iff, ?orb_true_iff in H2; cbn.
  { split; [done|]. intros (_ & _ & _ & _ & _ & Ha & Hb & _). rewrite Ha, Hb in H2. naive_solver. }
  destruct (_ <? _)%N eqn:H3; bool_simpl; cbn; [split; [done|]; intros; lia|].
  destruct (capabilityGatesEqual _ gate) eqn:H4; cbn; [|naive_solver].
  destruct H1 as [? ?], H2 as [? ?]. bool_simpl. split; [intros [= <-]; by split_and!|naive_solver].
Qed.

(** The voter "n2", which follows "n1" closely. *)
Definition ex_voter : Node :=
  ex_node (NormalizeConfig (mkConfig true "c" "n2" "" "0.0.0.0:7000" "h2:7000"
    "0.0.0.0:7443" "https://h2:7443" "/data" 3 false ["n1=h1:7000|https://h1:7443"; "n2=h2:7000"; "n3=h3:7000"]
    ["admin"] "" 0 0 false 0 0 0 0 0 "" 0 0 0 0 0 (mkTLSConfig true "ca" "crt" "key" ""))) ex_follower ex_fsm.

Lemma ex_voter_wire : status_wire (n_status (refreshStatus (R := solo) calm false ex_voter).2).
Proof.
  set (s := n_status _).
  assert (st_AvailableGenerations s = []) as Havail by (vm_compute; reflexivity).
  split; lazymatch goal with
  | |- valid_utf8 _ => vm_compute; reflexivity
  | |- (_ < _)%N => vm_compute; reflexivity
  | |- time_wire _ => by apply utc_wire
  | |- generation_wire _ => split; vm_compute; reflexivity
  | |- capabilities_wire _ => split; try split; vm_compute; reflexivity
  | |- _ => idtac
  end.
  - rewrite Havail. intros g []%elem_of_nil.
  - split; lazymatch goal with |- (_ < _)%N => vm_compute; reflexivity | |- _ => idtac end. intros k v H.
    change (({[ "*" := 1%N ]} : gmap string N) !! k = Some v) in H.
    apply lookup_singleton_Some in H as [<- <-]. by split.
Qed.

Lemma status_exchange_witness :
  (voterStatus (P := talk (R := solo) (P := ex_peers) calm 1 ex_certificate "https://h2:7443" ex_voter)
    LegacyCapabilityGate "n2" (ex_leading ex_fsm)).1 = Ok SupportedNodeCapabilities.
Proof.
  set (run := refreshStatus (R := solo) calm false ex_voter).
  assert (run = (Ok tt, run.2)) as Hrun by (rewrite (surjective_pairing run) at 1; f_equal; vm_compute; reflexivity).
  assert (match enc_Status (n_status run.2) with Ok j => fits j | Err _ => false end = true) as Hfits
    by (vm_compute; reflexivity).
  destruct (enc_Status (n_status run.2)) as [j|e] eqn:Hj; [|discriminate].
  refine (proj2 (status_exchange (R := solo) (P := ex_peers) calm 1 ex_certificate (ex_leading ex_fsm) ex_voter run.2
    LegacyCapabilityGate "n2" "https://h2:7443" SupportedNodeCapabilities j _ _ Hrun _ Hj) _).
  - discriminate.
  - vm_compute; reflexivity.
  - exact ex_voter_wire.
  - split; [split; [left|vm_compute; eexists; reflexivity]|].
    split; [exact Hfits|]. split_and!; first [vm_compute; reflexivity|vm_compute; discriminate].
Defined.
