(* ===== verification/Runs.v ===== *)
(** * Runs: everything a running node does, in any order

    [perform] runs one operation of a node: a method of its API, a request to
    its internal server, or a round of one of its loops.  A run is a sequence of
    operations with moves of Raft in between, which apply entries of the log or
    install a snapshot.  Each operation runs to its end; what other goroutines do
    meanwhile is what the calls into Raft and to peers allow: entries of the log
    are applied, no snapshot is installed. *)
From S2P Require Import Prelude Text Io Sha256 Json GoTime Duration Config Peers Capability Manifest.
From S2P Require Import BlobStore Fsm FsmProofs FsmCodec Node Leadership Membership Publish Reads Http.
From stdpp Require Import options.
#[local] Open Scope io_scope.

Inductive operation : Type :=
| OpMonitor (verify : bool)
| OpRaftLeadershipLost
| OpMonitorStopped
| OpSnapshotRound
| OpMembershipTick (ctx : context)
| OpServe (app : option (server_request → reply)) (rq : server_request)
| OpVerifyBusinessLeadership (ctx : context)
| OpPutMetadata (ctx : context) (commandID key : string) (value : result json) (revision : N)
| OpPutMetadataBatch (ctx : context) (commandID : string) (values : gmap string (result json)) (revision : N)
| OpPublishSnapshot (ctx : context) (commandID : string) (manifest : Manifest) (blobs : gmap string reader)
| OpJoinVoter (ctx : context) (member : Member)
| OpRemoveServer (ctx : context) (nodeID : string)
| OpActivateCapabilities (ctx : context) (commandID : string) (gate : CapabilityGate)
| OpTransferLeadership (ctx : context) (nodeID : string)
| OpVerifyLocalRead (ctx : context) (generation : Generation)
| OpOpenSnapshotDataset (name : string)
| OpOpenSnapshotDatasetAt (generation : Generation) (name : string)
| OpOpenSnapshotDatasetShardAt (generation : Generation) (name shardKey : string)
| OpProxyToLeader (w : Header) (rq : request) (generation : Generation)
| OpSubscribeLeadership (ch : N)
| OpUnsubscribeLeadership (ch : N)
| OpSetServingReadiness (check : option (bool * string)).

Section runs.
Context (E : env) {R : Raft} {P : Peers} (polls : nat).

(** Another machine with the same data, and without a fault. *)
Definition healthy (f : metadataFSM) : metadataFSM := mkMetadataFSM (data_of f) (fsm_capabilities f) no_fault "" "".

(** The application behind the proxy answers; what it asks of the node is an
    operation of its own. *)
Definition application (app : option (server_request → reply)) : option (server_request → nio reply) :=
  (λ f rq, io_ret (f rq)) <$> app.

Definition perform (op : operation) (n : Node) : Node :=
  match op with
  | OpMonitor verify => (refreshStatus E verify n).2
  | OpRaftLeadershipLost => raft_leadership_lost n
  | OpMonitorStopped => monitor_stopped n
  | OpSnapshotRound => (snapshot_round E n).2
  | OpMembershipTick ctx => (membership_tick polls ctx n).2
  | OpServe app rq => (internal_server E polls (application app) rq n).2
  | OpVerifyBusinessLeadership ctx => (VerifyBusinessLeadership ctx n).2
  | OpPutMetadata ctx commandID key value revision => (PutMetadata ctx commandID key value revision n).2
  | OpPutMetadataBatch ctx commandID values revision => (PutMetadataBatch ctx commandID values revision n).2
  | OpPublishSnapshot ctx commandID manifest blobs => (PublishSnapshot E ctx commandID manifest blobs n).2
  | OpJoinVoter ctx member => (JoinVoter polls ctx member n).2
  | OpRemoveServer ctx nodeID => (RemoveServer polls ctx nodeID n).2
  | OpActivateCapabilities ctx commandID gate => (ActivateCapabilities ctx commandID gate n).2
  | OpTransferLeadership ctx nodeID => (TransferLeadership ctx nodeID n).2
  | OpVerifyLocalRead ctx generation => (VerifyLocalReadResult E ctx generation n).2
  | OpOpenSnapshotDataset name => (OpenSnapshotDataset E name n).2
  | OpOpenSnapshotDatasetAt generation name => (OpenSnapshotDatasetAt E generation name n).2
  | OpOpenSnapshotDatasetShardAt generation name shardKey => (OpenSnapshotDatasetShardAt E generation name shardKey n).2
  | OpProxyToLeader w rq generation => (ProxyToLeader w rq generation n).2
  | OpSubscribeLeadership ch => default n (SubscribeLeadership ch n)
  | OpUnsubscribeLeadership ch => UnsubscribeLeadership ch n
  | OpSetServingReadiness check => SetServingReadiness check n
  end.

(** Raft brings a machine that is behind up to date: it calls [Restore] with what
    [Persist] wrote of a machine of the cluster, of the same capabilities, that has
    applied the entries which follow the data of this one.  (Its manifests have a
    map of datasets; one with the null map is written with the empty one.) *)
Inductive installs : relation Node :=
| installs_snapshot n f g f' s log dg dg' data write_sink close_sink res r now d :
    n_fsm n = Some f →
    run E log (healthy f) dg = (g, dg') → small_run E log (healthy f) dg →
    (∀ h m, ms_Snapshots (fsm_state g) !! h = Some m → is_Some (m_Datasets m)) →
    Snapshot g = Ok s → state_wire s → Persist write_sink close_sink s = (Ok tt, SinkClosed data) →
    Restore E (Some data) f (n_disk n) = ((res, f'), d) →
    (t_ns (n_now n) ≤ t_ns now)%Z →
    (n_raft n = None ↔ r = None) ∧ (small_view (n_raft n) → small_view r) →
    installs n (set_raft r (Some f') now d n).

(** A run with or without installed snapshots. *)
Inductive run_step (snapshots : bool) : relation Node :=
| run_operation n op : run_step snapshots n (perform op n)
| run_moves n n' : moves E n n' → run_step snapshots n n'
| run_installs n n' : snapshots = true → installs n n' → run_step snapshots n n'.
End runs.
