(* ===== verification/RunsSpec.v ===== *)
(** * RunsSpec: what every run of a node preserves

    Each operation evolves the node, so over any run the configuration, the
    capabilities, the blob store and the upload slots stay, the replicated state
    keeps its invariant and only grows, a halted machine never leads again, and
    every change of the Raft configuration is justified. *)
From S2P Require Import Prelude Text Io Sha256 Json GoTime Duration Config Peers Capability Manifest.
From S2P Require Import BlobStore Fsm FsmProofs FsmSpec FsmCodec Node Leadership NodeProofs LeadershipProofs Examples.
From S2P Require Import Membership MembershipProofs Publish PublishProofs Reads ReadsSpec Http HttpSpec Runs.
From stdpp Require Import options.
#[local] Open Scope io_scope.

Section evolving.
Context (E : env) {R : Raft} {P : Peers} `{!RaftLaws R E, !PeersLaws P E} (polls : nat).
Set Default Proof Using "Type*".

Lemma evolving_refresh verify : evolving E (refreshStatus E verify).
Proof. intros n. eapply wp_mono; [by apply wp_refresh|]. by intros r n' [_ ?]. Qed.

Lemma evolving_local_modify (f : Node → Node) : (∀ n, local n (f n)) → evolving E (modify f).
Proof using Type. apply evolving_modify. Qed.

Lemma evolving_defer {A} (f : Node → Node) (body : nio A) :
  (∀ n, local n (f n)) → evolving E body → evolving E (with_defer f body).
Proof using Type.
  intros Hf Hb n. unfold wp, with_defer. specialize (Hb n). unfold wp in Hb. destruct (body n) as [r n1].
  etrans; [exact Hb|]. by apply local_evolves.
Qed.

Lemma evolving_verifyManifestBlobs m : evolving E (verifyManifestBlobs E m).
Proof using Type. unfold verifyManifestBlobs. eauto with evolving. Qed.

Lemma evolving_Do rq (what : result response → event) : evolving E (record_call what (client_Do rq)).
Proof. apply evolving_calling, calling_record, Do_moves. Qed.
Hint Resolve evolving_refresh evolving_verifyManifestBlobs evolving_Do : evolving.

Ltac evolve := follow ltac:(apply evolving_bind)
  ltac:(solve [eauto using evolving_reconcile, evolving_prepare, evolving_VerifyBusinessLeadership, evolving_wait_call with evolving
              | by apply evolving_modify]).

Lemma evolving_membership_tick ctx : evolving E (membership_tick polls ctx).
Proof. unfold membership_tick, reconcileMembershipOperation. evolve. Qed.
Lemma evolving_RemoveServer ctx nodeID : evolving E (RemoveServer polls ctx nodeID).
Proof. unfold RemoveServer. evolve. Qed.
Lemma evolving_JoinVoter ctx member : evolving E (JoinVoter polls ctx member).
Proof. unfold JoinVoter. evolve. Qed.
Lemma evolving_TransferLeadership ctx nodeID : evolving E (TransferLeadership ctx nodeID).
Proof. unfold TransferLeadership. evolve. Qed.
Lemma evolving_voterStatus gate id : evolving E (voterStatus gate id).
Proof. unfold voterStatus. evolve. Qed.
Hint Resolve evolving_voterStatus : evolving.
Lemma evolving_voterStatuses_loop gate voters acc : evolving E (voterStatuses_loop gate voters acc).
Proof. revert acc. induction voters as [|v voters IH]; intros acc; cbn [voterStatuses_loop]; evolve. Qed.
Hint Resolve evolving_voterStatuses_loop : evolving.
Lemma evolving_ActivateCapabilities ctx id gate : evolving E (ActivateCapabilities ctx id gate).
Proof. unfold ActivateCapabilities, voterStatuses. evolve. Qed.

(** *** Snapshots *)

Lemma evolving_putBlobToPeer base hash : evolving E (putBlobToPeer E base hash).
Proof. unfold putBlobToPeer. evolve. Qed.
Hint Resolve evolving_putBlobToPeer : evolving.
Lemma evolving_put_blobs base hashes : evolving E (put_blobs E base hashes).
Proof. induction hashes as [|h hashes IH]; cbn [put_blobs]; evolve. Qed.
Hint Resolve evolving_put_blobs : evolving.
Lemma evolving_replicateManifestToPeer id m : evolving E (replicateManifestToPeer E id m).
Proof. unfold replicateManifestToPeer. evolve. Qed.
Hint Resolve evolving_replicateManifestToPeer : evolving.
Lemma evolving_replicate_to m voters acks : evolving E (replicate_to E m voters acks).
Proof. revert acks. induction voters as [|v voters IH]; intros acks; cbn [replicate_to]; evolve. Qed.
Hint Resolve evolving_replicate_to : evolving.
Lemma evolving_publish_staged id m blobs : evolving E (publish_staged E id m blobs).
Proof. unfold publish_staged, replicateSnapshotBlobs. evolve. Qed.
Lemma evolving_PublishSnapshot ctx id m blobs : evolving E (PublishSnapshot E ctx id m blobs).
Proof.
  unfold PublishSnapshot. follow ltac:(apply evolving_bind)
    ltac:(solve [eauto using evolving_VerifyBusinessLeadership with evolving | by apply evolving_modify
                | apply evolving_defer; [done|apply evolving_publish_staged]]).
Qed.

Lemma evolving_pullBlobFromPeer id hash : evolving E (pullBlobFromPeer E id hash).
Proof. unfold pullBlobFromPeer. evolve. Qed.
Hint Resolve evolving_pullBlobFromPeer : evolving.
Lemma evolving_pull_from voters hash : evolving E (pull_from E voters hash).
Proof. induction voters as [|v voters IH]; cbn [pull_from]; evolve. Qed.
Hint Resolve evolving_pull_from : evolving.
Lemma evolving_sync_blobs voters hashes : evolving E (sync_blobs E voters hashes).
Proof. induction hashes as [|h hashes IH]; cbn [sync_blobs]; evolve. Qed.
Hint Resolve evolving_sync_blobs : evolving.
Lemma evolving_syncActiveSnapshot : evolving E (syncActiveSnapshot E).
Proof. unfold syncActiveSnapshot. evolve. Qed.
Hint Resolve evolving_syncActiveSnapshot : evolving.
Lemma evolving_snapshot_round : evolving E (snapshot_round E).
Proof. unfold snapshot_round, gcSnapshotBlobs, collect_blobs. evolve. Qed.

(** *** Reads and requests *)

Lemma evolving_open_blob hash : evolving E (open_blob E hash).
Proof using Type. apply evolving_with_store. Qed.
Hint Resolve evolving_open_blob : evolving.
Lemma evolving_OpenSnapshotDataset name : evolving E (OpenSnapshotDataset E name).
Proof. unfold OpenSnapshotDataset. evolve. Qed.
Lemma evolving_OpenSnapshotDatasetAt generation name : evolving E (OpenSnapshotDatasetAt E generation name).
Proof. unfold OpenSnapshotDatasetAt. evolve. Qed.
Lemma evolving_open_shard shards key : evolving E (open_shard E shards key).
Proof. induction shards as [|x shards IH]; cbn [open_shard]; evolve. Qed.
Hint Resolve evolving_open_shard : evolving.
Lemma evolving_OpenSnapshotDatasetShardAt generation name key : evolving E (OpenSnapshotDatasetShardAt E generation name key).
Proof. unfold OpenSnapshotDatasetShardAt. evolve. Qed.
Lemma evolving_verifyLocalReadStrict ctx generation : evolving E (verifyLocalReadStrict E ctx generation).
Proof. unfold verifyLocalReadStrict, ask_leader. evolve. Qed.
Hint Resolve evolving_verifyLocalReadStrict : evolving.
Lemma evolving_VerifyLocalReadResult ctx generation : evolving E (VerifyLocalReadResult E ctx generation).
Proof. unfold VerifyLocalReadResult. evolve. Qed.
Lemma evolving_ProxyToLeader w rq generation : evolving E (ProxyToLeader w rq generation).
Proof. unfold ProxyToLeader. evolve. Qed.

Lemma evolving_handle_put_blob hash rq : evolving E (handle_put_blob E hash rq).
Proof using Type. intros n. apply local_evolves, local_handle_put_blob. Qed.

Lemma evolving_internalProxyHandler app rq : evolving E (internalProxyHandler (application app) rq).
Proof.
  unfold internalProxyHandler, application. destruct app as [f|]; cbn [fmap option_fmap option_map]; evolve.
Qed.
Hint Resolve evolving_handle_put_blob evolving_internalProxyHandler : evolving.

Lemma evolving_internal_server app rq : evolving E (internal_server E polls (application app) rq).
Proof.
  unfold internal_server, requireMemberCertificate. apply evolving_bind; [apply evolving_get|intros n].
  assert (evolving E (internal_mux E polls (application app) rq)) as Hmux.
  { unfold internal_mux, handle_barrier, handle_status, handle_join_prepare, handle_add_node, handle_remove_node, handle_get_blob.
    follow ltac:(apply evolving_bind)
      ltac:(solve [eauto using evolving_refresh, evolving_VerifyBusinessLeadership, evolving_JoinVoter, evolving_RemoveServer with evolving]). }
  follow ltac:(apply evolving_bind) ltac:(solve [exact Hmux | apply evolving_ret]).
Qed.
End evolving.

(** ** Over a run *)

(** What a run may do: everything an operation may, and the readiness check of
    the application may be replaced. *)
Definition progress (E : env) (n n' : Node) : Prop := evolves E n (set_serving (n_servingReady n) n').

Lemma set_serving_evolves E check n n' : evolves E n n' → evolves E (set_serving check n) (set_serving check n').
Proof. intros [[] Ht Hr Hf Hc]. constructor; [by constructor|done..]. Qed.

#[export] Instance progress_preorder E : PreOrder (progress E).
Proof.
  split.
  - intros n. unfold progress. destruct n. apply (@reflexivity _ (evolves E) _).
  - intros n1 n2 n3 H1 H2. unfold progress in *. etrans; [exact H1|].
    by apply (set_serving_evolves E (n_servingReady n1)) in H2.
Qed.

Lemma evolves_progress E n n' : evolves E n n' → progress E n n'.
Proof. intros [[] Ht Hr Hf Hc]. constructor; [by constructor|done..]. Qed.

Section runs.
Context (E : env) {R : Raft} {P : Peers} `{!RaftLaws R E, !PeersLaws P E} (polls : nat).

Lemma evolving_progress {A} (m : nio A) n : evolving E m → progress E n (m n).2.
Proof using Type. intros Hm. apply evolves_progress. exact (Hm n). Qed.

Lemma perform_progress op n : progress E n (perform E polls op n).
Proof using RaftLaws0 PeersLaws0.
  destruct op; cbn [perform].
  - by apply evolving_progress, (evolving_refresh E verify).
  - apply evolves_progress, local_evolves. unfold raft_leadership_lost. etrans; [|apply local_setLeadership]. apply local_updateCachedLeadership.
  - apply evolves_progress, local_evolves, local_setLeadership.
  - by apply evolving_progress, (evolving_snapshot_round E).
  - by apply evolving_progress, (evolving_membership_tick E polls ctx).
  - by apply evolving_progress, (evolving_internal_server E polls app rq).
  - by apply evolving_progress, (evolving_VerifyBusinessLeadership E ctx).
  - by apply evolving_progress, (evolving_PutMetadata E ctx commandID key value revision).
  - by apply evolving_progress, (evolving_PutMetadataBatch E ctx commandID values revision).
  - by apply evolving_progress, (evolving_PublishSnapshot E ctx commandID manifest blobs).
  - by apply evolving_progress, (evolving_JoinVoter E polls ctx member).
  - by apply evolving_progress, (evolving_RemoveServer E polls ctx nodeID).
  - by apply evolving_progress, (evolving_ActivateCapabilities E ctx commandID gate).
  - by apply evolving_progress, (evolving_TransferLeadership E ctx nodeID).
  - by apply evolving_progress, (evolving_VerifyLocalReadResult E ctx generation).
  - by apply evolving_progress, (evolving_OpenSnapshotDataset E name).
  - by apply evolving_progress, (evolving_OpenSnapshotDatasetAt E generation name).
  - by apply evolving_progress, (evolving_OpenSnapshotDatasetShardAt E generation name shardKey).
  - by apply evolving_progress, (evolving_ProxyToLeader E w rq generation).
  - apply evolves_progress, local_evolves. unfold SubscribeLeadership, subscribe_register, subscribe_send. by destruct (_ !! _) as [[]|].
  - by apply evolves_progress, local_evolves.
  - unfold progress. destruct n. apply (@reflexivity _ (evolves E) _).
Qed.

Lemma moves_progress n n' : moves E n n' → progress E n n'.
Proof using Type.
  intros Hm. apply evolves_progress. pose proof (moves_evolves E [] n n' Hm) as H. cbn [app] in H.
  rewrite <- (moves_calls _ _ _ Hm) in H. by destruct n'.
Qed.

(** Without installed snapshots a run is as what an operation does. *)
Lemma run_progress n n' : rtc (run_step E polls false) n n' → progress E n n'.
Proof using RaftLaws0 PeersLaws0.
  induction 1 as [n|n1 n2 n3 Hstep _ IH]; [reflexivity|]. etrans; [|exact IH].
  destruct Hstep as [n op|n n' Hm|]; [apply perform_progress|by apply moves_progress|done].
Qed.
End runs.

(** *** Installed snapshots *)

(** What no step of a run, not even an installed snapshot, undoes. *)
Record advanced (f f' : metadataFSM) : Prop := {
  ad_ok : fsm_ok f → fsm_ok f';
  ad_revision : (ms_Revision (fsm_state f) ≤ ms_Revision (fsm_state f'))%N;
  ad_remembers : remembers f f';
  ad_faulted : faulted f → faulted f';
}.

#[export] Instance advanced_preorder : PreOrder advanced.
Proof.
  split; [intros f; constructor; [done|done|by intros ?|done]|]. intros f1 f2 f3 [] []. constructor; [auto|lia| |auto].
  intros id a Ha. auto.
Qed.

Lemma run_advanced E log f w : small_run E log f w → advanced f (run E log f w).1.
Proof.
  intros Hs. constructor; [by intros ?; apply small_run_ok|by apply run_revision|apply run_remembers|intros H; by apply (run_faulted E log f w H)].
Qed.

(** A machine without a fault keeps no copy of one in its state. *)
Definition no_copy (f : metadataFSM) : Prop := ¬ faulted f → ms_ApplyFault (fsm_state f) = None.

Lemma run_no_copy E log f w : no_copy f → no_copy (run E log f w).1.
Proof.
  apply (run_ind E (λ f f', no_copy f → no_copy f')); [done|auto|].
  intros index data f1 w1 r f2 w2 _ Ha Hno. apply Apply_cases in Ha as [r0 f0 w0 H1 H2 H3 H4 H5 H6 H7|r0 c0 H1 H2|command s H1 H2 Hc];
    [by intros ?|exact Hno|].
  intros _. apply apply_command_Applied in Hc as (digest & s0 & -> & He & _).
  apply effect_keeps in He as (_ & _ & _ & Hap). cbn. rewrite Hap. by apply Hno.
Qed.

(** The clone of a state that has maps everywhere is the state. *)
Lemma State_same f :
  fsm_ok f → (∀ h m, ms_Snapshots (fsm_state f) !! h = Some m → is_Some (m_Datasets m)) →
  ms_ApplyFault (fsm_state f) = None → State f = fsm_state f.
Proof.
  intros [_ _ _ _ _ _ _ (Hgate & _)] Hm Hfault. unfold State, cloneMetadataState. rewrite Hgate, Hfault.
  assert (cloneManifest <$> ms_Snapshots (fsm_state f) = ms_Snapshots (fsm_state f)) as ->.
  { apply map_eq. intros h. rewrite lookup_fmap. destruct (ms_Snapshots _ !! h) as [m|] eqn:Hh; [|done].
    cbn. f_equal. destruct (Hm h m Hh) as [d Hd]. destruct m. cbn in *. by subst. }
  destruct (fsm_state f). cbn in *. by subst.
Qed.

(** What a machine snapshots has the data of another machine at its place in the
    log; installing it moves the data on and leaves the fault. *)
Lemma installs_advanced E n n' :
  installs E n n' → ∃ f f', n_fsm n = Some f ∧ n_fsm n' = Some f' ∧ advanced f f' ∧ same_node n n' ∧ n_calls n' = n_calls n.
Proof.
  intros [n0 f g f' s log dg dg' data ws cs res r now d Hf Hrun Hsmall Hdata Hsnap Hw Hp Hres _ _].
  exists f, f'. split_and!; [done|done| |done|done].
  pose proof (run_advanced E log (healthy f) dg Hsmall) as [Hok Hrev Hrem _]. rewrite Hrun in *. cbn [fst] in *.
  pose proof (run_caps E log (healthy f) dg) as Hcaps. rewrite Hrun in Hcaps. cbn [fst fsm_capabilities healthy] in Hcaps.
  assert (no_copy g) as Hno.
  { pose proof (run_no_copy E log (healthy f) dg (λ _, eq_refl)) as H. by rewrite Hrun in H. }
  pose proof Hsnap as Hs. unfold Snapshot in Hs. destruct (ApplyFault g).2 eqn:Hfg; [done|]. injection Hs as <-.
  apply ApplyFault_not_faulted in Hfg.
  rewrite (Restore_written E g f _ (n_disk n0) data ws cs Hsnap Hw) in Hres; [|by cbn; rewrite (Hno Hfg)|done].
  destruct (negb _); [by injection Hres as _ <- _|]. injection Hres as _ <- _.
  set (s := if bool_decide (faulted f) then _ else _).
  assert (set_state_fault None s = set_state_fault None (State g)) as Hsd by (unfold s; by case_bool_decide).
  constructor; [|exact (N.le_trans _ _ _ Hrev (N.eq_le_incl _ _ (eq_sym (f_equal ms_Revision Hsd))))| |done].
  - intros H. assert (fsm_ok g) as Hg.
    { apply Hok. eapply (data_of_ok _ f); [done|exact H]. }
    change (state_ok (fsm_capabilities f) s). rewrite <- Hcaps. apply (data_of_ok _ g (set_fsm_state s g)); [|exact Hg].
    unfold data_of. cbn [fsm_state set_fsm_state]. rewrite <- (State_same g Hg Hdata (Hno Hfg)). exact Hsd.
  - intros id a Ha. pose proof (f_equal ms_AppliedCommands Hsd) as Heq. cbn in Heq. cbn. rewrite Heq. by apply Hrem.
Qed.

(** The same over a run: the node keeps what it is built with and its machine only
    moves on. *)
Definition kept (n n' : Node) : Prop :=
  n_cfg n' = n_cfg n ∧ n_capabilities n' = n_capabilities n ∧ n_blobStore n' = n_blobStore n ∧ n_blobPutSem n' = n_blobPutSem n
  ∧ ∀ f, n_fsm n = Some f → ∃ f', n_fsm n' = Some f' ∧ advanced f f'.

Lemma progress_kept E n n' : progress E n n' → kept n n'.
Proof.
  intros [[] _ _ Hfsm _]. cbn in *. split_and!; try done. intros f Hf. rewrite Hf in Hfsm.
  destruct Hfsm as (log & f' & Hf' & Hr & Hs). exists f'. split; [done|].
  pose proof (run_advanced E log f (n_disk n) Hs) as H. by rewrite Hr in H.
Qed.

Lemma run_kept E {R : Raft} {P : Peers} `{!RaftLaws R E, !PeersLaws P E} polls snapshots n n' :
  rtc (run_step E polls snapshots) n n' → kept n n'.
Proof.
  induction 1 as [n|n1 n2 n3 Hstep _ (H1 & H2 & H3 & H4 & H5)]; [split_and!; try done; intros f ->; by exists f|].
  assert (kept n1 n2) as (G1 & G2 & G3 & G4 & G5).
  { destruct Hstep as [n op|n n' Hm|n n' _ Hi]; [by eapply progress_kept, perform_progress|by eapply progress_kept, moves_progress|].
    destruct (installs_advanced E n n' Hi) as (f & f' & Hf & Hf' & Ha & [] & _). split_and!; try done.
    intros g Hg. rewrite Hf in Hg. injection Hg as <-. by exists f'. }
  split_and!; [congruence..|]. intros f Hf. destruct (G5 f Hf) as (g & Hg & Ha). destruct (H5 g Hg) as (f' & Hf' & Ha').
  exists f'. split; [done|by etrans].
Qed.


(** A machine that halted at an entry, and one of its cluster that applied it. *)
Definition ex_halted : metadataFSM :=
  mkMetadataFSM (fsm_state ex_fsm) SupportedNodeCapabilities (mkFSMApplyFault 2 "unsupported command") "" "".
Definition ex_ahead : metadataFSM := (run calm [(2%N, put "p" "k" 1 (JBool true))] (healthy ex_halted) (mkWorld ∅ ∅ ∅ 0)).1.

Lemma ex_ahead_state : ∃ d, valid_utf8 d ∧ State ex_ahead =
  mkMetadataState "c" 1 1 "n1" 7 {[ "k" := Some (JBool true) ]} ∅ "" 0 LegacyCapabilityGate None {[ "p" := mkAppliedCommand 1 d ]}.
Proof. eexists. split; [|vm_compute; reflexivity]. vm_compute. reflexivity. Qed.

Lemma ex_ahead_wire : state_wire (State ex_ahead).
Proof.
  destruct ex_ahead_state as (d & Hd & ->). constructor; try done.
  - intros k v Hk. cbn [ms_Values] in Hk. apply lookup_singleton_Some in Hk as [<- <-]. split; [done|by eexists].
  - constructor; try done. intros k v Hk.
    change (({[ "*" := 1%N ]} : gmap string N) !! k = Some v) in Hk. by apply lookup_singleton_Some in Hk as [<- <-].
  - intros k a Hk. cbn [ms_AppliedCommands] in Hk. by apply lookup_singleton_Some in Hk as [<- <-].
Qed.

Lemma ex_installs : ∃ f', installs calm (ex_node ex_config ex_follower ex_halted)
  (set_raft (Some ex_follower) (Some f') ex_now (mkWorld ∅ ∅ ∅ 0) (ex_node ex_config ex_follower ex_halted))
  ∧ ms_Revision (fsm_state f') = 1%N.
Proof.
  exists (set_fsm_state (set_state_fault (Some (fsm_applyFault ex_halted)) (State ex_ahead)) ex_halted).
  split; [|vm_compute; reflexivity].
  refine (installs_snapshot calm (ex_node ex_config ex_follower ex_halted) ex_halted ex_ahead _ (State ex_ahead)
    [(2%N, put "p" "k" 1 (JBool true))] (mkWorld ∅ ∅ ∅ 0) (mkWorld ∅ ∅ ∅ 0)
    (match enc_MetadataState (State ex_ahead) with Ok j => j | Err _ => JNull end)
    (λ _, Ok tt) (λ _, Ok tt) (Ok tt) _ _ _ eq_refl _ _ _ eq_refl ex_ahead_wire _ _ _ _).
  - vm_compute. reflexivity.
  - by split.
  - intros h m Hm. assert (ms_Snapshots (fsm_state ex_ahead) = ∅) as Hv by (vm_compute; reflexivity).
    by rewrite Hv, lookup_empty in Hm.
  - vm_compute. reflexivity.
  - vm_compute. reflexivity.
  - done.
  - done.
Qed.


(** ** Over a run, every change of the configuration is justified *)

Section obeying.
Context (E : env) {R : Raft} {P : Peers} `{!RaftLaws R E, !PeersLaws P E} (clusterID : string).
Notation ok := (justified_change clusterID).
Notation benign := (justified_benign clusterID).
Set Default Proof Using "Type*".

Lemma obeys_local {A} (m : nio A) : (∀ n, local n (m n).2) → obeys ok m.
Proof using Type.
  intros Hm n. eapply extends_calls; [exact (lo_calls _ _ (Hm n))|]. apply (@reflexivity _ (extends ok) _).
Qed.
Lemma obeys_defer {A} (f : Node → Node) (body : nio A) :
  (∀ n, n_calls (f n) = n_calls n) → obeys ok body → obeys ok (with_defer f body).
Proof using Type.
  intros Hf Hb n. unfold wp, with_defer. specialize (Hb n). unfold wp in Hb. destruct (body n) as [r n1].
  eapply extends_calls; [apply Hf|exact Hb].
Qed.
Lemma obeys_wait_call {A} ctx (m : nio A) : obeys ok m → obeys ok (wait_call ctx m).
Proof using Type. intros Hm n. specialize (Hm n). unfold wp, wait_call in *. by destruct (m n) as [r n']. Qed.
Lemma obeys_command command : obeys ok (apply command).
Proof. apply (obeys_apply ok benign E). Qed.
Lemma obeys_confirm ctx : obeys ok (VerifyBusinessLeadership ctx).
Proof. apply (obeys_VerifyBusinessLeadership ok benign E). Qed.
Lemma obeys_request rq : obeys ok (send rq).
Proof. apply (obeys_send ok benign E). Qed.
Lemma obeys_Do rq : obeys ok (record_call (CallHTTP rq) (client_Do rq)).
Proof. apply (obeys_record ok E); [apply Do_moves|intros; by apply benign]. Qed.
Lemma obeys_Transfer to : obeys ok (r_Transfer to).
Proof. apply (obeys_record ok E); [apply Transfer_moves|intros; by apply benign]. Qed.
Lemma obeys_leader_checks : obeys ok (run! r_VerifyLeader in r_Barrier).
Proof. apply obeys_bind; [apply (obeys_VerifyLeader ok benign E)|intros _; apply (obeys_Barrier ok benign E)]. Qed.
Lemma obeys_verifyManifestBlobs m : obeys ok (verifyManifestBlobs E m).
Proof using Type. apply obeys_with_store. Qed.
Hint Resolve obeys_local obeys_command obeys_confirm obeys_request obeys_Do obeys_Transfer obeys_leader_checks
  obeys_verifyManifestBlobs obeys_with_store obeys_wait_call obeys_ret obeys_err obeys_of obeys_get obeys_read obeys_try
  obeys_wrap : obeys.
Ltac obey := follow ltac:(apply obeys_bind) ltac:(solve [eauto with obeys | by apply obeys_modify]).

Lemma obeys_updateStatus role leaderID leaderAddr state stats hasQuorum verifiedAt reason now :
  obeys ok (updateStatus E role leaderID leaderAddr state stats hasQuorum verifiedAt reason now).
Proof using Type.
  apply obeys_local. intros n. change (wp (updateStatus E role leaderID leaderAddr state stats hasQuorum verifiedAt reason now) (λ _ n', local n n') n).
  by apply wp_updateStatus.
Qed.
Lemma obeys_acquireLeadership term : obeys ok (acquireLeadership term).
Proof. unfold acquireLeadership. obey. Qed.
Hint Resolve obeys_updateStatus obeys_acquireLeadership : obeys.

Lemma obeys_setLeadership active epoch reason : obeys ok (modify (setLeadership active epoch reason)).
Proof using Type. apply obeys_local. intros n. apply local_setLeadership. Qed.
Hint Resolve obeys_setLeadership : obeys.
Lemma obeys_refresh_leader verify r state now : obeys ok (refresh_leader E verify r state now).
Proof. unfold refresh_leader. obey. Qed.
Hint Resolve obeys_refresh_leader : obeys.
Lemma obeys_refreshStatus verify : obeys ok (refreshStatus E verify).
Proof.
  unfold refreshStatus. follow ltac:(apply obeys_bind)
    ltac:(solve [eauto with obeys | by apply obeys_modify | apply obeys_modify; intros ?; repeat case_match; done]).
Qed.
Hint Resolve obeys_refreshStatus : obeys.

Lemma obeys_putBlobToPeer base hash : obeys ok (putBlobToPeer E base hash).
Proof. unfold putBlobToPeer. obey. Qed.
Hint Resolve obeys_putBlobToPeer : obeys.
Lemma obeys_put_blobs base hashes : obeys ok (put_blobs E base hashes).
Proof. induction hashes as [|h hashes IH]; cbn [put_blobs]; obey. Qed.
Hint Resolve obeys_put_blobs : obeys.
Lemma obeys_replicateManifestToPeer id m : obeys ok (replicateManifestToPeer E id m).
Proof. unfold replicateManifestToPeer. obey. Qed.
Hint Resolve obeys_replicateManifestToPeer : obeys.
Lemma obeys_replicate_to m voters acks : obeys ok (replicate_to E m voters acks).
Proof. revert acks. induction voters as [|v voters IH]; intros acks; cbn [replicate_to]; obey. Qed.
Hint Resolve obeys_replicate_to : obeys.
Lemma obeys_publish_staged id m blobs : obeys ok (publish_staged E id m blobs).
Proof. unfold publish_staged, replicateSnapshotBlobs. obey. Qed.
Lemma obeys_PublishSnapshot ctx id m blobs : obeys ok (PublishSnapshot E ctx id m blobs).
Proof.
  unfold PublishSnapshot. follow ltac:(apply obeys_bind)
    ltac:(solve [eauto with obeys | by apply obeys_modify | apply obeys_defer; [done|apply obeys_publish_staged]]).
Qed.

Lemma obeys_pullBlobFromPeer id hash : obeys ok (pullBlobFromPeer E id hash).
Proof. unfold pullBlobFromPeer. obey. Qed.
Hint Resolve obeys_pullBlobFromPeer : obeys.
Lemma obeys_pull_from voters hash : obeys ok (pull_from E voters hash).
Proof. induction voters as [|v voters IH]; cbn [pull_from]; obey. Qed.
Hint Resolve obeys_pull_from : obeys.
Lemma obeys_sync_blobs voters hashes : obeys ok (sync_blobs E voters hashes).
Proof. induction hashes as [|h hashes IH]; cbn [sync_blobs]; obey. Qed.
Hint Resolve obeys_sync_blobs : obeys.
Lemma obeys_snapshot_round : obeys ok (snapshot_round E).
Proof. unfold snapshot_round, syncActiveSnapshot, gcSnapshotBlobs, collect_blobs. obey. Qed.

Lemma obeys_voterStatus gate id : obeys ok (voterStatus gate id).
Proof. unfold voterStatus. obey. Qed.
Hint Resolve obeys_voterStatus : obeys.
Lemma obeys_voterStatuses_loop gate voters acc : obeys ok (voterStatuses_loop gate voters acc).
Proof. revert acc. induction voters as [|v voters IH]; intros acc; cbn [voterStatuses_loop]; obey. Qed.
Hint Resolve obeys_voterStatuses_loop : obeys.
Lemma obeys_ActivateCapabilities ctx id gate : obeys ok (ActivateCapabilities ctx id gate).
Proof. unfold ActivateCapabilities, voterStatuses. obey. Qed.
Lemma obeys_TransferLeadership ctx id : obeys ok (TransferLeadership ctx id).
Proof. unfold TransferLeadership. obey. Qed.
Lemma obeys_verifyLocalReadStrict ctx generation : obeys ok (verifyLocalReadStrict E ctx generation).
Proof. unfold verifyLocalReadStrict, ask_leader. obey. Qed.
Hint Resolve obeys_verifyLocalReadStrict : obeys.
Lemma obeys_VerifyLocalReadResult ctx generation : obeys ok (VerifyLocalReadResult E ctx generation).
Proof. unfold VerifyLocalReadResult. obey. Qed.
Lemma obeys_open_blob hash : obeys ok (open_blob E hash).
Proof using Type. apply obeys_with_store. Qed.
Hint Resolve obeys_open_blob : obeys.
Lemma obeys_open_shard shards key : obeys ok (open_shard E shards key).
Proof. induction shards as [|x shards IH]; cbn [open_shard]; obey. Qed.
Hint Resolve obeys_open_shard : obeys.
Lemma obeys_OpenSnapshotDataset name : obeys ok (OpenSnapshotDataset E name).
Proof. unfold OpenSnapshotDataset. obey. Qed.
Lemma obeys_OpenSnapshotDatasetAt generation name : obeys ok (OpenSnapshotDatasetAt E generation name).
Proof. unfold OpenSnapshotDatasetAt. obey. Qed.
Lemma obeys_OpenSnapshotDatasetShardAt generation name key : obeys ok (OpenSnapshotDatasetShardAt E generation name key).
Proof. unfold OpenSnapshotDatasetShardAt. obey. Qed.
Lemma obeys_ProxyToLeader w rq generation : obeys ok (ProxyToLeader w rq generation).
Proof. unfold ProxyToLeader. obey. Qed.
End obeying.


Section keeping.
Context (E : env) {R : Raft} {P : Peers} `{!RaftLaws R E, !PeersLaws P E} (polls : nat) (clusterID : string).
Notation ok := (justified_change clusterID).
Set Default Proof Using "Type*".

Lemma keeps_handle_put_blob value rq : keeps clusterID (handle_put_blob E value rq).
Proof.
  apply (keeps_obeys E clusterID); [|by apply evolving_handle_put_blob].
  apply obeys_local, local_handle_put_blob.
Qed.

Lemma keeps_proxy app rq : keeps clusterID (internalProxyHandler (application app) rq).
Proof.
  apply (keeps_obeys E clusterID); [|by apply (evolving_internalProxyHandler E (P := P))].
  pose proof (obeys_confirm E clusterID (P := P)) as Hc.
  unfold internalProxyHandler, application. destruct app as [f|]; cbn [fmap option_fmap option_map];
    follow ltac:(apply obeys_bind) ltac:(solve [apply obeys_get | apply obeys_try, Hc | apply obeys_ret]).
Qed.

Lemma keeps_internal_server app rq : keeps clusterID (internal_server E polls (application app) rq).
Proof.
  unfold internal_server, requireMemberCertificate. apply keeps_bind; [apply keeps_get|intros n].
  assert (keeps clusterID (internal_mux E polls (application app) rq)) as Hmux.
  { unfold internal_mux, handle_barrier, handle_status, handle_join_prepare, handle_add_node, handle_remove_node, handle_get_blob.
    assert (∀ verify, keeps clusterID (refreshStatus E verify)) as Hrefresh.
    { intros verify. apply (keeps_obeys E clusterID); [by apply (obeys_refreshStatus E (P := P))|by apply (evolving_refresh E (P := P))]. }
    assert (∀ A (call : string → io A), keeps clusterID (with_store call)) as Hstore.
    { intros A call. apply (keeps_obeys E clusterID); [apply obeys_with_store|apply evolving_with_store]. }
    pose proof (keeps_Verify E clusterID (P := P)) as Hc. pose proof (keeps_JoinVoter E clusterID) as Hj.
    pose proof (keeps_RemoveServer E clusterID) as Hr.
    follow ltac:(apply keeps_bind)
      ltac:(solve [auto using keeps_handle_put_blob, keeps_proxy, keeps_get, keeps_ret, keeps_try]). }
  follow ltac:(apply keeps_bind) ltac:(solve [exact Hmux | apply keeps_ret]).
Qed.

Lemma keeps_membership_tick ctx : keeps clusterID (membership_tick polls ctx).
Proof.
  unfold membership_tick, reconcileMembershipOperation.
  pose proof (keeps_reconcile E clusterID) as Hr.
  follow ltac:(apply keeps_bind) ltac:(solve [auto using keeps_get, keeps_ret, keeps_try]).
Qed.

Lemma perform_justified op n :
  ClusterID (n_cfg n) = clusterID → extends ok n (perform E polls op n).
Proof.
  intros Hn.
  assert (∀ A (m : nio A), keeps clusterID m → extends ok n (m n).2) as Hk by (intros A m Hm; exact (proj1 (Hm n Hn))).
  assert (∀ A (m : nio A), obeys ok m → extends ok n (m n).2) as Ho by (intros A m Hm; exact (Hm n)).
  assert (∀ m : Node, n_calls m = n_calls n → extends ok n m) as Hs by (intros m Hm; by eapply extends_calls).
  destruct op; cbn [perform].
  - by apply Ho, (obeys_refreshStatus E clusterID (P := P)).
  - apply Hs. unfold raft_leadership_lost, setLeadership. by destruct (_ && _).
  - apply Hs. unfold monitor_stopped, setLeadership. by destruct (_ && _).
  - by apply Ho, (obeys_snapshot_round E clusterID (P := P)).
  - by apply Hk, keeps_membership_tick.
  - by apply Hk, keeps_internal_server.
  - by apply Ho, (obeys_confirm E clusterID (P := P)).
  - by apply Ho, (obeys_Put E clusterID (P := P)).
  - by apply Ho, (obeys_PutBatch E clusterID (P := P)).
  - by apply Ho, (obeys_PublishSnapshot E clusterID (P := P)).
  - by apply Hk, (keeps_JoinVoter E clusterID).
  - by apply Hk, (keeps_RemoveServer E clusterID).
  - by apply Ho, (obeys_ActivateCapabilities E clusterID (P := P)).
  - by apply Ho, (obeys_TransferLeadership E clusterID (P := P)).
  - by apply Ho, (obeys_VerifyLocalReadResult E clusterID (P := P)).
  - by apply Ho, (obeys_OpenSnapshotDataset E clusterID (P := P)).
  - by apply Ho, (obeys_OpenSnapshotDatasetAt E clusterID (P := P)).
  - by apply Ho, (obeys_OpenSnapshotDatasetShardAt E clusterID (P := P)).
  - by apply Ho, (obeys_ProxyToLeader E clusterID (P := P)).
  - apply Hs. unfold SubscribeLeadership, subscribe_register, subscribe_send. by destruct (_ !! _) as [[]|].
  - by apply Hs.
  - by apply Hs.
Qed.

Lemma run_justified n n' :
  ClusterID (n_cfg n) = clusterID → rtc (run_step E polls true) n n' → extends ok n n'.
Proof.
  intros Hn Hrun. induction Hrun as [n|n1 n2 n3 Hstep _ IH]; [apply (@reflexivity _ (extends ok) _)|].
  etrans; [|apply IH].
  - destruct Hstep as [n op|n n' Hm|n n' _ Hi]; [by apply perform_justified|eapply extends_calls; [exact (moves_calls _ _ _ Hm)|]|].
    + apply (@reflexivity _ (extends ok) _).
    + destruct (installs_advanced E n n' Hi) as (_ & _ & _ & _ & _ & _ & Hcalls).
      eapply extends_calls; [exact Hcalls|]. apply (@reflexivity _ (extends ok) _).
  - destruct (run_kept E polls true n1 n2) as [Hcfg _]; [by apply rtc_once|]. by rewrite Hcfg.
Qed.
End keeping.

(** C9: over any run of a node, with whatever operations, requests and rounds of
    its loops next to each other, Raft is asked to add a server only for a join
    on record in the replicated state, to remove one only for a removal on
    record, and to make a server a voter only right after that server itself
    answered, healthy and caught up with the state of the asking node. *)
Theorem run_changes_justified (E : env) `{!RaftLaws R E, !PeersLaws P E} (polls : nat) (n n' : Node) :
  rtc (run_step E polls true) n n' →
  ∃ calls, n_calls n' = calls ++ n_calls n
    ∧ ∀ l1 c l2, calls = l1 ++ c :: l2 → justified_change (ClusterID (n_cfg n)) c (l2 ++ n_calls n).
Proof.
  intros Hrun. destruct (run_justified E polls (ClusterID (n_cfg n)) n n' eq_refl Hrun) as (calls & Hcalls & Hj).
  exists calls. split; [done|]. intros l1 c l2 Hsplit. by eapply justified_split.
Qed.

(** A run in which a node joins as a voter. *)
Lemma run_changes_justified_witness :
  let n := ex_leading ex_fsm in
  let n' := perform (R := solo) (P := ex_peers) calm 1 (OpJoinVoter (λ _, None) ex_joiner)
              (perform (R := solo) (P := ex_peers) calm 1 (OpMonitor true) n) in
  existsb (λ c, match call_event c with CallChange (AddVoter _ _) _ => true | _ => false end) (n_calls n') = true
  ∧ ∃ calls, n_calls n' = calls ++ []
      ∧ ∀ l1 c l2, calls = l1 ++ c :: l2 → justified_change "c" c (l2 ++ []).
Proof.
  intros n n'. split; [vm_compute; reflexivity|].
  apply (run_changes_justified (R := solo) (P := ex_peers) calm 1 n n').
  eapply rtc_l; [apply (run_operation calm 1 true n (OpMonitor true))|]. apply rtc_once, run_operation.
Defined.

