(* ===== verification/Lifecycle.v ===== *)
(** * Lifecycle: starting and stopping a node
    (Node.Start, startRaft, startInternalServer, closeRuntime, Close and the
    background loops of node.go; newTLSStreamLayer of transport.go)

    A [runtime] is a process with one node: which files, listeners and
    goroutines are open, and which of them the node holds.  What the operating
    system, hashicorp/raft, raft-boltdb and net/http answer is the class
    [System]; whatever they answer, opening gives a new handle or fails.  Closing
    a file or a listener and shutting down Raft release their handle even if they
    report an error.  [http.Server.Shutdown] closes the server's listeners at once
    and then waits for its connections; when its context ends first it reports
    that and the connections are still open: the handle then stands for them
    ([APIConnections]).  A Raft transport owns the listener of its stream layer, and the listener of
    the internal API is the one its TLS wrapper owns: one handle stands for
    both.  A panic is a state of the process, [rt_crashed].  How long a goroutine
    needs to end is not represented: [Close] takes it as an argument whether the
    monitor ends within its three seconds. *)
From S2P Require Import Prelude Text Io Sha256 Json GoTime Duration Config Peers Capability Manifest.
From S2P Require Import BlobStore Fsm FsmProofs Node Leadership.
From stdpp Require Import options.
#[local] Open Scope io_scope.

Definition errNodeUnjoined : error := "cluster node is waiting to join".
Definition context_DeadlineExceeded : error := "context deadline exceeded".

(** ** The process *)

Inductive resource : Type :=
| BoltStore (path : string)
| RaftListener (addr : string)
| RaftInstance
| APIListener (addr : string)
| APIServer
| APIConnections.  (** what a server that no longer listens has left open *)

(** The goroutines that [Start] leaves behind, each with its context. *)
Inductive loop : Type := Monitor | WatchRaftLeadership | SnapshotMaintenance | MembershipMaintenance.

#[export] Instance loop_eq_dec : EqDecision loop.
Proof. solve_decision. Defined.

(** The handles in the fields of the node. *)
Record handles := mkHandles {
  h_raft : option nat;
  h_transport : option nat;
  h_store : option nat;
  h_server : option nat;
  h_listener : option nat;
}.

Record runtime := mkRuntime {
  rt_node : Node;
  rt_handles : handles;
  rt_open : gmap nat resource;  (** what is open in the process *)
  rt_next : nat;  (** handles and contexts are numbered *)
  rt_started : bool;
  rt_cancel : option nat;  (** the context that [n.cancel] cancels *)
  rt_cancelled : list nat;
  rt_done : bool;  (** [n.done] is closed *)
  rt_loops : list (loop * nat);
  rt_boots : list (list Server);  (** the clusters bootstrapped, newest first *)
  rt_crashed : bool;
}.

Definition new_runtime (n : Node) : runtime :=
  mkRuntime n (mkHandles None None None None None) ∅ 0 false None [] false [] [] false.

Definition set_node (n : Node) (rt : runtime) : runtime :=
  mkRuntime n (rt_handles rt) (rt_open rt) (rt_next rt) (rt_started rt) (rt_cancel rt) (rt_cancelled rt)
    (rt_done rt) (rt_loops rt) (rt_boots rt) (rt_crashed rt).
Definition set_handles (h : handles) (rt : runtime) : runtime :=
  mkRuntime (rt_node rt) h (rt_open rt) (rt_next rt) (rt_started rt) (rt_cancel rt) (rt_cancelled rt)
    (rt_done rt) (rt_loops rt) (rt_boots rt) (rt_crashed rt).
Definition set_open (open : gmap nat resource) (next : nat) (rt : runtime) : runtime :=
  mkRuntime (rt_node rt) (rt_handles rt) open next (rt_started rt) (rt_cancel rt) (rt_cancelled rt)
    (rt_done rt) (rt_loops rt) (rt_boots rt) (rt_crashed rt).
Definition set_started (b : bool) (rt : runtime) : runtime :=
  mkRuntime (rt_node rt) (rt_handles rt) (rt_open rt) (rt_next rt) b (rt_cancel rt) (rt_cancelled rt)
    (rt_done rt) (rt_loops rt) (rt_boots rt) (rt_crashed rt).
Definition set_cancel (ctx : option nat) (cancelled : list nat) (rt : runtime) : runtime :=
  mkRuntime (rt_node rt) (rt_handles rt) (rt_open rt) (rt_next rt) (rt_started rt) ctx cancelled
    (rt_done rt) (rt_loops rt) (rt_boots rt) (rt_crashed rt).
Definition set_loops (loops : list (loop * nat)) (rt : runtime) : runtime :=
  mkRuntime (rt_node rt) (rt_handles rt) (rt_open rt) (rt_next rt) (rt_started rt) (rt_cancel rt)
    (rt_cancelled rt) (rt_done rt) loops (rt_boots rt) (rt_crashed rt).
Definition set_boots (boots : list (list Server)) (rt : runtime) : runtime :=
  mkRuntime (rt_node rt) (rt_handles rt) (rt_open rt) (rt_next rt) (rt_started rt) (rt_cancel rt)
    (rt_cancelled rt) (rt_done rt) (rt_loops rt) boots (rt_crashed rt).

(** [close(n.done)], which panics when it is closed already. *)
Definition close_done (rt : runtime) : runtime :=
  mkRuntime (rt_node rt) (rt_handles rt) (rt_open rt) (rt_next rt) (rt_started rt) (rt_cancel rt)
    (rt_cancelled rt) true (rt_loops rt) (rt_boots rt) (rt_crashed rt || rt_done rt).

(** [raft.Config], in the fields that [startRaft] sets from the configuration. *)
Record raft_config := mkRaftConfig { rc_LocalID : string; rc_LeaderLeaseTimeout : duration }.

(** [n.status.Reason = reason]. *)
Definition status_reason (reason : string) (s : Status) : Status :=
  mkStatus (st_Enabled s) (st_Ready s) (st_Readiness s) reason (st_ClusterID s) (st_NodeID s) (st_Role s)
    (st_LeaderID s) (st_LeaderAddress s) (st_LeaderEpoch s) (st_Term s) (st_CommitIndex s)
    (st_AppliedIndex s) (st_HasQuorum s) (st_QuorumVerifiedAt s) (st_LastLeaderContactAt s)
    (st_ReadConsistency s) (st_EmergencyStaleRead s) (st_MaxLeaderContactAge s)
    (st_MaxQuorumVerificationAge s) (st_CommittedGeneration s) (st_CommittedGenerationIndex s)
    (st_AvailableGenerations s) (st_ProtocolVersion s) (st_CommandVersion s) (st_Capabilities s)
    (st_ActiveCapabilityGate s) (st_LeaderEligible s) (st_FSMHealthy s) (st_FSMRevision s)
    (st_FSMApplyError s) (st_FSMApplyErrorIndex s) (st_FSMApplyPersistError s).

(** What the libraries and the operating system answer. *)
Class System := {
  NewBoltStore : string → runtime → result unit;
  NewFileSnapshotStore : string → Z → runtime → result unit;
  net_Listen : string → runtime → result unit;
  ResolveTCPAddr : string → runtime → result unit;
  HasExistingState : runtime → result bool;
  BootstrapCluster : raft_config → list Server → runtime → result unit;
  ErrCantBootstrap : error;
  (** It restores the newest snapshot into the machine it is given. *)
  NewRaft : raft_config → metadataFSM → disk → result (raft_view * metadataFSM) * disk;
  DefaultLeaderLeaseTimeout : duration;
  (** What closing or shutting down a handle reports. *)
  close_reports : nat → runtime → result unit;
}.

(** [errors.Join]: nil without errors. *)
Definition errors_Join (rs : list (result unit)) : result unit :=
  match omap (λ r : result unit, match r with Err e => Some e | Ok _ => None end) rs with
  | [] => Ok tt
  | errs => Err (String.concat "
" errs)
  end.

Section lifecycle.
Context (E : env) {P : Peers} {Y : System}.
Abbreviation pio := (st runtime) (only parsing).

Definition rt_get {A} (f : runtime → A) : pio A := λ rt, (Ok (f rt), rt).
Definition rt_modify (f : runtime → runtime) : pio unit := λ rt, (Ok tt, f rt).
Definition on_node (f : Node → Node) : pio unit := rt_modify (λ rt, set_node (f (rt_node rt)) rt).
Definition on_disk {A} (m : st disk A) : pio A := λ rt,
  let n := rt_node rt in
  match m (n_disk n) with (r, d) => (r, set_node (set_raft (n_raft n) (n_fsm n) (n_now n) d n) rt) end.
Definition ask {A} (answer : runtime → result A) : pio A := λ rt, (answer rt, rt).

Definition acquire (what : resource) (answer : runtime → result unit) : pio nat := λ rt,
  match answer rt with
  | Err e => (Err e, rt)
  | Ok _ => (Ok (rt_next rt), set_open (<[ rt_next rt := what ]> (rt_open rt)) (S (rt_next rt)) rt)
  end.
Definition release (h : nat) : pio unit := λ rt,
  (close_reports h rt, set_open (delete h (rt_open rt)) (rt_next rt) rt).
(** [server.Shutdown(ctx)]: it gives up when its context ends. *)
Definition shutdown_server (h : nat) : pio unit := λ rt,
  let r := close_reports h rt in
  let left_open := match r with
    | Err e => if str_eqb e context_DeadlineExceeded then alter (λ _, APIConnections) h (rt_open rt)
               else delete h (rt_open rt)
    | Ok _ => delete h (rt_open rt)
    end in
  (r, set_open left_open (rt_next rt) rt).
Definition shutdown_opt (h : option nat) : pio unit :=
  match h with None => io_ret tt | Some h => shutdown_server h end.
(** [if x != nil { … x.Close() }]. *)
Definition release_opt (h : option nat) : pio unit :=
  match h with None => io_ret tt | Some h => release h end.

(** ** The Raft side *)

Definition newTLSStreamLayer (cfg : Config) : pio nat :=
  run! io_of (loadTLSIdentity (InternalTLS cfg)) in
  do! listener := io_wrap "listen on raft address %s: %w"
                    (acquire (RaftListener (RaftBindAddr cfg)) (net_Listen (RaftBindAddr cfg))) in
  do! advertise := io_try (ask (ResolveTCPAddr (RaftAdvertiseAddr cfg))) in
  match advertise with
  | Err _ => run! io_try (release listener) in io_err "resolve raft advertise address: %w"
  | Ok _ => io_ret listener
  end.

Definition raft_dir (cfg : Config) : string := filepath_Join (DataDir cfg) "raft".

(** The machine [startRaft] gives to Raft, before the fault marker is read. *)
Definition fresh_fsm (n : Node) : metadataFSM :=
  let f := newMetadataFSM (ClusterID (n_cfg n)) in
  mkMetadataFSM (fsm_state f) (n_capabilities n) (fsm_applyFault f) (fsm_faultPersistError f) (fsm_faultFile f).

Definition raft_settings (cfg : Config) : raft_config :=
  mkRaftConfig (NodeID cfg) (minDuration DefaultLeaderLeaseTimeout (MaxQuorumVerificationAge cfg)).

(** The errors of [startRaft] after the transport is open. *)
Definition abandon {A} (transport store : nat) (e : error) : pio A :=
  run! io_try (release transport) in run! io_try (release store) in io_err e.

Definition bootstrap (config : raft_config) (servers : list Server) : pio unit := λ rt,
  (BootstrapCluster config servers rt, set_boots (servers :: rt_boots rt) rt).

Definition prepare_cluster (config : raft_config) (configuration : list Server) (existing : bool) : pio unit :=
  do! rt := rt_get id in
  if existing then io_ret tt
  else if JoinExisting (n_cfg (rt_node rt)) then on_node (set_unjoined true)
  else
    do! r := io_try (bootstrap config configuration) in
    match r with
    | Err e => if str_eqb e ErrCantBootstrap then io_ret tt else io_err "bootstrap raft cluster: %w"
    | Ok _ => io_ret tt
    end.

(** The machine and the instance: [raft.NewRaft], and the fields it fills. *)
Definition start_instance (config : raft_config) (transport store : nat) (fsm : metadataFSM) : pio unit :=
  do! started := io_try (on_disk (NewRaft config fsm)) in
  match started with
  | Err _ => abandon transport store "start raft: %w"
  | Ok (view, fsm) =>
      do! r := acquire RaftInstance (λ _, Ok tt) in
      rt_modify (λ rt,
        let n := rt_node rt in
        let h := rt_handles rt in
        set_handles (mkHandles (Some r) (Some transport) (Some store) (h_server h) (h_listener h))
          (set_node (mkNode (n_cfg n) (n_status n) (Some view) (Some fsm)
              (Some (filepath_Join (DataDir (n_cfg n)) "cas")) (n_unjoined n) (n_subs n) (n_leadership n)
              (n_servingReady n) (n_stagingBlobs n) (n_peers n) (n_pendingMembers n) (n_blobPutSem n)
              (n_capabilities n) (n_now n) (n_disk n) (n_files n) (n_calls n)) rt))
  end.

(** [startRaft] once the store and the transport are open. *)
Definition start_cluster (transport store : nat) : pio unit :=
  do! rt := rt_get id in
  let cfg := n_cfg (rt_node rt) in
  match bootstrapConfiguration cfg with
  | Err e => abandon transport store e
  | Ok configuration =>
  do! inspected := io_try (ask HasExistingState) in
  match inspected with
  | Err _ => abandon transport store "inspect raft state: %w"
  | Ok existing =>
  do! prepared := io_try (prepare_cluster (raft_settings cfg) configuration existing) in
  match prepared with
  | Err e => abandon transport store e
  | Ok _ =>
  do! loaded := io_try (on_disk (configureApplyFaultFile E (filepath_Join (raft_dir cfg) "fsm-apply-fault.json")
                                   (fresh_fsm (rt_node rt)))) in
  match loaded with
  | Err _ => abandon transport store "load FSM apply fault marker: %w"
  | Ok fsm =>
      run! start_instance (raft_settings cfg) transport store fsm in
      if negb existing && JoinExisting cfg then io_err errNodeUnjoined else io_ret tt
  end end end end.

Definition startRaft : pio unit :=
  do! rt := rt_get id in
  let cfg := n_cfg (rt_node rt) in
  let raftDir := raft_dir cfg in
  run! io_wrap "create raft data directory: %w" (on_disk (os_MkdirAll E (filepath_Join raftDir "snapshots"))) in
  do! store := io_wrap "open raft BoltDB: %w"
                 (acquire (BoltStore (filepath_Join raftDir "raft.db")) (NewBoltStore (filepath_Join raftDir "raft.db"))) in
  do! snapshots := io_try (ask (NewFileSnapshotStore (filepath_Join raftDir "snapshots") 3)) in
  match snapshots with
  | Err _ => run! io_try (release store) in io_err "create raft snapshot store: %w"
  | Ok _ =>
      do! layer := io_try (newTLSStreamLayer cfg) in
      match layer with
      | Err e => run! io_try (release store) in io_err e
      | Ok transport => start_cluster transport store
      end
  end.

(** ** The internal server *)

Definition listen_internal : pio nat :=
  do! rt := rt_get id in
  let cfg := n_cfg (rt_node rt) in
  run! io_of (loadTLSIdentity (InternalTLS cfg)) in
  io_wrap "listen on internal API address %s: %w"
    (acquire (APIListener (InternalAPIBindAddr cfg)) (net_Listen (InternalAPIBindAddr cfg))).

(** What the server does with a request is [internal_server] of Http.v. *)
Definition startInternalServer : pio unit :=
  do! listener := listen_internal in
  do! server := acquire APIServer (λ _, Ok tt) in
  rt_modify (λ rt, let h := rt_handles rt in
    set_handles (mkHandles (h_raft h) (h_transport h) (h_store h) (Some server) (Some listener)) rt).

(** ** Stopping *)

Definition closeRuntime : pio unit :=
  do! rt := rt_get id in
  let h := rt_handles rt in
  do! e1 := io_try (shutdown_opt (h_server h)) in
  run! io_try (release_opt (h_listener h)) in
  do! e2 := io_try (release_opt (h_raft h)) in
  run! io_try (release_opt (h_transport h)) in
  do! e3 := io_try (release_opt (h_store h)) in
  io_of (errors_Join [e1; e2; e3]).

Definition cancel (rt : runtime) : runtime :=
  match rt_cancel rt with
  | None => rt
  | Some ctx => set_cancel (Some ctx) (ctx :: rt_cancelled rt) rt
  end.

(** The end of a loop whose context is done; [monitor] closes [n.done]. *)
Definition loop_ends (which : loop) (ctx : nat) (rt : runtime) : runtime :=
  let rest := set_loops (filter (λ l, l ≠ (which, ctx)) (rt_loops rt)) rt in
  if bool_decide (which = Monitor) then close_done (set_node (monitor_stopped (rt_node rest)) rest) else rest.

(** [in_time]: the monitor of the context just cancelled ends within 3 s. *)
Definition Close (in_time : bool) : pio unit :=
  do! started := rt_get rt_started in
  do! enabled := rt_get (λ rt, Enabled (n_cfg (rt_node rt))) in
  run! rt_modify (λ rt, set_started false (cancel rt)) in
  if negb started || negb enabled then io_ret tt
  else
    run! rt_modify (λ rt,
      match rt_cancel rt with
      | Some ctx => if negb (rt_done rt) && in_time then loop_ends Monitor ctx rt else rt
      | None => rt
      end) in
    closeRuntime.

(** ** Starting *)

(** The return of [Start] with an error. *)
Definition start_failed (e : error) : pio unit :=
  run! rt_modify cancel in
  run! rt_modify (set_started false) in
  run! on_node (λ n, set_status (status_reason e (n_status n)) n) in
  io_err e.

(** [Start] once Raft runs. *)
Definition serve_and_loop (ctx : nat) (unjoined : bool) : pio unit :=
  do! server := io_try startInternalServer in
  match server with
  | Err e => run! io_try closeRuntime in start_failed e
  | Ok _ =>
      run! on_node (λ n, if unjoined then updateUnjoinedStatus n else n) in
      rt_modify (λ rt, set_loops ([(Monitor, ctx); (WatchRaftLeadership, ctx);
                                   (SnapshotMaintenance, ctx); (MembershipMaintenance, ctx)] ++ rt_loops rt) rt)
  end.

Definition Start : pio unit :=
  do! started := rt_get rt_started in
  if started then io_ret tt
  else
    run! rt_modify (set_started true) in
    do! enabled := rt_get (λ rt, Enabled (n_cfg (rt_node rt))) in
    if negb enabled then rt_modify close_done
    else
      do! ctx := rt_get rt_next in
      run! rt_modify (λ rt, set_cancel (Some ctx) (rt_cancelled rt) (set_open (rt_open rt) (S ctx) rt)) in
      do! raft := io_try startRaft in
      match raft with
      | Ok _ => serve_and_loop ctx false
      | Err e => if str_eqb e errNodeUnjoined then serve_and_loop ctx true else start_failed e
      end.
End lifecycle.
