(* ===== verification/LifecycleSpec.v ===== *)
(** * LifecycleSpec: what starting and stopping a node guarantees

    A start opens everything or gives back what it opened, over any sequence of
    starts, stops and work in between, and what a [Shutdown] that gives up may
    leave; which cluster it bootstraps; a machine with a
    persisted fault starts halted; a node cannot be started a second time. *)
From S2P Require Import Prelude Text Io Sha256 Json GoTime Duration Config Peers Capability Manifest.
From S2P Require Import BlobStore Fsm FsmProofs Node Leadership NodeProofs Examples CommandSpec Lifecycle.
From stdpp Require Import options.
#[local] Open Scope io_scope.

(** ** Rules *)

Section rules.
Context (E : env) {P : Peers} {Y : System}.

Lemma wp_rt_get {A} (f : runtime → A) (Q : result A → runtime → Prop) rt : Q (Ok (f rt)) rt → wp (rt_get f) Q rt.
Proof. done. Qed.

Lemma wp_rt_modify f (Q : result unit → runtime → Prop) rt : Q (Ok tt) (f rt) → wp (rt_modify f) Q rt.
Proof. done. Qed.

Lemma wp_ask {A} (answer : runtime → result A) (Q : result A → runtime → Prop) rt :
  (∀ r, answer rt = r → Q r rt) → wp (ask answer) Q rt.
Proof. intros H. exact (H _ eq_refl). Qed.

Lemma wp_acquire what answer (Q : result nat → runtime → Prop) rt :
  (∀ e, answer rt = Err e → Q (Err e) rt) →
  Q (Ok (rt_next rt)) (set_open (<[ rt_next rt := what ]> (rt_open rt)) (S (rt_next rt)) rt) →
  wp (acquire what answer) Q rt.
Proof. intros He HQ. unfold wp, acquire. destruct (answer rt); [exact HQ|by apply He]. Qed.

Lemma wp_release h (Q : result unit → runtime → Prop) rt :
  (∀ r, Q r (set_open (delete h (rt_open rt)) (rt_next rt) rt)) → wp (release h) Q rt.
Proof. intros H. apply H. Qed.

Lemma wp_on_disk {A} (m : st disk A) (Q : result A → runtime → Prop) rt :
  (∀ r d, m (n_disk (rt_node rt)) = (r, d) →
     Q r (set_node (set_raft (n_raft (rt_node rt)) (n_fsm (rt_node rt)) (n_now (rt_node rt)) d (rt_node rt)) rt)) →
  wp (on_disk m) Q rt.
Proof. intros H. unfold wp, on_disk. destruct (m _) as [r d]. by apply H. Qed.

Lemma wp_abandon {A} t s e (Q : result A → runtime → Prop) rt :
  Q (Err e) (set_open (delete s (delete t (rt_open rt))) (rt_next rt) rt) → wp (abandon t s e) Q rt.
Proof.
  intros H. apply wp_bind, wp_try, wp_release. intros _. apply wp_bind, wp_try, wp_release. intros _. exact H.
Qed.

(** ** Errors tell the two outcomes of [startRaft] apart *)

Lemma ParseInitialMember_error item e : ParseInitialMember item = Err e → e ≠ errNodeUnjoined.
Proof. unfold ParseInitialMember. intros H. repeat case_match; simplify_eq; discriminate. Qed.

Lemma ParseInitialMembers_error l e : ParseInitialMembers l = Err e → e ≠ errNodeUnjoined.
Proof.
  induction l as [|item l IH]; [done|]. cbn [ParseInitialMembers].
  destruct (ParseInitialMember item) as [m|e1] eqn:Hm; cbn; [|intros [= <-]; by eapply ParseInitialMember_error].
  destruct (ParseInitialMembers l); [done|]. intros [= <-]. by apply IH.
Qed.

Lemma loadTLSIdentity_error cfg e : loadTLSIdentity cfg = Err e → e ≠ errNodeUnjoined.
Proof. unfold loadTLSIdentity. intros H. repeat case_match; simplify_eq; discriminate. Qed.

(** ** What [startRaft] does *)

(** What starting the Raft side leaves alone. *)
Record frame (rt rt' : runtime) : Prop := {
  fr_cfg : n_cfg (rt_node rt') = n_cfg (rt_node rt);
  fr_capabilities : n_capabilities (rt_node rt') = n_capabilities (rt_node rt);
  fr_server : h_server (rt_handles rt') = h_server (rt_handles rt) ∧ h_listener (rt_handles rt') = h_listener (rt_handles rt);
  fr_started : rt_started rt' = rt_started rt;
  fr_cancel : rt_cancel rt' = rt_cancel rt ∧ rt_cancelled rt' = rt_cancelled rt;
  fr_done : rt_done rt' = rt_done rt;
  fr_loops : rt_loops rt' = rt_loops rt;
  fr_crashed : rt_crashed rt' = rt_crashed rt;
  fr_next : rt_next rt ≤ rt_next rt';
}.

#[export] Instance frame_preorder : PreOrder frame.
Proof.
  split; [by constructor|]. intros rt1 rt2 rt3 [?? [] ? [] ????] [?? [] ? [] ????].
  constructor; try (split; congruence); try congruence. lia.
Qed.

Definition raft_db (cfg : Config) : string := filepath_Join (raft_dir cfg) "raft.db".
Definition fault_marker (cfg : Config) : string := filepath_Join (raft_dir cfg) "fsm-apply-fault.json".

(** A handle for each part of the Raft side, given out in order. *)
Record raft_open (rt rt' : runtime) : Prop := {
  ro_handles : ∃ s t r, rt_next rt ≤ s ∧ s < t ∧ t < r ∧ r < rt_next rt'
    ∧ rt_open rt' = <[ r := RaftInstance ]> (<[ t := RaftListener (RaftBindAddr (n_cfg (rt_node rt))) ]>
                      (<[ s := BoltStore (raft_db (n_cfg (rt_node rt))) ]> (rt_open rt)))
    ∧ rt_handles rt' = mkHandles (Some r) (Some t) (Some s) (h_server (rt_handles rt)) (h_listener (rt_handles rt));
}.

(** The cluster and the machine the instance was started with. *)
Record raft_boot (rt rt' : runtime) (existing : bool) : Prop := {
  rb_inspected : ∃ rt1, HasExistingState rt1 = Ok existing;
  rb_boots : rt_boots rt' = rt_boots rt ∧ existing || JoinExisting (n_cfg (rt_node rt)) = true
    ∨ existing || JoinExisting (n_cfg (rt_node rt)) = false
      ∧ ∃ members, ParseInitialMembers (InitialMembers (n_cfg (rt_node rt))) = Ok members
        ∧ rt_boots rt' = ((λ m, mkServer Voter (mb_NodeID m) (mb_Addr m)) <$> members) :: rt_boots rt;
  rb_unjoined : n_unjoined (rt_node rt') =
    n_unjoined (rt_node rt) || negb existing && JoinExisting (n_cfg (rt_node rt));
  rb_machine : ∃ f0 d0 d1 view f, w_vol d0 = w_vol (n_disk (rt_node rt))
    ∧ configureApplyFaultFile E (fault_marker (n_cfg (rt_node rt))) (fresh_fsm (rt_node rt)) d0 = (Ok f0, d1)
    ∧ NewRaft (raft_settings (n_cfg (rt_node rt))) f0 d1 = (Ok (view, f), n_disk (rt_node rt'))
    ∧ n_raft (rt_node rt') = Some view ∧ n_fsm (rt_node rt') = Some f;
  rb_store : n_blobStore (rt_node rt') = Some (filepath_Join (DataDir (n_cfg (rt_node rt))) "cas");
}.

(** The outcome: everything is open, or nothing new is. *)
Definition raft_outcome (r : result unit) (rt rt' : runtime) : Prop :=
  frame rt rt' ∧
  ((∃ existing, raft_open rt rt' ∧ raft_boot rt rt' existing
      ∧ r = if negb existing && JoinExisting (n_cfg (rt_node rt)) then Err errNodeUnjoined else Ok tt)
   ∨ ∃ e, r = Err e ∧ e ≠ errNodeUnjoined ∧ rt_open rt' = rt_open rt ∧ rt_handles rt' = rt_handles rt).

(** Handles not given out yet are not open. *)
Definition fresh (rt : runtime) : Prop := ∀ h, rt_next rt ≤ h → rt_open rt !! h = None.

Lemma wp_prepare config servers existing (Q : result unit → runtime → Prop) rt :
  (existing = true → Q (Ok tt) rt) →
  (existing = false → JoinExisting (n_cfg (rt_node rt)) = true → Q (Ok tt) (set_node (set_unjoined true (rt_node rt)) rt)) →
  (existing = false → JoinExisting (n_cfg (rt_node rt)) = false → ∀ r,
     r = Ok tt ∨ r = Err "bootstrap raft cluster: %w" → Q r (set_boots (servers :: rt_boots rt) rt)) →
  wp (prepare_cluster config servers existing) Q rt.
Proof.
  intros H1 H2 H3. apply wp_bind, wp_rt_get. cbn [id]. destruct existing; [by apply wp_ret, H1|].
  destruct (JoinExisting _) eqn:Hj; [by apply wp_rt_modify, H2|].
  apply wp_bind, wp_try. change (wp (bootstrap config servers) ?F rt) with (F (BootstrapCluster config servers rt) (set_boots (servers :: rt_boots rt) rt)).
  destruct (BootstrapCluster config servers rt) as [[]|e]; [apply wp_ret; auto|].
  destruct (str_eqb e ErrCantBootstrap); [apply wp_ret|apply wp_err]; auto.
Qed.

Lemma wp_newTLSStreamLayer cfg (Q : result nat → runtime → Prop) rt :
  fresh rt →
  (∀ e k, e ≠ errNodeUnjoined → rt_next rt ≤ k → Q (Err e) (set_open (rt_open rt) k rt)) →
  Q (Ok (rt_next rt)) (set_open (<[ rt_next rt := RaftListener (RaftBindAddr cfg) ]> (rt_open rt)) (S (rt_next rt)) rt) →
  wp (newTLSStreamLayer cfg) Q rt.
Proof.
  intros Hfresh He HQ. assert (∀ e, e ≠ errNodeUnjoined → Q (Err e) rt) as He0.
  { intros e Hne. specialize (He e (rt_next rt) Hne ltac:(lia)). by destruct rt. }
  apply wp_bind, wp_of. destruct (loadTLSIdentity _) as [[]|e] eqn:Htls; [|by eapply He0, loadTLSIdentity_error].
  apply wp_bind, wp_wrap, wp_acquire; [intros e _; by apply He0|].
  apply wp_bind, wp_try, wp_ask. intros r _. destruct r as [[]|e]; [by apply wp_ret|].
  apply wp_bind, wp_try, wp_release. intros _. apply wp_err.
  cbn [set_open rt_open rt_next]. rewrite delete_insert_id by (apply Hfresh; lia).
  apply (He _ (S (rt_next rt))); [done|lia].
Qed.

(** What is open besides the two handles that an error gives back. *)
Definition with_two (s t : nat) (cfg : Config) (open : gmap nat resource) : gmap nat resource :=
  <[ t := RaftListener (RaftBindAddr cfg) ]> (<[ s := BoltStore (raft_db cfg) ]> open).

Lemma with_two_closed s t cfg open :
  s ≠ t → open !! s = None → open !! t = None → delete s (delete t (with_two s t cfg open)) = open.
Proof.
  intros Hne Hs Ht. unfold with_two. rewrite delete_insert_id by (rewrite lookup_insert_ne; done).
  by rewrite delete_insert_id.
Qed.

Lemma wp_start_instance config t s fsm (rt : runtime) (Q : result unit → runtime → Prop) :
  (∀ rt', rt_open rt' = delete s (delete t (rt_open rt)) → rt_handles rt' = rt_handles rt → frame rt rt' →
     Q (Err "start raft: %w") rt') →
  (∀ rt' view f, NewRaft config fsm (n_disk (rt_node rt)) = (Ok (view, f), n_disk (rt_node rt')) →
     rt_open rt' = <[ rt_next rt := RaftInstance ]> (rt_open rt) → rt_next rt' = S (rt_next rt) →
     rt_handles rt' = mkHandles (Some (rt_next rt)) (Some t) (Some s) (h_server (rt_handles rt)) (h_listener (rt_handles rt)) →
     rt_boots rt' = rt_boots rt → n_unjoined (rt_node rt') = n_unjoined (rt_node rt) →
     n_raft (rt_node rt') = Some view → n_fsm (rt_node rt') = Some f →
     n_blobStore (rt_node rt') = Some (filepath_Join (DataDir (n_cfg (rt_node rt))) "cas") → frame rt rt' → Q (Ok tt) rt') →
  wp (start_instance config t s fsm) Q rt.
Proof using Type.
  intros He HQ. apply wp_bind, wp_try, wp_on_disk. intros r d Hraft. destruct r as [[view f]|e].
  - apply wp_bind, wp_acquire; [done|]. apply wp_rt_modify. eapply (HQ _ view f); [exact Hraft|done..|].
    by constructor; simpl; auto.
  - apply wp_abandon. apply He; [done..|]. by constructor.
Qed.

(** A failure that gives back what it opened. *)
Lemma outcome_failed rt rt' e :
  e ≠ errNodeUnjoined → rt_open rt' = rt_open rt → rt_handles rt' = rt_handles rt → frame rt rt' →
  raft_outcome (Err e) rt rt'.
Proof. intros He Ho Hh Hf. split; [done|right]. by exists e. Qed.

Lemma wp_MkdirAll dir (Q : result unit → runtime → Prop) rt :
  (∀ r d, w_vol d = w_vol (n_disk (rt_node rt)) → r = Ok tt ∨ is_ok r = false →
     Q r (set_node (set_raft (n_raft (rt_node rt)) (n_fsm (rt_node rt)) (n_now (rt_node rt)) d (rt_node rt)) rt)) →
  wp (on_disk (os_MkdirAll E dir)) Q rt.
Proof.
  intros H. apply wp_on_disk. intros r d Hd. unfold os_MkdirAll, sys in Hd.
  destruct (io_fault _ _); injection Hd as <- <-; apply H; auto.
Qed.

(** Half way: the store and the transport are open. *)
Record halfway (rt0 rt : runtime) (s t : nat) : Prop := {
  hw_handles : rt_next rt0 ≤ s ∧ s < t ∧ t < rt_next rt;
  hw_open : rt_open rt = with_two s t (n_cfg (rt_node rt0)) (rt_open rt0);
  hw_fields : rt_handles rt = rt_handles rt0;
  hw_frame : frame rt0 rt;
  hw_disk : w_vol (n_disk (rt_node rt)) = w_vol (n_disk (rt_node rt0));
}.

Lemma halfway_step rt0 rt rt' s t :
  halfway rt0 rt s t → rt_open rt' = rt_open rt → rt_handles rt' = rt_handles rt → frame rt rt' →
  w_vol (n_disk (rt_node rt')) = w_vol (n_disk (rt_node rt)) → halfway rt0 rt' s t.
Proof.
  intros [(?&?&?) Ho Hh Hf Hd] Ho' Hh' Hf' Hd'. pose proof (fr_next _ _ Hf').
  constructor; [lia|congruence|congruence|by etrans|congruence].
Qed.

Lemma halfway_abandon rt0 rt s t e (Q : result unit → runtime → Prop) :
  fresh rt0 → (∀ r rt', raft_outcome r rt0 rt' → Q r rt') → halfway rt0 rt s t → e ≠ errNodeUnjoined →
  wp (abandon t s e) Q rt.
Proof.
  intros Hfresh HQ [(?&?&?) Ho Hh Hf _] He. apply wp_abandon, HQ, outcome_failed; simpl; [done| |done|].
  - rewrite Ho. apply with_two_closed; [lia|apply Hfresh; lia..].
  - etrans; [exact Hf|by constructor].
Qed.

(** What [prepare_cluster] leaves, given what Raft said of the files. *)
Record prepared (rt0 rt : runtime) (servers : list Server) (existing : bool) : Prop := {
  pr_inspected : ∃ rt1, HasExistingState rt1 = Ok existing;
  pr_unjoined : n_unjoined (rt_node rt) = n_unjoined (rt_node rt0) || negb existing && JoinExisting (n_cfg (rt_node rt0));
  pr_boots : rt_boots rt = rt_boots rt0 ∧ existing || JoinExisting (n_cfg (rt_node rt0)) = true
    ∨ existing || JoinExisting (n_cfg (rt_node rt0)) = false ∧ rt_boots rt = servers :: rt_boots rt0;
}.

Lemma bootstrapConfiguration_members cfg servers :
  bootstrapConfiguration cfg = Ok servers →
  ∃ members, ParseInitialMembers (InitialMembers cfg) = Ok members
    ∧ servers = (λ m, mkServer Voter (mb_NodeID m) (mb_Addr m)) <$> members.
Proof. unfold bootstrapConfiguration. destruct (ParseInitialMembers _) as [l|]; [|done]. intros [= <-]. by exists l. Qed.

Lemma wp_load_and_start rt0 rt s t servers existing (Q : result unit → runtime → Prop) :
  let cfg := n_cfg (rt_node rt0) in
  fresh rt0 → (∀ r rt', raft_outcome r rt0 rt' → Q r rt') → bootstrapConfiguration cfg = Ok servers →
  halfway rt0 rt s t → prepared rt0 rt servers existing →
  wp (do! loaded := io_try (on_disk (configureApplyFaultFile E (fault_marker cfg) (fresh_fsm (rt_node rt0)))) in
      match loaded with
      | Err _ => abandon t s "load FSM apply fault marker: %w"
      | Ok fsm =>
          run! start_instance (raft_settings cfg) t s fsm in
          if negb existing && JoinExisting cfg then io_err errNodeUnjoined else io_ret tt
      end) Q rt.
Proof.
  intros cfg Hfresh HQ Hservers Hhalf [Hin Hunj Hboots]. apply wp_bind, wp_try, wp_on_disk. intros r d1 Hconf.
  assert (frame rt (set_node (set_raft (n_raft (rt_node rt)) (n_fsm (rt_node rt)) (n_now (rt_node rt)) d1 (rt_node rt)) rt))
    as Hf1 by by constructor.
  pose proof (hw_handles _ _ _ _ Hhalf) as (?&?&?). destruct r as [fsm|e].
  2:{ destruct Hhalf as [Hn Ho Hh Hf Hd]. apply wp_abandon, HQ, outcome_failed; simpl; [done| |done|].
      - rewrite Ho. apply with_two_closed; [lia|apply Hfresh; lia..].
      - etrans; [exact Hf|by constructor]. }
  apply wp_bind, wp_start_instance.
  - intros rt2 Ho2 Hh2 Hf2. destruct Hhalf as [_ Ho Hh Hf _]. apply HQ, outcome_failed; [done| |by rewrite Hh2|].
    + rewrite Ho2. simpl. rewrite Ho. apply with_two_closed; [lia|apply Hfresh; lia..].
    + etrans; [exact Hf|]. by etrans.
  - intros rt2 view f Hnew Ho2 Hn2 Hh2 Hb2 Hu2 Hr2 Hfsm2 Hs2 Hf2. simpl in *.
    assert (raft_outcome (if negb existing && JoinExisting cfg then Err errNodeUnjoined else Ok tt) rt0 rt2) as Hend.
    { destruct Hhalf as [_ Ho Hh Hf Hd]. split; [etrans; [exact Hf|]; by etrans|left].
      exists existing. split_and!; [| |done].
      - constructor. exists s, t, (rt_next rt). split_and!; [lia|lia|lia|lia| |].
        + by rewrite Ho2, Ho.
        + by rewrite Hh2, Hh.
      - destruct (bootstrapConfiguration_members _ _ Hservers) as (members & Hm & Hsv). constructor.
        + done.
        + destruct Hboots as [[Hb Hj]|[Hj Hb]]; [left; split; congruence|right]. split; [done|].
          exists members. split; [done|]. by rewrite Hb2, Hb, Hsv.
        + by rewrite Hu2, Hunj.
        + by exists fsm, (n_disk (rt_node rt)), d1, view, f.
        + rewrite Hs2. do 3 f_equal. apply Hf. }
    apply HQ in Hend. revert Hend. destruct (negb existing && _); intros Hend; [by apply wp_err|by apply wp_ret].
Qed.

Lemma fresh_fsm_frame rt rt' : frame rt rt' → fresh_fsm (rt_node rt') = fresh_fsm (rt_node rt).
Proof. intros [Hcfg Hcaps _ _ _ _ _ _ _]. unfold fresh_fsm. by rewrite Hcfg, Hcaps. Qed.

Lemma wp_start_cluster rt0 rt s t (Q : result unit → runtime → Prop) :
  fresh rt0 → (∀ r rt', raft_outcome r rt0 rt' → Q r rt') → halfway rt0 rt s t →
  n_unjoined (rt_node rt) = n_unjoined (rt_node rt0) → rt_boots rt = rt_boots rt0 →
  wp (start_cluster E t s) Q rt.
Proof.
  intros Hfresh HQ Hhalf Hunj Hboots. apply wp_bind, wp_rt_get. cbn [id].
  rewrite (fresh_fsm_frame _ _ (hw_frame _ _ _ _ Hhalf)), (fr_cfg _ _ (hw_frame _ _ _ _ Hhalf)).
  destruct (bootstrapConfiguration (n_cfg (rt_node rt0))) as [servers|e] eqn:Hservers.
  2:{ eapply halfway_abandon; [done..|]. unfold bootstrapConfiguration in Hservers.
      destruct (ParseInitialMembers _) eqn:Hp; [done|]. injection Hservers as <-. by eapply ParseInitialMembers_error. }
  apply wp_bind, wp_try, wp_ask. intros r Hin. destruct r as [existing|e]; [|by eapply halfway_abandon].
  apply wp_bind, wp_try, wp_prepare; rewrite ?(fr_cfg _ _ (hw_frame _ _ _ _ Hhalf)).
  - intros ->. eapply wp_load_and_start; [done|done|done|exact Hhalf|].
    constructor; [by exists rt|by rewrite orb_false_r|by left].
  - intros -> Hj. eapply wp_load_and_start; [done|done|done| |].
    + eapply halfway_step; [exact Hhalf|done|done|by constructor|done].
    + constructor; [by exists rt|by rewrite Hj, orb_true_r|rewrite Hj; by left].
  - intros -> Hj r Hboot.
    assert (halfway rt0 (set_boots (servers :: rt_boots rt) rt) s t) as Hhalf'.
    { eapply halfway_step; [exact Hhalf|done|done|by constructor|done]. }
    destruct Hboot as [-> | ->]; [|by eapply halfway_abandon].
    eapply wp_load_and_start; [done|done|done|exact Hhalf'|].
    constructor; [by exists rt|by rewrite Hj, orb_false_r|rewrite Hj; right; split; [done|]; cbn; by rewrite Hboots].
Qed.

Lemma wp_startRaft rt : fresh rt → wp (startRaft E) (λ r rt', raft_outcome r rt rt') rt.
Proof.
  intros Hfresh. apply wp_bind, wp_rt_get. cbn [id]. apply wp_bind, wp_wrap, wp_MkdirAll. intros r d Hd Hr.
  set (rt1 := set_node _ rt). assert (frame rt rt1) as Hf1 by by constructor.
  destruct r as [[]|e]; [|by apply outcome_failed].
  apply wp_bind, wp_wrap, wp_acquire; [intros e _; by apply outcome_failed|].
  set (s := rt_next rt1). set (rt2 := set_open _ _ rt1). assert (s = rt_next rt) as Hs by reflexivity.
  assert (delete s (rt_open rt2) = rt_open rt) as Hclosed by (apply delete_insert_id, Hfresh; fold s; lia).
  assert (∀ e k, e ≠ errNodeUnjoined → S s ≤ k →
    raft_outcome (Err e) rt (set_open (delete s (rt_open rt2)) k rt2)) as Hfail.
  { intros e k He Hk. apply outcome_failed; [done|done|done|]. constructor; try done. simpl. lia. }
  apply wp_bind, wp_try, wp_ask. intros r _. destruct r as [[]|e].
  2:{ apply wp_bind, wp_try, wp_release. intros _. by apply wp_err, Hfail. }
  apply wp_bind, wp_try, wp_newTLSStreamLayer.
  { intros h Hh. simpl in Hh |- *. fold s in Hh |- *. rewrite lookup_insert_ne by lia. apply Hfresh. lia. }
  { intros e k He Hk. apply wp_bind, wp_try, wp_release. intros _. apply wp_err, (Hfail e k He). exact Hk. }
  apply (wp_start_cluster rt); [done|done| |done|done].
  constructor; [simpl; fold s; lia|done|done| |done]. constructor; try done. simpl. fold s. lia.
Qed.

(** ** The whole start *)

Lemma wp_startInternalServer (Q : result unit → runtime → Prop) rt :
  let cfg := n_cfg (rt_node rt) in
  let h := rt_handles rt in
  let l := rt_next rt in
  (∀ e, Q (Err e) rt) →
  Q (Ok tt) (set_handles (mkHandles (h_raft h) (h_transport h) (h_store h) (Some (S l)) (Some l))
    (set_open (<[ S l := APIServer ]> (<[ l := APIListener (InternalAPIBindAddr cfg) ]> (rt_open rt))) (S (S l)) rt)) →
  wp startInternalServer Q rt.
Proof.
  intros cfg h l He HQ. apply wp_bind, wp_bind, wp_rt_get. cbn [id]. apply wp_bind, wp_of.
  destruct (loadTLSIdentity _) as [[]|e]; [|by apply He].
  apply wp_wrap, wp_acquire; [by intros e _|]. apply wp_bind, wp_acquire; [done|]. by apply wp_rt_modify.
Qed.

(** The handles a node holds. *)
Definition owned (h : handles) : list nat :=
  omap id [h_server h; h_listener h; h_raft h; h_transport h; h_store h].

Lemma owned_raft r t s v l h : h ∈ [r; t; s] → h ∈ owned (mkHandles (Some r) (Some t) (Some s) v l).
Proof. destruct v, l; unfold owned; cbn; set_solver. Qed.

(** Every [Shutdown] of the server ends before its context does. *)
Definition drains : Prop := ∀ h rt, close_reports h rt ≠ Err context_DeadlineExceeded.

(** Nothing is open but connections that some [Shutdown] gave up on. *)
Definition leftover (open : gmap nat resource) : Prop := ∀ h x, open !! h = Some x → x = APIConnections ∧ ¬ drains.

Lemma leftover_drained open : leftover open → drains → open = ∅.
Proof.
  intros Hopen Hd. apply map_eq. intros h. rewrite lookup_empty.
  destruct (open !! h) as [x|] eqn:Hx; [|done]. by destruct (Hopen _ _ Hx).
Qed.

(** From [open] to [open'] the handles [hs] were shut, and nothing else changed. *)
Definition shut (hs : list nat) (open open' : gmap nat resource) : Prop := ∀ h,
  (h ∉ hs → open' !! h = open !! h)
  ∧ (h ∈ hs → ∀ x, open' !! h = Some x → x = APIConnections ∧ ¬ drains ∧ is_Some (open !! h)).

Lemma shut_nil open : shut [] open open.
Proof. intros h. split; [done|]. intros Hin. by apply not_elem_of_nil in Hin. Qed.

Lemma shut_app hs1 hs2 open1 open2 open3 :
  shut hs1 open1 open2 → shut hs2 open2 open3 → shut (hs1 ++ hs2) open1 open3.
Proof.
  intros H1 H2 h. destruct (H1 h) as [K1 S1], (H2 h) as [K2 S2]. split.
  - intros Hn. rewrite not_elem_of_app in Hn. destruct Hn. by rewrite K2, K1.
  - intros Hin x Hx. destruct (decide (h ∈ hs2)) as [H|H].
    + destruct (S2 H x Hx) as (-> & Hd & y & Hy). split_and!; [done|done|].
      destruct (decide (h ∈ hs1)) as [H'|H']; [by eapply S1|]. exists y. by rewrite <- K1.
    + rewrite K2 in Hx by done. apply elem_of_app in Hin as [H'|H']; [by apply S1|done].
Qed.

Lemma shut_closed h open : shut [h] open (delete h open).
Proof.
  intros h'. rewrite list_elem_of_singleton. split.
  - intros Hne. by rewrite lookup_delete_ne by congruence.
  - intros -> x. by rewrite lookup_delete_eq.
Qed.

Lemma shut_fresh hs rt open : fresh rt → shut hs (rt_open rt) open → fresh (set_open open (rt_next rt) rt).
Proof.
  intros Hfresh Hshut h Hh. cbn in Hh |- *. destruct (Hshut h) as [H1 H2]. destruct (decide (h ∈ hs)) as [Hin|Hin].
  - destruct (open !! h) as [x|] eqn:Hx; [|done]. destruct (H2 Hin x eq_refl) as (_ & _ & y & Hy). by rewrite Hfresh in Hy.
  - rewrite H1 by done. by apply Hfresh.
Qed.

Lemma wp_release_opt h (Q : result unit → runtime → Prop) rt :
  (∀ r open, shut (omap id [h]) (rt_open rt) open → Q r (set_open open (rt_next rt) rt)) → wp (release_opt h) Q rt.
Proof.
  intros H. destruct h as [h|]; [apply wp_release; intros r; apply H, shut_closed|].
  apply wp_ret. specialize (H (Ok tt) _ (shut_nil _)). by destruct rt.
Qed.

Lemma wp_shutdown_opt h (Q : result unit → runtime → Prop) rt :
  (∀ r open, shut (omap id [h]) (rt_open rt) open → Q r (set_open open (rt_next rt) rt)) → wp (shutdown_opt h) Q rt.
Proof.
  intros H. destruct h as [h|]; [|apply wp_ret; specialize (H (Ok tt) _ (shut_nil _)); by destruct rt].
  unfold wp, shutdown_opt, shutdown_server. apply H. cbn [omap list_omap id].
  destruct (close_reports h rt) as [[]|e] eqn:Hr; [apply shut_closed|].
  destruct (str_eqb e _) eqn:He; [|apply shut_closed]. apply str_eqb_eq in He as ->.
  intros h'. rewrite list_elem_of_singleton. split; [intros Hne; by rewrite lookup_alter_ne by congruence|].
  intros -> x. rewrite lookup_alter_eq. destruct (rt_open rt !! h) as [y|]; [|done]. intros [= <-].
  split_and!; [done| |by exists y]. intros Hd. by apply (Hd h rt).
Qed.

Lemma wp_closeRuntime (Q : result unit → runtime → Prop) rt :
  (∀ r open, shut (owned (rt_handles rt)) (rt_open rt) open → Q r (set_open open (rt_next rt) rt)) →
  wp closeRuntime Q rt.
Proof.
  intros H. apply wp_bind, wp_rt_get. cbn [id].
  apply wp_bind, wp_try, wp_shutdown_opt. intros e1 o1 H1. apply wp_bind, wp_try, wp_release_opt. intros _ o2 H2.
  apply wp_bind, wp_try, wp_release_opt. intros e2 o3 H3. apply wp_bind, wp_try, wp_release_opt. intros _ o4 H4.
  apply wp_bind, wp_try, wp_release_opt. intros e3 o5 H5. apply wp_of. apply (H _ _).
  pose proof (shut_app _ _ _ _ _ H1 (shut_app _ _ _ _ _ H2 (shut_app _ _ _ _ _ H3 (shut_app _ _ _ _ _ H4 H5)))) as Hall.
  unfold owned. set (hs := rt_handles rt) in *. by rewrite <- !omap_app in Hall.
Qed.

(** Everything is open, and the node holds it; besides there is at most what an
    earlier [Shutdown] left. *)
Definition up (rt : runtime) : Prop :=
  ∃ old s t r l v, leftover old ∧ (∀ h, is_Some (old !! h) → h < s)
    ∧ s < t ∧ t < r ∧ r < l ∧ l < v ∧ v < rt_next rt
    ∧ rt_handles rt = mkHandles (Some r) (Some t) (Some s) (Some v) (Some l)
    ∧ let cfg := n_cfg (rt_node rt) in
      rt_open rt = <[ v := APIServer ]> (<[ l := APIListener (InternalAPIBindAddr cfg) ]>
        (<[ r := RaftInstance ]> (with_two s t cfg old))).

(** The goroutines of a start. *)
Definition loops_of (ctx : nat) : list (loop * nat) :=
  [(Monitor, ctx); (WatchRaftLeadership, ctx); (SnapshotMaintenance, ctx); (MembershipMaintenance, ctx)].

Record start_frame (rt rt' : runtime) : Prop := {
  sf_cfg : n_cfg (rt_node rt') = n_cfg (rt_node rt);
  sf_fresh : fresh rt';
  sf_next : rt_next rt < rt_next rt';
  sf_cancel : rt_cancel rt' = Some (rt_next rt);
  sf_done : rt_done rt' = rt_done rt;
  sf_crashed : rt_crashed rt' = rt_crashed rt;
}.

Definition start_outcome (r : result unit) (rt rt' : runtime) : Prop :=
  start_frame rt rt' ∧
  ((∃ existing, r = Ok tt ∧ rt_started rt' = true ∧ up rt' ∧ rt_loops rt' = loops_of (rt_next rt) ++ rt_loops rt
      ∧ rt_cancelled rt' = rt_cancelled rt ∧ raft_boot rt rt' existing)
   ∨ ∃ e, r = Err e ∧ rt_started rt' = false ∧ leftover (rt_open rt') ∧ rt_loops rt' = rt_loops rt
      ∧ rt_cancelled rt' = rt_next rt :: rt_cancelled rt ∧ st_Reason (n_status (rt_node rt')) = e).

Lemma wp_start_failed rt0 rt e (Q : result unit → runtime → Prop) :
  (∀ r rt', start_outcome r rt0 rt' → Q r rt') →
  n_cfg (rt_node rt) = n_cfg (rt_node rt0) → rt_next rt0 < rt_next rt → rt_cancel rt = Some (rt_next rt0) →
  rt_done rt = rt_done rt0 → rt_crashed rt = rt_crashed rt0 → fresh rt → leftover (rt_open rt) → rt_loops rt = rt_loops rt0 →
  rt_cancelled rt = rt_cancelled rt0 →
  wp (start_failed e) Q rt.
Proof.
  intros HQ Hcfg Hn Hc Hd Hcr Hfresh Ho Hl Hcs. apply wp_bind, wp_rt_modify, wp_bind, wp_rt_modify, wp_bind, wp_rt_modify, wp_err.
  unfold cancel. rewrite Hc. apply HQ. split.
  - by constructor.
  - right. exists e. simpl. rewrite Hcs. done.
Qed.

Lemma raft_boot_same rt0 rt0' rt rt' existing :
  raft_boot rt0 rt existing → rt_node rt0' = rt_node rt0 → rt_boots rt0' = rt_boots rt0 → rt_boots rt' = rt_boots rt →
  n_unjoined (rt_node rt') = n_unjoined (rt_node rt) → n_disk (rt_node rt') = n_disk (rt_node rt) →
  n_raft (rt_node rt') = n_raft (rt_node rt) → n_fsm (rt_node rt') = n_fsm (rt_node rt) →
  n_blobStore (rt_node rt') = n_blobStore (rt_node rt) → raft_boot rt0' rt' existing.
Proof. intros [] H0 Hb0 Hb Hu Hd Hr Hf Hs. constructor; by rewrite ?H0, ?Hb0, ?Hb, ?Hu, ?Hd, ?Hr, ?Hf, ?Hs. Qed.

Lemma wp_serve_and_loop rt rt1 rt2 existing unjoined :
  rt1 = set_cancel (Some (rt_next rt)) (rt_cancelled rt) (set_open (rt_open rt) (S (rt_next rt)) (set_started true rt)) →
  fresh rt → leftover (rt_open rt) →
  frame rt1 rt2 → raft_open rt1 rt2 → raft_boot rt1 rt2 existing →
  wp (serve_and_loop (rt_next rt) unjoined) (λ r rt', start_outcome r rt rt') rt2.
Proof.
  intros Hrt1 Hfresh Hold [Hcfg _ [Hs1 Hs2] Hstd [Hc1 Hc2] Hd Hl Hcr Hn] [(s & t & r & ? & ? & ? & ? & Ho & Hh)] Hboot.
  subst rt1. cbn in Hcfg, Hstd, Hc1, Hc2, Hd, Hl, Hcr, Hn, Ho, Hh.
  apply wp_bind, wp_try, wp_startInternalServer.
  - intros e. apply wp_bind, wp_try, wp_closeRuntime. intros _ open Hshut.
    assert (fresh rt2) as Hfresh2 by (intros h Hh'; rewrite Ho, !lookup_insert_ne by lia; apply Hfresh; lia).
    eapply wp_start_failed; [done|done|simpl; lia|done..|by eapply shut_fresh| |done|done]. intros h x Hx. cbn in Hx.
    destruct (Hshut h) as [Hkept Hshut1]. destruct (decide (h ∈ owned (rt_handles rt2))) as [Hin|Hin];
      [by destruct (Hshut1 Hin x Hx) as (? & ? & _)|].
    rewrite Hkept, Ho in Hx by done. rewrite Hh in Hin.
    assert (h ∉ [r; t; s]) as Hne by (intros Hx'; by apply Hin, owned_raft).
    rewrite !not_elem_of_cons in Hne. destruct Hne as (? & ? & ? & _). rewrite !lookup_insert_ne in Hx by done.
    by eapply Hold.
  - apply wp_bind, wp_rt_modify, wp_rt_modify. split.
    + constructor; try done; simpl; [by destruct unjoined| |lia].
      intros h Hh'. cbn in Hh' |- *. rewrite Ho, !lookup_insert_ne by lia. apply Hfresh. lia.
    + left. exists existing. split_and!; try done; simpl; [|by rewrite Hl|].
      * exists (rt_open rt), s, t, r, (rt_next rt2), (S (rt_next rt2)). simpl. split_and!; try lia; [done| |by rewrite Hh|].
        { simpl in *. intros h [x Hx]. destruct (decide (h < s)); [done|]. rewrite Hfresh in Hx by lia. done. }
        rewrite Ho. unfold with_two. by destruct unjoined; cbn; rewrite ?Hcfg.
      * eapply raft_boot_same; [exact Hboot|done|done|done|by destruct unjoined..].
Qed.

Lemma wp_Start rt :
  fresh rt → leftover (rt_open rt) → rt_started rt = false → Enabled (n_cfg (rt_node rt)) = true →
  wp (Start E) (λ r rt', start_outcome r rt rt') rt.
Proof.
  intros Hfresh Hopen Hst Hen. apply wp_bind, wp_rt_get. rewrite Hst.
  apply wp_bind, wp_rt_modify, wp_bind, wp_rt_get. cbn [set_started rt_node]. rewrite Hen. cbn [negb].
  apply wp_bind, wp_rt_get, wp_bind, wp_rt_modify. set (rt1 := set_cancel _ _ _).
  assert (fresh rt1) as Hfresh1 by (intros h Hh; apply Hfresh; simpl in Hh; lia).
  apply wp_bind, wp_try. eapply wp_mono; [by apply wp_startRaft|]. intros r rt2 [Hf [(existing & Hup & Hboot & ->)|Hfail]].
  2:{ destruct Hfail as (e & -> & He & Ho & Hh). unfold str_eqb. rewrite bool_decide_eq_false_2 by done.
      destruct Hf as [Hcfg _ _ _ [Hc1 Hc2] Hd Hl Hcr Hn]. simpl in *.
      eapply wp_start_failed; [done|done|lia|done|done|done| |by rewrite Ho|done|done].
      intros h Hh'. rewrite Ho. apply Hfresh. lia. }
  assert (∀ unjoined, wp (serve_and_loop (rt_next rt) unjoined) (λ r rt', start_outcome r rt rt') rt2) as Hgo.
  2:{ destruct (negb existing && _); [rewrite str_eqb_refl|]; apply Hgo. }
  intros unjoined. by eapply (wp_serve_and_loop rt rt1).
Qed.

(** ** Starts, stops and work in any order *)

(** A process runs [Start] and [Close] one after the other; in between a loop
    may end (its context being done, or Raft having closed its channel), and the
    operations of the node do their work, whatever it is. *)
Inductive life_step : relation runtime :=
| life_start rt : life_step rt (Start E rt).2
| life_close rt in_time : life_step rt (Close in_time rt).2
| life_loop_ends rt which ctx : (which, ctx) ∈ rt_loops rt → life_step rt (loop_ends which ctx rt)
| life_work rt n : n_cfg n = n_cfg (rt_node rt) → life_step rt (set_node n rt).

Record life_ok (cfg : Config) (rt : runtime) : Prop := {
  lo_cfg : n_cfg (rt_node rt) = cfg;
  lo_fresh : fresh rt;
  lo_open : if rt_started rt && Enabled cfg then up rt else leftover (rt_open rt);
  lo_loops : ∀ which ctx, (which, ctx) ∈ rt_loops rt →
    ctx ∈ rt_cancelled rt ∨ rt_started rt = true ∧ rt_cancel rt = Some ctx;
}.

Lemma life_ok_new n : life_ok (n_cfg n) (new_runtime n).
Proof. constructor; try done. intros which ctx H. by apply not_elem_of_nil in H. Qed.

Lemma Start_cases cfg rt r rt' :
  life_ok cfg rt → Start E rt = (r, rt') →
  (rt_started rt = true ∧ r = Ok tt ∧ rt' = rt)
  ∨ (rt_started rt = false ∧ Enabled cfg = false ∧ r = Ok tt ∧ rt' = close_done (set_started true rt))
  ∨ (rt_started rt = false ∧ Enabled cfg = true ∧ start_outcome r rt rt').
Proof.
  intros [Hcfg Hfresh Hopen _] Hstart. destruct (rt_started rt) eqn:Hst.
  { left. unfold Start, io_bind at 1, rt_get in Hstart. rewrite Hst in Hstart. by injection Hstart as <- <-. }
  right. destruct (Enabled cfg) eqn:Hen; cbn in Hopen; [right|left].
  - split_and!; [done|done|]. pose proof (wp_Start rt Hfresh Hopen Hst ltac:(by rewrite Hcfg)) as H.
    by apply (wp_eq _ _ _ _ _ Hstart) in H.
  - unfold Start, io_bind, rt_get, rt_modify in Hstart. rewrite Hst in Hstart. cbn [set_started rt_node] in Hstart.
    rewrite Hcfg, Hen in Hstart. by injection Hstart as <- <-.
Qed.

Lemma life_ok_Start cfg rt : life_ok cfg rt → life_ok cfg (Start E rt).2.
Proof.
  intros Hok. destruct (Start E rt) as [r rt'] eqn:Hstart. cbn [snd].
  destruct (Start_cases cfg rt r rt' Hok Hstart) as [(_ & _ & ->)|[(Hst & Hen & _ & ->)|(Hst & Hen & Hout)]]; [done|..].
  all: destruct Hok as [Hcfg Hfresh Hopen Hloops]; rewrite Hst in Hopen, Hloops; cbn in Hopen.
  all: assert (∀ which ctx, (which, ctx) ∈ rt_loops rt → ctx ∈ rt_cancelled rt) as Hc
    by (intros which ctx Hl; by destruct (Hloops which ctx Hl) as [|[? _]]).
  - constructor; cbn; [done|done|by rewrite Hen|]. intros which ctx Hl. left. by eapply Hc.
  - destruct Hout as [[Hcfg' Hfresh' _ Hcan _ _] Hcase].
    constructor; [congruence|done| |]; destruct Hcase as [(ex & _ & Hs & Hup & Hl & Hcs & _)|(e & _ & Hs & Ho & Hl & Hcs & _)].
    + by rewrite Hs, Hen.
    + by rewrite Hs.
    + intros which ctx. rewrite Hl, Hcs, Hs, Hcan, elem_of_app. intros [Hin|Hin]; [right|left; by eapply Hc].
      split; [done|]. by repeat (apply elem_of_cons in Hin as [[= _ ->]|Hin]; [done|]); apply not_elem_of_nil in Hin.
    + intros which ctx. rewrite Hl, Hcs. intros Hin. left. right. by eapply Hc.
Qed.

Lemma wp_Close in_time (Q : result unit → runtime → Prop) rt :
  let rt1 := set_started false (cancel rt) in
  (rt_started rt = false ∨ Enabled (n_cfg (rt_node rt)) = false → Q (Ok tt) rt1) →
  (rt_started rt = true → Enabled (n_cfg (rt_node rt)) = true → ∀ r rt2 open,
     rt2 = rt1 ∨ (∃ ctx, rt_cancel rt = Some ctx ∧ rt_done rt = false ∧ rt2 = loop_ends Monitor ctx rt1) →
     shut (owned (rt_handles rt)) (rt_open rt) open →
     Q r (set_open open (rt_next rt) rt2)) →
  wp (Close in_time) Q rt.
Proof.
  intros rt1 H0 H1. apply wp_bind, wp_rt_get, wp_bind, wp_rt_get, wp_bind, wp_rt_modify. fold rt1.
  assert (rt_cancel rt1 = rt_cancel rt ∧ rt_handles rt1 = rt_handles rt ∧ rt_open rt1 = rt_open rt
    ∧ rt_done rt1 = rt_done rt ∧ rt_next rt1 = rt_next rt) as (Hc & Hh & Ho & Hd & Hn).
  { unfold rt1, cancel. by destruct (rt_cancel rt) eqn:Hc; cbn. }
  destruct (rt_started rt) eqn:Hst; cbn [negb orb]; [|apply wp_ret, H0; by left].
  destruct (Enabled _) eqn:Hen; cbn [negb]; [|apply wp_ret, H0; by right].
  apply wp_bind, wp_rt_modify. rewrite Hc, Hd.
  set (rt2 := match rt_cancel rt with Some _ => _ | None => _ end).
  assert (rt2 = rt1 ∨ (∃ ctx, rt_cancel rt = Some ctx ∧ rt_done rt = false ∧ rt2 = loop_ends Monitor ctx rt1)) as Hrt2.
  { unfold rt2. destruct (rt_cancel rt) as [ctx|] eqn:Hcc; [|by left]. destruct (negb (rt_done rt) && in_time) eqn:Hb; [|by left].
    right. exists ctx. bool_simpl. naive_solver. }
  assert (rt_handles rt2 = rt_handles rt ∧ rt_open rt2 = rt_open rt ∧ rt_next rt2 = rt_next rt) as (Hh2 & Ho2 & Hn2).
  { clear -Hrt2 Hh Ho Hn. clearbody rt1 rt2. destruct Hrt2 as [->|(ctx & _ & _ & ->)]; by split_and!. }
  clearbody rt2. apply wp_closeRuntime. rewrite Hh2, Ho2, Hn2. intros r open Hop. by apply H1.
Qed.

Lemma up_closed rt (open : gmap nat resource) :
  up rt → shut (owned (rt_handles rt)) (rt_open rt) open → leftover open.
Proof.
  intros (old & s & t & r & l & v & Hold & _ & _ & _ & _ & _ & _ & Hh & Ho) Hop h x Hx. destruct (Hop h) as [Hkept Hshut].
  destruct (decide (h ∈ owned (rt_handles rt))) as [Hin|Hin]; [by destruct (Hshut Hin x Hx) as (? & ? & _)|].
  rewrite Hkept, Ho in Hx by done. rewrite Hh in Hin. unfold owned in Hin. cbn in Hin. unfold with_two in Hx.
  rewrite !not_elem_of_cons in Hin. destruct Hin as (? & ? & ? & ? & ? & _). rewrite !lookup_insert_ne in Hx by done.
  by eapply Hold.
Qed.

Lemma cancelled_by_cancel rt which ctx :
  (which, ctx) ∈ rt_loops rt → ctx ∈ rt_cancelled rt ∨ rt_started rt = true ∧ rt_cancel rt = Some ctx →
  ctx ∈ rt_cancelled (cancel rt).
Proof. unfold cancel. intros _ [H|[_ ->]]; [destruct (rt_cancel rt); [by right|done]|by left]. Qed.

Lemma monitor_stopped_cfg n : n_cfg (monitor_stopped n) = n_cfg n.
Proof. unfold monitor_stopped, setLeadership. by destruct (_ && _). Qed.

Lemma loop_ends_frame which ctx rt :
  let rt' := loop_ends which ctx rt in
  n_cfg (rt_node rt') = n_cfg (rt_node rt) ∧ rt_started rt' = rt_started rt ∧ rt_cancelled rt' = rt_cancelled rt
  ∧ rt_cancel rt' = rt_cancel rt ∧ rt_open rt' = rt_open rt ∧ rt_handles rt' = rt_handles rt ∧ rt_next rt' = rt_next rt
  ∧ ∀ l, l ∈ rt_loops rt' → l ∈ rt_loops rt.
Proof.
  intros rt'. assert (rt_loops rt' = filter (λ l, l ≠ (which, ctx)) (rt_loops rt)) as Hl.
  { unfold rt', loop_ends. by destruct (bool_decide _). }
  assert (∀ l, l ∈ rt_loops rt' → l ∈ rt_loops rt) as Hin by (intros l; rewrite Hl, list_elem_of_filter; tauto).
  unfold rt', loop_ends in *. destruct (bool_decide _); split_and!; try done. apply monitor_stopped_cfg.
Qed.

Lemma life_ok_Close cfg rt in_time : life_ok cfg rt → life_ok cfg (Close in_time rt).2.
Proof.
  intros Hok. cut (wp (Close in_time) (λ _ rt', life_ok cfg rt') rt); [done|]. destruct Hok as [Hcfg Hfresh Hopen Hloops].
  assert (∀ which ctx, (which, ctx) ∈ rt_loops rt → ctx ∈ rt_cancelled (cancel rt)) as Hc.
  { intros which ctx Hl. eapply cancelled_by_cancel; [exact Hl|by eapply Hloops]. }
  assert (n_cfg (rt_node (cancel rt)) = cfg ∧ rt_next (cancel rt) = rt_next rt ∧ rt_open (cancel rt) = rt_open rt
    ∧ rt_loops (cancel rt) = rt_loops rt) as (Hcc & Hcn & Hco & Hcl).
  { unfold cancel. destruct (rt_cancel rt); by split_and!. }
  apply wp_Close.
  - intros Hoff. constructor; cbn.
    + done.
    + intros h Hh. simpl in Hh |- *. rewrite Hco. apply Hfresh. by rewrite <- Hcn.
    + rewrite Hco. destruct Hoff as [Hst|Hen]; [by rewrite Hst in Hopen|]. rewrite Hcfg in Hen. by rewrite Hen, andb_false_r in Hopen.
    + intros which ctx Hl. left. rewrite Hcl in Hl. by eapply Hc.
  - intros Hst Hen r rt2 open Hrt2 Hclosed. rewrite Hst, <- Hcfg, Hen in Hopen. pose proof (shut_fresh _ rt open Hfresh Hclosed) as Hfresh'.
    apply (up_closed rt open Hopen) in Hclosed.
    assert (n_cfg (rt_node rt2) = cfg ∧ rt_started rt2 = false ∧ rt_cancelled rt2 = rt_cancelled (cancel rt)
      ∧ ∀ l, l ∈ rt_loops rt2 → l ∈ rt_loops rt) as (H1 & H2 & H3 & H4).
    { rewrite <- Hcl. destruct Hrt2 as [->|(ctx & _ & _ & ->)]; [done|].
      destruct (loop_ends_frame Monitor ctx (set_started false (cancel rt))) as (-> & -> & -> & _ & _ & _ & _ & ?). done. }
    constructor; cbn; [done|exact Hfresh'|by rewrite H2|].
    intros which ctx Hl. left. rewrite H3. by eapply Hc, H4.
Qed.

Lemma up_same rt rt' :
  up rt → n_cfg (rt_node rt') = n_cfg (rt_node rt) → rt_open rt' = rt_open rt → rt_handles rt' = rt_handles rt →
  rt_next rt' = rt_next rt → up rt'.
Proof.
  intros (old & s & t & r & l & v & ? & ? & ? & ? & ? & ? & ? & Hh & Ho) Hc' Ho' Hh' Hn'. exists old, s, t, r, l, v.
  rewrite Hc', Ho', Hh', Hn'. by split_and!.
Qed.

Lemma life_ok_loop_ends cfg rt which ctx : life_ok cfg rt → life_ok cfg (loop_ends which ctx rt).
Proof.
  intros [Hcfg Hfresh Hopen Hloops]. destruct (loop_ends_frame which ctx rt) as (H1 & H2 & H3 & H4 & H5 & H6 & H7 & H8).
  constructor; [congruence|..].
  - intros h. rewrite H5, H7. apply Hfresh.
  - rewrite H2. destruct (rt_started rt && Enabled cfg); [by eapply up_same|by rewrite H5].
  - intros which' ctx' Hl. rewrite H2, H3, H4. by eapply Hloops, H8.
Qed.

Lemma life_ok_step cfg rt rt' : life_step rt rt' → life_ok cfg rt → life_ok cfg rt'.
Proof.
  intros [rt1|rt1 in_time|rt1 which ctx _|rt1 n Hn] Hok.
  - by apply life_ok_Start.
  - by apply life_ok_Close.
  - by apply life_ok_loop_ends.
  - destruct Hok as [Hcfg Hfresh Hopen Hloops]. constructor; cbn; [congruence|done| |done].
    destruct (rt_started rt1 && Enabled cfg); [|done]. by eapply up_same.
Qed.

Lemma life_ok_reachable n rt : rtc life_step (new_runtime n) rt → life_ok (n_cfg n) rt.
Proof.
  intros H. remember (new_runtime n) as rt0 eqn:H0. assert (life_ok (n_cfg n) rt0) as Hok by (subst; apply life_ok_new).
  clear H0. induction H as [|rt1 rt2 rt3 Hstep _ IH]; [done|]. by eapply IH, life_ok_step.
Qed.
End rules.

(** ** Theorems *)

(** C18: over any sequence of starts, stops, ends of loops and work, a node that
    is started holds the store, the two listeners, the Raft instance and the
    server, and while it is not started none of them is open and every goroutine
    that still runs has its context cancelled.  A start that fails in whatever
    step closes what it opened and gives its error as reason.  What may stay
    beyond that ([leftover]) are connections of the internal API, and only if a
    [Shutdown] gave up on them; when none does ([drains]), nothing stays. *)
Theorem nothing_left_open (E : env) {P : Peers} {Y : System} (n : Node) (rt rt' : runtime) (r : result unit) :
  rtc (life_step E) (new_runtime n) rt → Start E rt = (r, rt') →
  (rt_started rt = true → Enabled (n_cfg n) = true → up rt)
  ∧ (rt_started rt = false → leftover (rt_open rt) ∧ (drains → rt_open rt = ∅)
     ∧ ∀ which ctx, (which, ctx) ∈ rt_loops rt → ctx ∈ rt_cancelled rt)
  ∧ (r = Ok tt → rt_started rt' = true)
  ∧ ∀ e, r = Err e → rt_started rt' = false ∧ leftover (rt_open rt') ∧ (drains → rt_open rt' = ∅)
     ∧ st_Reason (n_status (rt_node rt')) = e.
Proof.
  intros Hreach%life_ok_reachable Hstart. pose proof (Start_cases E _ _ _ _ Hreach Hstart) as Hcases.
  destruct Hreach as [_ _ Hopen Hloops]. split_and!.
  - intros Hst Hen. by rewrite Hst, Hen in Hopen.
  - intros Hst. rewrite Hst in Hopen. split_and!; [done|by apply leftover_drained|]. intros which ctx Hl.
    destruct (Hloops which ctx Hl) as [|[? _]]; [done|congruence].
  - intros ->. destruct Hcases as [(? & _ & ->)|[(_ & _ & _ & ->)|(_ & _ & _ & [(ex & _ & ? & _)|(e & ? & _)])]]; done.
  - intros e ->. destruct Hcases as [(_ & ? & _)|[(_ & _ & ? & _)|(_ & _ & _ & [(ex & ? & _)|Hfail])]]; [done..|].
    destruct Hfail as (e' & [= <-] & ? & ? & _ & _ & ?). split_and!; [done|done|by apply leftover_drained|done].
Qed.

(** A system in which everything works and the files are new. *)
Definition ex_system : System := {|
  NewBoltStore path rt := Ok tt;
  NewFileSnapshotStore dir retain rt := Ok tt;
  net_Listen addr rt := Ok tt;
  ResolveTCPAddr addr rt := Ok tt;
  HasExistingState rt := Ok false;
  BootstrapCluster config servers rt := Ok tt;
  ErrCantBootstrap := "bootstrap only works on new clusters";
  NewRaft config f d := (Ok (ex_follower, f), d);
  DefaultLeaderLeaseTimeout := (500 * millisecond)%Z;
  close_reports h rt := Ok tt;
|}.

(** A node before its first start. *)
Definition ex_new (cfg : Config) : Node :=
  let n := ex_node cfg ex_follower ex_fsm in
  mkNode cfg (n_status n) None None None false ∅ (n_leadership n) None ∅ (n_peers n) ∅ 0 (n_capabilities n)
    (n_now n) (n_disk n) (n_files n) [].

(** The same, but requests of the internal API outlast every [Shutdown]. *)
Definition ex_busy : System := {|
  NewBoltStore path rt := Ok tt;
  NewFileSnapshotStore dir retain rt := Ok tt;
  net_Listen addr rt := Ok tt;
  ResolveTCPAddr addr rt := Ok tt;
  HasExistingState rt := Ok false;
  BootstrapCluster config servers rt := Ok tt;
  ErrCantBootstrap := "bootstrap only works on new clusters";
  NewRaft config f d := (Ok (ex_follower, f), d);
  DefaultLeaderLeaseTimeout := (500 * millisecond)%Z;
  close_reports h rt :=
    if bool_decide (h_server (rt_handles rt) = Some h) then Err context_DeadlineExceeded else Ok tt;
|}.

(** The example node after a start, and after the stop that follows. *)
Definition ex_up (Y : System) : runtime := (Start (P := ex_peers) (Y := Y) calm (new_runtime (ex_new ex_config))).2.
Definition ex_down (Y : System) : runtime := (Close (Y := Y) true (ex_up Y)).2.

Lemma ex_down_reachable Y : rtc (life_step (P := ex_peers) (Y := Y) calm) (new_runtime (ex_new ex_config)) (ex_down Y).
Proof. eapply rtc_l; [apply life_start|]. apply rtc_once, life_close. Qed.

(** [Close] returns with the requests of the internal API still running, and
    nothing closes their connections afterwards. *)
Lemma connections_outlive_close : map_to_list (rt_open (ex_down ex_busy)) = [(5, APIConnections)].
Proof. vm_compute. reflexivity. Qed.

Lemma nothing_left_open_witness :
  up (Y := ex_system) (ex_up ex_system) ∧ rt_open (ex_down ex_system) = ∅
  ∧ leftover (Y := ex_busy) (rt_open (ex_down ex_busy)).
Proof.
  assert (drains (Y := ex_system)) as Hdrains by (intros h rt; discriminate).
  split_and!.
  - refine (proj1 (nothing_left_open (P := ex_peers) (Y := ex_system) calm (ex_new ex_config) (ex_up ex_system) _ _
      (rtc_once _ _ (life_start _ _)) (surjective_pairing _)) _ _); vm_compute; reflexivity.
  - refine (proj1 (proj2 (proj1 (proj2 (nothing_left_open (P := ex_peers) (Y := ex_system) calm (ex_new ex_config)
      (ex_down ex_system) _ _ (ex_down_reachable _) (surjective_pairing _))) _)) Hdrains). vm_compute. reflexivity.
  - refine (proj1 (proj1 (proj2 (nothing_left_open (P := ex_peers) (Y := ex_busy) calm (ex_new ex_config)
      (ex_down ex_busy) _ _ (ex_down_reachable _) (surjective_pairing _))) _)). vm_compute. reflexivity.
Defined.

(** C32: a start that succeeds bootstraps a cluster only if the node has no state
    and was not told to join, and then with exactly the initial members as
    voters; a node told to join that has no state waits to be joined; and the
    instance runs on the machine that carries the fault on record, if any. *)
Theorem Start_boots (E : env) {P : Peers} {Y : System} (n : Node) (rt rt' : runtime) :
  rtc (life_step E) (new_runtime n) rt → rt_started rt = false → Enabled (n_cfg n) = true →
  Start E rt = (Ok tt, rt') →
  ∃ existing, raft_boot E rt rt' existing.
Proof.
  intros Hreach%life_ok_reachable Hst Hen Hstart.
  destruct (Start_cases E _ _ _ _ Hreach Hstart) as [(? & _)|[(_ & ? & _)|(_ & _ & [_ [(ex & _ & _ & _ & _ & _ & H)|(e & ? & _)]])]];
    [congruence|congruence|by exists ex|done].
Qed.

(** [NewRaft] drives the machine by a snapshot, if there is one, and by entries. *)
Class SystemLaws (Y : System) (E : env) := {
  NewRaft_drives config f d view f' d' : NewRaft config f d = (Ok (view, f'), d') →
    ∃ f1 d1 log, (f1 = f ∧ d1 = d ∨ ∃ data, Restore E data f d = ((Ok tt, f1), d1))
      ∧ run E log f1 d1 = (f', d');
}.

Lemma Restore_faulted E data f d f' d' : faulted f → Restore E data f d = ((Ok tt, f'), d') → faulted f'.
Proof.
  intros Hf. unfold Restore. destruct (match data with Some j => _ | None => None end) as [s|]; [|done].
  destruct (negb _); [done|]. cbn [ms_ApplyFault set_gate set_state_fault].
  destruct (cloneFSMApplyFaultPtr (ms_ApplyFault s)) as [fault|] eqn:Hclone.
  - destruct (persistFSMApplyFault _ _ _ _). intros [= <- <-]. unfold cloneFSMApplyFaultPtr in Hclone.
    destruct (ms_ApplyFault s) as [fault'|]; [|done]. destruct (str_eqb (ff_Error fault') "") eqn:He; [done|].
    injection Hclone as <-. unfold faulted. cbn. by bool_simpl.
  - destruct (ApplyFault f) as [fault b]. by intros [= <- <-].
Qed.

(** What reading the marker file makes of a machine without a fault. *)
Lemma configure_faulted E path f d f' d' data synced fault :
  (∀ t e, io_fault E t = Some e → IsNotExist e = false) →
  w_vol d !! path = Some (mkFile data synced) →
  Unmarshal dec_FSMApplyFault (fsm_applyFault f) data = Some fault → ff_Error fault ≠ "" →
  configureApplyFaultFile E path f d = (Ok f', d') → faulted f'.
Proof.
  intros HE Hfile Hdec Herr. unfold configureApplyFaultFile, read_file, sys.
  destruct (io_fault E (w_ticks d)) as [e|] eqn:Hio; [by rewrite (HE _ _ Hio)|].
  cbn [w_vol]. rewrite Hfile. cbn [f_data fsm_applyFault]. rewrite Hdec. unfold cloneFSMApplyFaultPtr.
  rewrite str_eqb_neq by done. by intros [= <- <-].
Qed.

(** a node with a fault on record starts halted: whatever Raft restores and
    applies while the instance starts, and whatever the node does afterwards,
    its machine has a fault and it never holds business leadership. *)
Theorem faulted_start_halts (E : env) {P : Peers} {Y : System} `{!SystemLaws Y E} (n : Node) (rt rt' : runtime)
    (data : option json) (synced : bool) (fault : FSMApplyFault) (n' : Node) (now : time) :
  (∀ t e, io_fault E t = Some e → IsNotExist e = false) →
  rtc (life_step E) (new_runtime n) rt → rt_started rt = false → Enabled (n_cfg n) = true →
  w_vol (n_disk (rt_node rt)) !! fault_marker (n_cfg n) = Some (mkFile data synced) →
  Unmarshal dec_FSMApplyFault (mkFSMApplyFault 0 "") data = Some fault → ff_Error fault ≠ "" →
  Start E rt = (Ok tt, rt') → evolves E (rt_node rt') n' →
  (∃ f, n_fsm n' = Some f ∧ faulted f) ∧ is_ok (checkLocalBusinessLeadership now n') = false.
Proof.
  intros HE Hreach%life_ok_reachable Hst Hen Hfile Hdec Herr Hstart Hev.
  assert (∃ f, n_fsm (rt_node rt') = Some f ∧ faulted f) as (f & Hf & Hfault).
  { destruct (Start_cases E _ _ _ _ Hreach Hstart) as [(? & _)|[(_ & ? & _)|(_ & _ & [_ [(ex & _ & _ & _ & _ & _ & H)|(e & ? & _)]])]];
      [congruence|congruence| |done].
    destruct H as [_ _ _ (f0 & d0 & d1 & view & f & Hd0 & Hconf & Hnew & _ & Hf) _].
    exists f. split; [done|]. rewrite (lo_cfg _ _ Hreach) in Hconf. rewrite <- Hd0 in Hfile.
    pose proof (configure_faulted E _ (fresh_fsm (rt_node rt)) _ _ _ _ _ _ HE Hfile Hdec Herr Hconf) as H0.
    destruct (NewRaft_drives _ _ _ _ _ _ Hnew) as (f1 & d2 & log & Hf1 & Hrun).
    pose proof (λ H, proj1 (run_faulted E log f1 d2 H)) as H2. rewrite Hrun in H2. apply H2.
    destruct Hf1 as [[-> _]|(s & Hs)]; [done|by eapply Restore_faulted]. }
  pose proof (ev_fsm _ _ _ Hev) as Hrun. rewrite Hf in Hrun. destruct Hrun as (log & f1 & Hf1 & Hrun & _).
  pose proof (run_faulted E log f (n_disk (rt_node rt')) Hfault) as [H1 _]. rewrite Hrun in H1. cbn [fst] in H1.
  split; [by exists f1|]. unfold checkLocalBusinessLeadership. rewrite Hf1. apply ApplyFault_faulted in H1.
  destruct (n_raft n') as [v|]; [|done]. destruct (negb _); [done|]. by rewrite H1.
Qed.

(** a node is good for one life: once the monitor of a first start has ended,
    the next start that succeeds ends in a panic, of [Start] itself where
    clustering is disabled and else of the monitor when it ends, since both close
    a channel that is closed already. *)
Theorem restart_panics (E : env) {P : Peers} {Y : System} (n : Node) (rt rt' : runtime) :
  rtc (life_step E) (new_runtime n) rt → rt_started rt = false → rt_done rt = true →
  Start E rt = (Ok tt, rt') →
  (Enabled (n_cfg n) = false → rt_crashed rt' = true)
  ∧ (Enabled (n_cfg n) = true → (Monitor, rt_next rt) ∈ rt_loops rt' ∧ rt_crashed (loop_ends Monitor (rt_next rt) rt') = true).
Proof.
  intros Hreach%life_ok_reachable Hst Hdone Hstart.
  destruct (Start_cases E _ _ _ _ Hreach Hstart) as [(? & _)|[(_ & Hen & _ & ->)|(_ & Hen & [Hsf [(ex & _ & _ & _ & Hl & _)|(e & ? & _)]])]];
    [congruence| | |done].
  - rewrite Hen. split; [|done]. intros _. cbn. by rewrite Hdone, orb_true_r.
  - rewrite Hen. split; [done|]. intros _. rewrite Hl. split; [by left|].
    unfold loop_ends. rewrite bool_decide_eq_true_2 by done. cbn. by rewrite (sf_done _ _ Hsf), Hdone, orb_true_r.
Qed.

(** The example node after one life. *)
Definition ex_lived (cfg : Config) : runtime :=
  (Close (Y := ex_system) true (Start (P := ex_peers) (Y := ex_system) calm (new_runtime (ex_new cfg))).2).2.

Lemma ex_lived_reachable cfg : rtc (life_step (P := ex_peers) (Y := ex_system) calm) (new_runtime (ex_new cfg)) (ex_lived cfg).
Proof. eapply rtc_l; [apply life_start|]. apply rtc_once, life_close. Qed.

Lemma restart_panics_witness :
  let rt' := (Start (P := ex_peers) (Y := ex_system) calm (ex_lived ex_config)).2 in
  rt_crashed rt' = false ∧ rt_crashed (loop_ends Monitor (rt_next (ex_lived ex_config)) rt') = true.
Proof.
  intros rt'. split; [vm_compute; reflexivity|].
  refine (proj2 (proj2 (restart_panics (P := ex_peers) (Y := ex_system) calm (ex_new ex_config) (ex_lived ex_config) rt'
    (ex_lived_reachable _) _ _ (pair_eq _ _ _)) _)); vm_compute; reflexivity.
Defined.

Lemma Start_boots_witness :
  let rt' := (Start (P := ex_peers) (Y := ex_system) calm (new_runtime (ex_new ex_config))).2 in
  ∃ existing, raft_boot (Y := ex_system) calm (new_runtime (ex_new ex_config)) rt' existing.
Proof.
  intros rt'. refine (Start_boots (P := ex_peers) (Y := ex_system) calm (ex_new ex_config) (new_runtime (ex_new ex_config)) rt'
    (rtc_refl _ _) _ _ (pair_eq _ _ _)); vm_compute; reflexivity.
Defined.

#[export] Instance ex_system_laws : SystemLaws ex_system calm.
Proof. split. intros config f d view f' d' [= _ <- <-]. exists f, d, []. split; [by left|done]. Qed.

(** The example node with a fault on record. *)
Definition ex_marked : Node :=
  let n := ex_new ex_config in
  set_raft None None (n_now n) (mkWorld {[ fault_marker ex_config := mkFile (Some (enc_FSMApplyFault (mkFSMApplyFault 4 "decode command: %v"))) true ]} ∅ ∅ 0) n.

Lemma faulted_start_halts_witness :
  let rt' := (Start (P := ex_peers) (Y := ex_system) calm (new_runtime ex_marked)).2 in
  ∃ f, n_fsm (rt_node rt') = Some f ∧ faulted f.
Proof.
  intros rt'. refine (proj1 (faulted_start_halts (P := ex_peers) (Y := ex_system) calm ex_marked (new_runtime ex_marked) rt'
    (Some (enc_FSMApplyFault (mkFSMApplyFault 4 "decode command: %v"))) true (mkFSMApplyFault 4 "decode command: %v")
    (rt_node rt') ex_now _ (rtc_refl _ _) _ _ _ _ _ (pair_eq _ _ _) (reflexivity _))); try (vm_compute; reflexivity); discriminate.
Defined.
