(* ===== verification/Loops.v ===== *)
(** * Loops: the background goroutines of a node (monitor, watchRaftLeadership,
    snapshotMaintenance, membershipMaintenance of node.go)

    Each loop waits for its context, for a tick or for Raft's leader channel and
    then runs one operation.  [loop_entry] is what a loop does before it first
    waits, [loop_wake] what it does when it wakes up, and whether it returns.
    [loops_step] lets all loops, the callers of the API and Raft take turns.
    The rounds of the loops are taken whole, like the operations of [Runs];
    [Overlap] looks into them.  The gate that tests hang on the membership loop
    is nil in a running node. *)
From S2P Require Import Prelude Text Io Sha256 Json GoTime Duration Config Peers Capability Manifest.
From S2P Require Import BlobStore BlobStoreSpec Fsm FsmProofs Node Leadership NodeProofs LeadershipProofs LeadershipSpec Examples.
From S2P Require Import Membership MembershipProofs Publish PublishProofs PublishSpec Reads ReadsSpec Http HttpSpec Runs RunsSpec Lifecycle.
From stdpp Require Import options.
#[local] Open Scope io_scope.

(** ** Ticks *)

Definition millisecond : duration := (1000000)%Z.

(** The interval of the monitor's ticker: integer division of [time.Duration]. *)
Definition tickerInterval (cfg : Config) : duration :=
  let interval := Z.quot (MaxQuorumVerificationAge cfg) 3 in
  if (interval <? 100 * millisecond)%Z then (100 * millisecond)%Z else interval.

(** What a [select] of a loop receives. *)
Inductive wake : Type :=
| Done                        (** the context is done *)
| Tick                        (** the ticker fired *)
| LeaderCh (isLeader : bool)  (** a value of Raft's leader channel *)
| LeaderChClosed.

Section loops.
Context (E : env) {R : Raft} {P : Peers} (polls : nat).

(** Each loop: the node after it has entered, or has handled what it received,
    and whether it has returned.  A loop that gets what is not in its [select]
    does not wake up. *)
Definition monitor_entry (n : Node) : Node * bool := ((refreshStatus E false n).2, false).

Definition monitor (w : wake) (n : Node) : Node * bool :=
  match w with
  | Done => (monitor_stopped n, true)
  | Tick => ((refreshStatus E true n).2, false)
  | _ => (n, false)
  end.

Definition watchRaftLeadership_entry (n : Node) : Node * bool :=
  (n, match n_raft n with None => true | Some _ => false end).

Definition watchRaftLeadership (w : wake) (n : Node) : Node * bool :=
  match w with
  | Done => (n, true)
  | LeaderChClosed => (n, true)
  | LeaderCh isLeader => (if isLeader then n else raft_leadership_lost n, false)
  | Tick => (n, false)
  end.

Definition snapshotMaintenance_entry (n : Node) : Node * bool := ((snapshot_round E n).2, false).

Definition snapshotMaintenance (w : wake) (n : Node) : Node * bool :=
  match w with
  | Done => (n, true)
  | Tick => ((snapshot_round E n).2, false)
  | _ => (n, false)
  end.

Definition membershipMaintenance (ctx : context) (w : wake) (n : Node) : Node * bool :=
  match w with
  | Done => (n, true)
  | Tick => ((membership_tick polls ctx n).2, false)
  | _ => (n, false)
  end.

Definition loop_entry (which : loop) (n : Node) : Node * bool :=
  match which with
  | Monitor => monitor_entry n
  | WatchRaftLeadership => watchRaftLeadership_entry n
  | SnapshotMaintenance => snapshotMaintenance_entry n
  | MembershipMaintenance => (n, false)
  end.

Definition loop_wake (which : loop) (ctx : context) (w : wake) (n : Node) : Node * bool :=
  match which with
  | Monitor => monitor w n
  | WatchRaftLeadership => watchRaftLeadership w n
  | SnapshotMaintenance => snapshotMaintenance w n
  | MembershipMaintenance => membershipMaintenance ctx w n
  end.

(** A node with the loops that run on it and the loops still to enter. *)
Record looping := mkLooping { lp_node : Node; lp_entering : list loop; lp_waiting : list loop }.

Inductive loops_step (ctx : context) : looping → looping → Prop :=
| step_enter n l1 which l2 waiting :
    loops_step ctx (mkLooping n (l1 ++ which :: l2) waiting)
      (let '(n', returned) := loop_entry which n in
       mkLooping n' (l1 ++ l2) (if returned then waiting else which :: waiting))
| step_wake n entering l1 which l2 w :
    loops_step ctx (mkLooping n entering (l1 ++ which :: l2))
      (let '(n', returned) := loop_wake which ctx w n in
       mkLooping n' entering (if returned then l1 ++ l2 else l1 ++ which :: l2))
| step_call n entering waiting op :
    loops_step ctx (mkLooping n entering waiting) (mkLooping (perform E polls op n) entering waiting)
| step_raft n n' entering waiting :
    moves E n n' ∨ installs E n n' → loops_step ctx (mkLooping n entering waiting) (mkLooping n' entering waiting).

End loops.

(** ** The loops are runs *)

Section refinement.
Context (E : env) {R : Raft} {P : Peers} (polls : nat).

Lemma run_perform op n : rtc (run_step E polls true) n (perform E polls op n).
Proof. apply rtc_once. constructor. Qed.

Lemma entry_runs which n : rtc (run_step E polls true) n (loop_entry E which n).1.
Proof.
  destruct which; simpl; try done.
  - apply (run_perform (OpMonitor false)).
  - apply (run_perform OpSnapshotRound).
Qed.

Lemma wake_runs which ctx w n : rtc (run_step E polls true) n (loop_wake E polls which ctx w n).1.
Proof.
  destruct which, w as [| |[]|]; simpl; try done.
  - apply (run_perform OpMonitorStopped).
  - apply (run_perform (OpMonitor true)).
  - apply (run_perform OpRaftLeadershipLost).
  - apply (run_perform OpSnapshotRound).
  - apply (run_perform (OpMembershipTick ctx)).
Qed.

Lemma loops_step_runs ctx s s' : loops_step E polls ctx s s' → rtc (run_step E polls true) (lp_node s) (lp_node s').
Proof.
  intros [n l1 which l2 waiting|n entering l1 which l2 w|n entering waiting op|n n' entering waiting Hm]; simpl.
  - pose proof (entry_runs which n) as H. by destruct (loop_entry E which n).
  - pose proof (wake_runs which ctx w n) as H. by destruct (loop_wake E polls which ctx w n).
  - apply run_perform.
  - apply rtc_once. destruct Hm; by constructor.
Qed.

Lemma loops_run ctx s s' : rtc (loops_step E polls ctx) s s' → rtc (run_step E polls true) (lp_node s) (lp_node s').
Proof. induction 1 as [s|s1 s2 s3 H _ IH]; [done|]. etrans; [by eapply loops_step_runs|done]. Qed.

End refinement.

(** ** The pace of the monitor *)

Lemma tickerInterval_small cfg :
  (0 < MaxQuorumVerificationAge cfg < 300 * millisecond)%Z → tickerInterval cfg = (100 * millisecond)%Z.
Proof.
  intros [H0 H1]. unfold tickerInterval. rewrite Z.quot_div_nonneg by lia.
  assert (MaxQuorumVerificationAge cfg / 3 < 100 * millisecond)%Z as Hlt by (apply Z.div_lt_upper_bound; lia).
  by rewrite (proj2 (Z.ltb_lt _ _) Hlt).
Qed.

Lemma tickerInterval_large cfg :
  (300 * millisecond ≤ MaxQuorumVerificationAge cfg)%Z →
  tickerInterval cfg = (MaxQuorumVerificationAge cfg / 3)%Z.
Proof.
  intros H. unfold tickerInterval. rewrite Z.quot_div_nonneg by (unfold millisecond in H; lia).
  assert (100 * millisecond ≤ MaxQuorumVerificationAge cfg / 3)%Z as Hle by (apply Z.div_le_lower_bound; lia).
  by rewrite (proj2 (Z.ltb_ge _ _) Hle).
Qed.

Lemma tickerInterval_within cfg :
  (0 < MaxQuorumVerificationAge cfg)%Z →
  (tickerInterval cfg ≤ MaxQuorumVerificationAge cfg)%Z ↔ (100 * millisecond ≤ MaxQuorumVerificationAge cfg)%Z.
Proof.
  intros H0. destruct (decide (MaxQuorumVerificationAge cfg < 300 * millisecond)%Z).
  - by rewrite tickerInterval_small.
  - rewrite tickerInterval_large by lia. unfold millisecond in *. split; [lia|].
    intros _. apply Z.div_le_upper_bound; lia.
Qed.

(** C29: A business leader that nothing changes is still one at the next tick of
    its monitor, when the verification is renewed, exactly if the configured
    maximum age of a verification is at least 100 milliseconds; below that,
    which the configuration allows, its leadership lapses between any two
    ticks. *)
Theorem leadership_until_next_tick (n : Node) :
  (0 < MaxQuorumVerificationAge (n_cfg n) ≤ i64_max)%Z →
  let v := st_QuorumVerifiedAt (n_status n) in
  checkLocalBusinessLeadership v n = Ok tt →
  is_ok (checkLocalBusinessLeadership (time_Add v (tickerInterval (n_cfg n))) n)
  = bool_decide (100 * millisecond ≤ MaxQuorumVerificationAge (n_cfg n))%Z.
Proof.
  intros Hage v Hlead.
  assert (time_Sub (time_Add v (tickerInterval (n_cfg n))) v = tickerInterval (n_cfg n)) as Hsub.
  { unfold time_Sub, time_Add. simpl. assert (0 < tickerInterval (n_cfg n) ≤ i64_max)%Z.
    { destruct (decide (MaxQuorumVerificationAge (n_cfg n) < 300 * millisecond)%Z).
      - rewrite tickerInterval_small by lia. unfold millisecond, i64_max. lia.
      - rewrite tickerInterval_large by lia. unfold millisecond in *. split.
        + apply Z.div_str_pos. lia.
        + transitivity (MaxQuorumVerificationAge (n_cfg n)); [|lia]. apply Z.div_le_upper_bound; lia. }
    unfold i64_min, i64_max in *. lia. }
  unfold checkLocalBusinessLeadership in *. destruct (n_raft n) as [r|], (n_fsm n) as [f|]; try done.
  destruct (negb (rv_IsLeader r)); [done|]. destruct ((ApplyFault f).2); [done|].
  destruct (negb (SupportsGate _ _ _)); [done|]. destruct (_ || negb (_ =? stat r "term")%N); [done|].
  destruct (_ || _) eqn:Hbad in Hlead; [done|]. fold v in Hbad |- *. apply orb_false_iff in Hbad as [Hbad _].
  rewrite Hbad, Hsub. cbn [orb].
  rewrite <- (bool_decide_ext _ _ (tickerInterval_within (n_cfg n) ltac:(lia))).
  destruct (_ <? _)%Z eqn:Hlt; bool_simpl; [by rewrite bool_decide_eq_false_2 by lia|by rewrite bool_decide_eq_true_2].
Qed.

(** Leaders whose verifications last two seconds, the default, and 50 ms. *)
Definition ex_aged (age : duration) : Node :=
  updateCachedLeadership true 1 "" (ex_node (NormalizeConfig (mkConfig true "c" "n1" "" "0.0.0.0:7000" "h1:7000"
    "0.0.0.0:7443" "https://h1:7443" "/data" 3 false ["n1=h1:7000"; "n2=h2:7000|https://h2:7443"; "n3=h3:7000"]
    ["admin"] "" 0 age false 0 0 0 0 0 "" 0 0 0 0 0 (mkTLSConfig true "ca" "crt" "key" ""))) ex_leader ex_fsm).

Lemma leadership_until_next_tick_witness :
  let slow := ex_aged 0 in let fast := ex_aged (50 * millisecond) in
  is_ok (ValidateConfig witness_parse (n_cfg fast)) = true
  ∧ is_ok (checkLocalBusinessLeadership (time_Add (n_now slow) (tickerInterval (n_cfg slow))) slow) = true
  ∧ is_ok (checkLocalBusinessLeadership (time_Add (n_now fast) (tickerInterval (n_cfg fast))) fast) = false.
Proof.
  intros slow fast. split_and!; [vm_compute; reflexivity|..].
  - refine (eq_trans (leadership_until_next_tick slow _ eq_refl) _); [split; [reflexivity|vm_compute; discriminate]|reflexivity].
  - refine (eq_trans (leadership_until_next_tick fast _ eq_refl) _); [split; [reflexivity|vm_compute; discriminate]|reflexivity].
Defined.

(** ** The loops of a node *)

Section loops_of_a_node.
Context (E : env) {R : Raft} {P : Peers} (polls : nat).

Lemma loops_step_shrink ctx s s' :
  loops_step E polls ctx s s' → lp_entering s' ++ lp_waiting s' ⊆+ lp_entering s ++ lp_waiting s.
Proof.
  intros [n l1 which l2 waiting|n entering l1 which l2 w|n entering waiting op|n n' entering waiting Hm]; simpl; [..|done|done].
  - destruct (loop_entry E which n) as [n' []]; simpl.
    + apply submseteq_app; [|done]. apply submseteq_app; [done|]. by apply submseteq_cons.
    + apply Permutation_submseteq. solve_Permutation.
  - destruct (loop_wake E polls which ctx w n) as [n' []]; simpl; [|done].
    apply submseteq_app; [done|]. apply submseteq_app; [done|]. by apply submseteq_cons.
Qed.

Lemma loops_shrink ctx s s' :
  rtc (loops_step E polls ctx) s s' → lp_entering s' ++ lp_waiting s' ⊆+ lp_entering s ++ lp_waiting s.
Proof. induction 1 as [s|s1 s2 s3 H _ IH]; [done|]. etrans; [exact IH|by eapply loops_step_shrink]. Qed.

Lemma enter_all ctx entering : ∀ n waiting, ∃ n' waiting',
  rtc (loops_step E polls ctx) (mkLooping n entering waiting) (mkLooping n' [] waiting')
  ∧ (Monitor ∈ entering ++ waiting → Monitor ∈ waiting').
Proof.
  induction entering as [|which entering IH]; intros n waiting; [by exists n, waiting|].
  pose proof (step_enter E polls ctx n [] which entering waiting) as Hstep. simpl in Hstep.
  destruct (loop_entry E which n) as [n1 returned] eqn:He.
  destruct (IH n1 (if returned then waiting else which :: waiting)) as (n' & waiting' & Hr & Hm).
  exists n', waiting'. split; [by eapply rtc_l|]. intros Hin. apply Hm.
  change (Monitor ∈ which :: (entering ++ waiting)) in Hin. apply elem_of_cons in Hin. destruct returned.
  - destruct Hin as [<-|Hin]; [by injection He|done].
  - rewrite elem_of_app, elem_of_cons. rewrite elem_of_app in Hin. tauto.
Qed.

Lemma finish_all ctx waiting : ∀ n, ∃ n',
  rtc (loops_step E polls ctx) (mkLooping n [] waiting) (mkLooping n' [] [])
  ∧ (Monitor ∈ waiting ∨ le_Active (n_leadership n) = false → le_Active (n_leadership n') = false).
Proof.
  induction waiting as [|which waiting IH]; intros n.
  { exists n. split; [done|]. intros [H|H]; [by apply not_elem_of_nil in H|done]. }
  pose proof (step_wake E polls ctx n [] [] which waiting Done) as Hstep. simpl in Hstep.
  destruct (IH (loop_wake E polls which ctx Done n).1) as (n' & Hr & Hi). exists n'. split.
  - eapply rtc_l; [|exact Hr]. by destruct which.
  - intros H. apply Hi. destruct which; simpl.
    + right. unfold monitor_stopped. by rewrite setLeadership_event.
    + destruct H as [H|H]; [left|by right]. by apply elem_of_cons in H as [|].
    + destruct H as [H|H]; [left|by right]. by apply elem_of_cons in H as [|].
    + destruct H as [H|H]; [left|by right]. by apply elem_of_cons in H as [|].
Qed.


(** *** What each loop does when it wakes up *)

Context `{!RaftLaws R E, !PeersLaws P E}.

(** The tick of the monitor verifies: an event that says leader rests on a
    verification and a barrier made in this very tick. *)
Definition tick_verifies (r : raft_view) (n n' : Node) : Prop :=
  event_agrees n' ∧ (le_Active (n_leadership n') = true →
    rv_IsLeader r = true ∧ confirmed n n'
    ∧ ∃ state, ms_LeaderOwner state = NodeID (n_cfg n) ∧ le_Epoch (n_leadership n') = ms_LeaderEpoch state).

Lemma monitor_tick r f n : n_raft n = Some r → n_fsm n = Some f → tick_verifies r n (monitor E Tick n).1.
Proof using RaftLaws0.
  intros Hr Hf. cbn [monitor fst]. pose proof (wp_refresh_event E true n r f Hr Hf) as H. unfold wp in H.
  destruct H as [Ha Hp]. split; [exact Ha|]. intros He. destruct (Hp He) as (Hl & state & at_ & Hep & [Ho Hv _]).
  split_and!; [done|by apply Hv|by exists state].
Qed.

(** The loss of Raft's leadership: the node stops leading at once and tells its
    subscribers. *)
Definition lost_at_once (n n' : Node) : Prop :=
  le_Active (n_leadership n') = false ∧ (∀ t, is_ok (checkLocalBusinessLeadership t n') = false)
  ∧ (le_Active (n_leadership n) = true →
     n_subs n' = deliver (mkLeadershipEvent false 0 "raft leadership lost") <$> n_subs n).

Lemma leadership_lost n : lost_at_once n (raft_leadership_lost n).
Proof using Type.
  unfold lost_at_once, raft_leadership_lost. rewrite setLeadership_event. split_and!; [done| |].
  - intros t. destruct (checkLocalBusinessLeadership t _) as [[]|] eqn:Hc; [|done].
    apply checkLocal_leads in Hc as (rv & f & Hl). pose proof (ld_quorum _ _ _ _ Hl) as Hq.
    by rewrite setLeadership_status in Hq.
  - intros Ha. unfold setLeadership. change (n_leadership (updateCachedLeadership _ _ _ n)) with (n_leadership n).
    by rewrite Ha.
Qed.

(** A round of the snapshot loop fetches what is missing of the active snapshot, and
    collects what no snapshot needs any more. *)
Definition round_repairs (root : string) (n n' : Node) : Prop :=
  ∃ n1, evolves E n n1
  ∧ ((∀ t, io_fault E t = None) → internalHTTPClient n = Ok tt → ∀ m voters, ActiveSnapshot n = Some m → voterServers n = Ok voters →
      (∀ h, h ∈ manifestBlobHashes m → has_blob root (n_files n) h ∨ available voters n h) →
      ∀ h, h ∈ manifestBlobHashes m → has_blob root (n_files n1) h)
  ∧ (∀ h, needed n1 h → has_blob root (n_files n1) h → has_blob root (n_files n') h)
  ∧ ((∀ t, io_fault E t = None) → ∀ h, has_blob root (n_files n') h →
      is_Some (n_stagingBlobs n1 !! h)
      ∨ ∃ k m, ms_Snapshots (Metadata n1) !! k = Some m ∧ may_keep n1 m ∧ manifest_blob m h).

Lemma pull_from_ends voters h n : (pull_from E voters h n).1 = Ok tt.
Proof using Type.
  revert n. induction voters as [|v voters IH]; intros n; cbn [pull_from]; [done|].
  unfold io_bind at 1, get. cbn [id]. destruct (str_eqb _ _); [apply IH|].
  unfold io_bind at 1, io_try. destruct (pullBlobFromPeer _ _ _ _) as [r n1]. destruct (is_ok r); [done|apply IH].
Qed.

Lemma sync_blobs_ends voters hashes n : (sync_blobs E voters hashes n).1 = Ok tt.
Proof using Type.
  revert n. induction hashes as [|h hashes IH]; intros n; cbn [sync_blobs]; [done|].
  unfold io_bind at 1, get. cbn [id].
  assert (∀ missing n1, ((run! (if missing : bool then pull_from E voters h else io_ret tt) in sync_blobs E voters hashes) n1).1 = Ok tt) as Hrest.
  { intros missing n1. unfold io_bind. pose proof (pull_from_ends voters h n1) as Hp.
    destruct missing; [|apply IH]. destruct (pull_from E voters h n1) as [r n2]. cbn [fst] in Hp. subst r. apply IH. }
  unfold io_bind at 1. destruct (n_blobStore n); [|apply Hrest].
  unfold io_bind at 1, io_try. destruct (with_store _ n) as [v n1]. apply Hrest.
Qed.

Lemma sync_ends n : (syncActiveSnapshot E n).1 = Ok tt.
Proof using Type.
  unfold syncActiveSnapshot, io_bind at 1, get. cbn [id]. destruct (ActiveSnapshot n) as [m|]; [|done].
  unfold io_bind at 1, io_try at 1. destruct (verifyManifestBlobs E m n) as [v n1]. destruct (is_ok v); [done|].
  unfold io_bind, io_try. destruct (voterServers n1); [apply sync_blobs_ends|done].
Qed.

Lemma snapshot_tick root n : n_blobStore n = Some root → round_repairs root n (snapshotMaintenance E Tick n).1.
Proof using RaftLaws0 PeersLaws0.
  intros Hroot. cbn [snapshotMaintenance fst]. unfold snapshot_round, io_bind.
  pose proof (evolving_syncActiveSnapshot E n) as Hev. pose proof (sync_ends n) as Hok. unfold wp in Hev.
  pose proof (λ m voters H1 H2 H3 H4 H5, wp_syncActiveSnapshot E root m voters n H1 Hroot H2 H3 H4 H5) as Hsync.
  unfold wp in Hsync. destruct (syncActiveSnapshot E n) as [res n1]. cbn [fst snd] in *. subst res.
  assert (n_blobStore n1 = Some root) as Hroot1 by by rewrite (sn_blobStore _ _ (ev_same _ _ _ Hev)).
  destruct (gcSnapshotBlobs E n1) as [res n2] eqn:Hgc. apply (gc_exact E root) in Hgc as (_ & Hkeep & Hgone); [|done].
  exists n1. split_and!; [done| |exact Hkeep|exact Hgone].
  intros HE Hclient m voters Hactive Hvoters Hall h Hh. apply (Hsync m voters); auto.
Qed.

(** The tick of the membership loop works on the recorded operation only as a leader,
    which it verifies first, and asks Raft only for changes that are justified. *)
Definition tick_reconciles (n n' : Node) : Prop :=
  (HasBusinessLeadership n = false → n' = n)
  ∧ (HasBusinessLeadership n = true → ∃ s t v, called n n' (mkCall s t (CallVerifyLeader v)))
  ∧ extends (justified_change (ClusterID (n_cfg n))) n n'.

Lemma membership_tick_does ctx n : tick_reconciles n (membershipMaintenance polls ctx Tick n).1.
Proof using RaftLaws0 PeersLaws0.
  cbn [membershipMaintenance fst]. split_and!.
  - intros Hno. unfold membership_tick, io_bind at 1, get. cbn [id]. by rewrite Hno.
  - intros Hyes. change (wp (membership_tick polls ctx) (λ _ n', ∃ s t v, called n n' (mkCall s t (CallVerifyLeader v))) n).
    apply wp_bind, wp_get. cbn [id]. rewrite Hyes. apply wp_bind, wp_try. unfold reconcileMembershipOperation.
    destruct (reconcile_verifies E polls ctx) as (rest & -> & Hrest). apply wp_bind.
    eapply wp_mono; [by apply (wp_verify_called E ctx)|]. intros [u|e] n1 (s & t & v & Hc); [|by exists s, t, v].
    eapply wp_mono; [apply Hrest|]. intros r n2 Hev. exists s, t, v. by eapply (called_mono E).
  - exact (proj1 (keeps_membership_tick E polls (ClusterID (n_cfg n)) ctx n eq_refl)).
Qed.

(** C25: what the loops of a started node do when they wake up.  A tick of the
    monitor announces an active leadership only for an epoch that this node owns,
    while Raft calls it leader and after a verification and a barrier made in that
    tick, and the status agrees.  When Raft reports the loss of the leadership, the
    node stops leading at once, at whatever time it is asked, and the subscribers
    of a leader are told; news of a gained leadership change nothing.  A tick of the
    snapshot loop fetches every blob of the active snapshot that some voter
    delivers, keeps the needed blobs and leaves, without faults, no others.  A tick
    of the membership loop does nothing unless the node leads; if it does, it is
    verified again, and Raft is asked for justified changes only.  When the context
    is done every loop returns, the monitor with the leadership withdrawn. *)
Theorem loops_do (ctx : context) (n : Node) (r : raft_view) (f : metadataFSM) (root : string) :
  n_raft n = Some r → n_fsm n = Some f → n_blobStore n = Some root →
  let after which w := loop_wake E polls which ctx w n in
  tick_verifies r n (after Monitor Tick).1
  ∧ lost_at_once n (after WatchRaftLeadership (LeaderCh false)).1
  ∧ (after WatchRaftLeadership (LeaderCh true)).1 = n
  ∧ round_repairs root n (after SnapshotMaintenance Tick).1
  ∧ tick_reconciles n (after MembershipMaintenance Tick).1
  ∧ (∀ which, (after which Done).2 = true ∧ (after which Tick).2 = false)
  ∧ (after WatchRaftLeadership LeaderChClosed).2 = true
  ∧ le_Active (n_leadership (after Monitor Done).1) = false.
Proof using RaftLaws0 PeersLaws0.
  intros Hr Hf Hroot after. split_and!.
  - by apply (monitor_tick r f).
  - apply leadership_lost.
  - done.
  - by apply snapshot_tick.
  - apply membership_tick_does.
  - by intros [].
  - done.
  - cbn. unfold monitor_stopped. by rewrite setLeadership_event.
Qed.
End loops_of_a_node.

(** A leader whose store lacks the blob of the active snapshot. *)
Lemma loops_do_witness :
  let n := ex_node ex_config ex_leader ex_snapshot_fsm in
  let monitored := (monitor (R := solo) calm Tick n).1 in
  let repaired := (snapshotMaintenance (P := ex_serving) calm Tick n).1 in
  (le_Active (n_leadership monitored) = true ∧ confirmed n monitored) ∧ round_repairs (P := ex_serving) calm "/data/cas" n repaired
  ∧ has_blob "/data/cas" (n_files repaired) abc_hash.
Proof.
  intros n monitored repaired.
  destruct (loops_do (R := solo) (P := ex_serving) calm 1 (λ _, None) n ex_leader ex_snapshot_fsm "/data/cas" eq_refl eq_refl eq_refl)
    as ([_ Hm] & _ & _ & Hs & _).
  split; [|split; [exact Hs|]].
  - assert (le_Active (n_leadership monitored) = true) as He by (vm_compute; reflexivity).
    split; [exact He|]. exact (proj1 (proj2 (Hm He))).
  - exists "abc". split; [vm_compute; reflexivity|]. vm_compute. reflexivity.
Defined.

