(* ===== verification/Overlap.v ===== *)
(** * Overlap: goroutines of one node that run into each other

    The operations of [Runs] follow one another.  In the program the monitor,
    the collector and the callers are goroutines, and what one of them has read
    may be old when it acts on it.  This file takes two of the loops apart at
    the place where they let go of the node: the collector reads the recorded
    snapshots first and the staging counts later; the monitor computes the
    status first and tells the subscribers last.  Joined again the parts are
    the operations; apart, they show what the orders allow. *)
From S2P Require Import Prelude Text Io Sha256 Json GoTime Duration Config Peers Capability Manifest.
From S2P Require Import BlobStore BlobStoreProofs BlobStoreSpec Fsm FsmProofs FsmSpec FsmCodec Node Leadership.
From S2P Require Import NodeProofs LeadershipProofs Examples LeadershipSpec CommandSpec Publish PublishProofs.
From S2P Require Import PublishSpec.
From stdpp Require Import options.
#[local] Open Scope io_scope.

(** ** The collector *)

(** [gcSnapshotBlobs] from its second statement on, with the state it has read. *)
Definition gc_rest (E : env) (state : MetadataState) : nio unit :=
  do! retained := get (retained_given state) in
  collect_blobs E retained.

(** ** The monitor *)

Section monitor.
Context (E : env) {R : Raft}.

(** [refreshStatus] up to its last call, with the arguments of that call. *)
Definition refresh_until (verify : bool) : nio (option (bool * N * string)) :=
  run! modify refreshPeerRegistry in
  do! n := get id in
  match n_raft n, n_fsm n with
  | Some r, Some fsm =>
      run! modify (λ n, if n_unjoined n && raftConfigurationContainsSelf r n then set_unjoined false n else n) in
      let state := State fsm in
      let now := n_now n in
      do! roled := (if rv_IsLeader r then refresh_leader E verify r state now
                    else io_ret (Some (state, RoleFollower, false, zero_time))) in
      match roled with
      | None => io_ret None
      | Some (state, role, hasQuorum, verifiedAt) =>
          let reason := if str_eqb (rv_LeaderID r) "" then "raft leader is unknown" else "" in
          run! updateStatus E role (rv_LeaderID r) (rv_LeaderAddr r) state (rv_Stats r) hasQuorum
                 verifiedAt reason now in
          io_ret (Some (str_eqb role RoleLeader && hasQuorum, ms_LeaderEpoch state, reason))
      end
  | _, _ => run! modify (λ n, if n_unjoined n then updateUnjoinedStatus n else n) in io_ret None
  end.

Definition announce (o : option (bool * N * string)) : nio unit :=
  match o with
  | Some (active, epoch, reason) => modify (setLeadership active epoch reason)
  | None => io_ret tt
  end.

Lemma refresh_split verify n :
  refreshStatus E verify n = (do! o := refresh_until verify in announce o) n.
Proof.
  unfold refreshStatus, refresh_until, io_bind, modify, get, Datatypes.id.
  set (n0 := refreshPeerRegistry n). destruct (n_raft n0) as [r|], (n_fsm n0) as [f|]; try done.
  destruct (if rv_IsLeader r then _ else _) as [[[[[[state role] q] v]|]|e] n1]; [|done..].
  by destruct (updateStatus _ _ _ _ _ _ _ _ _ _ n1) as [[[]|e] n2].
Qed.
End monitor.

(** ** Collecting while publishing *)

Lemma gc_split E n : gcSnapshotBlobs E n = gc_rest E (Metadata n) n.
Proof. done. Qed.

(** The node as a goroutine sees it that has read the recorded snapshots of [n0]. *)
Definition read_earlier (n0 n : Node) : Node := set_raft (n_raft n) (n_fsm n0) (n_now n) (n_disk n) n.

Lemma retained_earlier n0 n : n_cfg n = n_cfg n0 → retained_given (Metadata n0) n = retained_blobs (read_earlier n0 n).
Proof.
  intros Hc. unfold retained_blobs, retained_given. assert (Metadata (read_earlier n0 n) = Metadata n0) as ->; [|done].
  unfold Metadata. cbn [n_fsm read_earlier set_raft n_cfg]. by rewrite Hc.
Qed.

(** A blob that nothing refers to when the collector looks is removed. *)
Lemma gc_rest_removes E root n0 n h :
  (∀ t, io_fault E t = None) → n_blobStore n = Some root → n_cfg n = n_cfg n0 →
  n_stagingBlobs n !! h = None →
  (∀ k m, ms_Snapshots (Metadata n0) !! k = Some m → ¬ manifest_blob m h) →
  ∃ w, gc_rest E (Metadata n0) n = (Ok tt, set_files w n) ∧ ¬ has_blob root w h.
Proof.
  intros HE Hroot Hcfg Hst Hnone.
  assert (wp (gc_rest E (Metadata n0)) (λ r n', r = Ok tt ∧ ∃ w, n' = set_files w n ∧ ¬ has_blob root w h) n) as Hwp.
  { apply wp_bind, wp_get. eapply wp_mono; [apply wp_collect_blobs|]. intros r n' (-> & w & -> & Hw).
    split; [done|]. exists w. split; [done|]. destruct (Hw root Hroot) as (_ & _ & Hgone).
    intros (d & <- & (f & Hf & _)%stored_inv). rewrite (Hgone HE) in Hf; [done|]. apply object_collectable.
    rewrite retained_earlier by done. intros [[c Hc]|(k & m & Hm & _ & Hin)]%retained_committed.
    - cbn [n_stagingBlobs read_earlier set_raft] in Hc. congruence.
    - eapply Hnone; [|exact Hin]. revert Hm. unfold Metadata. cbn [n_fsm read_earlier set_raft n_cfg].
      rewrite Hcfg. exact (λ H, H). }
  unfold wp in Hwp. destruct (gc_rest E (Metadata n0) n) as [r n']. cbn [fst snd] in Hwp.
  destruct Hwp as (-> & w & -> & Hw). by exists w.
Qed.

Section publishing.
Context {R : Raft} {P : Peers}.

(** C28: The collector reads the recorded snapshots before the staging counts.
    A publication that runs from its start to its success in between is in
    neither: every blob that only it refers to is removed from the publishing
    node, which cannot verify the blobs of the manifest any more, although the
    publication succeeded and no system call failed. *)
Theorem published_blob_collected (E : env) `{!RaftLaws R E, !PeersLaws P E} (ctx : context) (id root h : string)
    (m : Manifest) (blobs : gmap string reader) (n n1 : Node) (r : N) :
  (∀ t, io_fault E t = None) → n_blobStore n = Some root → counts_positive (n_stagingBlobs n) →
  h ∈ manifestBlobHashes m → n_stagingBlobs n !! h = None →
  (∀ k m', ms_Snapshots (Metadata n) !! k = Some m' → ¬ manifest_blob m' h) →
  PublishSnapshot E ctx id m blobs n = (Ok r, n1) →
  ∃ n2, gc_rest E (Metadata n) n1 = (Ok tt, n2)
  ∧ Metadata n2 = Metadata n1 ∧ ¬ has_blob root (n_files n2) h ∧ (verifyManifestBlobs E m n2).1 ≠ Ok tt.
Proof.
  intros HE Hroot Hpos Hh Hst Hnone Hrun.
  pose proof (wp_eq _ _ _ _ _ Hrun (working_PublishSnapshot E ctx id m blobs n Hpos)) as [[Hsame _ _ _ _] _ Hst1].
  assert (n_blobStore n1 = Some root) as Hroot1 by (by rewrite (sn_blobStore _ _ Hsame)).
  destruct (gc_rest_removes E root n n1 h) as (w & Hgc & Hb);
    [done|done|apply Hsame|by rewrite Hst1|done|].
  exists (set_files w n1). split_and!; [done..|].
  unfold verifyManifestBlobs, with_store. cbn [n_blobStore set_files n_files]. rewrite Hroot1.
  pose proof (wp_verify_blobs E root (manifestBlobHashes m) w) as Hv. unfold wp in Hv.
  destruct (verify_blobs E root (manifestBlobHashes m) w) as [res w']. cbn [fst snd] in *.
  intros ->. destruct Hv as [_ Hv]. apply Hb. by apply Hv.
Qed.

End publishing.

Lemma published_blob_collected_witness :
  let n := ex_leading ex_fsm in
  let n1 := (PublishSnapshot (R := solo) (P := ex_peers) calm (λ _, None) "snap" ex_manifest {[ abc_hash := abc ]} n).2 in
  ∃ n2, gc_rest calm (Metadata n) n1 = (Ok tt, n2)
  ∧ (∃ m, ActiveSnapshot n2 = Some m ∧ manifestBlobHashes m = [abc_hash]) ∧ ¬ has_blob "/data/cas" (n_files n2) abc_hash.
Proof.
  intros n n1. set (run := PublishSnapshot _ _ _ _ _ n) in n1.
  assert (run.1 = Ok 1%N) as Hrun by (vm_compute; reflexivity).
  destruct (published_blob_collected (R := solo) (P := ex_peers) calm (λ _, None) "snap" "/data/cas" abc_hash ex_manifest
    {[ abc_hash := abc ]} n n1 1 (λ _, eq_refl) eq_refl) as (n2 & Hgc & Hmeta & Hb & _).
  - intros h c Hc. change ((∅ : gmap string Z) !! h = Some c) in Hc. by rewrite lookup_empty in Hc.
  - left.
  - apply lookup_empty.
  - intros k m' Hm. change ((∅ : gmap string Manifest) !! k = Some m') in Hm. by rewrite lookup_empty in Hm.
  - exact (pair_eq run _ Hrun).
  - exists n2. split; [exact Hgc|]. split; [|exact Hb]. unfold ActiveSnapshot. rewrite Hmeta.
    eexists. vm_compute. split; reflexivity.
Defined.

(** ** Losing the leadership while refreshing *)

(** A refresh on a node that Raft calls a follower ends with an inactive event. *)
Lemma follower_refresh_inactive (E : env) `{R : Raft} (verify : bool) (n : Node) (r : raft_view) (f : metadataFSM) :
  n_raft n = Some r → rv_IsLeader r = false → n_fsm n = Some f →
  wp (refreshStatus E verify) (λ _ n', le_Active (n_leadership n') = false) n.
Proof.
  intros Hr Hl Hf. apply wp_bind, wp_modify, wp_bind, wp_get. cbn [Datatypes.id n_raft n_fsm refreshPeerRegistry set_members].
  rewrite Hr, Hf, Hl. apply wp_bind, wp_modify, wp_bind, wp_ret, wp_bind, wp_updateStatus.
  intros n1 n' available _ _ _ _ _. apply wp_modify. by rewrite setLeadership_event.
Qed.

(** The monitor tells the subscribers at the end of a refresh what it found
    at its start.  When Raft reports the loss of the leadership in between,
    every subscriber is last told that the node leads, although the node itself
    denies it; the announcement stands until the next refresh that sees a
    follower, which withdraws it. *)
Theorem late_announcement (E : env) `{R : Raft} (n1 : Node) (epoch : N) (reason : string) :
  let n2 := raft_leadership_lost n1 in
  let n3 := (announce (Some (true, epoch, reason)) n2).2 in
  le_Active (n_leadership n2) = false
  ∧ le_Active (n_leadership n3) = true
  ∧ HasBusinessLeadership n3 = false
  ∧ (∀ ch last, is_Some (n_subs n1 !! ch) → view ch last n3 = mkLeadershipEvent true epoch reason)
  ∧ ∀ verify n4 n5 r f res, n_raft n4 = Some r → rv_IsLeader r = false → n_fsm n4 = Some f →
      refreshStatus E verify n4 = (res, n5) → le_Active (n_leadership n5) = false.
Proof.
  intros n2 n3. unfold n3, n2, raft_leadership_lost, announce, modify. cbn [snd]. split_and!.
  - by rewrite setLeadership_event.
  - by rewrite setLeadership_event.
  - unfold HasBusinessLeadership, checkLocalBusinessLeadership. rewrite setLeadership_status, setLeadership_status.
    cbn [n_status updateCachedLeadership set_status cached_leadership st_Role str_eqb].
    repeat match goal with |- is_ok (match ?x with _ => _ end) = false => destruct x; try done end.
  - intros ch last [buffer Hch]. set (lost := setLeadership false 0 _ _).
    assert (is_Some (n_subs lost !! ch)) as [buffer' Hlost].
    { unfold lost, setLeadership. destruct (_ && _); cbn [n_subs set_subs updateCachedLeadership set_status];
        [by exists buffer|rewrite lookup_fmap, Hch; by eexists]. }
    unfold view, setLeadership. unfold lost at 1 2. rewrite setLeadership_event.
    cbn [le_Active Bool.eqb andb n_subs set_subs]. rewrite lookup_fmap, Hlost. by destruct buffer'.
  - intros verify n4 n5 r f res Hr Hl Hf Hrun.
    exact (wp_eq _ _ _ _ _ Hrun (follower_refresh_inactive E verify n4 r f Hr Hl Hf)).
Qed.

(** A refresh that verified its leadership, the loss, and its announcement. *)
Example late_announcement_run :
  let n := set_subs {[ 7%N := None ]} (mkLeadershipEvent false 0 "") (ex_node ex_config ex_leader ex_fsm) in
  let '(r, n1) := refresh_until (R := solo) calm true n in
  let n2 := raft_leadership_lost n1 in
  let n3 := (announce (match r with Ok o => o | Err _ => None end) n2).2 in
  le_Active (view 7 (mkLeadershipEvent false 0 "") n2) = false ∧ le_Active (view 7 (mkLeadershipEvent false 0 "") n3) = true ∧ HasBusinessLeadership n3 = false.
Proof. vm_compute. done. Qed.
