(* ===== verification/Changes.v ===== *)
(** * Changes: who may change the configuration of Raft at a time
    (runConfigurationChange and PublishSnapshot of node.go)

    Configuration changes and publications of one node exclude each other with
    [configurationMu].  A change that is in flight cannot be cancelled: when the
    context of its caller ends first, the caller returns and leaves a goroutine
    behind that keeps the mutex until Raft has answered.  Here the callers, the
    goroutines left behind and Raft take turns; [Membership] and [Publish] take
    the same calls one after the other.  A mutex of package sync has no owner:
    anybody may unlock it, and to unlock it when it is not locked is fatal. *)
From S2P Require Import Prelude Text Io Sha256 Json GoTime Duration Config Peers Capability Manifest.
From S2P Require Import BlobStore Fsm Node.
From stdpp Require Import options.

(** ** Callers *)

(** Where a goroutine is. *)
Inductive task : Type :=
| LockChange (c : configuration_change)   (** at [n.configurationMu.Lock()] of a change *)
| StartChange (c : configuration_change)  (** about to read [n.raft] *)
| AwaitChange (f : nat)                   (** at the [select] on the context and future [f] *)
| ReleaseAfter (f : nat)                  (** left behind, at [<-done] *)
| LockPublish                             (** at [n.configurationMu.Lock()] of a publication *)
| Publishing                              (** in the rest of [PublishSnapshot] *)
| Ended (r : result unit).

(** [gr_ctx] is the error of its context once that is done. *)
Record goroutine := mkGoroutine { gr_task : task; gr_ctx : option error }.

(** A change somebody asked Raft for, with the answer once there is one. *)
Record change := mkChange { cf_change : configuration_change; cf_done : option (result unit) }.

Record contending := mkContending {
  ct_raft : bool;                  (** [n.raft] is not nil *)
  ct_locked : bool;                (** [configurationMu] *)
  ct_fatal : bool;                 (** an unlocked mutex was unlocked *)
  ct_changes : list change;
  ct_goroutines : list goroutine;
}.

Definition idle_node (raft : bool) : contending := mkContending raft false false [] [].

Definition set_task (i : nat) (t : task) (s : contending) : contending :=
  mkContending (ct_raft s) (ct_locked s) (ct_fatal s) (ct_changes s)
    (alter (λ g, mkGoroutine t (gr_ctx g)) i (ct_goroutines s)).
Definition lock (s : contending) : contending :=
  mkContending (ct_raft s) true (ct_fatal s) (ct_changes s) (ct_goroutines s).
Definition unlock (s : contending) : contending :=
  mkContending (ct_raft s) false (ct_fatal s || negb (ct_locked s)) (ct_changes s) (ct_goroutines s).
Definition spawn (g : goroutine) (s : contending) : contending :=
  mkContending (ct_raft s) (ct_locked s) (ct_fatal s) (ct_changes s) (ct_goroutines s ++ [g]).

(** [go func() { done <- start(r).Error() }()]. *)
Definition start_change (c : configuration_change) (s : contending) : contending :=
  mkContending (ct_raft s) (ct_locked s) (ct_fatal s) (ct_changes s ++ [mkChange c None]) (ct_goroutines s).
Definition complete_change (f : nat) (r : result unit) (s : contending) : contending :=
  mkContending (ct_raft s) (ct_locked s) (ct_fatal s)
    (alter (λ c, match cf_done c with None => mkChange (cf_change c) (Some r) | Some _ => c end) f (ct_changes s))
    (ct_goroutines s).

(** The answer to future [f] is in its channel [done]. *)
Definition answer_of (f : nat) (s : contending) : option (result unit) := c ← ct_changes s !! f; cf_done c.

(** The next step of goroutine [i]; [None] when it waits or has ended. *)
Definition take_turn (i : nat) (s : contending) : option contending :=
  g ← ct_goroutines s !! i;
  match gr_task g with
  | LockChange c => if ct_locked s then None else Some (set_task i (StartChange c) (lock s))
  | StartChange c =>
      if ct_raft s then Some (set_task i (AwaitChange (length (ct_changes s))) (start_change c s))
      else Some (set_task i (Ended (Err ErrNodeNotStarted)) (unlock s))
  | AwaitChange f => r ← answer_of f s; Some (set_task i (Ended r) (unlock s))
  | ReleaseAfter f => _ ← answer_of f s; Some (set_task i (Ended (Ok tt)) (unlock s))
  | LockPublish => if ct_locked s then None else Some (set_task i Publishing (lock s))
  | Publishing | Ended _ => None
  end.

(** The other case of the [select]: the context is done. *)
Definition cancel_change (i : nat) (s : contending) : option contending :=
  g ← ct_goroutines s !! i;
  match gr_task g, gr_ctx g with
  | AwaitChange f, Some e => Some (spawn (mkGoroutine (ReleaseAfter f) None) (set_task i (Ended (Err e)) s))
  | _, _ => None
  end.

(** A publication returns, and its deferred unlock runs. *)
Definition end_publication (i : nat) (r : result unit) (s : contending) : option contending :=
  g ← ct_goroutines s !! i;
  match gr_task g with
  | Publishing => Some (set_task i (Ended r) (unlock s))
  | _ => None
  end.

Inductive event : Type :=
| Called (t : task)                        (** a change or a publication is called *)
| ContextDone (i : nat) (e : error)
| Turn (i : nat)
| Cancelled (i : nat)
| Published (i : nat) (r : result unit)
| Answered (f : nat) (r : result unit)     (** Raft answers a change *)
| Raft_ (present : bool).                  (** the node starts or stops *)

Definition happen (e : event) (s : contending) : contending :=
  match e with
  | Called (LockChange c) => spawn (mkGoroutine (LockChange c) None) s
  | Called LockPublish => spawn (mkGoroutine LockPublish None) s
  | Called _ => s
  | ContextDone i e =>
      mkContending (ct_raft s) (ct_locked s) (ct_fatal s) (ct_changes s)
        (alter (λ g, mkGoroutine (gr_task g) (Some (default e (gr_ctx g)))) i (ct_goroutines s))
  | Turn i => default s (take_turn i s)
  | Cancelled i => default s (cancel_change i s)
  | Published i r => default s (end_publication i r s)
  | Answered f r => complete_change f r s
  | Raft_ present => mkContending present (ct_locked s) (ct_fatal s) (ct_changes s) (ct_goroutines s)
  end.

Definition contend (schedule : list event) (s : contending) : contending := foldl (λ s e, happen e s) s schedule.

(** Raft has been asked for change [f] and has not answered. *)
Definition in_flight (s : contending) (f : nat) : Prop := ∃ c, ct_changes s !! f = Some (mkChange c None).

Definition task_of (i : nat) (s : contending) : option task := gr_task <$> ct_goroutines s !! i.

(** ** One holder at a time *)

Definition holds (t : task) : bool :=
  match t with StartChange _ | AwaitChange _ | ReleaseAfter _ | Publishing => true | _ => false end.

Definition awaits (f : nat) (t : task) : Prop := t = AwaitChange f ∨ t = ReleaseAfter f.

(** [h] is the goroutine that has to unlock the mutex. *)
Record exclusive (h : option nat) (s : contending) : Prop := {
  ex_fatal : ct_fatal s = false;
  ex_locked : ct_locked s = bool_decide (is_Some h);
  ex_holds i t : task_of i s = Some t → holds t = bool_decide (h = Some i);
  ex_holder i : h = Some i → is_Some (task_of i s);
  ex_await f : in_flight s f → ∃ i t, h = Some i ∧ task_of i s = Some t ∧ awaits f t;
  ex_asked i t f : task_of i s = Some t → awaits f t → f < length (ct_changes s);
}.

Lemma exclusive_idle raft : exclusive None (idle_node raft).
Proof. split; simpl; try done. by intros f [c Hc]. Qed.

Lemma awaits_holds f t : awaits f t → holds t = true.
Proof. by intros [-> | ->]. Qed.

Lemma task_of_set i t s j :
  task_of j (set_task i t s) = if decide (j = i) then (λ _, t) <$> task_of i s else task_of j s.
Proof.
  unfold task_of. simpl. destruct (decide (j = i)) as [->|Hne].
  - rewrite list_lookup_alter_eq. by destruct (ct_goroutines s !! i).
  - by rewrite list_lookup_alter_ne by done.
Qed.

(** The invariant after goroutine [i] moved from [t] to [t']. *)
Lemma exclusive_move h h' i t t' s s' :
  exclusive h s → task_of i s = Some t →
  (∀ j, task_of j s' = if decide (j = i) then Some t' else task_of j s) →
  ct_fatal s' = false → ct_locked s' = bool_decide (is_Some h') →
  holds t' = bool_decide (h' = Some i) → (∀ j, j ≠ i → h' = Some j ↔ h = Some j) →
  (∀ f, in_flight s' f → h' = Some i ∧ awaits f t') →
  (∀ f, awaits f t' → f < length (ct_changes s')) → length (ct_changes s) ≤ length (ct_changes s') →
  exclusive h' s'.
Proof.
  intros [_ _ H3 H4 _ H6] Hi Hs Hf Hl Ht Hj Hw Ha Hlen. split; [done|done|..].
  - intros j u. rewrite Hs. destruct (decide (j = i)) as [->|Hne]; [by intros [= <-]|].
    intros Hu. rewrite (H3 _ _ Hu). by apply bool_decide_ext; rewrite Hj.
  - intros j Hh. rewrite Hs. destruct (decide (j = i)) as [->|Hne]; [done|]. by apply H4, Hj.
  - intros f Hfl. destruct (Hw f Hfl) as [Hh Haw]. exists i, t'. split_and!; [done| |done].
    by rewrite Hs, decide_True by done.
  - intros j u f. rewrite Hs. destruct (decide (j = i)) as [->|Hne]; [intros [= <-]; apply Ha|].
    intros Hu Hau. specialize (H6 _ _ _ Hu Hau). lia.
Qed.

Lemma holder_of h s i t : exclusive h s → task_of i s = Some t → holds t = true → h = Some i.
Proof. intros He Hi Ht. rewrite (ex_holds _ _ He _ _ Hi) in Ht. by apply bool_decide_eq_true in Ht. Qed.

(** What is in flight is awaited by the holder, whatever it holds the mutex for. *)
Lemma awaited_by h s i t f :
  exclusive h s → task_of i s = Some t → h = Some i → in_flight s f → awaits f t.
Proof.
  intros He Hi Hh Hf. destruct (ex_await _ _ He _ Hf) as (j & u & Hj & Hu & Ha). simplify_eq. congruence.
Qed.

Lemma not_in_flight f r s : answer_of f s = Some r → ¬ in_flight s f.
Proof. unfold answer_of. intros H [c Hc]. by rewrite Hc in H. Qed.

(** A goroutine takes the free mutex. *)
Lemma exclusive_acquire h i t t' s :
  exclusive h s → task_of i s = Some t → ct_locked s = false → holds t' = true → (∀ f, ¬ awaits f t') →
  exclusive (Some i) (set_task i t' (lock s)).
Proof.
  intros He Hi Hl Ht Ha. rewrite (ex_locked _ _ He) in Hl. apply bool_decide_eq_false, eq_None_not_Some in Hl as ->.
  apply (exclusive_move None _ i t t' s); auto.
  - intros j. by rewrite task_of_set; change (task_of i (lock s)) with (task_of i s); rewrite Hi.
  - apply (ex_fatal _ _ He).
  - by rewrite bool_decide_true by done.
  - intros j Hne. split; [by intros [= ->]|done].
  - intros f Hf. destruct (ex_await _ _ He f Hf) as (? & ? & [=] & _).
  - intros f Haf. by destruct (Ha f).
Qed.

(** The holder, with no change of its own in flight, unlocks the mutex and ends. *)
Lemma exclusive_release h i t r s :
  exclusive h s → task_of i s = Some t → holds t = true → (∀ f, awaits f t → ¬ in_flight s f) →
  exclusive None (set_task i (Ended r) (unlock s)).
Proof.
  intros He Hi Ht Ha. pose proof (holder_of _ _ _ _ He Hi Ht) as ->.
  apply (exclusive_move (Some i) _ i t (Ended r) s); auto.
  - intros j. by rewrite task_of_set; change (task_of i (unlock s)) with (task_of i s); rewrite Hi.
  - simpl. rewrite (ex_fatal _ _ He), (ex_locked _ _ He). by rewrite bool_decide_true by done.
  - intros j Hne. split; [done|by intros [= ->]].
  - intros f Hf. exfalso. apply (Ha f); [|done]. by eapply awaited_by.
  - by intros f [?|?].
Qed.

(** The holder asks Raft for a change. *)
Lemma exclusive_start h i c s :
  exclusive h s → task_of i s = Some (StartChange c) →
  exclusive h (set_task i (AwaitChange (length (ct_changes s))) (start_change c s)).
Proof.
  intros He Hi. pose proof (holder_of _ _ _ _ He Hi eq_refl) as Hh.
  apply (exclusive_move h h i (StartChange c) (AwaitChange (length (ct_changes s))) s); auto; simpl.
  - intros j. by rewrite task_of_set; change (task_of i (start_change c s)) with (task_of i s); rewrite Hi.
  - apply (ex_fatal _ _ He).
  - apply (ex_locked _ _ He).
  - by rewrite bool_decide_true.
  - intros f [c' Hf]. simpl in Hf. split; [done|]. apply lookup_app_Some in Hf as [Hf|[Hge Hf]].
    + destruct (awaited_by _ _ _ _ f He Hi Hh) as [|]; [by exists c'|done..].
    + apply list_lookup_singleton_Some in Hf as [Hf _]. left. f_equal. lia.
  - intros f [[= <-]|?]; [|done]. rewrite length_app. simpl. lia.
  - rewrite length_app. lia.
Qed.

Lemma task_of_spawn g s j :
  task_of j (spawn g s) = if decide (j = length (ct_goroutines s)) then Some (gr_task g) else task_of j s.
Proof.
  unfold task_of. simpl. destruct (decide _) as [->|Hne].
  - by rewrite lookup_app_r, Nat.sub_diag by done.
  - destruct (decide (j < length (ct_goroutines s))) as [Hl|Hl]; [by rewrite lookup_app_l by done|].
    rewrite lookup_app_r by lia. rewrite (lookup_ge_None_2 (ct_goroutines s)) by lia.
    destruct (j - length (ct_goroutines s)) eqn:Hj; [lia|done].
Qed.

Lemma task_of_lt i s t : task_of i s = Some t → i < length (ct_goroutines s).
Proof. intros H. apply lookup_lt_is_Some. apply fmap_Some in H as (g & Hg & _). by exists g. Qed.

(** A goroutine that comes and holds nothing. *)
Lemma exclusive_spawn h g s :
  exclusive h s → holds (gr_task g) = false → exclusive h (spawn g s).
Proof.
  intros [H1 H2 H3 H4 H5 H6] Hg.
  assert (∀ i, h = Some i → i ≠ length (ct_goroutines s)) as Hne.
  { intros i Hi ->. destruct (H4 _ Hi) as [t Ht]. apply task_of_lt in Ht. lia. }
  split; [done|done|..].
  - intros i t. rewrite task_of_spawn. destruct (decide _) as [->|]; [|by apply H3].
    intros [= <-]. rewrite Hg. symmetry. apply bool_decide_eq_false. intros Hh. by apply (Hne _ Hh).
  - intros i Hi. rewrite task_of_spawn. destruct (decide _); [done|auto].
  - intros f Hf. destruct (H5 f Hf) as (i & t & Hi & Ht & Ha). exists i, t. split_and!; [done| |done].
    rewrite task_of_spawn, decide_False; auto.
  - intros i t f. rewrite task_of_spawn. destruct (decide _) as [->|]; [|apply H6].
    intros [= <-] Ha. by rewrite (awaits_holds _ _ Ha) in Hg.
Qed.

(** The caller returns; the goroutine it leaves behind holds the mutex. *)
Lemma exclusive_cancel h i f e s :
  exclusive h s → task_of i s = Some (AwaitChange f) →
  exclusive (Some (length (ct_goroutines s))) (spawn (mkGoroutine (ReleaseAfter f) None) (set_task i (Ended (Err e)) s)).
Proof.
  intros He Hi. pose proof (holder_of _ _ _ _ He Hi eq_refl) as ->. pose proof (task_of_lt _ _ _ Hi) as Hlt.
  set (n := length (ct_goroutines s)). set (s1 := set_task i (Ended (Err e)) s).
  assert (length (ct_goroutines s1) = n) as Hn by (simpl; by rewrite length_alter).
  assert (∀ j, task_of j (spawn (mkGoroutine (ReleaseAfter f) None) s1) =
    if decide (j = n) then Some (ReleaseAfter f) else if decide (j = i) then Some (Ended (Err e)) else task_of j s) as Htask.
  { intros j. rewrite task_of_spawn, Hn. destruct (decide (j = n)); [done|]. unfold s1. by rewrite task_of_set, Hi. }
  split.
  - apply (ex_fatal _ _ He).
  - apply (ex_locked _ _ He).
  - intros j t. rewrite Htask. destruct (decide (j = n)) as [->|Hj]; [intros [= <-]; by rewrite bool_decide_true|].
    rewrite (bool_decide_false (Some n = Some j)) by congruence. destruct (decide (j = i)) as [->|Hji]; [by intros [= <-]|].
    intros Ht. rewrite (ex_holds _ _ He _ _ Ht). apply bool_decide_eq_false. congruence.
  - intros j [= <-]. by rewrite Htask, decide_True by done.
  - intros f' Hf. exists n, (ReleaseAfter f). rewrite Htask, decide_True by done. split_and!; [done..|].
    destruct (awaited_by _ _ _ _ f' He Hi eq_refl Hf) as [[= ->]|[=]]. by right.
  - intros j t f' Ht Ha. change (ct_changes (spawn _ s1)) with (ct_changes s). rewrite Htask in Ht.
    destruct (decide (j = n)) as [->|]; [|destruct (decide (j = i)); [|by eapply (ex_asked _ _ He)]].
    + injection Ht as <-. destruct Ha as [[=]|[= <-]]. apply (ex_asked _ _ He i (AwaitChange f)); [done|by left].
    + injection Ht as <-. by destruct Ha.
Qed.

Lemma exclusive_turn h i s s' : exclusive h s → take_turn i s = Some s' → ∃ h', exclusive h' s'.
Proof.
  intros He. unfold take_turn. destruct (ct_goroutines s !! i) as [g|] eqn:Hg; [|done]. simpl.
  assert (task_of i s = Some (gr_task g)) as Hi by (unfold task_of; by rewrite Hg).
  destruct (gr_task g) as [c|c|f|f| | |r] eqn:Ht; try done.
  - destruct (ct_locked s) eqn:Hl; [done|]. intros [= <-]. eexists. eapply exclusive_acquire; eauto. by intros f [|].
  - destruct (ct_raft s); intros [= <-].
    + eexists. by eapply exclusive_start.
    + eexists. eapply exclusive_release; eauto. by intros f [|].
  - destruct (answer_of f s) as [r|] eqn:Hr; [|done]. intros [= <-]. eexists. eapply exclusive_release; eauto.
    intros f' [[= <-]|[=]]. by eapply not_in_flight.
  - destruct (answer_of f s) as [r|] eqn:Hr; [|done]. intros [= <-]. eexists. eapply exclusive_release; eauto.
    intros f' [[=]|[= <-]]. by eapply not_in_flight.
  - destruct (ct_locked s) eqn:Hl; [done|]. intros [= <-]. eexists. eapply exclusive_acquire; eauto. by intros f [|].
Qed.

(** Nothing changes that the invariant reads, except that answers come. *)
Lemma exclusive_frame h s s' :
  exclusive h s → ct_fatal s' = ct_fatal s → ct_locked s' = ct_locked s → (∀ i, task_of i s' = task_of i s) →
  length (ct_changes s') = length (ct_changes s) → (∀ f, in_flight s' f → in_flight s f) → exclusive h s'.
Proof.
  intros [H1 H2 H3 H4 H5 H6] Hf Hl Ht Hn Hw. split; [congruence|congruence|..].
  - intros i t. rewrite Ht. apply H3.
  - intros i. rewrite Ht. apply H4.
  - intros f Hfl. destruct (H5 f (Hw f Hfl)) as (i & t & Hi & Hti & Ha). exists i, t. by rewrite Ht.
  - intros i t f. rewrite Ht, Hn. apply H6.
Qed.

Lemma task_of_context i e s j : task_of j (happen (ContextDone i e) s) = task_of j s.
Proof.
  unfold task_of. simpl. destruct (decide (j = i)) as [->|Hne].
  - rewrite list_lookup_alter_eq. by destruct (ct_goroutines s !! i).
  - by rewrite list_lookup_alter_ne by done.
Qed.

Lemma in_flight_complete f r s f' : in_flight (complete_change f r s) f' ↔ in_flight s f' ∧ f' ≠ f.
Proof.
  unfold in_flight. simpl. destruct (decide (f' = f)) as [->|Hne].
  - split; [|by intros [_ ?]]. intros [c Hc]. rewrite list_lookup_alter_eq in Hc.
    destruct (ct_changes s !! f) as [[c' [r'|]]|]; simplify_eq/=.
  - rewrite list_lookup_alter_ne by done. naive_solver.
Qed.

Lemma exclusive_happen h e s : exclusive h s → ∃ h', exclusive h' (happen e s).
Proof.
  intros He. destruct e as [t|i e|i|i|i r|f r|present]; simpl.
  - destruct t; try (by exists h); exists h; by apply exclusive_spawn.
  - exists h. apply (exclusive_frame h s); try done. intros j. apply (task_of_context i e).
  - destruct (take_turn i s) as [s'|] eqn:Hs; [by eapply exclusive_turn|by exists h].
  - unfold cancel_change. destruct (ct_goroutines s !! i) as [g|] eqn:Hg; [|by exists h]. simpl.
    destruct (gr_task g) as [| |f| | | |] eqn:Ht; try (by exists h). destruct (gr_ctx g) as [e|]; [|by exists h].
    eexists. apply (exclusive_cancel h); [done|]. unfold task_of. by rewrite Hg, <- Ht.
  - unfold end_publication. destruct (ct_goroutines s !! i) as [g|] eqn:Hg; [|by exists h]. simpl.
    destruct (gr_task g) eqn:Ht; try (by exists h). eexists. apply (exclusive_release h i Publishing); auto.
    + unfold task_of. by rewrite Hg, <- Ht.
    + by intros f [|].
  - exists h. apply (exclusive_frame h s); try done; simpl; [by rewrite length_alter|].
    intros f'. by intros [Hf _]%in_flight_complete.
  - exists h. by apply (exclusive_frame h s).
Qed.

Lemma exclusive_contend schedule : ∀ h s, exclusive h s → ∃ h', exclusive h' (contend schedule s).
Proof.
  induction schedule as [|e schedule IH]; intros h s He; [by exists h|].
  destruct (exclusive_happen h e s He) as [h' He']. by eapply IH.
Qed.

(** C19: Whatever callers come, whenever their contexts end and Raft answers, a
    node never has two changes of the configuration in flight, none while it is
    publishing a snapshot, and never unlocks the mutex when it is not locked. *)
Theorem one_change_in_flight (raft : bool) (schedule : list event) :
  let s := contend schedule (idle_node raft) in
  ct_fatal s = false
  ∧ (∀ f g, in_flight s f → in_flight s g → f = g)
  ∧ (∀ i f, task_of i s = Some Publishing → ¬ in_flight s f).
Proof.
  intros s. destruct (exclusive_contend schedule None _ (exclusive_idle raft)) as [h He]. fold s in He. split_and!.
  - apply (ex_fatal _ _ He).
  - intros f g Hf Hg. destruct (ex_await _ _ He f Hf) as (i & t & Hh & Hi & [-> | ->]);
      destruct (awaited_by _ _ _ _ g He Hi Hh Hg); congruence.
  - intros i f Hi Hf. by destruct (awaited_by _ _ _ _ f He Hi (holder_of _ _ _ _ He Hi eq_refl) Hf).
Qed.

(** ** Waiting for the mutex *)

Definition waiting (t : task) : Prop := t = LockPublish ∨ ∃ c, t = LockChange c.

Lemma flight_locked h s f : exclusive h s → in_flight s f → ct_locked s = true.
Proof.
  intros He Hf. rewrite (ex_locked _ _ He). destruct (ex_await _ _ He f Hf) as (i & t & -> & _).
  by rewrite bool_decide_true.
Qed.

Lemma in_flight_start c s f : in_flight s f → in_flight (start_change c s) f.
Proof. intros [c' Hc]. exists c'. simpl. by apply lookup_app_l_Some. Qed.

(** Other goroutines keep what waits and what is in flight as they are. *)
Lemma happen_waiting h e s i t f :
  exclusive h s → in_flight s f → (∀ r, e ≠ Answered f r) → task_of i s = Some t → waiting t →
  in_flight (happen e s) f ∧ task_of i (happen e s) = Some t.
Proof.
  intros He Hf Hne Hi Hw. pose proof (flight_locked _ _ _ He Hf) as Hl.
  assert (∀ g, ct_goroutines s !! i = Some g → gr_task g = t) as Hg.
  { intros g Hg. unfold task_of in Hi. rewrite Hg in Hi. by injection Hi. }
  assert (∀ j u s1, (∀ g, ct_goroutines s !! j = Some g → ¬ waiting (gr_task g)) → (∀ k, task_of k s1 = task_of k s) →
    task_of i (set_task j u s1) = Some t) as Hset.
  { intros j u s1 Hj Hk. rewrite task_of_set, !Hk. destruct (decide (i = j)) as [->|]; [|done].
    unfold task_of in Hi. destruct (ct_goroutines s !! j) as [g|] eqn:Hgj; [|done].
    by destruct (Hj g eq_refl); rewrite (Hg g eq_refl). }
  destruct e as [u|j e|j|j|j r|k r|present]; simpl.
  - pose proof (task_of_lt _ _ _ Hi) as Hlt.
    destruct u; try done; (split; [done|]); by rewrite task_of_spawn, decide_False by lia.
  - split; [done|]. exact (eq_trans (task_of_context j e s i) Hi).
  - unfold take_turn. destruct (ct_goroutines s !! j) as [g|] eqn:Hgj; [|done]. simpl.
    destruct (gr_task g) as [c|c|k|k| | |r] eqn:Ht; rewrite ?Hl; simpl; try done.
    2, 3: destruct (answer_of k s); simpl; [|done].
    1: destruct (ct_raft s); simpl.
    all: split; [try done; by apply in_flight_start|apply Hset; [|done]].
    all: intros g'; rewrite Hgj; intros [= <-]; rewrite Ht; by intros [|[? ?]].
  - unfold cancel_change. destruct (ct_goroutines s !! j) as [g|] eqn:Hgj; [|done]. simpl.
    destruct (gr_task g) as [| |k| | | |] eqn:Ht; try done. destruct (gr_ctx g) as [e|]; [|done]. simpl.
    split; [done|]. pose proof (task_of_lt _ _ _ Hi). rewrite task_of_spawn, decide_False by (simpl; rewrite length_alter; lia).
    apply Hset; [|done]. intros g'. rewrite Hgj. intros [= <-]. rewrite Ht. by intros [|[? ?]].
  - unfold end_publication. destruct (ct_goroutines s !! j) as [g|] eqn:Hgj; [|done]. simpl.
    destruct (gr_task g) eqn:Ht; try done. simpl. split; [done|].
    apply Hset; [|done]. intros g'. rewrite Hgj. intros [= <-]. rewrite Ht. by intros [|[? ?]].
  - split; [|done]. apply in_flight_complete. split; [done|]. intros ->. by eapply Hne.
  - done.
Qed.

Lemma contend_waiting later : ∀ h s i t f,
  exclusive h s → in_flight s f → (∀ r, Answered f r ∉ later) → task_of i s = Some t → waiting t →
  task_of i (contend later s) = Some t.
Proof.
  induction later as [|e later IH]; intros h s i t f He Hf Hne Hi Hw; [done|].
  destruct (happen_waiting _ e _ _ _ _ He Hf ltac:(intros r ->; apply (Hne r); left) Hi Hw) as [Hf' Hi'].
  destruct (exclusive_happen h e s He) as [h' He'].
  apply (IH h' (happen e s) i t f); auto. intros r Hr. apply (Hne r). by right.
Qed.

(** A caller whose context ends while its change is in flight can return at
    once, but as long as Raft has not answered that change, every other change
    and every publication of the node stays at the mutex, whatever else happens
    and although its own context may be done. *)
Theorem cancelled_change_blocks (raft : bool) (schedule later : list event) (i f : nat) (t : task) :
  let s := contend schedule (idle_node raft) in
  in_flight s f → task_of i s = Some t → waiting t → (∀ r, Answered f r ∉ later) →
  task_of i (contend later s) = Some t
  ∧ ∀ j e, ct_goroutines s !! j = Some (mkGoroutine (AwaitChange f) (Some e)) →
      task_of j (happen (Cancelled j) s) = Some (Ended (Err e)).
Proof.
  intros s Hf Hi Hw Hne. destruct (exclusive_contend schedule None _ (exclusive_idle raft)) as [h He]. fold s in He.
  split; [by eapply contend_waiting|]. intros j e Hj. simpl. unfold cancel_change. rewrite Hj. simpl.
  rewrite task_of_spawn. apply lookup_lt_Some in Hj as Hlt. rewrite decide_False by (simpl; rewrite length_alter; lia).
  rewrite task_of_set, decide_True by done. unfold task_of. by rewrite Hj.
Qed.

(** A change is asked for and its caller gives up; the next caller, whose
    deadline has passed as well, still waits. *)
Definition ex_stuck : list event :=
  [Called (LockChange (AddNonvoter "n4" "h4:7000")); Turn 0; Turn 0;
   Called (LockChange (RemoveServer_ "n3")); Called LockPublish;
   ContextDone 0 "context deadline exceeded"; ContextDone 1 "context deadline exceeded"].

Lemma cancelled_change_blocks_witness :
  let s := contend ex_stuck (idle_node true) in
  task_of 1 (contend [Cancelled 0; Turn 1; Cancelled 1; Turn 1; Turn 3] s) = Some (LockChange (RemoveServer_ "n3"))
  ∧ task_of 0 (happen (Cancelled 0) s) = Some (Ended (Err "context deadline exceeded")).
Proof.
  intros s. destruct (cancelled_change_blocks true ex_stuck [Cancelled 0; Turn 1; Cancelled 1; Turn 1; Turn 3] 1 0
    (LockChange (RemoveServer_ "n3"))) as [H1 H2].
  - exists (AddNonvoter "n4" "h4:7000"). reflexivity.
  - reflexivity.
  - right. by eexists.
  - intros r H. apply list_elem_of_In in H. simpl in H. intuition discriminate.
  - split; [exact H1|]. by apply H2.
Defined.

(** ** Everybody returns *)

(** The steps a goroutine has before it. *)
Definition weight (t : task) : nat :=
  match t with
  | LockChange _ => 3
  | StartChange _ | LockPublish => 2
  | AwaitChange _ | ReleaseAfter _ | Publishing => 1
  | Ended _ => 0
  end.
Definition work_left (s : contending) : nat := sum_list_with (λ g, weight (gr_task g)) (ct_goroutines s).

Definition all_ended (s : contending) : bool := work_left s =? 0.

Lemma work_set i t t' s : task_of i s = Some t → weight t' < weight t → work_left (set_task i t' s) < work_left s.
Proof.
  unfold task_of, work_left. simpl. revert i. induction (ct_goroutines s) as [|g l IH]; intros [|i] Hi Ht; simplify_eq/=; [lia|].
  specialize (IH i Hi Ht). lia.
Qed.

Lemma work_at i t s : task_of i s = Some t → weight t ≤ work_left s.
Proof.
  unfold task_of, work_left. revert i. induction (ct_goroutines s) as [|g l IH]; intros [|i] Hi; simplify_eq/=; [lia|].
  specialize (IH i Hi). lia.
Qed.

Lemma contend_app l1 l2 s : contend (l1 ++ l2) s = contend l2 (contend l1 s).
Proof. apply foldl_app. Qed.

Lemma work_found s : all_ended s = false → ∃ i t, task_of i s = Some t ∧ 0 < weight t.
Proof.
  unfold all_ended, work_left, task_of. induction (ct_goroutines s) as [|g l IH]; simpl; [done|]. intros H.
  destruct (weight (gr_task g)) eqn:Hw; [destruct IH as (i & t & Hi & Ht); [done|]; by exists (S i), t|].
  exists 0, (gr_task g). split; [done|lia].
Qed.

(** What the goroutines and Raft do when nobody comes and no context ends. *)
Definition by_itself (e : event) : bool :=
  match e with Turn _ | Published _ _ | Answered _ _ => true | _ => false end.

Lemma answered_now f r s : f < length (ct_changes s) → is_Some (answer_of f (complete_change f r s)).
Proof.
  intros [c Hc]%lookup_lt_is_Some. unfold answer_of. simpl. rewrite list_lookup_alter_eq, Hc. simpl.
  destruct (cf_done c) eqn:Hd; simpl; by rewrite ?Hd.
Qed.

Lemma can_progress h s :
  exclusive h s → all_ended s = false → ∃ events, forallb by_itself events = true ∧ work_left (contend events s) < work_left s.
Proof.
  intros He Hn. assert (∃ i t, task_of i s = Some t ∧ 0 < weight t ∧ (holds t = true ∨ ct_locked s = false)) as (i & t & Hi & Ht & Hfree).
  { rewrite (ex_locked _ _ He). destruct h as [i|].
    - destruct (ex_holder _ _ He i eq_refl) as [t Hi]. exists i, t. pose proof (ex_holds _ _ He _ _ Hi) as Hh.
      rewrite bool_decide_true in Hh by done. split_and!; [done|destruct t; simpl in Hh |- *; done || lia|by left].
    - destruct (work_found s Hn) as (i & t & Hi & Ht). exists i, t. split_and!; [done..|]. by right. }
  pose proof Hi as Hgr. unfold task_of in Hgr. apply fmap_Some in Hgr as (g & Hg & ->).
  destruct (gr_task g) as [c|c|f|f| | |r] eqn:Hgt; simpl in Ht, Hfree; try lia.
  1, 5: destruct Hfree as [|Hl]; [done|]; exists [Turn i]; split; [done|]; simpl; unfold take_turn; rewrite Hg; simpl; rewrite Hgt, Hl;
        (eapply (work_set i _ _ (lock s)); [exact Hi|simpl; lia]).
  - exists [Turn i]. split; [done|]. simpl. unfold take_turn. rewrite Hg. simpl. rewrite Hgt.
    destruct (ct_raft s); [eapply (work_set i _ _ (start_change c s))|eapply (work_set i _ _ (unlock s))]; try exact Hi; simpl; lia.
  - exists [Answered f (Ok tt); Turn i]. split; [done|]. simpl. unfold take_turn. simpl. rewrite Hg. simpl. rewrite Hgt.
    destruct (answered_now f (Ok tt) s) as [r Hr]; [apply (ex_asked _ _ He i (AwaitChange f)); [done|by left]|]. rewrite Hr. simpl.
    eapply (work_set i _ _ (unlock (complete_change f (Ok tt) s))); [exact Hi|simpl; lia].
  - exists [Answered f (Ok tt); Turn i]. split; [done|]. simpl. unfold take_turn. simpl. rewrite Hg. simpl. rewrite Hgt.
    destruct (answered_now f (Ok tt) s) as [r Hr]; [apply (ex_asked _ _ He i (ReleaseAfter f)); [done|by right]|]. rewrite Hr. simpl.
    eapply (work_set i _ _ (unlock (complete_change f (Ok tt) s))); [exact Hi|simpl; lia].
  - exists [Published i (Ok tt)]. split; [done|]. simpl. unfold end_publication. rewrite Hg. simpl. rewrite Hgt.
    eapply (work_set i _ _ (unlock s)); [exact Hi|simpl; lia].
Qed.

(** C20: Nobody is stuck for good: from whatever the callers, their contexts and
    Raft have led to, all goroutines can return without another caller or the end
    of a context, by Raft answering the change in flight and the running
    publication ending, and then the mutex is free. *)
Theorem everyone_returns (raft : bool) (schedule : list event) :
  ∃ later, forallb by_itself later = true
  ∧ let s := contend (schedule ++ later) (idle_node raft) in all_ended s = true ∧ ct_locked s = false.
Proof.
  destruct (exclusive_contend schedule None _ (exclusive_idle raft)) as [h He].
  set (s := contend schedule (idle_node raft)) in *.
  assert (∃ later, forallb by_itself later = true ∧ all_ended (contend later s) = true) as (later & Hby & Hend).
  { clearbody s. revert s h He. refine (well_founded_ind (well_founded_ltof _ work_left) _ _). intros s IH h He.
    destruct (all_ended s) eqn:Hs; [by exists []|]. destruct (can_progress _ _ He Hs) as (events & Hb & Hw).
    destruct (exclusive_contend events _ _ He) as [h' He']. destruct (IH _ Hw _ He') as (later & Hbl & Hl).
    exists (events ++ later). by rewrite forallb_app, Hb, Hbl, contend_app. }
  exists later. split; [done|]. rewrite contend_app. fold s. split; [done|].
  destruct (exclusive_contend later _ _ He) as [h' He']. rewrite (ex_locked _ _ He'). apply bool_decide_eq_false.
  intros [i ->]. destruct (ex_holder _ _ He' i eq_refl) as [t Hi]. pose proof (ex_holds _ _ He' _ _ Hi) as Hh.
  rewrite bool_decide_true in Hh by done. pose proof (work_at _ _ _ Hi) as Hle.
  unfold all_ended in Hend. apply Nat.eqb_eq in Hend. by destruct t; simpl in Hh, Hle; try lia.
Qed.
